(* ===== verification/_CoqProject ===== *)
-Q . S2P
Prelude.v
Base.v
Messages.v
Codec.v
DatagramCodec.v
Replay.v
Reassembly.v
Fragment.v
Crypto.v
Chkem.v
Ticket.v
Session.v
DgramSession.v
Handshake.v
Hellos.v
Agreement.v
Retry.v
Order.v
Sha256.v
Admission.v
DgramFSM.v
DgramNet.v
Registry.v
Endpoint.v
Transport.v
Link.v
Tunnel.v
Connect.v
Listener.v
Pool.v
PoolInv.v
PoolBound.v
PoolWait.v
Conn.v
EndpointInv.v
EndpointData.v
Batch.v
Encoding.v
Histogram.v
Logger.v
Metrics.v
Exposition.v
Health.v
Buffers.v
Standards.v
SelfTest.v
Conformance.v
Command.v
