(* ===== verification/Prelude.v ===== *)
(** Quantum-Go: a verification development.

    Quantum-Go ([src/]) is a tunnel: two peers run a hybrid post-quantum handshake and then
    exchange encrypted records, over a stream (TCP) or over datagrams (UDP).  This library models
    the program in Rocq, one file per component, and proves what each component promises and how
    they work together.  The definitions are executable and keep the names of the Go code.

    * The program, and where it is modelled

    - [Prelude] (this file): Go's integers at their width, slices whose out-of-range accesses are
      [Panic], the outcome type [Ok | Err | Panic] with its monad, the state monad [ST] of a method
      on a struct, record update, big-endian integers, and the tactics of the proofs.
    - [Base]: [internal/constants], [internal/errors], the cipher suites of [pkg/protocol].
    - [Messages], [Codec]: [pkg/protocol/messages.go], [version.go] and [codec.go], every encoder,
      decoder and stream reader.  [DatagramCodec]: [datagram_codec.go], [datagram_inplace.go].
    - [Crypto]: [pkg/crypto/kdf.go], [aead.go], [aead_inplace.go].  [Chkem]: [pkg/chkem] with the
      wrappers [x25519.go], [mlkem.go], [xwing.go], [random.go] of [pkg/crypto].
    - [Ticket], [Session], [DgramSession]: [pkg/tunnel/ticket.go], [session.go],
      [dgram_session.go], [dgram_session_inplace.go] and the messages of [dgram_rekey.go].  A
      session is one record with the fields of the Go struct.
    - [Replay], [Reassembly], [Fragment]: [replay.go], [reassembly.go], [dgram_handshake.go].
    - [Handshake], with [Hellos], [Agreement], [Retry] and [Order] about it: [handshake.go], every
      message of both roles, the static-key, pre-shared-key and resumption legs, the retry request
      and the four stream drivers over a connection that may fail.
    - [DgramFSM], [DgramNet]: [dgram_handshake_fsm.go] and [dgram_handshake_driver.go], the flight
      machine with its retransmission timers, and two of them joined by a lossy network.
    - [Sha256], [Admission]: [crypto/sha256] and [crypto/hmac] written out, and on them
      [dgram_cookie.go]; [limiter.go] and the places of [transport.go] that consult it.
    - [Registry], [Endpoint], [Conn]: [datagram.go], [dgram_handshake_wire.go], [dgram_conn.go] and
      the rest of [dgram_rekey.go].  Sessions live in a store and are shared by reference; each turn
      of a goroutine (the receive loop, a handshake loop, the reaper, the application) is a step on
      the endpoint, and the steps interleave in any order.
    - [EndpointInv], [EndpointData]: the theorems on the endpoint.
    - [Batch]: [dgram_batch*.go], [dgram_reuseport*.go], [coarsetime.go], and [ListenDatagram],
      [Serve] and [Close] of [datagram.go]; a system call is its result.
    - [Transport], [Link], [Tunnel], [Connect]: [transport.go] on one connection, two transports
      joined by byte streams, and a whole connection from the first hello to the last record.
      [Listener]: the listener of [transport.go], each goroutine a sequence of steps.
    - [Pool], with [PoolInv], [PoolBound] and [PoolWait] about it: [pool*.go].  Callers, waiters,
      handles, the starter and the health checker act in steps between two accesses to the pool.
    - [Histogram], [Logger], [Metrics], [Exposition], [Health]: [pkg/metrics], on the encodings
      and strings of [Encoding]; doubles are those of [SpecFloat].
    - [Buffers]: [pkg/protocol/buffer_pool.go] and [pkg/crypto/buffer_pool.go], over a store of
      arrays that slices share.
    - [SelfTest]: [pkg/crypto/post.go] and [cst.go].  [Standards]: SHAKE-256, SHA3-256, AES-256-GCM
      and ChaCha20-Poly1305 written out.  [Conformance]: the vectors of [testdata/conformance] and
      of [post.go], computed by the definitions of this library.
    - [Command]: the dispatch, [keygen] and the observability setup of [cmd/quantum-tunnel], and
      [pkg/version].

    * What the theorems show

    - Agreement and authentication ([Agreement], [Retry], [Order]): matching peers end the
      handshake with one secret and matching keys, also through a retry and through the drivers;
      a Finished that verifies fixes the transcript; no order of calls establishes a session
      without one.
    - The datagram handshake ([DgramFSM], [DgramNet]): the driver always comes to an end, backs off
      as documented and stays only so long after completion; whatever the network loses, repeats
      or reorders, both ends agree when they are done, and from every state they can reach, finitely
      many deliveries complete the handshake.
    - Records ([Session], [DgramSession], [Replay]): nonces are never reused under any interleaving,
      records and frames are delivered once, rekeying keeps the peers in step, and the sliding
      bitmap accepts exactly what the set of numbers seen so far allows.
    - The endpoint ([EndpointInv], [EndpointData], [Conn], [Admission]): the memory strangers can
      occupy is bounded, half-open slots belong to running handshakes, a frame the peer did not seal
      has no effect, a sent payload is delivered once, the cookie gate keeps no state and never
      amplifies, a batch equals its sends, and the limiter counts the live connections.  [Serve]
      on any number of sockets refines these histories, coalesced reads are split at the datagrams'
      boundaries, and no socket is leaked ([Batch]).
    - The stream tunnel ([Connect], [Transport], [Listener]): two peers that connect exchange what
      they send, in order, through rekeys in both directions; receiving ends; the listener's
      limits are given back.  The pool ([PoolInv], [PoolBound]): a connection has one user at a
      time and their number is bounded.
    - Wire formats and fragments ([Codec], [DatagramCodec], [Fragment], [Reassembly]): round trips,
      exactly when a decoder panics, and the bounds and invariant of the reassembler.
    - Key material ([Crypto], [Chkem], [Ticket]): unambiguous derivation inputs, both KEM suites
      agree and bind their transcript, tickets.
    - Observability ([Histogram], [Metrics], [Exposition], [Health]): counters count what happened,
      summaries tell the distribution, labels can be read back, the verdict follows the checks.
    - Buffers, self tests and keys ([Buffers], [SelfTest], [Command]): a pooled buffer carries
      nobody else's bytes and sealing into one is sealing; FIPS mode accepts exactly the random
      sequences its tests describe; an identity survives its files and no file is overwritten
      unasked.
    - Fidelity ([Standards], [Conformance]): the published algorithms satisfy [PrimitivesLaws], and on
      them the key schedule, the KEM combiner, the encodings and the records of this library are
      byte for byte the published vectors of the program, and its power-on tests pass.
    - Some theorems state defects of the code: inputs on which a decoder panics, the nonce every
      ticket shares, a retried datagram rekey that leaves the peers with different keys, a
      responder that a bad hello keeps spinning, a hand-off that a pool loses, a service whose every
      operation fails and that reports itself healthy.

    * Parameters and assumptions

    SHAKE-256, SHA3-256 and the two AEADs are the class [Primitives]; X25519, ML-KEM-1024 and X-Wing
    the class [KEMPrimitives].  [PrimitivesLaws] and [KEMLaws] state what the code relies on:
    lengths, decryption of what was encrypted, that only an encryption opens, and that both ends of
    a KEM agree.  [Standards] proves the first for the real algorithms; the instances [toy] and
    [toyKEM] satisfy both, and the witnesses compute with them.  Where security rests on a hash, the
    conclusion is that the two inputs hashed agree or collide.  [KEMBytes] says that KEM keys are
    bytes.  Random draws, clock readings, the order in which Go ranges over a map, the choice of a
    [select] or a [sync.Pool], the results of system calls and of the file system ([OSEnv]), the
    process a health check looks at, and the renderings of [%g], [%v] and [json.Marshal] are
    arguments.

    * Fuel and bounds

    The fragmentation loop gets one unit of fuel per byte, index allocation its 100 attempts, the
    batch loop one unit per frame; theorems show that each suffices.  [deliverHandshake] dispatches
    again only if the owner of a source finished in between, which no step allows, so its fuel of
    two is never used up.  [Receive] gets one unit per byte on the connection and one, the scan
    for an idle pooled connection one per connection, the bucket search one per bound, the split of
    a coalesced read and the text parsers one per byte; each is shown to suffice.  Integers wrap at their width where the code does arithmetic on them.

    * Not modelled

    System calls and socket options themselves (the control message of a segmented send, [UDP_GRO],
    [SO_REUSEPORT]), X25519, ML-KEM and X-Wing, which are library code, the OpenTelemetry bridge,
    serving over [net/http], the flag parser, and the demo, benchmark and example commands, which
    print.  Deadlines and addresses of connections, and the calls of observers from the code they
    observe, are left out of the components that make them: they do not influence the protocol.
    Zeroisation is modelled only where a later read could see it. *)

From Corelib Require Import ssreflect.
From stdpp Require Import base tactics list numbers strings.
From Stdlib Require Import ZArith Lia Permutation.

Local Open Scope Z_scope.

(** * Go integers *)

(** [len] is Go's [len(x)]; the [int] of a 64-bit Go platform is a [Z] whose range the
    models state where it matters. *)
Definition len {A} (l : list A) : Z := Z.of_nat (length l).

(** The conversions [uint8(z)] .. [uint64(z)]: wrap-around at the width. *)
Definition u8 (z : Z) : Z := z mod 2 ^ 8.
Definition u16 (z : Z) : Z := z mod 2 ^ 16.
Definition u32 (z : Z) : Z := z mod 2 ^ 32.
Definition u64 (z : Z) : Z := z mod 2 ^ 64.

(** Unsigned 64-bit subtraction and addition, wrapping. *)
Definition u64_sub (a b : Z) : Z := u64 (a - b).
Definition u64_add (a b : Z) : Z := u64 (a + b).
(** A signed 64-bit integer. *)
Definition i64 (z : Z) : Z := (z + 2 ^ 63) mod 2 ^ 64 - 2 ^ 63.

Definition is_u8 (z : Z) : Prop := 0 <= z < 2 ^ 8.
Definition is_u16 (z : Z) : Prop := 0 <= z < 2 ^ 16.
Definition is_u32 (z : Z) : Prop := 0 <= z < 2 ^ 32.
Definition is_u64 (z : Z) : Prop := 0 <= z < 2 ^ 64.

Lemma u8_small z : 0 <= z < 2 ^ 8 -> u8 z = z.
Proof. apply Z.mod_small. Qed.
Lemma u16_small z : 0 <= z < 2 ^ 16 -> u16 z = z.
Proof. apply Z.mod_small. Qed.
Lemma u32_small z : 0 <= z < 2 ^ 32 -> u32 z = z.
Proof. apply Z.mod_small. Qed.
Lemma i64_small z : - 2 ^ 63 <= z < 2 ^ 63 -> i64 z = z.
Proof. intros. unfold i64. rw Z.mod_small; lia. Qed.

Lemma u64_small z : 0 <= z < 2 ^ 64 -> u64 z = z.
Proof. apply Z.mod_small. Qed.

(** A Go [[]byte] is a list of [Z]; [is_bytes] says every element is a byte. *)
Definition is_bytes (l : list Z) : Prop := Forall is_u8 l.

(** [is_bytes], executably. *)
Definition is_bytesb (l : list Z) : bool := forallb (fun z => (0 <=? z) && (z <? 256)) l.

Lemma is_bytesb_ok l : is_bytesb l = true -> is_bytes l.
Proof.
  unfold is_bytesb. rw forallb_forall. intros H. apply List.Forall_forall. intros x Hx.
  unfold is_u8. specialize (H x Hx). lia.
Qed.

(** * Results of fallible Go code *)

(** A Go function with an [error] result returns [Ok] or [Err]; [Panic] is a run-time
    panic (an index or slice expression out of range). *)
Inductive outcome (E A : Type) : Type :=
  | Ok (a : A)
  | Err (e : E)
  | Panic.
Arguments Ok {E A} a.
Arguments Err {E A} e.
Arguments Panic {E A}.

Definition obind {E A B} (m : outcome E A) (f : A -> outcome E B) : outcome E B :=
  match m with
  | Ok a => f a
  | Err e => Err e
  | Panic => Panic
  end.

Declare Scope go_scope.
Delimit Scope go_scope with go.

Notation "'let!' x := m 'in' k" := (obind m (fun x => k))
  (at level 10, x name, m at level 100, k at level 200) : go_scope.
Notation "'let!' ' p := m 'in' k" := (obind m (fun x => match x with p => k end))
  (at level 10, p pattern, m at level 100, k at level 200) : go_scope.
(** An early return: [if cond { return err }]. *)
Notation "'guard!' b 'else' e 'in' k" := (if b then k else Err e)
  (at level 10, b at level 100, e at level 100, k at level 200) : go_scope.

Local Open Scope go_scope.

Lemma Ok_inj {E A} (a b : A) : @Ok E A a = Ok b -> a = b.
Proof. by intros [=]. Qed.

Lemma obind_Ok {E A B} (m : outcome E A) (f : A -> outcome E B) b :
  obind m f = Ok b <-> exists a, m = Ok a /\ f a = Ok b.
Proof. destruct m; simpl; split; try (intros (? & [=] & ?); congruence); by eauto. Qed.

Lemma obind_Panic {E A B} (m : outcome E A) (f : A -> outcome E B) :
  obind m f = Panic <-> m = Panic \/ exists a, m = Ok a /\ f a = Panic.
Proof.
  destruct m; simpl; split; try (intros [[=]|(? & [=] & ?)]; congruence); by eauto.
Qed.

(** [okinv H] inverts a successful run [H : m = Ok a] of straight-line code, one early return
    or one call at a time. *)
Ltac destruct_pair x :=
  first [is_var x; destruct x | let Hp := fresh "Hpair" in destruct x eqn:Hp].
Ltac okinv_step H :=
  cbv beta zeta in H;
  lazymatch type of H with
  | obind _ _ = Ok _ => let x := fresh "x" in let Hx := fresh "Hx" in
                        apply obind_Ok in H as (x & Hx & H)
  | (if ?b then _ else _) = Ok _ => let Hb := fresh "Hb" in destruct b eqn:Hb; try discriminate H
  | (match ?x with pair _ _ => _ end) = Ok _ => destruct_pair x
  | (match ?x with Some _ => _ | None => _ end) = Ok _ =>
      let Hb := fresh "Ho" in destruct x eqn:Hb; try discriminate H
  end.
Ltac okinv H := repeat (okinv_step H).

(** [lift] embeds an optional result of code outside the program. *)
Definition of_option {E A} (e : E) (o : option A) : outcome E A :=
  match o with
  | Some a => Ok a
  | None => Err e
  end.

(** * Record update *)

(** [s <| f := v |>] is the assignment [s.f = v] on a record.  A record declares its eta
    expansion as an instance of [Eta]; the setter of a field is found by abstracting the field
    in it. *)
Class Eta (R : Type) := { eta : R -> R }.
Class Upd {R A : Type} (f : R -> A) := { upd : (A -> A) -> R -> R }.
#[global] Arguments upd {R A} f {_} _ _ /.

Ltac derive_upd :=
  lazymatch goal with
  | |- @Upd ?R ?A ?f =>
      let e := eval hnf in (@eta R _) in
      let h := lazymatch (eval pattern f in e) with ?h _ => h end in
      lazymatch h with
      | fun _ => ?b => fail "no such field:" f
      | _ => exact {| upd := fun u : A -> A => h (fun r => u (f r)) |}
      end
  end.
#[export] Hint Extern 0 (Upd _) => derive_upd : typeclass_instances.

Notation "s <| f := v |>" := (upd f (fun _ => v) s)
  (at level 1, left associativity, f at level 9, v at level 200) : go_scope.

(** * Stateful Go code *)

(** A method with a pointer receiver: the state is threaded, and what it changed before an
    error or a panic stays changed, as in Go. *)
Definition ST (S E A : Type) : Type := S -> S * outcome E A.

Definition st_ret {S E A} (a : A) : ST S E A := fun s => (s, Ok a).
Definition st_err {S E A} (e : E) : ST S E A := fun s => (s, Err e).
Definition st_lift {S E A} (o : outcome E A) : ST S E A := fun s => (s, o).
Definition st_get {S E} : ST S E S := fun s => (s, Ok s).
Definition st_mod {S E} (f : S -> S) : ST S E unit := fun s => (f s, Ok tt).
Definition st_bind {S E A B} (m : ST S E A) (f : A -> ST S E B) : ST S E B :=
  fun s => match m s with
           | (s', Ok a) => f a s'
           | (s', Err e) => (s', Err e)
           | (s', Panic) => (s', Panic)
           end.

Notation "'do!' x := m 'in' k" := (st_bind m (fun x => k))
  (at level 10, x name, m at level 100, k at level 200) : go_scope.
Notation "'do!' ' p := m 'in' k" := (st_bind m (fun x => match x with p => k end))
  (at level 10, p pattern, m at level 100, k at level 200) : go_scope.
(** [check! b else e in k]: [if !b { return e }; k] in a method. *)
Notation "'check!' b 'else' e 'in' k" := (if b then k else st_err e)
  (at level 10, b at level 100, e at level 100, k at level 200) : go_scope.

Section ST_lemmas.
Context {S E : Type}.

Lemma st_bind_inv {A B} (m : ST S E A) (f : A -> ST S E B) s s' b :
  st_bind m f s = (s', Ok b) -> exists s1 a, m s = (s1, Ok a) /\ f a s1 = (s', Ok b).
Proof. unfold st_bind. destruct (m s) as [s1 [a|e|]]; [by eauto|done..]. Qed.

Lemma st_bind_get {B} (f : S -> ST S E B) s : st_bind st_get f s = f s s.
Proof. done. Qed.

Lemma st_bind_mod {B} g (f : unit -> ST S E B) s : st_bind (st_mod g) f s = f tt (g s).
Proof. done. Qed.

Lemma st_bind_ok {A B} (m : ST S E A) (f : A -> ST S E B) s s' a :
  m s = (s', Ok a) -> st_bind m f s = f a s'.
Proof. unfold st_bind. by intros ->. Qed.

Lemma st_bind_lift {A B} (a : A) (f : A -> ST S E B) o s :
  o = Ok a -> st_bind (st_lift o) f s = f a s.
Proof. by intros ->. Qed.

Lemma st_lift_inv {A} (o : outcome E A) (s s' : S) a :
  st_lift o s = (s', Ok a) -> s' = s /\ o = Ok a.
Proof. by intros [= <- ->]. Qed.

Lemma run_pair {A} (r : S * outcome E A) o : r.2 = o -> r = (r.1, o).
Proof. destruct r. cbn. by intros ->. Qed.

(** [keeps R m]: the method relates the state it starts from to the one it leaves, on every
    path, errors included. *)
Definition keeps {A} (R : relation S) (m : ST S E A) : Prop := forall s, R s (m s).1.

Context (R : relation S) `{!PreOrder R}.

Lemma keeps_bind {A B} (m : ST S E A) (f : A -> ST S E B) :
  keeps R m -> (forall a, keeps R (f a)) -> keeps R (st_bind m f).
Proof.
  intros Hm Hf s. specialize (Hm s). unfold st_bind. destruct (m s) as [s1 [a|e|]]; cbn in *; try done.
  etrans; [exact Hm|apply Hf].
Qed.

Lemma keeps_get : keeps R (@st_get S E).
Proof. intros s. done. Qed.
Lemma keeps_ret {A} (a : A) : keeps R (@st_ret S E A a).
Proof. intros s. done. Qed.
Lemma keeps_err {A} e : keeps R (@st_err S E A e).
Proof. intros s. done. Qed.
Lemma keeps_lift {A} o : keeps R (@st_lift S E A o).
Proof. intros s. done. Qed.
Lemma keeps_mod g : (forall s, R s (g s)) -> keeps R (@st_mod S E g).
Proof. intros H s. apply H. Qed.
End ST_lemmas.

(** [keeps] splits a method into the assignments it makes. *)
Ltac keeps_step :=
  cbv beta zeta;
  lazymatch goal with
  | |- keeps _ (st_bind _ _) => apply keeps_bind; [apply _| |intros ?]
  | |- keeps _ st_get => apply keeps_get; apply _
  | |- keeps _ (st_ret _) => apply keeps_ret; apply _
  | |- keeps _ (st_err _) => apply keeps_err; apply _
  | |- keeps _ (st_lift _) => apply keeps_lift; apply _
  | |- keeps _ (st_mod _) => apply keeps_mod; intros ?
  | |- keeps _ (match ?x with _ => _ end) => destruct x
  end.
Ltac keeps_auto := repeat keeps_step.

(** [stinv H] inverts a method that returned [Ok]. *)
Ltac stinv_step H :=
  cbv beta zeta in H;
  lazymatch type of H with
  | st_bind st_get _ _ = _ => rw st_bind_get in H
  | st_bind (st_mod _) _ _ = _ => rw st_bind_mod in H
  | st_bind _ _ _ = (_, Ok _) =>
      let s := fresh "s" in let a := fresh "a" in let Hm := fresh "Hm" in
      apply st_bind_inv in H as (s & a & Hm & H);
      try (apply st_lift_inv in Hm as [-> Hm])
  | (if ?b then _ else _) _ = (_, Ok _) =>
      let Hb := fresh "Hb" in destruct b eqn:Hb; try discriminate H
  | (match ?x with pair _ _ => _ end) _ = (_, Ok _) => destruct_pair x
  | (match ?x with Some _ => _ | None => _ end) _ = (_, Ok _) =>
      let Hb := fresh "Ho" in destruct x eqn:Hb; try discriminate H
  end.
Ltac stinv H := repeat (stinv_step H).

(** * Lengths *)

Lemma len_nonneg {A} (l : list A) : 0 <= len l.
Proof. unfold len; lia. Qed.

Lemma len_nil {A} : len (@nil A) = 0.
Proof. reflexivity. Qed.

Lemma len_cons {A} (x : A) l : len (x :: l) = 1 + len l.
Proof. unfold len; cbn [length]; lia. Qed.

Lemma len_app {A} (l k : list A) : len (l ++ k) = len l + len k.
Proof. unfold len; rw length_app; lia. Qed.

Lemma len_replicate {A} n (x : A) : len (replicate n x) = Z.of_nat n.
Proof. unfold len; by rw length_replicate. Qed.

Lemma len_take {A} n (l : list A) : len (take n l) = Z.min (Z.of_nat n) (len l).
Proof. unfold len; rw length_take; lia. Qed.

Lemma len_drop {A} n (l : list A) : len (drop n l) = Z.max 0 (len l - Z.of_nat n).
Proof. unfold len; rw length_drop; lia. Qed.

Lemma len_map {A B} (f : A -> B) l : len (map f l) = len l.
Proof. unfold len; by rw length_map. Qed.

Create Rewrite HintDb golen.
#[export] Hint Rewrite @len_nil @len_cons @len_app @len_replicate @len_take @len_drop
  @len_map : golen.

(** Size constants that arithmetic needs by value are unfolded through [gosz]. *)
Create HintDb gosz.

(** [zbool] turns boolean comparisons in the hypotheses into propositions. *)
Ltac zbool :=
  repeat match goal with
  | H : (_ && _)%bool = true |- _ => apply andb_true_iff in H as [? ?]
  | H : (_ || _)%bool = false |- _ => apply orb_false_iff in H as [? ?]
  | H : negb _ = true |- _ => apply negb_true_iff in H
  | H : negb _ = false |- _ => apply negb_false_iff in H
  | H : (_ <=? _) = true |- _ => apply Z.leb_le in H
  | H : (_ <=? _) = false |- _ => apply Z.leb_gt in H
  | H : (_ <? _) = true |- _ => apply Z.ltb_lt in H
  | H : (_ <? _) = false |- _ => apply Z.ltb_ge in H
  | H : (_ =? _) = true |- _ => apply Z.eqb_eq in H
  | H : (_ =? _) = false |- _ => apply Z.eqb_neq in H
  end.

(** [blia] decides a boolean comparison by arithmetic. *)
Ltac blia_step :=
  lazymatch goal with
  | |- true = _ => symmetry
  | |- false = _ => symmetry
  | |- (_ && _)%bool = true => apply andb_true_iff; split
  | |- (_ || _)%bool = false => apply orb_false_iff; split
  | |- negb _ = true => apply negb_true_iff
  | |- negb _ = false => apply negb_false_iff
  | |- (_ <=? _) = true => apply Z.leb_le
  | |- (_ <=? _) = false => apply Z.leb_gt
  | |- (_ <? _) = true => apply Z.ltb_lt
  | |- (_ <? _) = false => apply Z.ltb_ge
  | |- (_ =? _) = true => apply Z.eqb_eq
  | |- (_ =? _) = false => apply Z.eqb_neq
  end.
Ltac blia := repeat blia_step; lia.

Ltac learn_len l :=
  lazymatch goal with
  | H : 0 <= len l |- _ => fail
  | _ => pose proof (len_nonneg l)
  end.

(** [golia] is [lia] after pushing lengths through list operations. *)
Ltac golia :=
  autounfold with gosz in *; zbool;
  autorewrite with golen in *;
  repeat match goal with
  | |- context [len ?l] => learn_len l
  | _ : context [len ?l] |- _ => learn_len l
  end;
  first [lia | exfalso; lia].

(** * Byte slices: reading *)

Section reading.
Context {E A : Type}.

(** [d[i]]. *)
Definition idx (d : list A) (i : Z) : outcome E A :=
  if (0 <=? i) then
    match d !! Z.to_nat i with
    | Some x => Ok x
    | None => Panic
    end
  else Panic.

(** [d[a:b]] for a slice whose capacity is its length, as [make([]byte, n)] gives it: a
    bound past the end panics. *)
Definition slice (d : list A) (a b : Z) : outcome E (list A) :=
  if (0 <=? a) && (a <=? b) && (b <=? len d)
  then Ok (take (Z.to_nat (b - a)) (drop (Z.to_nat a) d))
  else Panic.

(** [d[a:]]. *)
Definition slice_from (d : list A) (a : Z) : outcome E (list A) := slice d a (len d).

(** [at_off d off r]: position [off] of [d] is in range and [r] is what is left there. *)
Definition at_off (d : list A) (off : Z) (r : list A) : Prop :=
  0 <= off /\ len d = off + len r /\ drop (Z.to_nat off) d = r.

Lemma at_off_0 d : at_off d 0 d.
Proof. repeat split; try done; lia. Qed.

Lemma at_off_pre p r : at_off (p ++ r) (len p) r.
Proof.
  split; [apply len_nonneg|]. split; [golia|].
  unfold len. by rw Nat2Z.id drop_app_length.
Qed.

Lemma at_off_app d off a r : at_off d off (a ++ r) -> at_off d (off + len a) r.
Proof.
  intros (H0 & Hl & Hd). pose proof (len_nonneg a). split; [lia|]. split; [golia|].
  replace (Z.to_nat (off + len a)) with (length a + Z.to_nat off)%nat by (unfold len; lia).
  by rw Nat.add_comm -drop_drop Hd drop_app_length.
Qed.

Lemma at_off_app_n d off a r n : at_off d off (a ++ r) -> n = len a -> at_off d (off + n) r.
Proof. intros H ->. by eapply at_off_app. Qed.

Lemma at_off_len d off r : at_off d off r -> len d = off + len r.
Proof. by intros (_ & H & _). Qed.

Lemma at_off_nonneg d off r : at_off d off r -> 0 <= off.
Proof. by intros (H & _). Qed.

Lemma at_off_cons d off x r : at_off d off (x :: r) -> at_off d (off + 1) r.
Proof. apply (at_off_app d off [x] r). Qed.

Lemma idx_at d off x r : at_off d off (x :: r) -> idx d off = Ok x.
Proof.
  intros (H0 & _ & Hd). unfold idx. rw (proj2 (Z.leb_le 0 off)) //.
  assert (drop (Z.to_nat off) d !! 0%nat = Some x) as Hx by (by rw Hd).
  rw lookup_drop in Hx. by rw Nat.add_0_r in Hx; rw Hx.
Qed.

Lemma slice_at d off a r n :
  at_off d off (a ++ r) -> n = len a -> slice d off (off + n) = Ok a.
Proof.
  intros (H0 & Hl & Hd) ->. unfold slice.
  pose proof (len_nonneg a). pose proof (len_nonneg r). rw len_app in Hl.
  replace ((0 <=? off) && (off <=? off + len a) && (off + len a <=? len d)) with true by lia.
  rw Hd. f_equal. replace (Z.to_nat (off + len a - off)) with (length a) by (unfold len; lia).
  by rw take_app_length.
Qed.

Lemma slice_from_at d off r : at_off d off r -> slice_from d off = Ok r.
Proof.
  intros H. unfold slice_from. rw (at_off_len _ _ _ H).
  apply (slice_at d off r []); [|done]. by rw app_nil_r.
Qed.

(** The same with the offsets of the code, equal up to arithmetic. *)
Lemma at_off_step d o off a r : at_off d o (a ++ r) -> off = o + len a -> at_off d off r.
Proof. intros H ->. by eapply at_off_app. Qed.

Lemma idx_at_eq d o x r off : at_off d o (x :: r) -> off = o -> idx d off = Ok x.
Proof. intros H ->. by eapply idx_at. Qed.

Lemma slice_at_eq d o a r off e :
  at_off d o (a ++ r) -> off = o -> e = o + len a -> slice d off e = Ok a.
Proof. intros H -> ->. by eapply slice_at. Qed.

Lemma slice_from_at_eq d o r off : at_off d o r -> off = o -> slice_from d off = Ok r.
Proof. intros H ->. by apply slice_from_at. Qed.

Lemma slice_inv d a b r :
  slice d a b = Ok r -> 0 <= a <= b /\ b <= len d /\ r = take (Z.to_nat (b - a)) (drop (Z.to_nat a) d).
Proof. unfold slice. destruct (_ && _) eqn:Hb; intros [= <-]. repeat split; lia. Qed.

Lemma slice_panic d a b : slice d a b = Panic <-> ~ (0 <= a <= b /\ b <= len d).
Proof. unfold slice. destruct (_ && _) eqn:Hb; split; intros; try done; lia. Qed.

Lemma idx_panic d i : idx d i = Panic <-> ~ (0 <= i < len d).
Proof.
  unfold idx. destruct (0 <=? i) eqn:Hi; [|split; [lia|done]].
  destruct (d !! Z.to_nat i) eqn:Hd.
  - apply lookup_lt_Some in Hd. split; [done|]. unfold len. lia.
  - apply lookup_ge_None in Hd. split; [|done]. unfold len. lia.
Qed.

Lemma idx_lookup d i x : 0 <= i -> d !! Z.to_nat i = Some x -> idx d i = Ok x.
Proof. intros Hi Hx. unfold idx. replace (0 <=? i) with true by lia. by rw Hx. Qed.

Lemma idx_in d i : 0 <= i < len d -> exists x, idx d i = Ok x.
Proof.
  intros Hi. destruct (lookup_lt_is_Some_2 d (Z.to_nat i)) as [x Hx]; [unfold len in Hi; lia|].
  exists x. apply idx_lookup; [lia|done].
Qed.

Lemma slice_in d a b : 0 <= a <= b -> b <= len d -> exists s, slice d a b = Ok s.
Proof.
  intros Ha Hb. unfold slice.
  replace ((0 <=? a) && (a <=? b) && (b <=? len d)) with true by lia. eauto.
Qed.

Lemma idx_not_err d i e : idx d i <> Err e.
Proof. unfold idx. destruct (0 <=? i), (d !! Z.to_nat i); done. Qed.

Lemma slice_not_err d a b e : slice d a b <> Err e.
Proof. unfold slice. by destruct (_ && _). Qed.
End reading.

(** * Big-endian integers *)

(** The [n] bytes [binary.BigEndian.PutUintXX] writes. *)
Fixpoint be_put (n : nat) (z : Z) : list Z :=
  match n with
  | O => []
  | S k => (z / 256 ^ Z.of_nat k) mod 256 :: be_put k z
  end.

(** The value [binary.BigEndian.UintXX] reads. *)
Definition be_val (l : list Z) : Z := foldl (fun a b => a * 256 + b) 0 l.

(** [binary.BigEndian.UintXX(d[off:])], [n] bytes wide. *)
Definition get_be {E} (n : nat) (d : list Z) (off : Z) : outcome E Z :=
  let! s := slice_from d off in
  if Z.of_nat n <=? len s then Ok (be_val (take n s)) else Panic.

Lemma length_be_put n z : length (be_put n z) = n.
Proof. induction n; cbn; lia. Qed.

Lemma be_put_S n z : be_put (S n) z = be_put n (z / 256) ++ [z mod 256].
Proof.
  induction n as [|n IH]; [cbn; by rw Z.div_1_r|].
  change (be_put (S (S n)) z) with ((z / 256 ^ Z.of_nat (S n)) mod 256 :: be_put (S n) z).
  rw IH. cbn [be_put app]. rw Nat2Z.inj_succ Z.pow_succ_r; [lia|].
  by rw Z.div_div; [lia|apply Z.pow_pos_nonneg; lia|].
Qed.

Lemma len_be_put n z : len (be_put n z) = Z.of_nat n.
Proof. unfold len. by rw length_be_put. Qed.
#[export] Hint Rewrite len_be_put : golen.

Lemma be_val_app l k : be_val (l ++ k) = foldl (fun a b => a * 256 + b) (be_val l) k.
Proof. unfold be_val. by rw foldl_app. Qed.

Lemma be_val_put n z : be_val (be_put n z) = z mod 256 ^ Z.of_nat n.
Proof.
  revert z; induction n as [|n IH]; intros z.
  - by rw Z.mod_1_r.
  - rw be_put_S be_val_app IH. cbn [foldl].
    rw Nat2Z.inj_succ Z.pow_succ_r; [lia|].
    rw (Z.rem_mul_r z 256 (256 ^ Z.of_nat n)); [lia|apply Z.pow_pos_nonneg; lia|lia].
Qed.

Lemma be_put_bytes n z : is_bytes (be_put n z).
Proof.
  induction n as [|n IH]; cbn; constructor; [|apply IH].
  unfold is_u8. pose proof (Z.mod_pos_bound (z / 256 ^ Z.of_nat n) 256). lia.
Qed.

Lemma be_put_snoc n v b : is_u8 b -> be_put (S n) (v * 256 + b) = be_put n v ++ [b].
Proof.
  intros Hb. unfold is_u8 in Hb. rw be_put_S.
  rw Z.div_add_l; [lia|]. rw (Z.div_small b); [lia|].
  rw (Z.add_comm (v * 256) b) Z.mod_add; [lia|]. rw (Z.mod_small b); [lia|]. by rw Z.add_0_r.
Qed.

Lemma be_put_val l : is_bytes l -> be_put (length l) (be_val l) = l.
Proof.
  induction l as [|b l IH] using rev_ind; intros Hl; [done|].
  apply Forall_app in Hl as [Hl Hb]. rw Forall_singleton in Hb.
  rw length_app be_val_app Nat.add_comm. cbn [foldl length Nat.add].
  rw be_put_snoc //. by rw IH.
Qed.

Lemma be_val_bound l : is_bytes l -> 0 <= be_val l < 256 ^ len l.
Proof.
  induction l as [|b l IH] using rev_ind; intros Hl; [change (0 <= 0 < 1); lia|].
  apply Forall_app in Hl as [Hl Hb]. rw Forall_singleton in Hb. unfold is_u8 in Hb.
  specialize (IH Hl). rw be_val_app len_app. cbn [foldl].
  change (len [b]) with 1. rw Z.pow_add_r; [golia|lia|]. lia.
Qed.

Lemma be_val_inj l k : is_bytes l -> is_bytes k -> length l = length k ->
  be_val l = be_val k -> l = k.
Proof.
  intros Hl Hk Hlen Hv. rw -(be_put_val l Hl) -(be_put_val k Hk). by rw Hlen Hv.
Qed.

Lemma be_put_inj n a b : 0 <= a < 256 ^ Z.of_nat n -> 0 <= b < 256 ^ Z.of_nat n ->
  be_put n a = be_put n b -> a = b.
Proof.
  intros Ha Hb H. apply (f_equal be_val) in H. rw !be_val_put in H.
  rw !Z.mod_small in H; lia.
Qed.

Lemma be_put_1 z : 0 <= z < 256 -> be_put 1 z = [z].
Proof. intros. cbn. by rw Z.div_1_r Z.mod_small. Qed.

#[global] Opaque be_put.

Lemma get_be_at {E} n d off z r :
  at_off d off (be_put n z ++ r) -> @get_be E n d off = Ok (z mod 256 ^ Z.of_nat n).
Proof.
  intros H. unfold get_be. rw (slice_from_at _ _ _ H). cbn [obind].
  rw (proj2 (Z.leb_le _ _)); [golia|].
  rw -{1}(length_be_put n z) take_app_length. by rw be_val_put.
Qed.

Lemma get_be_at' {E} n d off z r :
  at_off d off (be_put n z ++ r) -> 0 <= z < 256 ^ Z.of_nat n -> @get_be E n d off = Ok z.
Proof. intros H Hz. rw (get_be_at n d off z r H). by rw Z.mod_small. Qed.

Lemma get_be_at_eq {E} n d o z r off :
  at_off d o (be_put n z ++ r) -> off = o -> 0 <= z < 256 ^ Z.of_nat n ->
  @get_be E n d off = Ok z.
Proof. intros H -> Hz. by eapply get_be_at'. Qed.

Lemma get_be_self {E} n z : 0 <= z < 256 ^ Z.of_nat n -> @get_be E n (be_put n z) 0 = Ok z.
Proof.
  intros Hz. pose proof (at_off_0 (be_put n z)) as H. rw -{2}(app_nil_r (be_put n z)) in H.
  by eapply get_be_at_eq.
Qed.

Lemma get_be_panic {E} n d off :
  @get_be E n d off = Panic <-> ~ (0 <= off /\ off + Z.of_nat n <= len d).
Proof.
  unfold get_be. destruct (slice_from d off) eqn:Hs.
  - apply slice_inv in Hs as (? & ? & ->). cbn [obind].
    destruct (_ <=? _) eqn:Hn; split; intros; try done; golia.
  - by apply slice_not_err in Hs.
  - split; [|done]. intros _. apply slice_panic in Hs. lia.
Qed.

Lemma get_be_not_err {E} n d off (e : E) : get_be n d off <> Err e.
Proof.
  unfold get_be. destruct (slice_from d off) eqn:Hs; [|by apply slice_not_err in Hs|done].
  cbn [obind]. by destruct (_ <=? _).
Qed.

Lemma get_be_bound {E} n d off z : is_bytes d -> @get_be E n d off = Ok z -> 0 <= z < 256 ^ Z.of_nat n.
Proof.
  intros Hd. unfold get_be. destruct (slice_from d off) as [s| |] eqn:Hs; cbn [obind]; try done.
  apply slice_inv in Hs as (? & ? & ->). destruct (_ <=? _) eqn:Hn; intros [= <-].
  set (s := take _ _) in *.
  assert (is_bytes s) as Hb by (apply Forall_take, Forall_drop, Hd).
  assert (len (take n s) = Z.of_nat n) as <- by golia.
  apply be_val_bound. by apply Forall_take.
Qed.

(** * Byte slices: writing *)

(** A freshly made buffer with the running [offset] of an encoder. *)
Record cursor := Cursor { c_buf : list Z; c_off : Z }.

(** [buf := make([]byte, n)], [offset := 0]. *)
Definition c_make (n : Z) : cursor := Cursor (replicate (Z.to_nat n) 0) 0.

(** Store the bytes [bs] at [offset] and advance past them: [buf[offset] = b; offset++], or
    [PutUintXX(buf[offset:], v); offset += n].  It panics when they do not fit. *)
Definition c_put {E} (bs : list Z) (c : cursor) : outcome E cursor :=
  if (0 <=? c_off c) && (c_off c + len bs <=? len (c_buf c))
  then Ok (Cursor (take (Z.to_nat (c_off c)) (c_buf c) ++ bs
                     ++ drop (Z.to_nat (c_off c + len bs)) (c_buf c))
                  (c_off c + len bs))
  else Panic.

(** [copy(buf[offset:], src); offset += n]: [copy] stops at the end of the buffer. *)
Definition c_copy {E} (src : list Z) (n : Z) (c : cursor) : outcome E cursor :=
  if (0 <=? c_off c) && (c_off c <=? len (c_buf c))
  then let room := len (c_buf c) - c_off c in
       let s := take (Z.to_nat room) src in
       Ok (Cursor (take (Z.to_nat (c_off c)) (c_buf c) ++ s
                     ++ drop (Z.to_nat (c_off c + len s)) (c_buf c))
                  (c_off c + n))
  else Panic.

(** The state of an encoder that has written [pre] and has [k] zero bytes left. *)
Definition filled (pre : list Z) (k : Z) : cursor :=
  Cursor (pre ++ replicate (Z.to_nat k) 0) (len pre).

Lemma c_make_filled n : c_make n = filled [] n.
Proof. done. Qed.

Lemma filled_done pre k : k <= 0 -> c_buf (filled pre k) = pre.
Proof. intros. cbn. replace (Z.to_nat k) with 0%nat by lia. apply app_nil_r. Qed.

Lemma filled_over pre bs k : len bs <= k ->
  take (Z.to_nat (len pre)) (pre ++ replicate (Z.to_nat k) 0) ++ bs
    ++ drop (Z.to_nat (len pre + len bs)) (pre ++ replicate (Z.to_nat k) 0)
  = (pre ++ bs) ++ replicate (Z.to_nat (k - len bs)) 0.
Proof.
  intros H. rw -app_assoc. unfold len in *. rw Nat2Z.id take_app_length. do 2 f_equal.
  rw drop_app_ge; [lia|]. rw drop_replicate. f_equal. lia.
Qed.

Lemma c_put_filled {E} bs pre k : len bs <= k ->
  @c_put E bs (filled pre k) = Ok (filled (pre ++ bs) (k - len bs)).
Proof.
  intros H. pose proof (len_nonneg bs). pose proof (len_nonneg pre).
  unfold c_put. cbn [filled c_buf c_off].
  replace (_ && _) with true; [|symmetry; apply andb_true_iff; split; apply Z.leb_le; golia].
  rw filled_over //. by rw -len_app.
Qed.

Lemma c_put_overflow {E} bs pre k : 0 <= k < len bs -> @c_put E bs (filled pre k) = Panic.
Proof.
  intros H. unfold c_put. cbn [filled c_buf c_off].
  replace (_ && _) with false; [done|]. symmetry; apply andb_false_iff; right.
  apply Z.leb_gt. golia.
Qed.

Lemma c_copy_filled {E} src n pre k : len src <= k -> n = len src ->
  @c_copy E src n (filled pre k) = Ok (filled (pre ++ src) (k - n)).
Proof.
  intros H ->. pose proof (len_nonneg src). pose proof (len_nonneg pre).
  unfold c_copy. cbn [filled c_buf c_off].
  replace (_ && _) with true; [|symmetry; apply andb_true_iff; split; apply Z.leb_le; golia].
  rw (take_ge src); [|by rw filled_over // -len_app].
  autorewrite with golen. unfold len in *. lia.
Qed.

Lemma obind_Ok_l {E A B} (a : A) (f : A -> outcome E B) : obind (Ok a) f = f a.
Proof. done. Qed.

(** [cursor_step] runs the next write of an encoder on a [filled] buffer. *)
Ltac cursor_step :=
  first
  [ rw c_put_filled; [golia|]
  | rw c_copy_filled; [golia|golia|] ];
  rw obind_Ok_l.

(** [rd H] performs the next read of a decoder, which [H : at_off d o _] determines. *)
Ltac rd H :=
  first
  [ rw (idx_at_eq _ _ _ _ _ H); [golia|]
  | rw (get_be_at_eq _ _ _ _ _ _ H); [golia|golia|]
  | rw (slice_at_eq _ _ _ _ _ _ H); [golia|golia|] ];
  rw ?obind_Ok_l.

(** [gd] passes the next guard of a decoder, by arithmetic. *)
Ltac gd :=
  lazymatch goal with
  | |- context [if ?b then _ else _] =>
      first [ replace b with true by (symmetry; apply negb_true_iff, Z.ltb_ge; golia)
            | replace b with true by (symmetry; apply Z.eqb_eq; golia)
            | replace b with true by (symmetry; apply negb_true_iff, Z.eqb_neq; golia)
            | replace b with true by
                (symmetry; apply negb_true_iff, orb_false_iff;
                 split; first [apply Z.eqb_neq | apply Z.ltb_ge]; golia) ];
      cbv beta iota
  end.

(** [decode_at X H Hl] names the decoder's input [X] and starts reading it at offset 0. *)
Ltac decode_at X H Hl :=
  let d := fresh "d" in let Hd := fresh "Hd" in
  remember X as d eqn:Hd in |- *;
  assert (H : at_off d 0 X) by (rw Hd; apply at_off_0);
  assert (Hl : len d = len X) by (by rw Hd);
  clear Hd.

(** * Absence of panics *)

(** [nopanic m P]: [m] does not panic, and a successful result satisfies [P]. *)
Definition nopanic {E A} (m : outcome E A) (P : A -> Prop) : Prop :=
  match m with
  | Ok a => P a
  | Err _ => True
  | Panic => False
  end.

Lemma nopanic_bind {E A B} (m : outcome E A) (f : A -> outcome E B) P :
  nopanic m (fun a => nopanic (f a) P) -> nopanic (obind m f) P.
Proof. by destruct m. Qed.

Lemma nopanic_impl {E A} (m : outcome E A) (P Q : A -> Prop) :
  nopanic m P -> (forall a, P a -> Q a) -> nopanic m Q.
Proof. destruct m; cbn; auto. Qed.

Lemma nopanic_not_Panic {E A} (m : outcome E A) P : nopanic m P -> m <> Panic.
Proof. by destruct m. Qed.

Lemma nopanic_guard {E A} (b : bool) (e : E) (m : outcome E A) P :
  (b = true -> nopanic m P) -> nopanic (if b then m else Err e) P.
Proof. destruct b; cbn; auto. Qed.

Lemma nopanic_if {E A} (b : bool) (m n : outcome E A) P :
  (b = true -> nopanic m P) -> (b = false -> nopanic n P) -> nopanic (if b then m else n) P.
Proof. destruct b; cbn; auto. Qed.

Lemma is_bytes_lookup d i x : is_bytes d -> d !! i = Some x -> is_u8 x.
Proof. intros Hd Hx. by eapply Forall_lookup_1 in Hd. Qed.

Lemma nopanic_idx {E} d i (P : Z -> Prop) : is_bytes d -> 0 <= i < len d ->
  (forall x, is_u8 x -> d !! Z.to_nat i = Some x -> P x) -> @nopanic E _ (idx d i) P.
Proof.
  intros Hd Hi HP. unfold idx. replace (0 <=? i) with true by lia.
  destruct (d !! Z.to_nat i) eqn:Hx; cbn.
  - eauto using is_bytes_lookup.
  - apply lookup_ge_None in Hx. unfold len in Hi. lia.
Qed.

Lemma nopanic_slice {E A} (d : list A) a b (P : list A -> Prop) : 0 <= a <= b -> b <= len d ->
  (forall s, len s = b - a -> s = take (Z.to_nat (b - a)) (drop (Z.to_nat a) d) -> P s) ->
  @nopanic E _ (slice d a b) P.
Proof.
  intros Ha Hb HP. unfold slice.
  replace ((0 <=? a) && (a <=? b) && (b <=? len d)) with true by lia.
  cbn. apply HP; [golia|done].
Qed.

Lemma nopanic_get_be {E} n d off (P : Z -> Prop) : is_bytes d ->
  0 <= off -> off + Z.of_nat n <= len d ->
  (forall z, 0 <= z < 256 ^ Z.of_nat n -> @get_be E n d off = Ok z -> P z) ->
  @nopanic E _ (get_be n d off) P.
Proof.
  intros Hd H0 Hl HP. destruct (get_be n d off) eqn:Hg; cbn; [|done|].
  - apply HP; [by eapply get_be_bound|done].
  - apply get_be_panic in Hg. lia.
Qed.

(** [np] proves that straight-line reading code does not panic, leaving arithmetic to
    [golia] and the value conditions to the caller. *)
Ltac np_step :=
  cbv beta zeta;
  lazymatch goal with
  | |- nopanic (obind _ _) _ => apply nopanic_bind
  | |- nopanic (if ?b then _ else _) _ =>
      let H := fresh "Hg" in
      first [apply nopanic_guard | apply nopanic_if]; intros H; zbool
  | |- nopanic (idx _ _) _ => apply nopanic_idx; [done|golia|intros ? ? ?]
  | |- nopanic (slice _ _ _) _ => apply nopanic_slice; [golia|golia|intros ? ? ?]
  | |- nopanic (slice_from _ _) _ => apply nopanic_slice; [golia|golia|intros ? ? ?]
  | |- nopanic (get_be _ _ _) _ => apply nopanic_get_be; [done|golia|golia|intros ? ? ?]
  | |- nopanic (Ok _) _ => cbn [nopanic]
  | |- nopanic (Err _) _ => exact I
  | |- True => exact I
  end.
Ltac np := repeat np_step.
