(* ===== verification/Base.v ===== *)
(** Constants, cipher-suite identifiers and errors.

    [internal/constants/constants.go] and [internal/errors/errors.go].  Sizes are [Z], labels
    are byte lists.  An [error] is a sentinel of the package, one of its two wrappers, or an
    error that an external reader, writer or library returned; [nil] is the absence of an
    error and does not appear. *)

From Corelib Require Import ssreflect.
From stdpp Require Import base tactics list numbers strings.
From Stdlib Require Import ZArith Lia Ascii String.
From S2P Require Import Prelude.

Local Open Scope Z_scope.

(** * Constants *)

(** The bytes of a Go string constant. *)
Fixpoint bytes_of_string (s : string) : list Z :=
  match s with
  | EmptyString => []
  | String a r => Z.of_N (N_of_ascii a) :: bytes_of_string r
  end.

Definition ProtocolVersion : Z := 0x0002.
Definition ProtocolName : list Z := bytes_of_string "CH-KEM-Tunnel-v1".

Definition MLKEMPublicKeySize : Z := 1568.
Definition MLKEMPrivateKeySize : Z := 3168.
Definition MLKEMCiphertextSize : Z := 1568.
Definition MLKEMSharedSecretSize : Z := 32.

Definition X25519PublicKeySize : Z := 32.
Definition X25519PrivateKeySize : Z := 32.
Definition X25519SharedSecretSize : Z := 32.

Definition AESKeySize : Z := 32.
Definition AESNonceSize : Z := 12.
Definition AESTagSize : Z := 16.
Definition ChaCha20KeySize : Z := 32.
Definition ChaCha20NonceSize : Z := 12.

Definition KDFOutputSize : Z := 32.
Definition TranscriptHashSize : Z := 32.
Definition DomainSeparatorCHKEM : list Z := bytes_of_string "CH-KEM-v1-SharedSecret".
Definition DomainSeparatorHandshake : list Z := bytes_of_string "CH-KEM-Tunnel-Handshake".
Definition DomainSeparatorTraffic : list Z := bytes_of_string "CH-KEM-Tunnel-Traffic".
Definition DomainSeparatorRekey : list Z := bytes_of_string "CH-KEM-Tunnel-Rekey".
Definition DomainSeparatorResumption : list Z := bytes_of_string "CH-KEM-Tunnel-Resumption".
Definition DomainSeparatorDatagramNonce : list Z :=
  bytes_of_string "CH-KEM-Tunnel-Datagram-Nonce".
Definition DomainSeparatorAuthentication : list Z :=
  bytes_of_string "CH-KEM-Tunnel-Authentication".
Definition DomainSeparatorPSK : list Z := bytes_of_string "CH-KEM-Tunnel-PSK".
Definition DomainSeparatorStreamNonce : list Z := bytes_of_string "CH-KEM-Tunnel-Stream-Nonce".

Definition CHKEMPublicKeySize : Z := X25519PublicKeySize + MLKEMPublicKeySize.
Definition CHKEMCiphertextSize : Z := X25519PublicKeySize + MLKEMCiphertextSize.
Definition CHKEMSharedSecretSize : Z := 32.
Definition PSKSize : Z := CHKEMSharedSecretSize.
Definition MaxPSKIdentitySize : Z := 255.

Definition XWingPublicKeySize : Z := 1216.
Definition XWingCiphertextSize : Z := 1120.
Definition XWingSeedSize : Z := 32.
Definition XWingSharedSecretSize : Z := 32.

Definition MaxSessionDurationSeconds : Z := 3600.
Definition MaxBytesBeforeRekey : Z := Z.shiftl 1 36.
Definition MaxPacketsBeforeRekey : Z := Z.shiftl 1 28.
Definition SessionIDSize : Z := 16.

Definition MaxMessageSize : Z := 65536.
Definition MaxPayloadSize : Z := 65507.
Definition MinPacketSize : Z := AESNonceSize + AESTagSize + 1.

Definition DatagramMTU : Z := 1200.
Definition DatagramHeaderOverhead : Z := 14.
Definition DatagramDataOverhead : Z := DatagramHeaderOverhead + AESTagSize.
Definition DatagramMaxDataPayload : Z := DatagramMTU - DatagramDataOverhead.
Definition DatagramNoncePrefixSize : Z := AESNonceSize - 8.
Definition DatagramMaxHandshakeMessageSize : Z := 4096.
Definition DatagramMaxConcurrentReassembly : Z := 4.
Definition DatagramReassemblyTimeoutSeconds : Z := 10.
Definition DatagramHandshakeInitialTimeoutMillis : Z := 500.
Definition DatagramHandshakeMaxTimeoutMillis : Z := 8000.
Definition DatagramHandshakeMaxRetries : Z := 8.
Definition DatagramHandshakeLingerReplays : Z := 16.
Definition DatagramIdleTimeoutSeconds : Z := 120.
Definition DatagramMaxHalfOpenFloor : Z := 1024.
Definition DatagramMaxHalfOpenPerCore : Z := 256.
Definition DatagramMaxHalfOpenCeiling : Z := 8192.
Definition DatagramReplayWindowBits : Z := 1024.
Definition DatagramPrevEpochRetainSeconds : Z := 30.

(** ** Cipher suites *)

(** [type CipherSuite uint16]. *)
Abbreviation CipherSuite := Z (only parsing).
Definition CipherSuiteAES256GCM : CipherSuite := 0x0001.
Definition CipherSuiteChaCha20Poly1305 : CipherSuite := 0x0002.

Definition CipherSuite_IsSupported (cs : CipherSuite) : bool :=
  (cs =? CipherSuiteAES256GCM) || (cs =? CipherSuiteChaCha20Poly1305).

Definition CipherSuite_IsFIPSApproved (cs : CipherSuite) : bool := cs =? CipherSuiteAES256GCM.

Definition CipherSuite_String (cs : CipherSuite) : string :=
  if cs =? CipherSuiteAES256GCM then "AES-256-GCM"
  else if cs =? CipherSuiteChaCha20Poly1305 then "ChaCha20-Poly1305"
  else "Unknown".

(** The build tag [fips] selects one of two files; it is the argument [fips] here. *)
Definition SupportedCipherSuites (fips : bool) : list CipherSuite :=
  if fips then [CipherSuiteAES256GCM] else [CipherSuiteAES256GCM; CipherSuiteChaCha20Poly1305].

Definition PreferredCipherSuite : CipherSuite := CipherSuiteAES256GCM.

(** * Errors *)

Inductive error : Type :=
  | ErrInvalidKeySize | ErrInvalidCiphertext | ErrDecapsulationFailed
  | ErrKeyGenerationFailed | ErrEncapsulationFailed | ErrInvalidPublicKey
  | ErrInvalidPrivateKey
  | ErrAuthenticationFailed | ErrInvalidNonce | ErrCiphertextTooShort | ErrNonceExhausted
  | ErrInvalidMessage | ErrUnsupportedVersion | ErrUnsupportedCipherSuite
  | ErrHandshakeFailed | ErrSessionExpired | ErrInvalidState | ErrMessageTooLarge
  | ErrReplayDetected | ErrCipherSuiteNotFIPSApproved | ErrInvalidTicket | ErrExpiredTicket
  | ErrServerKeyMismatch | ErrStaticAuthRequired | ErrStaticAuthMisconfigured
  | ErrPSKMisconfigured | ErrInvalidPSK | ErrUnsupportedKEMSuite
  | ErrTunnelClosed | ErrRekeyRequired | ErrRekeyInProgress | ErrTimeout
  | ErrPoolClosed | ErrPoolTimeout | ErrPoolExhausted
  (** Wrappers with context. *)
  | CryptoError (Op : string) (e : error)
  | ProtocolError (Phase : string) (e : error)
  (** Errors of the standard library and of external code. *)
  | ErrEOF | ErrUnexpectedEOF | ErrExternal (what : string).

#[export] Instance error_eq_dec : EqDecision error.
Proof. solve_decision. Defined.

Definition NewCryptoError (op : string) (e : error) : error := CryptoError op e.
Definition NewProtocolError (phase : string) (e : error) : error := ProtocolError phase e.

(** [Unwrap] of the two wrappers; a sentinel wraps nothing. *)
Definition Unwrap (e : error) : option error :=
  match e with
  | CryptoError _ e' | ProtocolError _ e' => Some e'
  | _ => None
  end.

(** [errors.Is(err, target)] for a sentinel [target]: the chain of [err] reaches it. *)
Fixpoint Is (e target : error) : bool :=
  bool_decide (e = target) ||
  match e with
  | CryptoError _ e' | ProtocolError _ e' => Is e' target
  | _ => false
  end.

Lemma Is_refl e : Is e e = true.
Proof. destruct e; cbn; rw bool_decide_true //. Qed.

Lemma Is_Unwrap e e' target : Unwrap e = Some e' -> Is e' target = true -> Is e target = true.
Proof. destruct e; cbn; intros [= ->] ->; apply orb_true_r. Qed.

(** ** Size arithmetic the components share *)

Lemma DatagramMaxDataPayload_val : DatagramMaxDataPayload = 1170.
Proof. reflexivity. Qed.

Lemma CipherSuite_IsSupported_u16 cs : CipherSuite_IsSupported cs = true -> is_u16 cs.
Proof. unfold CipherSuite_IsSupported, CipherSuiteAES256GCM, CipherSuiteChaCha20Poly1305, is_u16. lia. Qed.
