(* ===== verification/Messages.v ===== *)
(** Protocol versions and messages.

    [pkg/protocol/version.go] and [pkg/protocol/messages.go]: the message structs, their type
    codes and their [Validate] methods.  An empty list stands for a nil or empty slice; the
    code only ever tests the length of these fields. *)

From Corelib Require Import ssreflect.
From stdpp Require Import base tactics list numbers strings.
From Stdlib Require Import ZArith Lia.
From S2P Require Import Prelude Base.

Local Open Scope Z_scope.
Local Open Scope go_scope.

(** * Versions *)

Record Version := mkVersion { Major : Z; Minor : Z }.

Definition Current : Version := mkVersion 6 0.

Definition Version_Bytes (v : Version) : list Z := [Major v; Minor v].

(** [uint16(v.Major)<<8 | uint16(v.Minor)]. *)
Definition Version_Uint16 (v : Version) : Z := Z.lor (u16 (Z.shiftl (Major v) 8)) (Minor v).

Definition ParseVersion (data : list Z) : outcome error Version :=
  if len data <? 2 then Ok (mkVersion 0 0)
  else let! a := idx data 0 in
       let! b := idx data 1 in
       Ok (mkVersion a b).

Definition IsCompatible (v other : Version) : bool := Major v =? Major other.

(** * Message types *)

Abbreviation MessageType := Z (only parsing).
Definition MessageTypeClientHello : MessageType := 0x01.
Definition MessageTypeServerHello : MessageType := 0x02.
Definition MessageTypeClientFinished : MessageType := 0x03.
Definition MessageTypeServerFinished : MessageType := 0x04.
Definition MessageTypeHelloRetryRequest : MessageType := 0x05.
Definition MessageTypeData : MessageType := 0x10.
Definition MessageTypeRekey : MessageType := 0x11.
Definition MessageTypePing : MessageType := 0x12.
Definition MessageTypePong : MessageType := 0x13.
Definition MessageTypeClose : MessageType := 0x14.
Definition MessageTypeDatagramRekeyInit : MessageType := 0x15.
Definition MessageTypeDatagramRekeyResponse : MessageType := 0x16.
Definition MessageTypeAlert : MessageType := 0xF0.

(** The switch of [MessageType.String], case by case in the order of the code. *)
Definition MessageType_String (mt : MessageType) : string :=
  if mt =? MessageTypeClientHello then "ClientHello"
  else if mt =? MessageTypeServerHello then "ServerHello"
  else if mt =? MessageTypeClientFinished then "ClientFinished"
  else if mt =? MessageTypeServerFinished then "ServerFinished"
  else if mt =? MessageTypeData then "Data"
  else if mt =? MessageTypeRekey then "Rekey"
  else if mt =? MessageTypePing then "Ping"
  else if mt =? MessageTypePong then "Pong"
  else if mt =? MessageTypeClose then "Close"
  else if mt =? MessageTypeDatagramRekeyInit then "DatagramRekeyInit"
  else if mt =? MessageTypeDatagramRekeyResponse then "DatagramRekeyResponse"
  else if mt =? MessageTypeAlert then "Alert"
  else "Unknown".

Definition AlertCodeUnexpectedMessage : Z := 0x01.
Definition AlertCodeBadCiphertext : Z := 0x02.
Definition AlertCodeHandshakeFailure : Z := 0x03.
Definition AlertCodeUnsupportedVersion : Z := 0x04.
Definition AlertCodeUnsupportedCipher : Z := 0x05.
Definition AlertCodeDecryptionFailed : Z := 0x06.
Definition AlertCodeInternalError : Z := 0x07.
Definition AlertCodeCloseNotify : Z := 0x08.
Definition AlertLevelWarning : Z := 0x01.
Definition AlertLevelFatal : Z := 0x02.

Definition maxSessionIDLen : Z := 255.
Definition HeaderSize : Z := 5.

(** * Messages *)

Record ClientHello := mkClientHello {
  ch_Version : Version;
  ch_Random : list Z;
  ch_SessionID : list Z;
  ch_KEMSuite : Z;
  ch_KEMSuites : list Z;
  ch_CHKEMPublicKey : list Z;
  ch_CipherSuites : list CipherSuite;
  ch_CHKEMStaticCiphertext : list Z;
  ch_PSKIdentity : list Z }.

Record ServerHello := mkServerHello {
  sh_Version : Version;
  sh_Random : list Z;
  sh_SessionID : list Z;
  sh_KEMSuite : Z;
  sh_CHKEMCiphertext : list Z;
  sh_CipherSuite : CipherSuite }.

Record HelloRetryRequest := mkHelloRetryRequest {
  hrr_Version : Version;
  hrr_KEMSuite : Z }.

Record AlertMessage := mkAlertMessage {
  al_Level : Z;
  al_Code : Z;
  al_Description : list Z }.

Definition AlertMessage_Validate (m : AlertMessage) : outcome error unit :=
  guard! negb (negb (al_Level m =? AlertLevelWarning) && negb (al_Level m =? AlertLevelFatal))
    else ErrInvalidMessage in
  guard! negb (256 <? len (al_Description m)) else ErrInvalidMessage in
  Ok tt.

(** [for _, cs := range suites { if !cs.IsSupported() { return err } }]. *)
Fixpoint validate_suites (css : list CipherSuite) : outcome error unit :=
  match css with
  | [] => Ok tt
  | cs :: r => guard! CipherSuite_IsSupported cs else ErrUnsupportedCipherSuite in
               validate_suites r
  end.

Definition ClientHello_Validate (m : ClientHello) : outcome error unit :=
  guard! IsCompatible (ch_Version m) Current else ErrUnsupportedVersion in
  guard! len (ch_Random m) =? 32 else ErrInvalidMessage in
  guard! negb (len (ch_CHKEMPublicKey m) =? 0) else ErrInvalidPublicKey in
  guard! negb (maxSessionIDLen <? len (ch_SessionID m)) else ErrInvalidMessage in
  guard! negb (len (ch_CipherSuites m) =? 0) else ErrInvalidMessage in
  let! _ := validate_suites (ch_CipherSuites m) in
  guard! negb (MaxPSKIdentitySize <? len (ch_PSKIdentity m)) else ErrInvalidMessage in
  Ok tt.

Definition ServerHello_Validate (m : ServerHello) : outcome error unit :=
  guard! IsCompatible (sh_Version m) Current else ErrUnsupportedVersion in
  guard! len (sh_Random m) =? 32 else ErrInvalidMessage in
  guard! negb (maxSessionIDLen <? len (sh_SessionID m)) else ErrInvalidMessage in
  guard! negb (len (sh_CHKEMCiphertext m) =? 0) else ErrInvalidCiphertext in
  guard! CipherSuite_IsSupported (sh_CipherSuite m) else ErrUnsupportedCipherSuite in
  Ok tt.

(** [ClientFinished.Validate] and [ServerFinished.Validate] have the same body. *)
Definition Finished_Validate (verifyData : list Z) : outcome error unit :=
  guard! len verifyData =? 32 else ErrInvalidMessage in
  Ok tt.

#[export] Hint Unfold maxSessionIDLen HeaderSize MaxPSKIdentitySize MaxMessageSize
  MaxPayloadSize is_u8 is_u16 is_u32 is_u64 : gosz.

(** * What validation establishes *)

Lemma validate_suites_Ok css :
  validate_suites css = Ok tt <-> Forall (fun cs => CipherSuite_IsSupported cs = true) css.
Proof.
  induction css as [|cs r IH]; cbn; [by split|]. rw Forall_cons -IH.
  destruct (CipherSuite_IsSupported cs); split; try done; by intros [].
Qed.

Lemma validate_suites_no_panic css : validate_suites css <> Panic.
Proof. induction css as [|cs r IH]; cbn; [done|]. by destruct (CipherSuite_IsSupported cs). Qed.

(** The property [ClientHello.Validate] decides. *)
Record ClientHello_ok (m : ClientHello) : Prop := {
  cho_version : Major (ch_Version m) = 6;
  cho_random : len (ch_Random m) = 32;
  cho_pk : 0 < len (ch_CHKEMPublicKey m);
  cho_sid : len (ch_SessionID m) <= 255;
  cho_cs : 0 < len (ch_CipherSuites m);
  cho_css : Forall (fun cs => CipherSuite_IsSupported cs = true) (ch_CipherSuites m);
  cho_psk : len (ch_PSKIdentity m) <= 255 }.

Lemma ClientHello_Validate_ok m : ClientHello_Validate m = Ok tt <-> ClientHello_ok m.
Proof.
  unfold ClientHello_Validate, IsCompatible. cbn [Major Current]. split.
  - intros H. okinv H. destruct x. apply validate_suites_Ok in Hx. split; try done; golia.
  - intros [Hv Hr Hp Hs Hc Hcs Hk]. apply validate_suites_Ok in Hcs. rw Hv Hr.
    cbn [Z.eqb Pos.eqb].
    replace (len (ch_CHKEMPublicKey m) =? 0) with false by lia.
    replace (len (ch_CipherSuites m) =? 0) with false by lia.
    unfold maxSessionIDLen, MaxPSKIdentitySize.
    replace (255 <? len (ch_SessionID m)) with false by lia.
    replace (255 <? len (ch_PSKIdentity m)) with false by lia.
    cbn [negb]. by rw Hcs.
Qed.

Record ServerHello_ok (m : ServerHello) : Prop := {
  sho_version : Major (sh_Version m) = 6;
  sho_random : len (sh_Random m) = 32;
  sho_sid : len (sh_SessionID m) <= 255;
  sho_ct : 0 < len (sh_CHKEMCiphertext m);
  sho_cs : CipherSuite_IsSupported (sh_CipherSuite m) = true }.

Lemma ServerHello_Validate_ok m : ServerHello_Validate m = Ok tt <-> ServerHello_ok m.
Proof.
  unfold ServerHello_Validate, IsCompatible. cbn [Major Current]. split.
  - intros H. okinv H. split; try done; golia.
  - intros [Hv Hr Hs Hc Hcs]. rw Hv Hr Hcs. cbn [Z.eqb Pos.eqb].
    replace (len (sh_CHKEMCiphertext m) =? 0) with false by lia.
    unfold maxSessionIDLen.
    by replace (255 <? len (sh_SessionID m)) with false by lia.
Qed.
