(* ===== verification/Codec.v ===== *)
(** The stream codec.

    [pkg/protocol/codec.go].  An encoder is a sequence of writes through a cursor into a buffer
    made with the exact size the code computes; a decoder reads at explicit offsets, so that an
    out-of-range index or slice is a [Panic], as it is in Go.  A message handed to a decoder is
    a slice whose capacity equals its length ([ReadMessage] and the reassembler make it so). *)

From Corelib Require Import ssreflect.
From stdpp Require Import base tactics list numbers strings.
From Stdlib Require Import ZArith Lia.
From S2P Require Import Prelude Base Messages.

Local Open Scope Z_scope.
Local Open Scope go_scope.

(** * Hellos *)

Definition pskIdentityFieldLen (identity : list Z) : Z :=
  if len identity =? 0 then 0 else 1 + len identity.

Definition optionalLenPrefixedSize (b : list Z) : Z :=
  if len b =? 0 then 0 else 2 + len b.

(** [for _, id := range ids { PutUint16(buf[offset:], id); offset += 2 }]. *)
Fixpoint putU16s (ids : list Z) (c : cursor) : outcome error cursor :=
  match ids with
  | [] => Ok c
  | id :: r => let! c := c_put (be_put 2 id) c in putU16s r c
  end.

Definition EncodeClientHello (m : ClientHello) : outcome error (list Z) :=
  let! _ := ClientHello_Validate m in
  let payloadSize :=
    2 + 32 + 1 + len (ch_SessionID m) + 2 + 1 + 2 * len (ch_KEMSuites m)
    + 2 + len (ch_CHKEMPublicKey m) + 2 + 2 * len (ch_CipherSuites m)
    + 1 + optionalLenPrefixedSize (ch_CHKEMStaticCiphertext m)
    + 1 + pskIdentityFieldLen (ch_PSKIdentity m) in
  let c := c_make (HeaderSize + payloadSize) in
  let! c := c_put [MessageTypeClientHello] c in
  let! c := c_put (be_put 4 (u32 payloadSize)) c in
  let! c := c_put [Major (ch_Version m); Minor (ch_Version m)] c in
  let! c := c_copy (ch_Random m) 32 c in
  let! c := c_put [u8 (len (ch_SessionID m))] c in
  let! c := c_copy (ch_SessionID m) (len (ch_SessionID m)) c in
  let! c := c_put (be_put 2 (ch_KEMSuite m)) c in
  let! c := c_put [u8 (len (ch_KEMSuites m))] c in
  let! c := putU16s (ch_KEMSuites m) c in
  let! c := c_put (be_put 2 (u16 (len (ch_CHKEMPublicKey m)))) c in
  let! c := c_copy (ch_CHKEMPublicKey m) (len (ch_CHKEMPublicKey m)) c in
  let! c := c_put (be_put 2 (u16 (len (ch_CipherSuites m)))) c in
  let! c := putU16s (ch_CipherSuites m) c in
  let! c :=
    if 0 <? len (ch_CHKEMStaticCiphertext m) then
      let! c := c_put [1] c in
      let! c := c_put (be_put 2 (u16 (len (ch_CHKEMStaticCiphertext m)))) c in
      c_copy (ch_CHKEMStaticCiphertext m) (len (ch_CHKEMStaticCiphertext m)) c
    else c_put [0] c in
  let! c :=
    if 0 <? len (ch_PSKIdentity m) then
      let! c := c_put [1] c in
      let! c := c_put [u8 (len (ch_PSKIdentity m))] c in
      c_copy (ch_PSKIdentity m) (len (ch_PSKIdentity m)) c
    else c_put [0] c in
  Ok (c_buf c).

(** Returns the bytes read and the advanced offset. *)
Definition readLenPrefixed (data : list Z) (offset payloadEnd : Z)
    : outcome error (list Z * Z) :=
  guard! negb (payloadEnd <? offset + 2) else ErrInvalidMessage in
  let! n := get_be 2 data offset in
  let offset := offset + 2 in
  guard! negb (payloadEnd <? offset + n) else ErrInvalidMessage in
  let! out := slice data offset (offset + n) in
  Ok (out, offset + n).

(** [for i := range xs { xs[i] = Uint16(data[offset:]); offset += 2 }]. *)
Fixpoint readU16s (n : nat) (data : list Z) (offset : Z) : outcome error (list Z * Z) :=
  match n with
  | O => Ok ([], offset)
  | S k => let! v := get_be 2 data offset in
           let! '(vs, o) := readU16s k data (offset + 2) in
           Ok (v :: vs, o)
  end.

(** The [SessionID] field of both hellos: the length byte, then that many bytes. *)
Definition readSessionID (data : list Z) (offset : Z) : outcome error (list Z * Z) :=
  let! n := idx data offset in
  let offset := offset + 1 in
  if 0 <? n then
    let! sid := slice data offset (offset + n) in
    Ok (sid, offset + n)
  else Ok ([], offset).

(** The trailing optional fields of a ClientHello. *)
Definition readStaticCiphertext (data : list Z) (offset payloadEnd : Z)
    : outcome error (list Z * Z) :=
  if offset <? payloadEnd then
    let! present := idx data offset in
    let offset := offset + 1 in
    if present =? 1 then readLenPrefixed data offset payloadEnd
    else Ok ([], offset)
  else Ok ([], offset).

Definition readPSKIdentity (data : list Z) (offset payloadEnd : Z) : outcome error (list Z) :=
  if offset <? payloadEnd then
    let! present := idx data offset in
    let offset := offset + 1 in
    if present =? 1 then
      guard! negb (payloadEnd <? offset + 1) else ErrInvalidMessage in
      let! idLen := idx data offset in
      let offset := offset + 1 in
      guard! negb ((idLen =? 0) || (payloadEnd <? offset + idLen)) else ErrInvalidMessage in
      slice data offset (offset + idLen)
    else Ok []
  else Ok [].

Definition DecodeClientHello (data : list Z) : outcome error ClientHello :=
  guard! negb (len data <? HeaderSize) else ErrInvalidMessage in
  let! mt := idx data 0 in
  guard! mt =? MessageTypeClientHello else ErrInvalidMessage in
  let! payloadLen := get_be 4 data 1 in
  guard! negb (len data <? HeaderSize + payloadLen) else ErrInvalidMessage in
  let payloadEnd := HeaderSize + payloadLen in
  let minPayloadLen := 2 + 32 + 1 + 2 + 1 + 2 + 2 + 2 in
  guard! negb (payloadLen <? minPayloadLen) else ErrInvalidMessage in
  let offset := HeaderSize in
  let! major := idx data offset in
  let! minor := idx data (offset + 1) in
  let offset := offset + 2 in
  let! random := slice data offset (offset + 32) in
  let offset := offset + 32 in
  let! '(sid, offset) := readSessionID data offset in
  guard! negb (payloadEnd <? offset + 3) else ErrInvalidMessage in
  let! suite := get_be 2 data offset in
  let offset := offset + 2 in
  let! kemSuiteCount := idx data offset in
  let offset := offset + 1 in
  guard! negb (payloadEnd <? offset + 2 * kemSuiteCount) else ErrInvalidMessage in
  let! '(suites, offset) := readU16s (Z.to_nat kemSuiteCount) data offset in
  let! '(pk, offset) := readLenPrefixed data offset payloadEnd in
  guard! negb (payloadEnd <? offset + 2) else ErrInvalidMessage in
  let! cipherSuiteCount := get_be 2 data offset in
  let offset := offset + 2 in
  guard! negb (payloadEnd <? offset + 2 * cipherSuiteCount) else ErrInvalidMessage in
  let! '(css, offset) := readU16s (Z.to_nat cipherSuiteCount) data offset in
  let! '(static, offset) := readStaticCiphertext data offset payloadEnd in
  let! psk := readPSKIdentity data offset payloadEnd in
  let m := mkClientHello (mkVersion major minor) random sid suite suites pk css static psk in
  let! _ := ClientHello_Validate m in
  Ok m.

Definition EncodeServerHello (m : ServerHello) : outcome error (list Z) :=
  let! _ := ServerHello_Validate m in
  let payloadSize :=
    2 + 32 + 1 + len (sh_SessionID m) + 2 + 2 + len (sh_CHKEMCiphertext m) + 2 in
  let c := c_make (HeaderSize + payloadSize) in
  let! c := c_put [MessageTypeServerHello] c in
  let! c := c_put (be_put 4 (u32 payloadSize)) c in
  let! c := c_put [Major (sh_Version m); Minor (sh_Version m)] c in
  let! c := c_copy (sh_Random m) 32 c in
  let! c := c_put [u8 (len (sh_SessionID m))] c in
  let! c := c_copy (sh_SessionID m) (len (sh_SessionID m)) c in
  let! c := c_put (be_put 2 (sh_KEMSuite m)) c in
  let! c := c_put (be_put 2 (u16 (len (sh_CHKEMCiphertext m)))) c in
  let! c := c_copy (sh_CHKEMCiphertext m) (len (sh_CHKEMCiphertext m)) c in
  let! c := c_put (be_put 2 (sh_CipherSuite m)) c in
  Ok (c_buf c).

Definition DecodeServerHello (data : list Z) : outcome error ServerHello :=
  guard! negb (len data <? HeaderSize) else ErrInvalidMessage in
  let! mt := idx data 0 in
  guard! mt =? MessageTypeServerHello else ErrInvalidMessage in
  let! payloadLen := get_be 4 data 1 in
  guard! negb (len data <? HeaderSize + payloadLen) else ErrInvalidMessage in
  let payloadEnd := HeaderSize + payloadLen in
  let minPayloadLen := 2 + 32 + 1 + 2 + 2 + 2 in
  guard! negb (payloadLen <? minPayloadLen) else ErrInvalidMessage in
  let offset := HeaderSize in
  let! major := idx data offset in
  let! minor := idx data (offset + 1) in
  let offset := offset + 2 in
  let! random := slice data offset (offset + 32) in
  let offset := offset + 32 in
  let! '(sid, offset) := readSessionID data offset in
  guard! negb (payloadEnd <? offset + 2) else ErrInvalidMessage in
  let! suite := get_be 2 data offset in
  let offset := offset + 2 in
  let! '(ct, offset) := readLenPrefixed data offset payloadEnd in
  guard! negb (payloadEnd <? offset + 2) else ErrInvalidMessage in
  let! cs := get_be 2 data offset in
  let m := mkServerHello (mkVersion major minor) random sid suite ct cs in
  let! _ := ServerHello_Validate m in
  Ok m.

Definition EncodeHelloRetryRequest (m : HelloRetryRequest) : outcome error (list Z) :=
  let payloadSize := 2 + 2 in
  let c := c_make (HeaderSize + payloadSize) in
  let! c := c_put [MessageTypeHelloRetryRequest] c in
  let! c := c_put (be_put 4 payloadSize) c in
  let! c := c_put [Major (hrr_Version m)] c in
  let! c := c_put [Minor (hrr_Version m)] c in
  let! c := c_put (be_put 2 (hrr_KEMSuite m)) c in
  Ok (c_buf c).

Definition DecodeHelloRetryRequest (data : list Z) : outcome error HelloRetryRequest :=
  guard! negb (len data <? HeaderSize + 4) else ErrInvalidMessage in
  let! mt := idx data 0 in
  guard! mt =? MessageTypeHelloRetryRequest else ErrInvalidMessage in
  let! major := idx data HeaderSize in
  let! minor := idx data (HeaderSize + 1) in
  let! suite := get_be 2 data (HeaderSize + 2) in
  Ok (mkHelloRetryRequest (mkVersion major minor) suite).

(** * Finished, data, alert and rekey messages *)

Definition EncodeFinished (msgType : MessageType) (verifyData : list Z)
    : outcome error (list Z) :=
  guard! len verifyData =? 32 else ErrInvalidMessage in
  let c := c_make (HeaderSize + 32) in
  let! c := c_put [msgType] c in
  let! c := c_put (be_put 4 32) c in
  let! c := c_copy verifyData (len verifyData) c in
  Ok (c_buf c).

Definition DecodeFinished (data : list Z) : outcome error (list Z) :=
  guard! negb (len data <? HeaderSize + 32) else ErrInvalidMessage in
  let! mt := idx data 0 in
  guard! (mt =? MessageTypeClientFinished) || (mt =? MessageTypeServerFinished)
    else ErrInvalidMessage in
  slice data HeaderSize (HeaderSize + 32).

Definition EncodeData (seq : Z) (payload : list Z) : outcome error (list Z) :=
  guard! negb (MaxPayloadSize <? len payload) else ErrMessageTooLarge in
  let payloadSize := 8 + len payload in
  let c := c_make (HeaderSize + payloadSize) in
  let! c := c_put [MessageTypeData] c in
  let! c := c_put (be_put 4 (u32 payloadSize)) c in
  let! c := c_put (be_put 8 seq) c in
  let! c := c_copy payload (len payload) c in
  Ok (c_buf c).

Definition DecodeData (data : list Z) : outcome error (Z * list Z) :=
  guard! negb (len data <? HeaderSize + 8) else ErrInvalidMessage in
  let! mt := idx data 0 in
  guard! mt =? MessageTypeData else ErrInvalidMessage in
  let! seq := get_be 8 data HeaderSize in
  let! payload := slice_from data (HeaderSize + 8) in
  Ok (seq, payload).

Definition EncodeAlert (level code : Z) (description : list Z) : outcome error (list Z) :=
  let! description :=
    if 255 <? len description then slice description 0 255 else Ok description in
  let payloadSize := 1 + 1 + 1 + len description in
  let c := c_make (HeaderSize + payloadSize) in
  let! c := c_put [MessageTypeAlert] c in
  let! c := c_put (be_put 4 (u32 payloadSize)) c in
  let! c := c_put [level] c in
  let! c := c_put [code] c in
  let! c := c_put [u8 (len description)] c in
  let! c := c_copy description (len description) c in
  Ok (c_buf c).

Definition DecodeAlert (data : list Z) : outcome error AlertMessage :=
  guard! negb (len data <? HeaderSize + 3) else ErrInvalidMessage in
  let! mt := idx data 0 in
  guard! mt =? MessageTypeAlert else ErrInvalidMessage in
  let! level := idx data HeaderSize in
  let! code := idx data (HeaderSize + 1) in
  let! descLen := idx data (HeaderSize + 2) in
  guard! negb (len data <? HeaderSize + 3 + descLen) else ErrInvalidMessage in
  let! description := slice data (HeaderSize + 3) (HeaderSize + 3 + descLen) in
  Ok (mkAlertMessage level code description).

Definition EncodeRekeyPayload (newPublicKey : list Z) (activationSeq : Z)
    : outcome error (list Z) :=
  guard! negb ((len newPublicKey =? 0) || (MaxMessageSize <? len newPublicKey))
    else ErrInvalidPublicKey in
  let c := c_make (2 + len newPublicKey + 8) in
  let! c := c_put (be_put 2 (u16 (len newPublicKey))) c in
  let! c := c_copy newPublicKey (len newPublicKey) c in
  let! c := c_put (be_put 8 activationSeq) c in
  Ok (c_buf c).

Definition DecodeRekeyPayload (data : list Z) : outcome error (list Z * Z) :=
  guard! negb (len data <? 2) else ErrInvalidMessage in
  let! n := get_be 2 data 0 in
  guard! negb (len data <? 2 + n + 8) else ErrInvalidMessage in
  let! newPublicKey := slice data 2 (2 + n) in
  let! activationSeq := get_be 8 data (2 + n) in
  Ok (newPublicKey, activationSeq).

Definition EncodeRekey (seq : Z) (ciphertext : list Z) : outcome error (list Z) :=
  let payloadSize := 8 + len ciphertext in
  let c := c_make (HeaderSize + payloadSize) in
  let! c := c_put [MessageTypeRekey] c in
  let! c := c_put (be_put 4 (u32 payloadSize)) c in
  let! c := c_put (be_put 8 seq) c in
  let! c := c_copy ciphertext (len ciphertext) c in
  Ok (c_buf c).

Definition DecodeRekey (data : list Z) : outcome error (Z * list Z) :=
  let minLen := HeaderSize + 8 in
  guard! negb (len data <? minLen) else ErrInvalidMessage in
  let! mt := idx data 0 in
  guard! mt =? MessageTypeRekey else ErrInvalidMessage in
  let! seq := get_be 8 data HeaderSize in
  let! ciphertext := slice_from data (HeaderSize + 8) in
  Ok (seq, ciphertext).

Definition GetMessageType (data : list Z) : outcome error MessageType :=
  guard! negb (len data <? 1) else ErrInvalidMessage in
  idx data 0.

(** * Reading a message from a stream *)

(** [io.ReadFull] for [n] bytes on a reader that delivers the bytes [r] and then [io.EOF]. *)
Definition ReadFull (n : Z) : ST (list Z) error (list Z) :=
  fun r =>
    if n <=? len r then (drop (Z.to_nat n) r, Ok (take (Z.to_nat n) r))
    else ([], Err (if len r =? 0 then ErrEOF else ErrUnexpectedEOF)).

Definition ReadMessage : ST (list Z) error (list Z) :=
  do! header := ReadFull HeaderSize in
  do! payloadLen := st_lift (get_be 4 header 1) in
  check! negb (MaxMessageSize <? payloadLen) else ErrMessageTooLarge in
  if 0 <? payloadLen then
    do! payload := ReadFull payloadLen in
    st_ret (header ++ payload)
  else st_ret header.

(** [ReadMessageInto(r, buf)]: [buf] is the backing array of the caller's buffer, as long as
    its capacity.  The result is the backing array of the returned slice and the returned
    slice's length. *)
Definition ReadMessageInto (buf : list Z) : ST (list Z) error (list Z * Z) :=
  do! header := ReadFull HeaderSize in
  do! payloadLen := st_lift (get_be 4 header 1) in
  check! negb (MaxMessageSize <? payloadLen) else ErrMessageTooLarge in
  let total := HeaderSize + payloadLen in
  let buf := if len buf <? total then replicate (Z.to_nat total) 0 else buf in
  do! c := st_lift (c_copy header HeaderSize (Cursor buf 0)) in
  if 0 <? payloadLen then
    do! payload := ReadFull payloadLen in
    do! c := st_lift (c_copy payload payloadLen c) in
    st_ret (c_buf c, total)
  else st_ret (c_buf c, total).

(** * Wire formats *)

(** A list of 16-bit values, two bytes each. *)
Definition wire_u16s (ids : list Z) : list Z := concat (map (be_put 2) ids).

Definition wire_payload (mt : MessageType) (payload : list Z) : list Z :=
  [mt] ++ be_put 4 (len payload) ++ payload.

Definition wire_opt (sz : nat) (b : list Z) : list Z :=
  if 0 <? len b then [1] ++ be_put sz (len b) ++ b else [0].

Definition wire_ClientHello (m : ClientHello) : list Z :=
  wire_payload MessageTypeClientHello
    ([Major (ch_Version m); Minor (ch_Version m)] ++ ch_Random m
     ++ [len (ch_SessionID m)] ++ ch_SessionID m
     ++ be_put 2 (ch_KEMSuite m)
     ++ [len (ch_KEMSuites m)] ++ wire_u16s (ch_KEMSuites m)
     ++ be_put 2 (len (ch_CHKEMPublicKey m)) ++ ch_CHKEMPublicKey m
     ++ be_put 2 (len (ch_CipherSuites m)) ++ wire_u16s (ch_CipherSuites m)
     ++ wire_opt 2 (ch_CHKEMStaticCiphertext m)
     ++ wire_opt 1 (ch_PSKIdentity m)).

Definition wire_ServerHello (m : ServerHello) : list Z :=
  wire_payload MessageTypeServerHello
    ([Major (sh_Version m); Minor (sh_Version m)] ++ sh_Random m
     ++ [len (sh_SessionID m)] ++ sh_SessionID m
     ++ be_put 2 (sh_KEMSuite m)
     ++ be_put 2 (len (sh_CHKEMCiphertext m)) ++ sh_CHKEMCiphertext m
     ++ be_put 2 (sh_CipherSuite m)).

(** The width limits under which a hello's length prefixes do not wrap around. *)
Record ClientHello_fits (m : ClientHello) : Prop := {
  chf_suite : is_u16 (ch_KEMSuite m);
  chf_suites : Forall is_u16 (ch_KEMSuites m);
  chf_nsuites : len (ch_KEMSuites m) <= 255;
  chf_pk : len (ch_CHKEMPublicKey m) < 2 ^ 16;
  chf_css : len (ch_CipherSuites m) < 2 ^ 16;
  chf_static : len (ch_CHKEMStaticCiphertext m) < 2 ^ 16 }.

Record ServerHello_fits (m : ServerHello) : Prop := {
  shf_suite : is_u16 (sh_KEMSuite m);
  shf_ct : len (sh_CHKEMCiphertext m) < 2 ^ 16 }.

Lemma len_wire_u16s ids : len (wire_u16s ids) = 2 * len ids.
Proof. induction ids as [|i r IH]; [done|]. unfold wire_u16s in *. cbn [map concat]. golia. Qed.

Lemma len_wire_payload mt p : len (wire_payload mt p) = 5 + len p.
Proof. unfold wire_payload. golia. Qed.

Lemma wire_payload_eq mt p n : n = len p -> [mt] ++ be_put 4 n ++ p = wire_payload mt p.
Proof. by intros ->. Qed.
#[local] Hint Rewrite len_wire_u16s len_wire_payload : golen.

Lemma len_wire_opt sz b :
  len (wire_opt sz b) = 1 + (if 0 <? len b then Z.of_nat sz + len b else 0).
Proof. unfold wire_opt. destruct (0 <? len b); golia. Qed.

Lemma putU16s_filled ids pre k : 2 * len ids <= k ->
  putU16s ids (filled pre k) = Ok (filled (pre ++ wire_u16s ids) (k - 2 * len ids)).
Proof.
  revert pre k. induction ids as [|i r IH]; intros pre k Hk; cbn [putU16s].
  - unfold wire_u16s. cbn. by rw app_nil_r Z.sub_0_r.
  - cursor_step. rw IH; [golia|]. unfold wire_u16s. cbn [map concat]. rw app_assoc.
    do 2 f_equal. golia.
Qed.

Lemma put_static_filled b pre k : len (wire_opt 2 b) <= k -> len b < 2 ^ 16 ->
  (if 0 <? len b then
     let! c := c_put [1] (filled pre k) in
     let! c := c_put (be_put 2 (u16 (len b))) c in
     c_copy b (len b) c
   else c_put [0] (filled pre k))
  = @Ok error _ (filled (pre ++ wire_opt 2 b) (k - len (wire_opt 2 b))).
Proof.
  rw len_wire_opt. unfold wire_opt. intros Hk Hb. destruct (0 <? len b) eqn:H0.
  - rw u16_small; [golia|]. do 2 cursor_step. rw c_copy_filled; [golia|golia|].
    rw -!app_assoc. do 2 f_equal. golia.
  - rw c_put_filled; [golia|]. done.
Qed.

Lemma put_psk_filled b pre k : len (wire_opt 1 b) <= k -> len b <= 255 ->
  (if 0 <? len b then
     let! c := c_put [1] (filled pre k) in
     let! c := c_put [u8 (len b)] c in
     c_copy b (len b) c
   else c_put [0] (filled pre k))
  = @Ok error _ (filled (pre ++ wire_opt 1 b) (k - len (wire_opt 1 b))).
Proof.
  rw len_wire_opt. unfold wire_opt. intros Hk Hb. destruct (0 <? len b) eqn:H0.
  - pose proof (len_nonneg b). rw u8_small; [golia|]. do 2 cursor_step.
    rw c_copy_filled; [golia|golia|].
    rw be_put_1; [lia|]. rw -!app_assoc. do 2 f_equal. golia.
  - rw c_put_filled; [golia|]. done.
Qed.

(** The buffer the encoder computes the size of is filled exactly. *)
Lemma EncodeClientHello_wire m : ClientHello_ok m -> ClientHello_fits m ->
  EncodeClientHello m = Ok (wire_ClientHello m).
Proof.
  intros Hok [Hs Hss Hns Hpk Hcs Hst]. pose proof Hok as [_ Hr _ Hsid _ _ Hpsk].
  unfold EncodeClientHello. rw (proj2 (ClientHello_Validate_ok m) Hok) obind_Ok_l. cbv zeta.
  set (psz := 2 + 32 + 1 + _ + _ + _ + _ + _ + _ + _ + _ + _ + _ + _ + _).
  pose proof (len_wire_opt 2 (ch_CHKEMStaticCiphertext m)) as Ho2.
  pose proof (len_wire_opt 1 (ch_PSKIdentity m)) as Ho1.
  assert (psz = 42 + len (ch_SessionID m) + 2 * len (ch_KEMSuites m)
    + len (ch_CHKEMPublicKey m) + 2 * len (ch_CipherSuites m)
    + len (wire_opt 2 (ch_CHKEMStaticCiphertext m))
    + len (wire_opt 1 (ch_PSKIdentity m))) as Hpsz.
  { subst psz. unfold optionalLenPrefixedSize, pskIdentityFieldLen.
    repeat case_match; golia. }
  clearbody psz.
  assert (0 <= psz < 2 ^ 32) as Hb by (repeat case_match; golia).
  clear Ho1 Ho2.
  rw (u8_small (len (ch_SessionID m))); [golia|].
  rw (u8_small (len (ch_KEMSuites m))); [golia|].
  rw (u16_small (len (ch_CHKEMPublicKey m))); [golia|].
  rw (u16_small (len (ch_CipherSuites m))); [golia|]. rw u32_small; [golia|].
  rw c_make_filled.
  do 8 cursor_step. rw putU16s_filled; [golia|]. rw obind_Ok_l.
  do 3 cursor_step. rw putU16s_filled; [golia|]. rw obind_Ok_l.
  rw put_static_filled; [golia|done|]. rw obind_Ok_l.
  rw put_psk_filled; [golia|done|]. rw obind_Ok_l.
  rw filled_done; [golia|]. f_equal. rw -!app_assoc app_nil_l.
  apply wire_payload_eq. golia.
Qed.

Lemma EncodeServerHello_wire m : ServerHello_ok m -> ServerHello_fits m ->
  EncodeServerHello m = Ok (wire_ServerHello m).
Proof.
  intros Hok [Hs Hct]. pose proof Hok as [_ Hr Hsid _ _].
  unfold EncodeServerHello. rw (proj2 (ServerHello_Validate_ok m) Hok) obind_Ok_l. cbv zeta.
  rw u8_small; [golia|]. rw u16_small; [golia|]. rw u32_small; [golia|]. rw c_make_filled.
  do 10 cursor_step. rw filled_done; [golia|]. f_equal. rw -!app_assoc app_nil_l.
  apply wire_payload_eq. golia.
Qed.

(** * Round trips *)

Lemma readLenPrefixed_at d o b r off pe :
  at_off d o (be_put 2 (len b) ++ b ++ r) -> off = o -> len b < 2 ^ 16 ->
  off + 2 + len b <= pe -> readLenPrefixed d off pe = Ok (b, off + 2 + len b).
Proof.
  intros H -> Hb Hpe. unfold readLenPrefixed. gd. rd H. cbv zeta. gd.
  eapply (at_off_step _ _ (o + 2)) in H; [|golia]. by rd H.
Qed.

Lemma readU16s_at ids d o r off :
  at_off d o (wire_u16s ids ++ r) -> off = o -> Forall is_u16 ids ->
  readU16s (length ids) d off = Ok (ids, off + 2 * len ids).
Proof.
  revert o off. induction ids as [|i ids IH]; intros o off H -> Hf; cbn [length readU16s].
  - by rw Z.add_0_r.
  - apply Forall_cons in Hf as [Hi Hf]. unfold wire_u16s in H. cbn [map concat] in H.
    rw -app_assoc in H. rd H. eapply (at_off_step _ _ (o + 2)) in H; [|golia].
    rw (IH _ _ H eq_refl Hf). cbn [obind]. do 2 f_equal. golia.
Qed.

Lemma readSessionID_at sid d o r off :
  at_off d o ([len sid] ++ sid ++ r) -> off = o ->
  readSessionID d off = Ok (sid, off + 1 + len sid).
Proof.
  intros H ->. unfold readSessionID. cbn [app] in H. rd H. cbv zeta.
  apply at_off_cons in H. destruct (0 <? len sid) eqn:H0; [by rd H|].
  destruct sid; [|golia]. by rw Z.add_0_r.
Qed.

Lemma readStaticCiphertext_at b d o r off pe :
  at_off d o (wire_opt 2 b ++ r) -> off = o -> len b < 2 ^ 16 ->
  off + len (wire_opt 2 b) <= pe ->
  readStaticCiphertext d off pe = Ok (b, off + len (wire_opt 2 b)).
Proof.
  rw len_wire_opt. unfold wire_opt, readStaticCiphertext. intros H -> Hb Hpe.
  replace (o <? pe) with true by (symmetry; case_match; golia).
  destruct (0 <? len b) eqn:H0; rw -?app_assoc in H; cbn [app] in H; rd H; cbn [Z.eqb Pos.eqb].
  - apply at_off_cons in H. rw (readLenPrefixed_at _ _ _ _ _ _ H); [done..|golia|].
    do 2 f_equal. golia.
  - by destruct b; [|golia].
Qed.

Lemma readPSKIdentity_at b d o r off pe :
  at_off d o (wire_opt 1 b ++ r) -> off = o -> len b <= 255 ->
  off + len (wire_opt 1 b) <= pe -> readPSKIdentity d off pe = Ok b.
Proof.
  rw len_wire_opt. unfold wire_opt, readPSKIdentity. intros H -> Hb Hpe.
  replace (o <? pe) with true by (symmetry; case_match; golia).
  destruct (0 <? len b) eqn:H0; rw -?app_assoc in H; cbn [app] in H; rd H; cbn [Z.eqb Pos.eqb].
  - apply at_off_cons in H. cbv zeta. gd. rw be_put_1 in H; [lia|]. cbn [app] in H.
    rd H. apply at_off_cons in H. gd. by rd H.
  - by destruct b; [|golia].
Qed.

Lemma length_to_nat {A} (l : list A) : Z.to_nat (len l) = length l.
Proof. apply Nat2Z.id. Qed.

Lemma DecodeClientHello_wire m trail : ClientHello_ok m -> ClientHello_fits m ->
  DecodeClientHello (wire_ClientHello m ++ trail) = Ok m.
Proof.
  intros Hok [Hs Hss Hns Hpk Hcs Hst].
  pose proof (proj2 (ClientHello_Validate_ok m) Hok) as Hval.
  destruct Hok as [_ Hr Hpk0 Hsid Hcs0 Hcss Hpsk].
  unfold wire_ClientHello. set (p := [Major _; _] ++ _).
  assert (len p = 42 + len (ch_SessionID m) + 2 * len (ch_KEMSuites m)
    + len (ch_CHKEMPublicKey m) + 2 * len (ch_CipherSuites m)
    + len (wire_opt 2 (ch_CHKEMStaticCiphertext m)) + len (wire_opt 1 (ch_PSKIdentity m)))
    as Hp by (subst p; golia).
  pose proof (len_wire_opt 2 (ch_CHKEMStaticCiphertext m)) as Ho2.
  pose proof (len_wire_opt 1 (ch_PSKIdentity m)) as Ho1.
  assert (44 <= len p < 2 ^ 32) as Hpb by (repeat case_match; golia). clear Ho1 Ho2.
  decode_at (wire_payload MessageTypeClientHello p ++ trail) H Hl.
  rw len_app len_wire_payload in Hl. unfold wire_payload in H. rw -!app_assoc in H.
  set (L := len p) in *. clearbody L. clear p.
  unfold DecodeClientHello. gd. rd H. gd.
  eapply (at_off_step _ _ 1) in H; [|golia]. rd H. cbv zeta. do 2 gd.
  eapply (at_off_step _ _ 5) in H; [|golia].
  rd H. rd (at_off_cons _ _ _ _ H). eapply (at_off_step _ _ 7) in H; [|golia]. rd H.
  eapply at_off_app in H. rw (readSessionID_at _ _ _ _ _ H) ?obind_Ok_l; [golia|]. gd.
  do 2 eapply at_off_app in H. rd H. eapply at_off_app in H. rd H. gd.
  eapply at_off_app in H.
  rw length_to_nat (readU16s_at _ _ _ _ _ H) ?obind_Ok_l; [golia|done|].
  eapply at_off_app in H. rw (readLenPrefixed_at _ _ _ _ _ _ H) ?obind_Ok_l; [golia..|].
  gd. do 2 eapply at_off_app in H. rd H. gd. eapply at_off_app in H.
  rw length_to_nat (readU16s_at _ _ _ _ _ H) ?obind_Ok_l;
    [golia|by eapply Forall_impl; [done|apply CipherSuite_IsSupported_u16]|].
  eapply at_off_app in H.
  rw (readStaticCiphertext_at _ _ _ _ _ _ H) ?obind_Ok_l; [golia..|].
  eapply at_off_app in H. rw (readPSKIdentity_at _ _ _ _ _ _ H) ?obind_Ok_l; [golia..|].
  by destruct m as [[] ? ? ? ? ? ? ? ?]; rw Hval.
Qed.

Lemma DecodeServerHello_wire m trail : ServerHello_ok m -> ServerHello_fits m ->
  DecodeServerHello (wire_ServerHello m ++ trail) = Ok m.
Proof.
  intros Hok [Hs Hct].
  pose proof (proj2 (ServerHello_Validate_ok m) Hok) as Hval.
  destruct Hok as [_ Hr Hsid Hct0 Hcs%CipherSuite_IsSupported_u16].
  unfold wire_ServerHello. set (p := [Major _; _] ++ _).
  assert (len p = 41 + len (sh_SessionID m) + len (sh_CHKEMCiphertext m)) as Hp
    by (subst p; golia).
  decode_at (wire_payload MessageTypeServerHello p ++ trail) H Hl.
  rw len_app len_wire_payload in Hl. unfold wire_payload in H. rw -!app_assoc in H.
  set (L := len p) in *. clearbody L. clear p.
  unfold DecodeServerHello. gd. rd H. gd.
  eapply (at_off_step _ _ 1) in H; [|golia]. rd H. cbv zeta. do 2 gd.
  eapply (at_off_step _ _ 5) in H; [|golia].
  rd H. rd (at_off_cons _ _ _ _ H). eapply (at_off_step _ _ 7) in H; [|golia]. rd H.
  eapply at_off_app in H. rw (readSessionID_at _ _ _ _ _ H) ?obind_Ok_l; [golia|]. gd.
  do 2 eapply at_off_app in H. rd H. eapply at_off_app in H.
  rw (readLenPrefixed_at _ _ _ _ _ _ H) ?obind_Ok_l; [golia..|].
  gd. do 2 eapply at_off_app in H. rd H.
  by destruct m as [[] ? ? ? ? ?]; rw Hval.
Qed.

Lemma EncodeFinished_wire mt vd : len vd = 32 ->
  EncodeFinished mt vd = Ok (wire_payload mt vd).
Proof.
  intros H. unfold EncodeFinished. gd. cbv zeta. rw c_make_filled. do 3 cursor_step.
  rw filled_done; [golia|]. by rw -app_assoc -{1}H.
Qed.

Lemma DecodeFinished_wire mt vd trail : len vd = 32 ->
  mt = MessageTypeClientFinished \/ mt = MessageTypeServerFinished ->
  DecodeFinished (wire_payload mt vd ++ trail) = Ok vd.
Proof.
  intros Hl Hmt. decode_at (wire_payload mt vd ++ trail) H Hd.
  unfold DecodeFinished. gd. unfold wire_payload in H. rw -!app_assoc in H. rd H.
  replace (_ || _) with true by (by destruct Hmt as [-> | ->]).
  do 2 eapply at_off_app in H. by rd H.
Qed.

Lemma EncodeData_wire seq p : len p <= MaxPayloadSize ->
  EncodeData seq p = Ok (wire_payload MessageTypeData (be_put 8 seq ++ p)).
Proof.
  intros H. unfold EncodeData. gd. cbv zeta. rw u32_small; [golia|]. rw c_make_filled.
  do 4 cursor_step. rw filled_done; [golia|]. rw -!app_assoc. f_equal.
  apply wire_payload_eq. golia.
Qed.

Lemma DecodeData_wire seq p : is_u64 seq ->
  DecodeData (wire_payload MessageTypeData (be_put 8 seq ++ p)) = Ok (seq, p).
Proof.
  intros Hs. decode_at (wire_payload MessageTypeData (be_put 8 seq ++ p)) H Hd.
  unfold DecodeData. gd. unfold wire_payload in H. rw -?app_assoc in H. rd H. gd.
  do 2 eapply at_off_app in H. rd H. eapply at_off_app in H.
  by rw (slice_from_at_eq _ _ _ _ H); [golia|].
Qed.

Lemma EncodeRekey_wire seq p : 8 + len p < 2 ^ 32 ->
  EncodeRekey seq p = Ok (wire_payload MessageTypeRekey (be_put 8 seq ++ p)).
Proof.
  intros H. unfold EncodeRekey. cbv zeta. rw u32_small; [golia|]. rw c_make_filled.
  do 4 cursor_step. rw filled_done; [golia|]. rw -!app_assoc. f_equal.
  apply wire_payload_eq. golia.
Qed.

Lemma DecodeRekey_wire seq p : is_u64 seq ->
  DecodeRekey (wire_payload MessageTypeRekey (be_put 8 seq ++ p)) = Ok (seq, p).
Proof.
  intros Hs. decode_at (wire_payload MessageTypeRekey (be_put 8 seq ++ p)) H Hd.
  unfold DecodeRekey. gd. unfold wire_payload in H. rw -?app_assoc in H. rd H. gd.
  do 2 eapply at_off_app in H. rd H. eapply at_off_app in H.
  by rw (slice_from_at_eq _ _ _ _ H); [golia|].
Qed.

Definition wire_Rekey_payload (pk : list Z) (seq : Z) : list Z :=
  be_put 2 (len pk) ++ pk ++ be_put 8 seq.

Lemma EncodeRekeyPayload_wire pk seq : 0 < len pk < 2 ^ 16 ->
  EncodeRekeyPayload pk seq = Ok (wire_Rekey_payload pk seq).
Proof.
  intros H. unfold EncodeRekeyPayload. gd. cbv zeta. rw u16_small; [golia|].
  rw c_make_filled. do 3 cursor_step. rw filled_done; [golia|]. by rw -!app_assoc.
Qed.

Lemma DecodeRekeyPayload_wire pk seq trail : 0 < len pk < 2 ^ 16 -> is_u64 seq ->
  DecodeRekeyPayload (wire_Rekey_payload pk seq ++ trail) = Ok (pk, seq).
Proof.
  intros Hpk Hs. decode_at (wire_Rekey_payload pk seq ++ trail) H Hd. unfold wire_Rekey_payload in *.
  unfold DecodeRekeyPayload. gd. rw -!app_assoc in H.
  rd H. gd. eapply at_off_app in H. rd H. eapply at_off_app in H. by rd H.
Qed.

Lemma EncodeAlert_wire level code desc : len desc <= 255 ->
  EncodeAlert level code desc
  = Ok (wire_payload MessageTypeAlert ([level; code; len desc] ++ desc)).
Proof.
  intros H. unfold EncodeAlert.
  replace (255 <? len desc) with false by (symmetry; apply Z.ltb_ge; golia).
  rw obind_Ok_l. cbv zeta. rw u8_small; [golia|]. rw u32_small; [golia|]. rw c_make_filled.
  do 6 cursor_step. rw filled_done; [golia|]. rw -!app_assoc. f_equal.
  apply (wire_payload_eq _ ([level; code; len desc] ++ desc)). golia.
Qed.

Lemma DecodeAlert_wire level code desc trail : len desc <= 255 ->
  DecodeAlert (wire_payload MessageTypeAlert ([level; code; len desc] ++ desc) ++ trail)
  = Ok (mkAlertMessage level code desc).
Proof.
  intros Hd. set (p := [level; code; len desc] ++ desc).
  assert (len p = 3 + len desc) as Hp by (subst p; golia).
  decode_at (wire_payload MessageTypeAlert p ++ trail) H Hl.
  unfold DecodeAlert. gd. unfold wire_payload in H. rw -!app_assoc in H. rd H. gd.
  do 2 eapply at_off_app in H. rd H. apply at_off_cons in H. rd H.
  apply at_off_cons in H. rd H. gd. apply at_off_cons in H. by rd H.
Qed.

Definition wire_HelloRetryRequest (m : HelloRetryRequest) : list Z :=
  wire_payload MessageTypeHelloRetryRequest
    ([Major (hrr_Version m); Minor (hrr_Version m)] ++ be_put 2 (hrr_KEMSuite m)).

Lemma EncodeHelloRetryRequest_wire m :
  EncodeHelloRetryRequest m = Ok (wire_HelloRetryRequest m).
Proof.
  unfold EncodeHelloRetryRequest. cbv zeta. rw c_make_filled. do 5 cursor_step.
  rw filled_done; [golia|]. by rw -!app_assoc.
Qed.

Lemma DecodeHelloRetryRequest_wire m trail : is_u16 (hrr_KEMSuite m) ->
  DecodeHelloRetryRequest (wire_HelloRetryRequest m ++ trail) = Ok m.
Proof.
  intros Hs. decode_at (wire_HelloRetryRequest m ++ trail) H Hl.
  unfold wire_HelloRetryRequest in *. unfold DecodeHelloRetryRequest. gd.
  unfold wire_payload in H. rw -!app_assoc in H. rd H. gd.
  do 2 eapply at_off_app in H. rd H. rd (at_off_cons _ _ _ _ H).
  eapply (at_off_app _ _ [_; _]) in H. rd H. by destruct m as [[] ?].
Qed.

(** * Reads that stay in range *)

Lemma readLenPrefixed_nopanic d off pe P : is_bytes d -> 0 <= off -> pe <= len d ->
  (forall b off', off <= off' <= pe -> len b < 2 ^ 16 -> P (b, off')) ->
  nopanic (readLenPrefixed d off pe) P.
Proof. intros Hd H0 Hpe HP. unfold readLenPrefixed. np. apply HP; golia. Qed.

Lemma readU16s_nopanic n d off P : is_bytes d -> 0 <= off -> off + 2 * Z.of_nat n <= len d ->
  (forall l, Forall is_u16 l -> length l = n -> P (l, off + 2 * Z.of_nat n)) ->
  nopanic (readU16s n d off) P.
Proof.
  intros Hd. revert off P. induction n as [|n IH]; intros off P H0 Hl HP; cbn [readU16s].
  - cbn. rw -{1}(Z.add_0_r off). by apply HP.
  - np. apply IH; [lia..|]. intros l Hl16 Hn. cbn.
    replace (off + 2 + 2 * Z.of_nat n) with (off + 2 * Z.of_nat (S n)) by lia.
    apply HP; [by constructor|by cbn; f_equal].
Qed.

Lemma readStaticCiphertext_nopanic d off pe P : is_bytes d -> 0 <= off -> pe <= len d ->
  (forall b off', off <= off' -> len b < 2 ^ 16 -> P (b, off')) ->
  nopanic (readStaticCiphertext d off pe) P.
Proof.
  intros Hd H0 Hpe HP. unfold readStaticCiphertext. np; [|apply HP; golia..].
  apply readLenPrefixed_nopanic; [done|lia..|]. intros. apply HP; lia.
Qed.

Lemma readPSKIdentity_nopanic d off pe : is_bytes d -> 0 <= off -> pe <= len d ->
  nopanic (readPSKIdentity d off pe) (fun _ => True).
Proof. intros Hd H0 Hpe. unfold readPSKIdentity. np. Qed.

(** The two hello decoders read the session id without a bound check: the input has a good
    header and type, an in-range payload length that is at least the minimum, and a session-id
    length byte (at offset 39) that reaches past the end of the input. *)
Definition session_id_overruns (mt : MessageType) (minPayloadLen : Z) (data : list Z) : bool :=
  match data !! 0%nat, @get_be error 4 data 1, data !! 39%nat with
  | Some m, Ok n, Some s =>
      (m =? mt) && (minPayloadLen <=? n) && (5 + n <=? len data) && (len data <? 40 + s)
  | _, _, _ => false
  end.

Lemma session_id_overruns_true mt k data : session_id_overruns mt k data = true <->
  data !! 0%nat = Some mt /\
  (exists n, @get_be error 4 data 1 = Ok n /\ k <= n /\ 5 + n <= len data) /\
  exists s, data !! 39%nat = Some s /\ len data < 40 + s.
Proof.
  unfold session_id_overruns. split.
  - intros H. repeat case_match; try done. zbool. subst. repeat split; eauto.
  - intros (-> & (n & -> & ? & ?) & s & -> & ?). rw Z.eqb_refl.
    rw !(proj2 (Z.leb_le _ _)); [done|done|]. by apply Z.ltb_lt.
Qed.

Lemma readSessionID_nopanic d off P : is_bytes d -> 0 <= off < len d ->
  (forall s, d !! Z.to_nat off = Some s -> off + 1 + s <= len d) ->
  (forall b off', off + 1 <= off' <= len d -> P (b, off')) ->
  nopanic (readSessionID d off) P.
Proof.
  intros Hd H0 Hs HP. unfold readSessionID. apply nopanic_bind, nopanic_idx; [done|done|].
  intros n Hn Hx%Hs. np; apply HP; golia.
Qed.

Lemma ClientHello_Validate_nopanic m : ClientHello_Validate m <> Panic.
Proof.
  unfold ClientHello_Validate. intros Hp. repeat (case_match; try done);
    apply obind_Panic in Hp as [Hp|([] & _ & Hp)]; by [apply validate_suites_no_panic in Hp|].
Qed.

Lemma ServerHello_Validate_nopanic m : ServerHello_Validate m <> Panic.
Proof. unfold ServerHello_Validate. by repeat case_match. Qed.

Lemma DecodeClientHello_nopanic d : is_bytes d ->
  session_id_overruns MessageTypeClientHello 44 d = false ->
  nopanic (DecodeClientHello d) (fun m => ClientHello_ok m /\ ClientHello_fits m).
Proof.
  intros Hd Hov. unfold DecodeClientHello. np.
  apply readSessionID_nopanic; [done|golia| |].
  { intros n Hn. apply Z.nlt_ge. intros Hlt. subst x. apply not_true_iff_false in Hov.
    apply Hov, session_id_overruns_true. split; [done|]. split; [exists z; split; [done|split; golia]|].
    exists n. split; [exact Hn|golia]. }
  intros sid off Hoff. np.
  apply readU16s_nopanic; [done|golia..|]. intros suites Hsuites Hnsuites. np.
  apply readLenPrefixed_nopanic; [done|golia..|]. intros pk off' Hoff' Hpk. np.
  apply readU16s_nopanic; [done|golia..|]. intros css Hcss Hncss. np.
  apply readStaticCiphertext_nopanic; [done|golia..|]. intros static off'' Hoff'' Hst. np.
  eapply nopanic_impl; [apply readPSKIdentity_nopanic; [done|golia..]|]. intros psk _. np.
  destruct (ClientHello_Validate _) as [[]| |] eqn:Hv; [|done|].
  - apply ClientHello_Validate_ok in Hv. split; [done|]. split; cbn; try done;
      unfold len; rw ?Hnsuites ?Hncss; golia.
  - by apply ClientHello_Validate_nopanic in Hv.
Qed.

Lemma DecodeServerHello_nopanic d : is_bytes d ->
  session_id_overruns MessageTypeServerHello 41 d = false ->
  nopanic (DecodeServerHello d) (fun m => ServerHello_ok m /\ ServerHello_fits m).
Proof.
  intros Hd Hov. unfold DecodeServerHello. np.
  apply readSessionID_nopanic; [done|golia| |].
  { intros n Hn. apply Z.nlt_ge. intros Hlt. subst x. apply not_true_iff_false in Hov.
    apply Hov, session_id_overruns_true. split; [done|]. split; [exists z; split; [done|split; golia]|].
    exists n. split; [exact Hn|golia]. }
  intros sid off Hoff. np.
  apply readLenPrefixed_nopanic; [done|golia..|]. intros pk off' Hoff' Hpk. np.
  destruct (ServerHello_Validate _) as [[]| |] eqn:Hv; [|done|].
  - apply ServerHello_Validate_ok in Hv. split; [done|]. split; cbn; golia.
  - by apply ServerHello_Validate_nopanic in Hv.
Qed.

(** A session id that overruns the input panics in [readSessionID]. *)
Lemma readSessionID_overrun d s : is_bytes d -> d !! 39%nat = Some s -> len d < 40 + s ->
  40 <= len d -> readSessionID d 39 = Panic.
Proof.
  intros Hd Hs Hl Hd40. unfold readSessionID. rw (idx_lookup d 39 s); [lia|done|].
  cbn [obind]. replace (0 <? s) with true by (symmetry; apply Z.ltb_lt; lia).
  cbv zeta. by rw (proj2 (slice_panic d (39 + 1) (39 + 1 + s))); [lia|].
Qed.

Lemma DecodeClientHello_overrun d : is_bytes d ->
  session_id_overruns MessageTypeClientHello 44 d = true -> DecodeClientHello d = Panic.
Proof.
  intros Hd (H0 & (n & Hn & Hmin & Hin) & s & Hs & Hl)%session_id_overruns_true.
  unfold DecodeClientHello, HeaderSize. gd. rw (idx_lookup d 0 MessageTypeClientHello) //.
  rw obind_Ok_l Hn obind_Ok_l. gd. cbv zeta. do 2 gd.
  destruct (@idx_in error _ d 5) as [? ->]; [lia|]. rw obind_Ok_l.
  destruct (@idx_in error _ d (5 + 1)) as [? ->]; [lia|]. rw obind_Ok_l.
  destruct (@slice_in error _ d (5 + 2) (5 + 2 + 32)) as [? ->]; [lia..|]. rw obind_Ok_l.
  change (5 + 2 + 32) with 39. by rw (readSessionID_overrun _ _ Hd Hs Hl); [lia|].
Qed.

Lemma DecodeServerHello_overrun d : is_bytes d ->
  session_id_overruns MessageTypeServerHello 41 d = true -> DecodeServerHello d = Panic.
Proof.
  intros Hd (H0 & (n & Hn & Hmin & Hin) & s & Hs & Hl)%session_id_overruns_true.
  unfold DecodeServerHello, HeaderSize. gd. rw (idx_lookup d 0 MessageTypeServerHello) //.
  rw obind_Ok_l Hn obind_Ok_l. gd. cbv zeta. do 2 gd.
  destruct (@idx_in error _ d 5) as [? ->]; [lia|]. rw obind_Ok_l.
  destruct (@idx_in error _ d (5 + 1)) as [? ->]; [lia|]. rw obind_Ok_l.
  destruct (@slice_in error _ d (5 + 2) (5 + 2 + 32)) as [? ->]; [lia..|]. rw obind_Ok_l.
  change (5 + 2 + 32) with 39. by rw (readSessionID_overrun _ _ Hd Hs Hl); [lia|].
Qed.

Lemma DecodeClientHello_Ok d m : is_bytes d -> DecodeClientHello d = Ok m ->
  ClientHello_ok m /\ ClientHello_fits m.
Proof.
  intros Hd Hm. pose proof (DecodeClientHello_nopanic d Hd) as H. rw Hm in H. apply H.
  apply not_true_iff_false. intros Hov. by rw (DecodeClientHello_overrun d Hd Hov) in Hm.
Qed.

Lemma DecodeServerHello_Ok d m : is_bytes d -> DecodeServerHello d = Ok m ->
  ServerHello_ok m /\ ServerHello_fits m.
Proof.
  intros Hd Hm. pose proof (DecodeServerHello_nopanic d Hd) as H. rw Hm in H. apply H.
  apply not_true_iff_false. intros Hov. by rw (DecodeServerHello_overrun d Hd Hov) in Hm.
Qed.

(** * Framing *)

Lemma ReadFull_app n a b : len a = n -> ReadFull n (a ++ b) = (b, Ok a).
Proof.
  intros <-. unfold ReadFull. pose proof (len_nonneg b).
  replace (len a <=? len (a ++ b)) with true by (symmetry; apply Z.leb_le; golia).
  by rw length_to_nat take_app_length drop_app_length.
Qed.

Lemma ReadMessage_wire mt p rest : len p <= MaxMessageSize ->
  ReadMessage (wire_payload mt p ++ rest) = (rest, Ok (wire_payload mt p)).
Proof.
  intros Hp. unfold ReadMessage, st_bind, wire_payload.
  rw !app_assoc -(app_assoc _ p rest). rw ReadFull_app; [golia|]. unfold st_lift.
  assert (at_off ([mt] ++ be_put 4 (len p)) 1 (be_put 4 (len p) ++ [])) as H
    by (rw app_nil_r; apply (at_off_pre [mt])).
  rw (get_be_at_eq _ _ _ _ _ _ H); [done|golia|].
  replace (negb _) with true by (symmetry; apply negb_true_iff, Z.ltb_ge; golia).
  destruct (0 <? len p) eqn:H0; [by rw ReadFull_app|].
  destruct p; [|golia]. by rw app_nil_r.
Qed.

(** [read_all k] calls [ReadMessage] [k] times on the same reader. *)
Fixpoint read_all (k : nat) : ST (list Z) error (list (list Z)) :=
  match k with
  | O => st_ret []
  | S k => do! m := ReadMessage in
           do! ms := read_all k in
           st_ret (m :: ms)
  end.

Lemma read_all_wire ms rest : Forall (fun m : Z * list Z => len m.2 <= MaxMessageSize) ms ->
  read_all (length ms) (concat (map (fun m => wire_payload m.1 m.2) ms) ++ rest)
  = (rest, Ok (map (fun m => wire_payload m.1 m.2) ms)).
Proof.
  induction 1 as [|[mt p] ms Hp _ IH]; [done|]. cbn [length read_all map concat].
  unfold st_bind at 1. rw -app_assoc ReadMessage_wire //. unfold st_bind. by rw IH.
Qed.

(** [copy] into a reused buffer overwrites what was there. *)
Lemma c_copy_over {E} src n pre rest : len src <= len rest ->
  @c_copy E src n (Cursor (pre ++ rest) (len pre))
  = Ok (Cursor (pre ++ src ++ drop (length src) rest) (len pre + n)).
Proof.
  intros H. pose proof (len_nonneg pre). unfold c_copy. cbn [c_buf c_off].
  replace (_ && _) with true by (symmetry; apply andb_true_iff; split; apply Z.leb_le; golia).
  rw (take_ge src); [autorewrite with golen; unfold len in *; lia|].
  do 2 f_equal. unfold len. rw Nat2Z.id take_app_length -Nat2Z.inj_add Nat2Z.id.
  by rw -drop_drop drop_app_length.
Qed.

(** [same_message o1 o2]: [ReadMessage]'s result [o1] and [ReadMessageInto]'s result [o2] are
    the same error or the same message. *)
Definition same_message (o1 : outcome error (list Z)) (o2 : outcome error (list Z * Z)) : Prop :=
  match o1, o2 with
  | Ok m, Ok (b, n) => n = len m /\ take (Z.to_nat n) b = m
  | Err e, Err e' => e = e'
  | _, _ => False
  end.

Lemma ReadFull_inv n r : 0 <= n ->
  (exists a b, r = a ++ b /\ len a = n /\ ReadFull n r = (b, Ok a)) \/
  (exists e, ReadFull n r = ([], Err e)).
Proof.
  intros Hn. unfold ReadFull. destruct (n <=? len r) eqn:H; [left|right; eauto].
  exists (take (Z.to_nat n) r), (drop (Z.to_nat n) r). rw take_drop.
  repeat split. golia.
Qed.

Lemma ReadMessageInto_same buf r : is_bytes r ->
  (ReadMessageInto buf r).1 = (ReadMessage r).1 /\
  same_message (ReadMessage r).2 (ReadMessageInto buf r).2.
Proof.
  intros Hr. unfold ReadMessage, ReadMessageInto, st_bind.
  destruct (ReadFull_inv HeaderSize r) as [(h & r1 & -> & Hh & ->)|[e ->]]; [done| |done].
  apply Forall_app in Hr as [Hhb _]. unfold st_lift.
  destruct (get_be 4 h 1) as [n|e|] eqn:Hn;
    [|by apply get_be_not_err in Hn|apply get_be_panic in Hn; golia].
  apply get_be_bound in Hn; [|done]. destruct (negb _) eqn:Hmax; [|done]. cbv zeta.
  set (b := if len buf <? HeaderSize + n then _ else buf).
  assert (HeaderSize + n <= len b) as Hb by (subst b; case_match; golia). clearbody b.
  rw (c_copy_over h HeaderSize [] b); [golia|]. rw app_nil_l.
  replace (Cursor _ _) with (Cursor (h ++ drop (length h) b) (len h)) by (f_equal; golia).
  destruct (0 <? n) eqn:H0.
  - destruct (ReadFull_inv n r1) as [(p & r2 & -> & Hp & ->)|[e ->]]; [golia| |done].
    rw c_copy_over; [autorewrite with golen; unfold len in *; lia|].
    cbn. split; [done|]. split; [golia|].
    rw app_assoc take_app_length' //. rw -length_to_nat. f_equal. golia.
  - cbn. split; [done|]. split; [golia|]. rw take_app_length' //.
    rw -length_to_nat. f_equal. golia.
Qed.

(** * Properties *)

(** Two small hellos for the witnesses. *)
Definition example_ClientHello : ClientHello :=
  mkClientHello Current (replicate 32 7) [1; 2; 3] 1 [1; 2] [9; 8; 7; 6]
    [CipherSuiteAES256GCM; CipherSuiteChaCha20Poly1305] [5; 5] [112; 115; 107].

Definition example_ServerHello : ServerHello :=
  mkServerHello Current (replicate 32 3) (replicate 16 4) 2 [1; 2; 3; 4; 5]
    CipherSuiteChaCha20Poly1305.

(** A ClientHello of 49 bytes: a well-formed header, payload length 44, and the session-id
    length byte 200. *)
Definition overrun_ClientHello : list Z :=
  [MessageTypeClientHello; 0; 0; 0; 44; 6; 0] ++ replicate 32 0 ++ [200] ++ replicate 9 0.

Definition overrun_ServerHello : list Z :=
  [MessageTypeServerHello; 0; 0; 0; 41; 6; 0] ++ replicate 32 0 ++ [200] ++ replicate 6 0.

(** C33: encoding a ClientHello that validates and whose lists fit their length prefixes
    succeeds, and decoding the bytes, with anything after them, gives the same ClientHello. *)
Theorem ClientHello_roundtrip m trail :
  ClientHello_ok m -> ClientHello_fits m ->
  exists bs, EncodeClientHello m = Ok bs /\ DecodeClientHello (bs ++ trail) = Ok m.
Proof.
  intros Hok Hfit. exists (wire_ClientHello m).
  split; [by apply EncodeClientHello_wire|by apply DecodeClientHello_wire].
Qed.

Lemma ClientHello_roundtrip_witness :
  exists bs, EncodeClientHello example_ClientHello = Ok bs /\
             DecodeClientHello (bs ++ [99]) = Ok example_ClientHello.
Proof.
  apply (ClientHello_roundtrip example_ClientHello [99]).
  - apply ClientHello_Validate_ok. reflexivity.
  - split; repeat constructor; by vm_compute.
Defined.

(** Encoding a ServerHello that validates and whose ciphertext fits its length prefix
    succeeds, and decoding the bytes, with anything after them, gives the same ServerHello. *)
Theorem ServerHello_roundtrip m trail :
  ServerHello_ok m -> ServerHello_fits m ->
  exists bs, EncodeServerHello m = Ok bs /\ DecodeServerHello (bs ++ trail) = Ok m.
Proof.
  intros Hok Hfit. exists (wire_ServerHello m).
  split; [by apply EncodeServerHello_wire|by apply DecodeServerHello_wire].
Qed.

Lemma ServerHello_roundtrip_witness :
  exists bs, EncodeServerHello example_ServerHello = Ok bs /\
             DecodeServerHello (bs ++ []) = Ok example_ServerHello.
Proof.
  apply (ServerHello_roundtrip example_ServerHello []).
  - apply ServerHello_Validate_ok. reflexivity.
  - split; repeat constructor; by vm_compute.
Defined.

(** A ClientHello that comes out of the decoder, whatever bytes went in, validates and can
    be encoded again to bytes that decode to it: decoding is a retraction of encoding. *)
Theorem DecodeClientHello_reencodes d m :
  is_bytes d -> DecodeClientHello d = Ok m ->
  ClientHello_Validate m = Ok tt /\
  exists bs, EncodeClientHello m = Ok bs /\ DecodeClientHello bs = Ok m.
Proof.
  intros Hd Hm. destruct (DecodeClientHello_Ok d m Hd Hm) as [Hok Hfit].
  split; [by apply ClientHello_Validate_ok|]. exists (wire_ClientHello m).
  split; [by apply EncodeClientHello_wire|].
  rw -(app_nil_r (wire_ClientHello m)). by apply DecodeClientHello_wire.
Qed.

Lemma DecodeClientHello_reencodes_witness :
  ClientHello_Validate example_ClientHello = Ok tt /\
  exists bs, EncodeClientHello example_ClientHello = Ok bs /\
             DecodeClientHello bs = Ok example_ClientHello.
Proof.
  apply (DecodeClientHello_reencodes (wire_ClientHello example_ClientHello)).
  - apply is_bytesb_ok. reflexivity.
  - vm_compute. reflexivity.
Defined.

(** C34: the ClientHello decoder panics on exactly those byte strings whose session-id length
    byte reaches past the end of the message, behind a header that is otherwise in order; on
    every other input it returns a value or an error. *)
Theorem DecodeClientHello_panics_iff d : is_bytes d ->
  (DecodeClientHello d = Panic <-> session_id_overruns MessageTypeClientHello 44 d = true).
Proof.
  intros Hd. split; [|by apply DecodeClientHello_overrun]. intros Hp.
  destruct (session_id_overruns _ _ _) eqn:Ho; [done|].
  pose proof (DecodeClientHello_nopanic d Hd Ho) as H. by rw Hp in H.
Qed.

Lemma DecodeClientHello_panics_iff_witness : DecodeClientHello overrun_ClientHello = Panic.
Proof.
  apply (DecodeClientHello_panics_iff overrun_ClientHello); [|reflexivity].
  apply is_bytesb_ok. reflexivity.
Defined.

(** The ServerHello decoder panics on exactly the inputs with the same defect. *)
Theorem DecodeServerHello_panics_iff d : is_bytes d ->
  (DecodeServerHello d = Panic <-> session_id_overruns MessageTypeServerHello 41 d = true).
Proof.
  intros Hd. split; [|by apply DecodeServerHello_overrun]. intros Hp.
  destruct (session_id_overruns _ _ _) eqn:Ho; [done|].
  pose proof (DecodeServerHello_nopanic d Hd Ho) as H. by rw Hp in H.
Qed.

Lemma DecodeServerHello_panics_iff_witness : DecodeServerHello overrun_ServerHello = Panic.
Proof.
  apply (DecodeServerHello_panics_iff overrun_ServerHello); [|reflexivity].
  apply is_bytesb_ok. reflexivity.
Defined.

(** The other decoders never panic, on any byte string. *)
Theorem other_decoders_never_panic d : is_bytes d ->
  DecodeHelloRetryRequest d <> Panic /\ DecodeFinished d <> Panic /\ DecodeData d <> Panic /\
  DecodeAlert d <> Panic /\ DecodeRekeyPayload d <> Panic /\ DecodeRekey d <> Panic /\
  GetMessageType d <> Panic.
Proof.
  intros Hd. repeat split; apply (nopanic_not_Panic _ (fun _ => True)).
  - unfold DecodeHelloRetryRequest. np.
  - unfold DecodeFinished. np.
  - unfold DecodeData. np.
  - unfold DecodeAlert. np.
  - unfold DecodeRekeyPayload. np.
  - unfold DecodeRekey. np.
  - unfold GetMessageType. np.
Qed.

Lemma other_decoders_never_panic_witness :
  DecodeAlert [MessageTypeAlert; 0; 0; 0; 3; 2; 3; 255] <> Panic.
Proof.
  apply (other_decoders_never_panic [MessageTypeAlert; 0; 0; 0; 3; 2; 3; 255]).
  apply is_bytesb_ok. reflexivity.
Defined.

(** A data message within the payload limit is encoded and decoded back; one byte more
    and the encoder refuses it. *)
Theorem Data_roundtrip seq p : is_u64 seq ->
  (len p <= MaxPayloadSize ->
   exists bs, EncodeData seq p = Ok bs /\ len bs = 13 + len p /\ DecodeData bs = Ok (seq, p)) /\
  (MaxPayloadSize < len p -> EncodeData seq p = Err ErrMessageTooLarge).
Proof.
  intros Hs. split; intros Hp.
  - exists (wire_payload MessageTypeData (be_put 8 seq ++ p)).
    split; [by apply EncodeData_wire|]. split; [golia|by apply DecodeData_wire].
  - unfold EncodeData. by rw (proj2 (Z.ltb_lt _ _) Hp).
Qed.

Lemma Data_roundtrip_witness :
  exists bs, EncodeData 42 [1; 2; 3] = Ok bs /\ len bs = 13 + len [1; 2; 3] /\
             DecodeData bs = Ok (42, [1; 2; 3]).
Proof. apply (Data_roundtrip 42 [1; 2; 3]); [by vm_compute|by vm_compute]. Defined.

(** The remaining messages round trip under their size limits: the finished MAC, the
    alert, the inner rekey payload, the encrypted rekey message and the retry request. *)
Theorem control_messages_roundtrip :
  (forall mt vd trail, len vd = 32 ->
     mt = MessageTypeClientFinished \/ mt = MessageTypeServerFinished ->
     exists bs, EncodeFinished mt vd = Ok bs /\ DecodeFinished (bs ++ trail) = Ok vd) /\
  (forall level code desc trail, len desc <= 255 ->
     exists bs, EncodeAlert level code desc = Ok bs /\
                DecodeAlert (bs ++ trail) = Ok (mkAlertMessage level code desc)) /\
  (forall pk seq trail, 0 < len pk < 2 ^ 16 -> is_u64 seq ->
     exists bs, EncodeRekeyPayload pk seq = Ok bs /\
                DecodeRekeyPayload (bs ++ trail) = Ok (pk, seq)) /\
  (forall seq ct, 8 + len ct < 2 ^ 32 -> is_u64 seq ->
     exists bs, EncodeRekey seq ct = Ok bs /\ DecodeRekey bs = Ok (seq, ct)) /\
  (forall m trail, is_u16 (hrr_KEMSuite m) ->
     exists bs, EncodeHelloRetryRequest m = Ok bs /\
                DecodeHelloRetryRequest (bs ++ trail) = Ok m).
Proof.
  split; [|split; [|split; [|split]]].
  - eauto using EncodeFinished_wire, DecodeFinished_wire.
  - eauto using EncodeAlert_wire, DecodeAlert_wire.
  - eauto using EncodeRekeyPayload_wire, DecodeRekeyPayload_wire.
  - eauto using EncodeRekey_wire, DecodeRekey_wire.
  - eauto using EncodeHelloRetryRequest_wire, DecodeHelloRetryRequest_wire.
Qed.

(** Reading a stream that holds framed messages one after the other returns exactly those
    messages, in order, and leaves what follows them: no byte is lost or read twice. *)
Theorem ReadMessage_stream ms rest :
  Forall (fun m : Z * list Z => len m.2 <= MaxMessageSize) ms ->
  read_all (length ms) (concat (map (fun m => wire_payload m.1 m.2) ms) ++ rest)
  = (rest, Ok (map (fun m => wire_payload m.1 m.2) ms)).
Proof. apply read_all_wire. Qed.

Lemma ReadMessage_stream_witness :
  read_all 2 (concat [wire_payload 0x10 [1; 2]; wire_payload 0x12 []] ++ [7])
  = ([7], Ok [wire_payload 0x10 [1; 2]; wire_payload 0x12 []]).
Proof.
  apply (ReadMessage_stream [(0x10, [1; 2]); (0x12, [])] [7]).
  repeat constructor; by vm_compute.
Defined.

(** Reading into a reused buffer, whatever it held and however small it was, consumes the
    same bytes and gives the same message or error as [ReadMessage]. *)
Theorem ReadMessageInto_equiv buf r : is_bytes r ->
  (ReadMessageInto buf r).1 = (ReadMessage r).1 /\
  same_message (ReadMessage r).2 (ReadMessageInto buf r).2.
Proof. apply ReadMessageInto_same. Qed.

Lemma ReadMessageInto_equiv_witness :
  (ReadMessageInto [9; 9; 9; 9; 9; 9; 9; 9; 9] [16; 0; 0; 0; 2; 5; 6; 7]).1 = [7].
Proof.
  destruct (ReadMessageInto_equiv [9; 9; 9; 9; 9; 9; 9; 9; 9] [16; 0; 0; 0; 2; 5; 6; 7])
    as [H _]; [apply is_bytesb_ok; reflexivity|].
  rw H. reflexivity.
Defined.
