(* ===== verification/DatagramCodec.v ===== *)
(** The datagram frame codec.

    [pkg/protocol/datagram_codec.go] and [datagram_inplace.go]: the 14-byte common header and
    the DATA, HANDSHAKE and RETRY frames.  Slices handed to the parsers have their capacity
    bounded by the datagram (the receive loop slices its buffer to the datagram's length, and
    the parsers check lengths before they slice). *)

From Corelib Require Import ssreflect.
From stdpp Require Import base tactics list numbers.
From Stdlib Require Import ZArith Lia.
From S2P Require Import Prelude Base Messages.

Local Open Scope Z_scope.
Local Open Scope go_scope.

(** * The code *)

Definition DatagramFrameHandshake : Z := 0x01.
Definition DatagramFrameData : Z := 0x02.
Definition DatagramFrameClose : Z := 0x03.
Definition DatagramFrameRetry : Z := 0x04.

Definition DatagramHeaderSize : Z := 1 + 1 + 4 + 8.
Definition DatagramHandshakeExtSize : Z := 4 + 1 + 2 + 2 + 2 + 1.

Record DatagramHeader := mkDatagramHeader {
  dh_Type : Z;
  dh_Epoch : Z;
  dh_RecvIndex : Z;
  dh_Seq : Z }.

Record DatagramHandshakeHeader := mkDatagramHandshakeHeader {
  hh_Header : DatagramHeader;
  hh_SenderIndex : Z;
  hh_MsgType : MessageType;
  hh_FragOffset : Z;
  hh_FragLength : Z;
  hh_TotalLength : Z;
  hh_Cookie : list Z }.

Definition PeekDatagramType (data : list Z) : outcome error Z :=
  guard! negb (len data <? DatagramHeaderSize) else ErrInvalidMessage in
  idx data 0.

(** [h.Type = t] on a copy of the header. *)
Definition with_Type (t : Z) (h : DatagramHeader) : DatagramHeader :=
  mkDatagramHeader t (dh_Epoch h) (dh_RecvIndex h) (dh_Seq h).

Definition putDatagramHeader (h : DatagramHeader) (c : cursor) : outcome error cursor :=
  let! c := c_put [dh_Type h] c in
  let! c := c_put [dh_Epoch h] c in
  let! c := c_put (be_put 4 (dh_RecvIndex h)) c in
  c_put (be_put 8 (dh_Seq h)) c.

Definition parseDatagramHeader (data : list Z) : outcome error DatagramHeader :=
  guard! negb (len data <? DatagramHeaderSize) else ErrInvalidMessage in
  let! t := idx data 0 in
  let! epoch := idx data 1 in
  let! recvIndex := get_be 4 data 2 in
  let! seq := get_be 8 data 6 in
  Ok (mkDatagramHeader t epoch recvIndex seq).

Definition ParseDatagramHeader (data : list Z) : outcome error (DatagramHeader * list Z) :=
  let! h := parseDatagramHeader data in
  let! body := slice_from data DatagramHeaderSize in
  Ok (h, body).

Definition EncodeDatagramHeader (h : DatagramHeader) : outcome error (list Z) :=
  let! c := putDatagramHeader h (c_make DatagramHeaderSize) in
  Ok (c_buf c).

Definition EncodeDatagramData (h : DatagramHeader) (ciphertext : list Z)
    : outcome error (list Z) :=
  let h := with_Type DatagramFrameData h in
  let! c := putDatagramHeader h (c_make (DatagramHeaderSize + len ciphertext)) in
  let! c := c_copy ciphertext (len ciphertext) c in
  Ok (c_buf c).

Definition DatagramAAD (data : list Z) : outcome error (list Z) :=
  slice data 0 DatagramHeaderSize.

(** [append(dst, make([]byte, 14)...)], then the header into the grown tail. *)
Definition AppendDatagramDataHeader (dst : list Z) (h : DatagramHeader)
    : outcome error (list Z) :=
  let h := with_Type DatagramFrameData h in
  let! c := putDatagramHeader h
              (Cursor (dst ++ replicate (Z.to_nat DatagramHeaderSize) 0) (len dst)) in
  Ok (c_buf c).

Definition EncodeDatagramHandshake (h : DatagramHandshakeHeader) (fragment : list Z)
    : outcome error (list Z) :=
  guard! negb (255 <? len (hh_Cookie h)) else ErrInvalidMessage in
  let base := with_Type DatagramFrameHandshake (hh_Header h) in
  let total := DatagramHeaderSize + DatagramHandshakeExtSize + len (hh_Cookie h)
               + len fragment in
  let! c := putDatagramHeader base (c_make total) in
  let! c := c_put (be_put 4 (hh_SenderIndex h)) c in
  let! c := c_put [hh_MsgType h] c in
  let! c := c_put (be_put 2 (hh_FragOffset h)) c in
  let! c := c_put (be_put 2 (hh_FragLength h)) c in
  let! c := c_put (be_put 2 (hh_TotalLength h)) c in
  let! c := c_put [u8 (len (hh_Cookie h))] c in
  let! c := c_copy (hh_Cookie h) (len (hh_Cookie h)) c in
  let! c := c_copy fragment (len fragment) c in
  Ok (c_buf c).

(** [if cookieLen > 0 { h.Cookie = data[off:off+cookieLen]; off += cookieLen }]. *)
Definition readCookie (data : list Z) (off cookieLen : Z) : outcome error (list Z * Z) :=
  if 0 <? cookieLen
  then let! cookie := slice data off (off + cookieLen) in Ok (cookie, off + cookieLen)
  else Ok ([], off).

Definition ParseDatagramHandshake (data : list Z)
    : outcome error (DatagramHandshakeHeader * list Z) :=
  let! base := parseDatagramHeader data in
  guard! dh_Type base =? DatagramFrameHandshake else ErrInvalidMessage in
  let off := DatagramHeaderSize in
  guard! negb (len data <? off + DatagramHandshakeExtSize) else ErrInvalidMessage in
  let! senderIndex := get_be 4 data off in
  let off := off + 4 in
  let! msgType := idx data off in
  let off := off + 1 in
  let! fragOffset := get_be 2 data off in
  let off := off + 2 in
  let! fragLength := get_be 2 data off in
  let off := off + 2 in
  let! totalLength := get_be 2 data off in
  let off := off + 2 in
  let! cookieLen := idx data off in
  let off := off + 1 in
  guard! negb (len data <? off + cookieLen) else ErrInvalidMessage in
  let! '(cookie, off) := readCookie data off cookieLen in
  let! fragment := slice_from data off in
  guard! negb (len fragment <? fragLength) else ErrInvalidMessage in
  let! fragment := slice fragment 0 fragLength in
  guard! negb (totalLength <? fragOffset + fragLength) else ErrInvalidMessage in
  Ok (mkDatagramHandshakeHeader base senderIndex msgType fragOffset fragLength totalLength
        cookie, fragment).

Definition EncodeDatagramRetry (recvIndex : Z) (cookie : list Z) : outcome error (list Z) :=
  let! c := putDatagramHeader (mkDatagramHeader DatagramFrameRetry 0 recvIndex 0)
              (c_make (DatagramHeaderSize + len cookie)) in
  let! c := c_copy cookie (len cookie) c in
  Ok (c_buf c).

Definition ParseDatagramRetry (data : list Z) : outcome error (Z * list Z) :=
  let! '(h, body) := ParseDatagramHeader data in
  guard! dh_Type h =? DatagramFrameRetry else ErrInvalidMessage in
  Ok (dh_RecvIndex h, body).

(** * Wire formats *)

#[export] Hint Unfold DatagramHeaderSize DatagramHandshakeExtSize DatagramHeaderOverhead
  DatagramDataOverhead AESTagSize DatagramMTU : gosz.

(** The field widths of the common header. *)
Record DatagramHeader_ok (h : DatagramHeader) : Prop := {
  dho_type : is_u8 (dh_Type h);
  dho_epoch : is_u8 (dh_Epoch h);
  dho_recv : is_u32 (dh_RecvIndex h);
  dho_seq : is_u64 (dh_Seq h) }.

Record DatagramHandshakeHeader_ok (h : DatagramHandshakeHeader) : Prop := {
  hho_header : DatagramHeader_ok (hh_Header h);
  hho_sender : is_u32 (hh_SenderIndex h);
  hho_msg : is_u8 (hh_MsgType h);
  hho_off : is_u16 (hh_FragOffset h);
  hho_flen : is_u16 (hh_FragLength h);
  hho_total : is_u16 (hh_TotalLength h) }.

Definition wire_DatagramHeader (h : DatagramHeader) : list Z :=
  [dh_Type h] ++ [dh_Epoch h] ++ be_put 4 (dh_RecvIndex h) ++ be_put 8 (dh_Seq h).

Definition wire_DatagramHandshake (h : DatagramHandshakeHeader) (fragment : list Z) : list Z :=
  wire_DatagramHeader (with_Type DatagramFrameHandshake (hh_Header h))
  ++ be_put 4 (hh_SenderIndex h) ++ [hh_MsgType h] ++ be_put 2 (hh_FragOffset h)
  ++ be_put 2 (hh_FragLength h) ++ be_put 2 (hh_TotalLength h) ++ [len (hh_Cookie h)]
  ++ hh_Cookie h ++ fragment.

Lemma len_wire_DatagramHeader h : len (wire_DatagramHeader h) = 14.
Proof. unfold wire_DatagramHeader. golia. Qed.
#[export] Hint Rewrite len_wire_DatagramHeader : golen.

Lemma putDatagramHeader_filled h pre k : 14 <= k ->
  putDatagramHeader h (filled pre k) = Ok (filled (pre ++ wire_DatagramHeader h) (k - 14)).
Proof.
  intros Hk. unfold putDatagramHeader. do 3 cursor_step. rw c_put_filled; [golia|].
  unfold wire_DatagramHeader. rw -!app_assoc. do 2 f_equal. golia.
Qed.

Lemma EncodeDatagramHeader_wire h : EncodeDatagramHeader h = Ok (wire_DatagramHeader h).
Proof.
  unfold EncodeDatagramHeader. rw c_make_filled putDatagramHeader_filled; [golia|].
  rw obind_Ok_l filled_done; [golia|]. done.
Qed.

Lemma EncodeDatagramData_wire h ct :
  EncodeDatagramData h ct = Ok (wire_DatagramHeader (with_Type DatagramFrameData h) ++ ct).
Proof.
  unfold EncodeDatagramData. rw c_make_filled putDatagramHeader_filled; [golia|].
  rw obind_Ok_l. cursor_step. rw filled_done; [golia|]. done.
Qed.

Lemma AppendDatagramDataHeader_wire dst h : AppendDatagramDataHeader dst h
  = Ok (dst ++ wire_DatagramHeader (with_Type DatagramFrameData h)).
Proof.
  unfold AppendDatagramDataHeader. change (Cursor _ _) with (filled dst DatagramHeaderSize).
  rw putDatagramHeader_filled; [golia|]. rw obind_Ok_l filled_done; [golia|]. done.
Qed.

Lemma EncodeDatagramRetry_wire i ck : EncodeDatagramRetry i ck
  = Ok (wire_DatagramHeader (mkDatagramHeader DatagramFrameRetry 0 i 0) ++ ck).
Proof.
  unfold EncodeDatagramRetry. rw c_make_filled putDatagramHeader_filled; [golia|].
  rw obind_Ok_l. cursor_step. rw filled_done; [golia|]. done.
Qed.

Lemma EncodeDatagramHandshake_wire h fragment : len (hh_Cookie h) <= 255 ->
  EncodeDatagramHandshake h fragment = Ok (wire_DatagramHandshake h fragment).
Proof.
  intros Hc. unfold EncodeDatagramHandshake. gd. cbv zeta.
  rw c_make_filled putDatagramHeader_filled; [golia|]. rw obind_Ok_l.
  rw u8_small; [golia|]. do 8 cursor_step. rw filled_done; [golia|].
  unfold wire_DatagramHandshake. by rw -!app_assoc.
Qed.

Lemma parseDatagramHeader_at d h r : DatagramHeader_ok h ->
  at_off d 0 (wire_DatagramHeader h ++ r) -> parseDatagramHeader d = Ok h.
Proof.
  intros [] H. unfold parseDatagramHeader. pose proof (at_off_len _ _ _ H). gd.
  unfold wire_DatagramHeader in H. rw -!app_assoc in H. rd H.
  eapply at_off_app in H. rd H. eapply at_off_app in H. rd H.
  eapply at_off_app in H. rd H. by destruct h.
Qed.

Lemma ParseDatagramHeader_wire h body : DatagramHeader_ok h ->
  ParseDatagramHeader (wire_DatagramHeader h ++ body) = Ok (h, body).
Proof.
  intros Hh. decode_at (wire_DatagramHeader h ++ body) H Hl.
  unfold ParseDatagramHeader. rw (parseDatagramHeader_at d h body) // obind_Ok_l.
  eapply at_off_app in H. by rw (slice_from_at_eq _ _ _ _ H); [golia|].
Qed.

Lemma with_Type_ok t h : is_u8 t -> DatagramHeader_ok h -> DatagramHeader_ok (with_Type t h).
Proof. by intros Ht []. Qed.

Lemma readCookie_at ck d o r off : at_off d o (ck ++ r) -> off = o ->
  readCookie d off (len ck) = Ok (ck, off + len ck).
Proof.
  intros H ->. unfold readCookie. destruct (0 <? len ck) eqn:H0; [by rd H|].
  destruct ck; [|golia]. by rw Z.add_0_r.
Qed.

Lemma slice_0_app {E A} (a b : list A) n : n = len a -> @slice E _ (a ++ b) 0 n = Ok a.
Proof. intros ->. apply (slice_at _ 0 a b); [apply at_off_0|done]. Qed.

(** A frame with any padding behind the fragment parses to the header and the fragment. *)
Lemma ParseDatagramHandshake_wire h fragment pad :
  DatagramHandshakeHeader_ok h -> len (hh_Cookie h) <= 255 ->
  dh_Type (hh_Header h) = DatagramFrameHandshake ->
  hh_FragLength h = len fragment -> hh_FragOffset h + hh_FragLength h <= hh_TotalLength h ->
  ParseDatagramHandshake (wire_DatagramHandshake h fragment ++ pad) = Ok (h, fragment).
Proof.
  intros [Hh Hs Hm Ho Hf Ht] Hc Hty Hfl Htot.
  decode_at (wire_DatagramHandshake h fragment ++ pad) H Hl.
  unfold wire_DatagramHandshake in *. rw -!app_assoc in H. unfold ParseDatagramHandshake.
  rw (parseDatagramHeader_at _ _ _ (with_Type_ok _ _ _ Hh) H) ?obind_Ok_l //.
  cbn [with_Type dh_Type]. gd. cbv zeta. gd.
  apply (at_off_app _ _ (wire_DatagramHeader _)) in H.
  rw len_wire_DatagramHeader in H.
  rd H. eapply at_off_app in H. rd H. eapply at_off_app in H.
  rd H. eapply at_off_app in H. rd H. eapply at_off_app in H.
  rd H. eapply at_off_app in H. rd H. gd. eapply at_off_app in H.
  rw (readCookie_at _ _ _ _ _ H) ?obind_Ok_l; [golia|]. eapply at_off_app in H.
  rw (slice_from_at_eq _ _ _ _ H) ?obind_Ok_l; [golia|]. gd.
  rw slice_0_app // obind_Ok_l. gd. destruct h as [[] ? ? ? ? ? ?]. cbn in *. by subst.
Qed.

(** * What the parsers establish *)

Lemma parseDatagramHeader_nopanic d P : is_bytes d ->
  (forall h, DatagramHeader_ok h -> 14 <= len d -> P h) -> nopanic (parseDatagramHeader d) P.
Proof. intros Hd HP. unfold parseDatagramHeader. np. apply HP; [|golia]. split; cbn; golia. Qed.

Lemma readCookie_nopanic d off n P : 0 <= off -> 0 <= n -> off + n <= len d ->
  (forall ck, len ck = n -> P (ck, off + n)) -> nopanic (readCookie d off n) P.
Proof.
  intros H0 Hn Hl HP. unfold readCookie. np; [apply HP; golia|].
  assert (n = 0) as -> by lia. specialize (HP [] eq_refl). by rw Z.add_0_r in HP.
Qed.

Lemma ParseDatagramHandshake_nopanic d : is_bytes d ->
  nopanic (ParseDatagramHandshake d) (fun r =>
    DatagramHandshakeHeader_ok r.1 /\ len (hh_Cookie r.1) <= 255 /\
    dh_Type (hh_Header r.1) = DatagramFrameHandshake /\
    len r.2 = hh_FragLength r.1 /\
    hh_FragOffset r.1 + hh_FragLength r.1 <= hh_TotalLength r.1).
Proof.
  intros Hd. unfold ParseDatagramHandshake. np.
  apply parseDatagramHeader_nopanic; [done|]. intros base Hb Hl. np.
  apply readCookie_nopanic; [golia..|]. intros ck Hck. np. cbn.
  split; [split; cbn; [done|golia..]|]. repeat split; golia.
Qed.

(** Equal header bytes mean equal headers. *)
Lemma wire_DatagramHeader_inj h1 h2 : DatagramHeader_ok h1 -> DatagramHeader_ok h2 ->
  wire_DatagramHeader h1 = wire_DatagramHeader h2 -> h1 = h2.
Proof.
  intros H1 H2 Heq. pose proof (ParseDatagramHeader_wire h1 [] H1) as P1.
  rw Heq (ParseDatagramHeader_wire h2 [] H2) in P1. by simplify_eq.
Qed.

(** * Properties *)

(** A DATA frame parses back to its header, with the type forced to DATA, and its
    ciphertext; the additional data both sides authenticate is exactly the frame's header
    bytes; and frames of different headers never have the same additional data. *)
Theorem DatagramData_roundtrip h ct :
  DatagramHeader_ok h ->
  exists frame, EncodeDatagramData h ct = Ok frame /\
    ParseDatagramHeader frame = Ok (with_Type DatagramFrameData h, ct) /\
    DatagramAAD frame = EncodeDatagramHeader (with_Type DatagramFrameData h) /\
    (forall h' ct' frame', DatagramHeader_ok h' -> EncodeDatagramData h' ct' = Ok frame' ->
       DatagramAAD frame' = DatagramAAD frame ->
       with_Type DatagramFrameData h' = with_Type DatagramFrameData h).
Proof.
  intros Hh. assert (is_u8 DatagramFrameData) as Ht by done.
  exists (wire_DatagramHeader (with_Type DatagramFrameData h) ++ ct).
  assert (forall h0 c, DatagramAAD (wire_DatagramHeader h0 ++ c) = Ok (wire_DatagramHeader h0))
    as Haad by (intros; apply slice_0_app; golia).
  split; [apply EncodeDatagramData_wire|]. split; [by apply ParseDatagramHeader_wire, with_Type_ok|].
  split; [by rw EncodeDatagramHeader_wire|]. intros h' ct' fr' Hh'.
  rw EncodeDatagramData_wire. intros <-%Ok_inj. rw !Haad. intros Heq%Ok_inj.
  by apply wire_DatagramHeader_inj in Heq; [|by apply with_Type_ok..].
Qed.

Definition example_header : DatagramHeader := mkDatagramHeader 0 3 0xDEADBEEF 77.

Lemma DatagramData_roundtrip_witness :
  exists frame, EncodeDatagramData example_header [1; 2; 3] = Ok frame /\
    ParseDatagramHeader frame = Ok (with_Type DatagramFrameData example_header, [1; 2; 3]).
Proof.
  destruct (DatagramData_roundtrip example_header [1; 2; 3]) as (f & H1 & H2 & _).
  - by split; vm_compute.
  - by exists f.
Defined.

(** Building a header in place at the end of a buffer gives the bytes of a separately
    encoded DATA header behind what the buffer held. *)
Theorem AppendDatagramDataHeader_equiv dst h :
  AppendDatagramDataHeader dst h
  = (let! hd := EncodeDatagramHeader (with_Type DatagramFrameData h) in Ok (dst ++ hd)).
Proof. by rw AppendDatagramDataHeader_wire EncodeDatagramHeader_wire. Qed.

(** A HANDSHAKE frame, followed by any padding, parses back to its header and exactly its
    fragment: the padding is never seen. *)
Theorem DatagramHandshake_roundtrip h fragment pad :
  DatagramHandshakeHeader_ok h -> len (hh_Cookie h) <= 255 ->
  dh_Type (hh_Header h) = DatagramFrameHandshake ->
  hh_FragLength h = len fragment -> hh_FragOffset h + hh_FragLength h <= hh_TotalLength h ->
  exists frame, EncodeDatagramHandshake h fragment = Ok frame /\
    ParseDatagramHandshake (frame ++ pad) = Ok (h, fragment).
Proof.
  intros. exists (wire_DatagramHandshake h fragment).
  split; [by apply EncodeDatagramHandshake_wire|by apply ParseDatagramHandshake_wire].
Qed.

Definition example_hh : DatagramHandshakeHeader :=
  mkDatagramHandshakeHeader (mkDatagramHeader DatagramFrameHandshake 0 0 0) 42
    MessageTypeClientHello 100 3 200 [9; 9].

Lemma DatagramHandshake_roundtrip_witness :
  exists frame, EncodeDatagramHandshake example_hh [1; 2; 3] = Ok frame /\
    ParseDatagramHandshake (frame ++ replicate 20 0) = Ok (example_hh, [1; 2; 3]).
Proof.
  apply (DatagramHandshake_roundtrip example_hh [1; 2; 3] (replicate 20 0)); [|by vm_compute..].
  split; [split|..]; by vm_compute.
Defined.

(** On any bytes the HANDSHAKE parser returns or refuses, and what it returns has a
    fragment of the declared length that lies inside the declared total. *)
Theorem ParseDatagramHandshake_safe d : is_bytes d ->
  match ParseDatagramHandshake d with
  | Ok (h, fragment) =>
      DatagramHandshakeHeader_ok h /\ len (hh_Cookie h) <= 255 /\
      dh_Type (hh_Header h) = DatagramFrameHandshake /\ len fragment = hh_FragLength h /\
      hh_FragOffset h + hh_FragLength h <= hh_TotalLength h
  | Err _ => True
  | Panic => False
  end.
Proof.
  intros Hd. pose proof (ParseDatagramHandshake_nopanic d Hd) as H.
  destruct (ParseDatagramHandshake d) as [[h f]| |]; done.
Qed.

Definition example_frame_bytes : list Z :=
  [1; 0; 0; 0; 0; 0; 0; 0; 0; 0; 0; 0; 0; 0; 0; 0; 0; 42; 1; 0; 100; 0; 3; 0; 200; 2; 9; 9; 1; 2; 3; 0; 0].

Lemma ParseDatagramHandshake_safe_witness :
  exists h f, ParseDatagramHandshake example_frame_bytes = Ok (h, f) /\ len f = hh_FragLength h /\
    hh_FragOffset h + hh_FragLength h <= hh_TotalLength h.
Proof.
  pose proof (ParseDatagramHandshake_safe example_frame_bytes) as H.
  assert (is_bytes example_frame_bytes) as Hb by (apply is_bytesb_ok; reflexivity).
  specialize (H Hb). destruct (ParseDatagramHandshake example_frame_bytes) as [[h f]| |] eqn:He;
    [|vm_compute in He; discriminate He|contradiction H].
  exists h, f. destruct H as (_ & _ & _ & Hl & Ht). split; [reflexivity|]. split; [exact Hl|exact Ht].
Defined.

(** A RETRY frame parses back to the connection index and the cookie, and is refused by
    the HANDSHAKE parser. *)
Theorem DatagramRetry_roundtrip i ck : is_u32 i ->
  exists frame, EncodeDatagramRetry i ck = Ok frame /\
    ParseDatagramRetry frame = Ok (i, ck) /\
    ParseDatagramHandshake frame = Err ErrInvalidMessage.
Proof.
  intros Hi. set (h := mkDatagramHeader DatagramFrameRetry 0 i 0).
  assert (DatagramHeader_ok h) as Hh by (by split).
  exists (wire_DatagramHeader h ++ ck). split; [apply EncodeDatagramRetry_wire|].
  unfold ParseDatagramRetry, ParseDatagramHandshake. rw ParseDatagramHeader_wire //.
  split; [done|]. by rw (parseDatagramHeader_at _ h ck Hh (at_off_0 _)).
Qed.

Lemma DatagramRetry_roundtrip_witness :
  exists frame, EncodeDatagramRetry 7 [1; 2] = Ok frame /\ ParseDatagramRetry frame = Ok (7, [1; 2]).
Proof.
  destruct (DatagramRetry_roundtrip 7 [1; 2]) as (f & H1 & H2 & _); [by vm_compute|].
  by exists f.
Defined.
