(* ===== verification/Replay.v ===== *)
(** Anti-replay windows.

    [pkg/tunnel/replay.go] and the stream wrapper [ReplayWindow] of [pkg/tunnel/session.go].
    The bitmap is a list of 64-bit words.  The specification is the set of sequence numbers
    accepted so far: a number is accepted iff it is new and not [size] or more below the
    highest.  The methods hold the window's mutex throughout, so each is one step. *)

From Corelib Require Import ssreflect.
From stdpp Require Import base tactics list numbers.
From Stdlib Require Import ZArith Lia.
From S2P Require Import Prelude Base.

Local Open Scope Z_scope.
Local Open Scope go_scope.

(** * The code *)

Definition DatagramReplayWindowSize : Z := 1024.
Definition replayWordBits : Z := 64.
Definition StreamReplayWindowSize : Z := 1024.

Record DatagramReplayWindow := mkWindow {
  w_bitmap : list Z;
  w_highSeq : Z;
  w_size : Z;
  w_seen : bool }.

Definition NewDatagramReplayWindowSize (size : Z) : DatagramReplayWindow :=
  let size := if size =? 0 then DatagramReplayWindowSize else size in
  let words := u64 (size + replayWordBits - 1) / replayWordBits in
  mkWindow (replicate (Z.to_nat words) 0) 0 (u64 (words * replayWordBits)) false.

Definition NewDatagramReplayWindow : DatagramReplayWindow :=
  NewDatagramReplayWindowSize DatagramReplayWindowSize.

(** The word at an index the code has checked to be in range. *)
Definition word (bm : list Z) (i : Z) : Z := default 0 (bm !! Z.to_nat i).

Definition setBit (bm : list Z) (pos : Z) : outcome error (list Z) :=
  let! v := idx bm (pos / replayWordBits) in
  Ok (<[Z.to_nat (pos / replayWordBits) := Z.lor v (Z.shiftl 1 (pos mod replayWordBits))]> bm).

Definition testBit (bm : list Z) (pos : Z) : outcome error bool :=
  let! v := idx bm (pos / replayWordBits) in
  Ok (negb (Z.land v (Z.shiftl 1 (pos mod replayWordBits)) =? 0)).

(** The new value of word [ui] when the bitmap moves up by [64 * wordShift + bitShift]. *)
Definition shifted_word (bm : list Z) (wordShift bitShift ui : Z) : Z :=
  if wordShift <=? ui then
    let src := ui - wordShift in
    let v := u64 (Z.shiftl (word bm src) bitShift) in
    if negb (bitShift =? 0) && (1 <=? src)
    then Z.lor v (Z.shiftr (word bm (src - 1)) (replayWordBits - bitShift))
    else v
  else 0.

(** [for i := len(bitmap)-1; i >= 0; i--], in place: [n] words are still to be written. *)
Fixpoint advance_loop (n : nat) (wordShift bitShift : Z) (bm : list Z) : list Z :=
  match n with
  | O => bm
  | S i => advance_loop i wordShift bitShift
             (<[i := shifted_word bm wordShift bitShift (Z.of_nat i)]> bm)
  end.

Definition advance (w : DatagramReplayWindow) (delta : Z) : list Z :=
  if w_size w <=? delta then replicate (length (w_bitmap w)) 0
  else advance_loop (length (w_bitmap w)) (delta / replayWordBits) (delta mod replayWordBits)
         (w_bitmap w).

Definition Check_seq (w : DatagramReplayWindow) (seq : Z)
    : DatagramReplayWindow * outcome error bool :=
  if negb (w_seen w) then
    match setBit (w_bitmap w) 0 with
    | Ok bm => (mkWindow bm seq (w_size w) true, Ok true)
    | Err e => (w, Err e)
    | Panic => (mkWindow (w_bitmap w) seq (w_size w) true, Panic)
    end
  else if w_highSeq w <? seq then
    let bm := advance w (u64_sub seq (w_highSeq w)) in
    match setBit bm 0 with
    | Ok bm' => (mkWindow bm' seq (w_size w) true, Ok true)
    | Err e => (w, Err e)
    | Panic => (mkWindow bm seq (w_size w) true, Panic)
    end
  else if seq =? w_highSeq w then (w, Ok false)
  else
    let diff := u64_sub (w_highSeq w) seq in
    if w_size w <=? diff then (w, Ok false)
    else match testBit (w_bitmap w) diff with
         | Ok true => (w, Ok false)
         | Ok false =>
             match setBit (w_bitmap w) diff with
             | Ok bm => (mkWindow bm (w_highSeq w) (w_size w) (w_seen w), Ok true)
             | Err e => (w, Err e)
             | Panic => (w, Panic)
             end
         | Err e => (w, Err e)
         | Panic => (w, Panic)
         end.

Definition Admissible (w : DatagramReplayWindow) (seq : Z) : outcome error bool :=
  if negb (w_seen w) then Ok true
  else if w_highSeq w <? seq then Ok true
  else if seq =? w_highSeq w then Ok false
  else
    let diff := u64_sub (w_highSeq w) seq in
    if w_size w <=? diff then Ok false
    else let! b := testBit (w_bitmap w) diff in Ok (negb b).

(** The stream path's window wraps a datagram window of its own size. *)
Definition ReplayWindow : Type := DatagramReplayWindow.
Definition NewReplayWindow : ReplayWindow := NewDatagramReplayWindowSize StreamReplayWindowSize.
Definition ReplayWindow_Check (rw : ReplayWindow) (seq : Z)
    : ReplayWindow * outcome error bool := Check_seq rw seq.

(** * Bits *)

#[export] Hint Unfold replayWordBits : gosz.

Definition bit (bm : list Z) (n : Z) : bool := Z.testbit (word bm (n / 64)) (n mod 64).

Definition words_ok (bm : list Z) : Prop := Forall is_u64 bm.

Lemma word_u64 bm i : words_ok bm -> is_u64 (word bm i).
Proof.
  intros H. unfold word. destruct (bm !! Z.to_nat i) eqn:Hi; cbn; [|by unfold is_u64; lia].
  by eapply Forall_lookup_1 in Hi.
Qed.

Lemma u64_testbit z r : 0 <= r < 64 -> Z.testbit (u64 z) r = Z.testbit z r.
Proof. intros. unfold u64. by rw Z.mod_pow2_bits_low; [lia|]. Qed.

Lemma testbit_high z r : is_u64 z -> 64 <= r -> Z.testbit z r = false.
Proof.
  intros Hz Hr. destruct (decide (z = 0)) as [->|]; [apply Z.testbit_0_l|].
  unfold is_u64 in Hz. apply Z.bits_above_log2; [lia|].
  apply (Z.lt_le_trans _ 64); [|lia]. apply Z.log2_lt_pow2; lia.
Qed.

Lemma u64_range z : is_u64 (u64 z).
Proof. unfold is_u64, u64. pose proof (Z.mod_pos_bound z (2 ^ 64)). lia. Qed.

Lemma log2_u64 a : is_u64 a -> Z.log2 a < 64.
Proof.
  unfold is_u64. intros Ha. destruct (decide (a = 0)) as [->|]; [cbn; lia|].
  apply Z.log2_lt_pow2; lia.
Qed.

Lemma lor_u64 a b : is_u64 a -> is_u64 b -> is_u64 (Z.lor a b).
Proof.
  intros Ha Hb. pose proof (log2_u64 a Ha). pose proof (log2_u64 b Hb). unfold is_u64 in *.
  assert (0 <= Z.lor a b) by (apply Z.lor_nonneg; lia). split; [done|].
  destruct (decide (Z.lor a b = 0)) as [->|]; [lia|].
  apply Z.log2_lt_pow2; [lia|]. rw Z.log2_lor; [lia..|]. lia.
Qed.

Lemma shiftr_u64 a n : is_u64 a -> 0 <= n -> is_u64 (Z.shiftr a n).
Proof.
  unfold is_u64. intros Ha Hn. rw Z.shiftr_div_pow2 //.
  pose proof (Z.pow_pos_nonneg 2 n). split; [apply Z.div_pos; lia|].
  apply (Z.le_lt_trans _ a); [apply Z.div_le_upper_bound; nia|lia].
Qed.

Lemma pow2_u64 n : 0 <= n < 64 -> is_u64 (Z.shiftl 1 n).
Proof.
  intros. unfold is_u64. rw Z.shiftl_1_l. pose proof (Z.pow_pos_nonneg 2 n).
  split; [lia|]. apply Z.pow_lt_mono_r; lia.
Qed.

(** ** Moving the bitmap *)

Lemma word_insert_ne bm i v j : 0 <= j -> Z.of_nat i <> j -> word (<[i:=v]> bm) j = word bm j.
Proof. intros. unfold word. rw list_lookup_insert_ne //. lia. Qed.

Lemma shifted_word_insert bm i v ws bs j : 0 <= ws -> 0 <= j < Z.of_nat i ->
  shifted_word (<[i:=v]> bm) ws bs j = shifted_word bm ws bs j.
Proof.
  intros Hws Hj. unfold shifted_word. destruct (ws <=? j) eqn:H; [|done]. zbool.
  rw word_insert_ne; [lia..|]. destruct (1 <=? j - ws) eqn:H1; [|by rw !andb_false_r].
  zbool. rw word_insert_ne; [lia..|]. done.
Qed.

Lemma length_advance_loop n ws bs bm : length (advance_loop n ws bs bm) = length bm.
Proof. revert bm; induction n as [|n IH]; intros bm; cbn; [done|]. by rw IH length_insert. Qed.

(** The in-place loop reads only words it has not overwritten yet. *)
Lemma advance_loop_word n ws bs bm j : 0 <= ws -> (n <= length bm)%nat -> 0 <= j ->
  word (advance_loop n ws bs bm) j
  = if j <? Z.of_nat n then shifted_word bm ws bs j else word bm j.
Proof.
  intros Hws. revert bm. induction n as [|n IH]; intros bm Hn Hj; cbn [advance_loop].
  - by replace (j <? Z.of_nat 0) with false by blia.
  - rw IH; [rw length_insert; lia|done|].
    destruct (decide (j = Z.of_nat n)) as [->|].
    + replace (Z.of_nat n <? Z.of_nat n) with false by blia.
      replace (Z.of_nat n <? Z.of_nat (S n)) with true by blia.
      unfold word at 1. by rw Nat2Z.id list_lookup_insert_eq; [lia|].
    + destruct (j <? Z.of_nat n) eqn:Hlt; zbool.
      * replace (j <? Z.of_nat (S n)) with true by blia. apply shifted_word_insert; lia.
      * replace (j <? Z.of_nat (S n)) with false by blia. apply word_insert_ne; lia.
Qed.

Lemma shifted_word_u64 bm ws bs j : words_ok bm -> 0 <= bs < 64 ->
  is_u64 (shifted_word bm ws bs j).
Proof.
  intros Hw Hbs. unfold shifted_word, replayWordBits. repeat case_match; zbool.
  - apply lor_u64; [apply u64_range|]. apply shiftr_u64; [by apply word_u64|lia].
  - apply u64_range.
  - by unfold is_u64.
Qed.

Lemma advance_loop_ok n ws bs bm : words_ok bm -> 0 <= bs < 64 ->
  words_ok (advance_loop n ws bs bm).
Proof.
  intros Hw Hbs. revert bm Hw. induction n as [|n IH]; intros bm Hw; cbn; [done|].
  apply IH, Forall_insert; [done|by apply shifted_word_u64].
Qed.

Lemma shl_bit z n r : 0 <= r < 64 -> Z.testbit (u64 (Z.shiftl z n)) r = Z.testbit z (r - n).
Proof. intros. rw u64_testbit //. by rw Z.shiftl_spec; [lia|]. Qed.

Lemma bit_split bm q r n : 0 <= r < 64 -> n = 64 * q + r -> bit bm n = Z.testbit (word bm q) r.
Proof.
  intros Hr ->. unfold bit. rw (Z.mul_comm 64 q) Z.div_add_l; [lia|].
  rw (Z.div_small r); [lia|]. rw Z.add_0_r Z.add_comm Z.mod_add; [lia|]. by rw Z.mod_small.
Qed.

(** Bit [r] of word [q] after a shift by [64 * ws + bs]. *)
Lemma shifted_word_bit bm ws bs q r : words_ok bm -> 0 <= ws -> 0 <= bs < 64 ->
  0 <= q -> 0 <= r < 64 ->
  Z.testbit (shifted_word bm ws bs q) r
  = (64 * ws + bs <=? 64 * q + r) && bit bm (64 * q + r - (64 * ws + bs)).
Proof.
  intros Hw Hws Hbs Hq Hr. unfold shifted_word, replayWordBits.
  destruct (ws <=? q) eqn:Hle; zbool;
    [|by rw Z.testbit_0_l; replace (_ <=? _) with false by blia].
  destruct (decide (bs <= r)) as [Hbr|Hbr].
  - replace (64 * ws + bs <=? 64 * q + r) with true by blia.
    rw (bit_split bm (q - ws) (r - bs)); [lia..|].
    rw andb_true_l. case_match; [|by rw shl_bit].
    rw Z.lor_spec shl_bit; [lia|]. rw Z.shiftr_spec; [lia|].
    rw (testbit_high (word _ (_ - 1))); [by apply word_u64|lia|]. by rw orb_false_r.
  - destruct (decide (1 <= q - ws)) as [H1|H1].
    + replace (64 * ws + bs <=? 64 * q + r) with true by blia.
      replace (negb (bs =? 0) && (1 <=? q - ws)) with true by blia.
      rw Z.lor_spec shl_bit; [lia|]. rw Z.testbit_neg_r; [lia|]. rw Z.shiftr_spec; [lia|].
      rw (bit_split bm (q - ws - 1) (64 + r - bs)); [lia..|]. cbn. f_equal. lia.
    + replace (64 * ws + bs <=? 64 * q + r) with false by blia.
      replace (negb (bs =? 0) && (1 <=? q - ws)) with false
        by (symmetry; apply andb_false_iff; right; blia).
      rw shl_bit; [lia|]. by rw Z.testbit_neg_r; [lia|].
Qed.

(** ** The bit operations on the bitmap *)

Lemma idx_word {E} bm q : 0 <= q < len bm -> @idx E _ bm q = Ok (word bm q).
Proof.
  intros Hq. destruct (@idx_in E _ bm q Hq) as [x Hx]. rw Hx. f_equal.
  unfold idx in Hx. replace (0 <=? q) with true in Hx by blia.
  unfold word. destruct (bm !! Z.to_nat q); by simplify_eq/=.
Qed.

Lemma word_insert_eq bm q v : 0 <= q < len bm -> word (<[Z.to_nat q:=v]> bm) q = v.
Proof. intros. unfold word. by rw list_lookup_insert_eq; [unfold len in *; lia|]. Qed.

Lemma land_pow2_testbit v r : 0 <= r -> negb (Z.land v (Z.shiftl 1 r) =? 0) = Z.testbit v r.
Proof.
  intros Hr. rw Z.shiftl_1_l. destruct (Z.testbit v r) eqn:Hb.
  - replace (Z.land v (2 ^ r)) with (2 ^ r); [pose proof (Z.pow_pos_nonneg 2 r); blia|].
    apply Z.bits_inj'. intros n Hn. rw Z.land_spec Z.pow2_bits_eqb //.
    destruct (r =? n) eqn:H; zbool; subst; [by rw Hb|by rw andb_false_r].
  - replace (Z.land v (2 ^ r)) with 0; [done|].
    apply Z.bits_inj'. intros n Hn. rw Z.testbit_0_l Z.land_spec Z.pow2_bits_eqb //.
    destruct (r =? n) eqn:H; zbool; subst; [by rw Hb|by rw andb_false_r].
Qed.

Lemma pos_split pos : 0 <= pos -> 0 <= pos mod 64 < 64 /\ pos = 64 * (pos / 64) + pos mod 64 /\
  0 <= pos / 64.
Proof.
  intros. pose proof (Z.mod_pos_bound pos 64). pose proof (Z.div_mod pos 64).
  pose proof (Z.div_pos pos 64). lia.
Qed.

Lemma testBit_bit bm pos : 0 <= pos < 64 * len bm -> testBit bm pos = Ok (bit bm pos).
Proof.
  intros Hp. pose proof (pos_split pos). unfold testBit, replayWordBits.
  rw idx_word; [lia|]. cbn [obind]. by rw land_pow2_testbit; [lia|].
Qed.

Lemma setBit_bit bm pos : words_ok bm -> 0 <= pos < 64 * len bm ->
  exists bm', setBit bm pos = Ok bm' /\ length bm' = length bm /\ words_ok bm' /\
    forall n, 0 <= n -> bit bm' n = (n =? pos) || bit bm n.
Proof.
  intros Hw Hp. destruct (pos_split pos) as (Hr & Heq & Hq); [lia|].
  unfold setBit, replayWordBits. rw idx_word; [lia|]. cbn [obind]. eexists; split; [done|].
  split; [apply length_insert|]. split.
  { apply Forall_insert; [done|]. apply lor_u64; [by apply word_u64|by apply pow2_u64]. }
  intros n Hn. destruct (pos_split n Hn) as (Hrn & Heqn & Hqn).
  unfold bit. destruct (decide (n / 64 = pos / 64)) as [Hd|Hd].
  - rw Hd word_insert_eq; [lia|]. rw Z.lor_spec Z.shiftl_1_l Z.pow2_bits_eqb; [lia|].
    rw orb_comm. f_equal. destruct (n =? pos) eqn:H; zbool; blia.
  - rw word_insert_ne; [lia|lia|]. replace (n =? pos) with false; [done|].
    symmetry. apply Z.eqb_neq. by intros ->.
Qed.

Lemma bit_zeros k n : bit (replicate k 0) n = false.
Proof.
  unfold bit, word. destruct (replicate k 0 !! _) eqn:H; cbn; [|apply Z.testbit_0_l].
  apply lookup_replicate in H as [-> _]. apply Z.testbit_0_l.
Qed.

Lemma advance_bit w delta : words_ok (w_bitmap w) -> w_size w = 64 * len (w_bitmap w) ->
  0 <= delta ->
  length (advance w delta) = length (w_bitmap w) /\ words_ok (advance w delta) /\
  forall n, 0 <= n < w_size w ->
    bit (advance w delta) n = (delta <=? n) && bit (w_bitmap w) (n - delta).
Proof.
  intros Hw Hs Hd. unfold advance. destruct (w_size w <=? delta) eqn:Hbig; zbool.
  - split; [apply length_replicate|]. split; [apply Forall_replicate; by vm_compute|].
    intros n Hn. rw bit_zeros. by replace (delta <=? n) with false by blia.
  - destruct (pos_split delta Hd) as (Hr & Heq & Hq). unfold replayWordBits.
    split; [apply length_advance_loop|]. split; [by apply advance_loop_ok|].
    intros n Hn. destruct (pos_split n) as (Hrn & Heqn & Hqn); [lia|].
    unfold bit at 1. rw advance_loop_word; [lia..|].
    replace (n / 64 <? Z.of_nat (length (w_bitmap w))) with true by (unfold len in *; blia).
    rw shifted_word_bit //. by rw -Heq -Heqn.
Qed.

(** * Specification *)

(** The highest sequence number accepted so far. *)
Definition highest (acc : list Z) : Z := foldr Z.max 0 acc.

(** A number is accepted iff none has been accepted yet, or it is new and less than [size]
    below the highest. *)
Definition spec_accepts (size : Z) (acc : list Z) (seq : Z) : bool :=
  match acc with
  | [] => true
  | _ => negb (bool_decide (seq ∈ acc)) && (highest acc - seq <? size)
  end.

Record window_of (w : DatagramReplayWindow) (acc : list Z) : Prop := {
  wo_words : words_ok (w_bitmap w);
  wo_size : w_size w = 64 * len (w_bitmap w);
  wo_pos : 0 < w_size w;
  wo_acc : Forall is_u64 acc;
  wo_seen : w_seen w = negb (bool_decide (acc = []));
  wo_high : w_seen w = true -> w_highSeq w = highest acc;
  wo_bits : forall n, 0 <= n < w_size w ->
              bit (w_bitmap w) n = bool_decide (w_highSeq w - n ∈ acc) }.

Lemma highest_cons x acc : highest (x :: acc) = Z.max x (highest acc).
Proof. done. Qed.

Lemma highest_ge acc x : x ∈ acc -> x <= highest acc.
Proof.
  induction acc as [|y acc IH]; [by intros ?%elem_of_nil|].
  rw highest_cons. intros [->|H]%elem_of_cons; [lia|]. apply IH in H. lia.
Qed.

Lemma highest_in acc : acc <> [] -> Forall is_u64 acc -> highest acc ∈ acc.
Proof.
  intros Hne Hf. induction acc as [|x acc IH]; [done|].
  apply Forall_cons_1 in Hf as [Hx Hf]. unfold is_u64 in Hx. rw highest_cons.
  destruct (decide (acc = [])) as [->|Ha].
  - cbn. rw Z.max_l; [lia|]. by left.
  - specialize (IH Ha Hf). destruct (Z.max_spec x (highest acc)) as [[_ ->]|[_ ->]].
    + by right.
    + by left.
Qed.

Lemma highest_u64 acc : acc <> [] -> Forall is_u64 acc -> is_u64 (highest acc).
Proof. intros Hne Hf. eapply list.Forall_forall; [apply Hf|by apply highest_in]. Qed.

(** * Refinement *)

Lemma NewWindow_of size : 0 <= size <= 2 ^ 64 - 64 ->
  window_of (NewDatagramReplayWindowSize size) [].
Proof.
  intros Hs. unfold NewDatagramReplayWindowSize, replayWordBits.
  set (sz := if size =? 0 then DatagramReplayWindowSize else size).
  assert (0 < sz <= 2 ^ 64 - 64) as Hsz.
  { subst sz. unfold DatagramReplayWindowSize. case_match; zbool; lia. }
  clearbody sz. rw u64_small; [lia|].
  pose proof (Z.div_mod (sz + 64 - 1) 64). pose proof (Z.mod_pos_bound (sz + 64 - 1) 64).
  set (words := (sz + 64 - 1) / 64) in *. clearbody words.
  rw u64_small; [lia|]. split; cbn [w_bitmap w_size w_seen w_highSeq]; try done.
  - apply Forall_replicate; by vm_compute.
  - golia.
  - lia.
  - intros n _. by rw bit_zeros bool_decide_false; [apply not_elem_of_nil|].
Qed.

(** A set bit in a window with the right length and head. *)
Lemma window_of_intro w acc bm' high seq (Hw : window_of w acc) :
  is_u64 seq -> length bm' = length (w_bitmap w) -> words_ok bm' ->
  high = highest (seq :: acc) ->
  (forall n, 0 <= n < w_size w -> bit bm' n = bool_decide (high - n ∈ seq :: acc)) ->
  window_of (mkWindow bm' high (w_size w) true) (seq :: acc).
Proof.
  destruct Hw. intros. split; cbn [w_bitmap w_size w_seen w_highSeq]; try done.
  - rw wo_size0. unfold len. lia.
  - by constructor.
Qed.

Lemma bool_decide_cons x (y : Z) l :
  bool_decide (x ∈ y :: l) = (x =? y) || bool_decide (x ∈ l).
Proof.
  destruct (x =? y) eqn:H; zbool; subst.
  - apply bool_decide_true. by left.
  - apply bool_decide_ext. rw elem_of_cons. split; [by intros [?|?]|by right].
Qed.

Lemma window_of_empty w acc : window_of w acc -> w_seen w = false -> acc = [].
Proof. intros [] H. rw H in wo_seen0. by destruct acc. Qed.

Lemma window_of_nonempty w acc : window_of w acc -> w_seen w = true -> acc <> [].
Proof. intros [] H ->. by rw H in wo_seen0. Qed.

(** The first number. *)
Lemma Check_first w seq : window_of w [] -> is_u64 seq -> w_seen w = false ->
  exists w', Check_seq w seq = (w', Ok true) /\ window_of w' [seq] /\ w_size w' = w_size w.
Proof.
  intros Hw Hq Hs. pose proof Hw as []. unfold Check_seq. rw Hs. cbn [negb].
  destruct (setBit_bit (w_bitmap w) 0) as (bm & -> & Hl & Hok & Hbit); [done|lia|].
  eexists; split; [done|]. split; [|done]. apply (window_of_intro w []); try done.
  - cbn. unfold is_u64 in Hq. lia.
  - intros n Hn. rw Hbit; [lia|]. rw wo_bits0 // bool_decide_cons.
    rw !(bool_decide_false (_ ∈ [])); [apply not_elem_of_nil..|]. rw !orb_false_r.
    destruct (n =? 0) eqn:?; blia.
Qed.

(** A number above the head moves the window. *)
Lemma Check_newer w acc seq : window_of w acc -> is_u64 seq -> w_seen w = true ->
  w_highSeq w < seq ->
  exists w', Check_seq w seq = (w', Ok true) /\ window_of w' (seq :: acc) /\
             w_size w' = w_size w.
Proof.
  intros Hw Hq Hs Hlt. pose proof Hw as []. unfold Check_seq. rw Hs. cbn [negb].
  replace (w_highSeq w <? seq) with true by blia.
  specialize (wo_high0 Hs). pose proof (window_of_nonempty _ _ Hw Hs) as Hne.
  pose proof (highest_u64 acc Hne wo_acc0) as Hh. rw -wo_high0 in Hh.
  unfold is_u64 in *. unfold u64_sub. rw u64_small; [lia|].
  destruct (advance_bit w (seq - w_highSeq w)) as (Hal & Haw & Hab); [done|done|lia|].
  destruct (setBit_bit (advance w (seq - w_highSeq w)) 0) as (bm & -> & Hl & Hok & Hbit);
    [done|unfold len in *; lia|].
  eexists; split; [done|]. split; [|done].
  apply (window_of_intro w acc); [done|done|lia|done|rw highest_cons; lia|].
  intros n Hn. rw Hbit; [lia|]. rw Hab // bool_decide_cons.
  destruct (n =? 0) eqn:Hn0; zbool; [subst; by rw Z.sub_0_r Z.eqb_refl|].
  replace (seq - n =? seq) with false by blia. cbn [orb].
  destruct (seq - w_highSeq w <=? n) eqn:Hle; zbool; cbn [andb].
  - rw wo_bits0; [lia|].
    by replace (w_highSeq w - (n - (seq - w_highSeq w))) with (seq - n) by lia.
  - symmetry. apply bool_decide_false. intros ?%highest_ge. lia.
Qed.

(** A number within the window below the head. *)
Lemma Check_within w acc seq : window_of w acc -> is_u64 seq -> w_seen w = true ->
  seq < w_highSeq w -> w_highSeq w - seq < w_size w -> seq ∉ acc ->
  exists w', Check_seq w seq = (w', Ok true) /\ window_of w' (seq :: acc) /\
             w_size w' = w_size w.
Proof.
  intros Hw Hq Hs Hlt Hin Hnew. pose proof Hw as []. unfold Check_seq. rw Hs. cbn [negb].
  replace (w_highSeq w <? seq) with false by blia.
  replace (seq =? w_highSeq w) with false by blia.
  specialize (wo_high0 Hs). pose proof (window_of_nonempty _ _ Hw Hs) as Hne.
  pose proof (highest_u64 acc Hne wo_acc0) as Hh. rw -wo_high0 in Hh.
  unfold is_u64 in *. unfold u64_sub. rw u64_small; [lia|].
  replace (w_size w <=? w_highSeq w - seq) with false by blia. cbv zeta.
  rw testBit_bit; [lia|]. rw wo_bits0; [lia|].
  replace (w_highSeq w - (w_highSeq w - seq)) with seq by lia. rw (bool_decide_false _ Hnew).
  destruct (setBit_bit (w_bitmap w) (w_highSeq w - seq)) as (bm & -> & Hl & Hok & Hbit);
    [done|lia|].
  eexists; split; [done|]. split; [|done]. rw -Hs in wo_seen0 *. rw Hs.
  apply (window_of_intro w acc); [done|done|done|done|rw highest_cons; lia|].
  intros n Hn. rw Hbit; [lia|]. rw wo_bits0 // bool_decide_cons. f_equal.
  destruct (n =? w_highSeq w - seq) eqn:?; zbool; blia.
Qed.

Lemma spec_accepts_cons size acc seq : acc <> [] ->
  spec_accepts size acc seq = negb (bool_decide (seq ∈ acc)) && (highest acc - seq <? size).
Proof. by destruct acc. Qed.

Lemma Check_refines w acc seq : window_of w acc -> is_u64 seq ->
  exists w', Check_seq w seq = (w', Ok (spec_accepts (w_size w) acc seq)) /\
    w_size w' = w_size w /\
    window_of w' (if spec_accepts (w_size w) acc seq then seq :: acc else acc).
Proof.
  intros Hw Hq. destruct (w_seen w) eqn:Hs.
  2:{ pose proof (window_of_empty _ _ Hw Hs) as ->.
      destruct (Check_first w seq) as (w' & -> & ? & ?); eauto. }
  pose proof (window_of_nonempty _ _ Hw Hs) as Hne. rw spec_accepts_cons //.
  pose proof Hw as []. specialize (wo_high0 Hs). rw -wo_high0.
  destruct (decide (w_highSeq w < seq)) as [Hlt|Hge].
  { rw (bool_decide_false (seq ∈ acc)); [intros ?%highest_ge; lia|].
    replace (w_highSeq w - seq <? w_size w) with true by blia. cbn [negb andb].
    destruct (Check_newer w acc seq) as (w' & -> & ? & ?); eauto. }
  pose proof (highest_u64 acc Hne wo_acc0) as Hh. rw -wo_high0 in Hh.
  assert (0 <= w_highSeq w - seq < 2 ^ 64) as Hd by (unfold is_u64 in *; lia).
  destruct (decide (seq ∈ acc)) as [Hin|Hnew].
  - rw (bool_decide_true _ Hin). cbn [negb andb]. exists w. split; [|done].
    unfold Check_seq. rw Hs. cbn [negb]. replace (w_highSeq w <? seq) with false by blia.
    case_match; [done|]. zbool. unfold u64_sub. rw (u64_small _ Hd). case_match; [done|].
    zbool. cbv zeta. rw testBit_bit; [lia|]. rw wo_bits0; [lia|].
    replace (w_highSeq w - (w_highSeq w - seq)) with seq by lia. by rw bool_decide_true.
  - rw (bool_decide_false _ Hnew). cbn [negb andb].
    destruct (decide (w_highSeq w = seq)) as [Heq|].
    { destruct Hnew. rw -Heq wo_high0. by apply highest_in. }
    destruct (w_highSeq w - seq <? w_size w) eqn:Hz; zbool.
    + destruct (Check_within w acc seq) as (w' & -> & ? & ?); eauto. lia.
    + exists w. split; [|done]. unfold Check_seq. rw Hs. cbn [negb].
      replace (w_highSeq w <? seq) with false by blia.
      replace (seq =? w_highSeq w) with false by blia. unfold u64_sub. rw (u64_small _ Hd).
      by replace (w_size w <=? w_highSeq w - seq) with true by blia.
Qed.

(** A run of the window over a list of sequence numbers: the results of [Check], in order. *)
Fixpoint check_all (w : DatagramReplayWindow) (seqs : list Z)
    : DatagramReplayWindow * list (outcome error bool) :=
  match seqs with
  | [] => (w, [])
  | s :: r => let '(w', b) := Check_seq w s in
              let '(w'', bs) := check_all w' r in
              (w'', b :: bs)
  end.

(** The numbers of [seqs] the run accepted. *)
Definition accepted (seqs : list Z) (bs : list (outcome error bool)) : list Z :=
  (zip seqs bs) ≫= (fun p => match p.2 with Ok true => [p.1] | _ => [] end).

Lemma check_all_fresh seqs : forall w acc, window_of w acc -> Forall is_u64 seqs -> NoDup acc ->
  NoDup (accepted seqs (check_all w seqs).2 ++ acc).
Proof.
  induction seqs as [|s r IH]; intros w acc Hw Hf Hnd; [done|].
  apply Forall_cons_1 in Hf as [Hs Hr]. destruct (Check_refines w acc s Hw Hs) as (w' & Hc & _ & Hw').
  cbn [check_all]. rw Hc. destruct (check_all w' r) as [w'' bs] eqn:Hr'.
  assert (bs = (check_all w' r).2) as -> by (by rw Hr').
  unfold accepted. cbn [zip_with snd mbind list_bind fst]. fold (accepted r (check_all w' r).2).
  destruct (spec_accepts (w_size w) acc s) eqn:Ha; [|by apply (IH w' acc)].
  rw -app_assoc. cbn [app].
  assert (s ∉ acc) as Hns.
  { unfold spec_accepts in Ha. destruct acc; [apply not_elem_of_nil|]. zbool.
    by apply bool_decide_eq_false in H. }
  specialize (IH w' (s :: acc) Hw' Hr (NoDup_cons_2 _ _ Hns Hnd)).
  by rw -Permutation_middle in IH.
Qed.

(** * Properties *)

(** C20: [Check] implements the abstract window: from a window that represents the set [acc] of
    accepted numbers it never panics, accepts a number exactly when the specification does
    (new and less than the width below the highest), and then represents the set with that
    number added; the width never changes. *)
Theorem replay_Check_refines w acc seq :
  window_of w acc -> is_u64 seq ->
  exists w', Check_seq w seq = (w', Ok (spec_accepts (w_size w) acc seq)) /\
    w_size w' = w_size w /\
    window_of w' (if spec_accepts (w_size w) acc seq then seq :: acc else acc).
Proof. apply Check_refines. Qed.

Lemma replay_Check_refines_witness :
  exists w', Check_seq NewDatagramReplayWindow 5 = (w', Ok true) /\ window_of w' [5].
Proof.
  destruct (replay_Check_refines NewDatagramReplayWindow [] 5) as (w' & H & _ & Hw).
  - apply NewWindow_of. unfold DatagramReplayWindowSize. lia.
  - by vm_compute.
  - by exists w'.
Defined.

(** Over any run from a fresh window of any width, in any order and with any repetitions,
    no sequence number is accepted twice. *)
Theorem replay_never_accepts_twice size seqs :
  0 <= size <= 2 ^ 64 - 64 -> Forall is_u64 seqs ->
  NoDup (accepted seqs (check_all (NewDatagramReplayWindowSize size) seqs).2).
Proof.
  intros Hs Hf. rw -(app_nil_r (accepted _ _)). apply check_all_fresh; [|done|constructor].
  by apply NewWindow_of.
Qed.

Lemma replay_never_accepts_twice_witness :
  NoDup (accepted [7; 7; 200; 6; 6; 7] (check_all (NewDatagramReplayWindowSize 64) [7; 7; 200; 6; 6; 7]).2).
Proof.
  apply (replay_never_accepts_twice 64 [7; 7; 200; 6; 6; 7]); [lia|].
  repeat constructor; by vm_compute.
Defined.

(** [Admissible] predicts [Check] without changing the window: it returns true exactly
    when a [Check] of the same number on the same window would accept it. *)
Theorem Admissible_predicts_Check w acc seq :
  window_of w acc -> is_u64 seq -> Admissible w seq = (Check_seq w seq).2.
Proof.
  intros Hw Hq. pose proof (Check_refines w acc seq Hw Hq) as (w' & Hc & _ & _).
  unfold Admissible. rw Hc. revert Hc. unfold Check_seq. cbn [snd].
  destruct (w_seen w) eqn:Hs; cbn [negb]; [|by case_match; intros [= _ <-]].
  destruct (w_highSeq w <? seq); [by case_match; intros [= _ <-]|].
  destruct (seq =? w_highSeq w); [by intros [= _ <-]|]. cbv zeta.
  destruct (w_size w <=? _); [by intros [= _ <-]|].
  destruct (testBit _ _) as [[]| |]; cbn; [by intros [= _ <-]| |done|done].
  by case_match; intros [= _ <-].
Qed.

Lemma Admissible_predicts_Check_witness :
  Admissible NewDatagramReplayWindow 9 = (Check_seq NewDatagramReplayWindow 9).2.
Proof.
  apply (Admissible_predicts_Check NewDatagramReplayWindow [] 9).
  - apply NewWindow_of. unfold DatagramReplayWindowSize. lia.
  - by vm_compute.
Defined.
