(* ===== verification/Reassembly.v ===== *)
(** Reassembly of fragmented handshake messages.

    [pkg/tunnel/reassembly.go].  The reassembler is a map from source to a map from message key
    to a partially filled buffer with a coverage bitset.  [Add] holds the mutex throughout, so
    it is one step of the state; the clock readings it makes are arguments.  Go's [range] over
    a map visits the entries in an unspecified order: the order is the parameter [range], and
    all that is assumed of it is that it enumerates the map. *)

From Corelib Require Import ssreflect.
From stdpp Require Import base tactics list numbers strings gmap.
From Stdlib Require Import ZArith Lia.
From S2P Require Import Prelude Base Messages DatagramCodec Replay.

Local Open Scope Z_scope.
Local Open Scope go_scope.

(** * The code *)

Definition errReassemblerFull : error :=
  ErrExternal "tunnel: reassembler at global source capacity".

(** [reasmKey]: the sender's connection index and the message type. *)
Definition reasmKey : Type := Z * Z.

Record fragmentBuffer := mkFragmentBuffer {
  fb_total : Z;
  fb_buf : list Z;
  fb_covered : list Z;
  fb_coveredN : Z;
  fb_createdAt : Z }.

(** Times and durations are in nanoseconds. *)
Record Reassembler := mkReassembler {
  r_bySource : gmap string (gmap reasmKey fragmentBuffer);
  r_maxSources : Z;
  r_maxConcurrentPerSource : Z;
  r_maxMessageSize : Z;
  r_timeout : Z }.

Definition with_bySource (r : Reassembler) (m : gmap string (gmap reasmKey fragmentBuffer))
    : Reassembler :=
  mkReassembler m (r_maxSources r) (r_maxConcurrentPerSource r) (r_maxMessageSize r)
    (r_timeout r).

Definition NewReassembler (maxConcurrentPerSource maxMessageSize timeout : Z) : Reassembler :=
  let maxConcurrentPerSource :=
    if maxConcurrentPerSource <=? 0 then DatagramMaxConcurrentReassembly
    else maxConcurrentPerSource in
  let maxMessageSize :=
    if maxMessageSize <=? 0 then DatagramMaxHandshakeMessageSize else maxMessageSize in
  let timeout :=
    if timeout <=? 0 then DatagramReassemblyTimeoutSeconds * 1000000000 else timeout in
  mkReassembler ∅ DatagramMaxHalfOpenFloor maxConcurrentPerSource maxMessageSize timeout.

(** [len(m)] of a map. *)
Definition map_len {K V} `{Countable K} (m : gmap K V) : Z := Z.of_nat (size m).

(** Deleting from a map while ranging over it visits every other entry once, so the two nested
    loops keep exactly the buffers that are not expired and the sources that keep one. *)
Definition evictExpiredLocked (now : Z) (r : Reassembler) : Reassembler :=
  let deadline := now - r_timeout r in
  with_bySource r
    (omap (fun bufs : gmap reasmKey fragmentBuffer =>
       let bufs' := filter (fun kv => ~ fb_createdAt kv.2 < deadline) bufs in
       if map_len bufs' =? 0 then None else Some bufs') (r_bySource r)).

(** The loop of [evictOldestLocked] over the entries in the order [es]. *)
Fixpoint oldest_of (es : list (reasmKey * fragmentBuffer))
    (oldest : option (reasmKey * fragmentBuffer)) : option (reasmKey * fragmentBuffer) :=
  match es with
  | [] => oldest
  | (k, fb) :: es' =>
      oldest_of es'
        (match oldest with
         | None => Some (k, fb)
         | Some (ok, ofb) =>
             if fb_createdAt fb <? fb_createdAt ofb then Some (k, fb) else Some (ok, ofb)
         end)
  end.

(** [for i := off; i < off+n; i++ { if covered bit i is clear { set it; coveredN++ } }]. *)
Fixpoint cover_loop (n : nat) (i : Z) (covered : list Z) (coveredN : Z)
    : outcome error (list Z * Z) :=
  match n with
  | O => Ok (covered, coveredN)
  | S n' =>
      let! w := idx covered (Z.shiftr i 6) in
      if Z.land w (Z.shiftl 1 (Z.land i 63)) =? 0
      then cover_loop n' (i + 1)
             (<[Z.to_nat (Z.shiftr i 6) := Z.lor w (Z.shiftl 1 (Z.land i 63))]> covered)
             (coveredN + 1)
      else cover_loop n' (i + 1) covered coveredN
  end.

Section Add.
Variable range : gmap reasmKey fragmentBuffer -> list (reasmKey * fragmentBuffer).

Definition evictOldestLocked (bufs : gmap reasmKey fragmentBuffer)
    : gmap reasmKey fragmentBuffer :=
  match oldest_of (range bufs) None with
  | Some (k, _) => delete k bufs
  | None => bufs
  end.

(** The copy of the fragment and the coverage count, on the message's buffer. *)
Definition fill (fb : fragmentBuffer) (off : Z) (fragment : list Z)
    : outcome error fragmentBuffer :=
  let! c := c_put fragment (Cursor (fb_buf fb) off) in
  let! '(covered, n) := cover_loop (length fragment) off (fb_covered fb) (fb_coveredN fb) in
  Ok (mkFragmentBuffer (fb_total fb) (c_buf c) covered n (fb_createdAt fb)).

(** The buffer of the message [h] belongs to: the one in progress, or a fresh one, for which
    the source's oldest buffer makes room.  [createdAt] is the clock at its creation. *)
Definition buffer_for (r : Reassembler) (bufs : gmap reasmKey fragmentBuffer)
    (key : reasmKey) (total createdAt : Z)
    : outcome error (gmap reasmKey fragmentBuffer * fragmentBuffer) :=
  match bufs !! key with
  | None =>
      let bufs := if r_maxConcurrentPerSource r <=? map_len bufs
                  then evictOldestLocked bufs else bufs in
      Ok (bufs, mkFragmentBuffer total (replicate (Z.to_nat total) 0)
                  (replicate (Z.to_nat ((total + 63) / 64)) 0) 0 createdAt)
  | Some fb => if fb_total fb =? total then Ok (bufs, fb) else Err ErrInvalidMessage
  end.

(** The part of [Add] that works on the map [bufs] of the fragment's source. *)
Definition add_to_source (createdAt : Z) (source : string) (h : DatagramHandshakeHeader)
    (fragment : list Z) (bufs : gmap reasmKey fragmentBuffer)
    : ST Reassembler error (option (list Z)) :=
  let total := hh_TotalLength h in
  let key := (hh_SenderIndex h, hh_MsgType h) in
  do! r := st_get in
  do! '(bufs, fb) := st_lift (buffer_for r bufs key total createdAt) in
  do! fb := st_lift (fill fb (hh_FragOffset h) fragment) in
  if fb_coveredN fb <? fb_total fb then
    do! _ := st_mod (fun r => with_bySource r (<[source := <[key := fb]> bufs]> (r_bySource r))) in
    st_ret None
  else
    let bufs := delete key bufs in
    do! _ := st_mod (fun r => with_bySource r
               (if map_len bufs =? 0 then delete source (r_bySource r)
                else <[source := bufs]> (r_bySource r))) in
    st_ret (Some (fb_buf fb)).

(** [Add]: [Ok None] is an incomplete message, [Ok (Some m)] the completed one.  [now] is the
    clock of the eviction, [createdAt] the clock of the creation of a buffer. *)
Definition Add (now createdAt : Z) (source : string) (h : DatagramHandshakeHeader)
    (fragment : list Z) : ST Reassembler error (option (list Z)) :=
  let total := hh_TotalLength h in
  do! r := st_get in
  check! negb ((total <=? 0) || (r_maxMessageSize r <? total)) else ErrMessageTooLarge in
  check! negb ((total <? hh_FragOffset h + hh_FragLength h)
               || negb (hh_FragLength h =? len fragment)) else ErrInvalidMessage in
  do! _ := st_mod (evictExpiredLocked now) in
  do! r := st_get in
  match r_bySource r !! source with
  | Some bufs => add_to_source createdAt source h fragment bufs
  | None =>
      check! negb (r_maxSources r <=? map_len (r_bySource r)) else errReassemblerFull in
      do! _ := st_mod (fun r => with_bySource r (<[source := ∅]> (r_bySource r))) in
      add_to_source createdAt source h fragment ∅
  end.
End Add.

Definition Drop_source (source : string) (r : Reassembler) : Reassembler :=
  with_bySource r (delete source (r_bySource r)).

Definition sourceCount (r : Reassembler) : Z := map_len (r_bySource r).

(** * Coverage *)

(** How many of the first [n] positions [f] marks. *)
Fixpoint countb (f : Z -> bool) (n : nat) : Z :=
  match n with
  | O => 0
  | S k => countb f k + (if f (Z.of_nat k) then 1 else 0)
  end.

Lemma countb_ext f g n : (forall j, 0 <= j < Z.of_nat n -> f j = g j) -> countb f n = countb g n.
Proof.
  induction n as [|n IH]; intros H; cbn; [done|]. rw IH; [intros; apply H; lia|].
  by rw H; [lia|].
Qed.

Lemma countb_bound f n : 0 <= countb f n <= Z.of_nat n.
Proof. induction n as [|n IH]; cbn; [lia|]. case_match; lia. Qed.

Lemma countb_full f n : countb f n = Z.of_nat n <-> forall j, 0 <= j < Z.of_nat n -> f j = true.
Proof.
  induction n as [|n IH]; cbn [countb]; [split; [lia|done]|].
  pose proof (countb_bound f n). split.
  - intros Hc j Hj. destruct (f (Z.of_nat n)) eqn:Hn; [|lia].
    destruct (decide (j = Z.of_nat n)) as [->|]; [done|]. apply IH; lia.
  - intros Hall. rw (proj2 IH); [intros; apply Hall; lia|]. rw Hall; lia.
Qed.

Lemma countb_set f g i n : 0 <= i < Z.of_nat n -> f i = false ->
  (forall j, 0 <= j -> g j = (j =? i) || f j) -> countb g n = countb f n + 1.
Proof.
  intros Hi Hf Hg. induction n as [|n IH]; [lia|]. cbn [countb].
  destruct (decide (i = Z.of_nat n)) as [->|].
  - rw Hg; [lia|]. rw Z.eqb_refl Hf. cbn [orb].
    rw (countb_ext g f); [|lia]. intros j Hj. rw Hg; [lia|].
    by replace (j =? Z.of_nat n) with false by blia.
  - rw IH; [lia|]. rw Hg; [lia|]. replace (Z.of_nat n =? i) with false by blia. cbn [orb]. lia.
Qed.

Lemma countb_zero n : countb (fun _ => false) n = 0.
Proof. induction n as [|n IH]; cbn; lia. Qed.

Lemma shift_mask i : 0 <= i -> Z.shiftr i 6 = i / 64 /\ Z.land i 63 = i mod 64.
Proof.
  intros Hi. split; [by rw Z.shiftr_div_pow2|]. by rw (Z.land_ones i 6).
Qed.

(** The bits [cover_loop] sets and the count it keeps. *)
Lemma cover_loop_bits n : forall i covered total c, words_ok covered ->
  0 <= i -> i + Z.of_nat n <= Z.of_nat total -> Z.of_nat total <= 64 * len covered ->
  c = countb (bit covered) total ->
  exists covered', cover_loop n i covered c = Ok (covered', countb (bit covered') total) /\
    length covered' = length covered /\ words_ok covered' /\
    forall j, 0 <= j ->
      bit covered' j = ((i <=? j) && (j <? i + Z.of_nat n)) || bit covered j.
Proof.
  induction n as [|n IH]; intros i covered total c Hw Hi Hin Htot ->; cbn [cover_loop].
  { exists covered. repeat split; try done. intros j Hj.
    replace (_ && _) with false; [done|].
    destruct (i <=? j) eqn:H; zbool; cbn [andb]; [blia|done]. }
  destruct (shift_mask i Hi) as [-> ->]. pose proof (pos_split i Hi) as (Hr & Heq & Hq).
  rw idx_word; [lia|]. rw obind_Ok_l. pose proof (land_pow2_testbit (word covered (i / 64)) (i mod 64)) as Hland.
  rw -(negb_involutive (_ =? 0)) Hland; [lia|]. fold (bit covered i).
  destruct (bit covered i) eqn:Hb; cbn [negb].
  - destruct (IH (i + 1) covered total (countb (bit covered) total)) as (cv & -> & Hl & Hok & Hbits);
      [done|lia..|done|]. exists cv. repeat split; try done. intros j Hj. rw Hbits //.
    destruct (decide (j = i)) as [->|]; [by rw Hb !orb_true_r|].
    f_equal. destruct (i <=? j) eqn:?, (i + 1 <=? j) eqn:?; zbool; cbn [andb]; try lia; try done.
    destruct (j <? i + Z.of_nat (S n)) eqn:?; zbool; blia.
  - destruct (setBit_bit covered i) as (cv0 & Hset & Hl0 & Hok0 & Hbit0); [done|lia|].
    unfold setBit, replayWordBits in Hset. rw idx_word in Hset; [lia|]. rw obind_Ok_l in Hset.
    apply Ok_inj in Hset. rw Hset.
    destruct (IH (i + 1) cv0 total (countb (bit covered) total + 1)) as (cv & -> & Hl & Hok & Hbits);
      [done|lia|lia|unfold len in *; lia| |].
    + symmetry. by apply (countb_set _ _ i); [lia|..].
    + exists cv. repeat split; try done; [lia|]. intros j Hj. rw Hbits // Hbit0 // orb_assoc.
      f_equal. destruct (j =? i) eqn:?; zbool; subst.
      * rw orb_true_r. symmetry. blia.
      * rw orb_false_r. destruct (i <=? j) eqn:?, (i + 1 <=? j) eqn:?; zbool; cbn [andb];
          try lia; try done. destruct (j <? i + Z.of_nat (S n)) eqn:?; zbool; blia.
Qed.

(** * The buffer of one message *)

Record fb_ok (maxMsg : Z) (fb : fragmentBuffer) : Prop := {
  fo_total : 0 < fb_total fb <= maxMsg;
  fo_buf : len (fb_buf fb) = fb_total fb;
  fo_words : words_ok (fb_covered fb);
  fo_cover : len (fb_covered fb) = (fb_total fb + 63) / 64;
  fo_count : fb_coveredN fb = countb (bit (fb_covered fb)) (Z.to_nat (fb_total fb)) }.

(** The buffer holds the bytes of [m] wherever the bitset says it has been written. *)
Definition agrees (fb : fragmentBuffer) (m : list Z) : Prop :=
  fb_total fb = len m /\
  forall j, (j < length m)%nat -> bit (fb_covered fb) (Z.of_nat j) = true ->
    fb_buf fb !! j = m !! j.

(** [piece_of off fragment m]: [fragment] is what [m] holds at [off]. *)
Definition piece_of (off : Z) (fragment m : list Z) : Prop :=
  0 <= off /\ take (length fragment) (drop (Z.to_nat off) m) = fragment.

Lemma fb_cover_room maxMsg fb : fb_ok maxMsg fb -> fb_total fb <= 64 * len (fb_covered fb).
Proof.
  intros []. rw fo_cover0. pose proof (Z.div_mod (fb_total fb + 63) 64).
  pose proof (Z.mod_pos_bound (fb_total fb + 63) 64). lia.
Qed.

Lemma new_fb_ok maxMsg total t : 0 < total <= maxMsg ->
  fb_ok maxMsg (mkFragmentBuffer total (replicate (Z.to_nat total) 0)
                  (replicate (Z.to_nat ((total + 63) / 64)) 0) 0 t).
Proof.
  intros Ht. pose proof (Z.div_pos (total + 63) 64). split; cbn; try done.
  - golia.
  - apply Forall_replicate. by vm_compute.
  - golia.
  - rw (countb_ext _ (fun _ => false)); [intros; apply bit_zeros|]. by rw countb_zero.
Qed.

Lemma fill_ok maxMsg fb off fragment : fb_ok maxMsg fb -> 0 <= off ->
  off + len fragment <= fb_total fb ->
  exists fb', fill fb off fragment = Ok fb' /\ fb_ok maxMsg fb' /\
    fb_total fb' = fb_total fb /\ fb_createdAt fb' = fb_createdAt fb /\
    fb_buf fb' = take (Z.to_nat off) (fb_buf fb) ++ fragment
                   ++ drop (Z.to_nat (off + len fragment)) (fb_buf fb) /\
    forall j, 0 <= j -> bit (fb_covered fb') j
      = ((off <=? j) && (j <? off + len fragment)) || bit (fb_covered fb) j.
Proof.
  intros Hfb Hoff Hin. pose proof (fb_cover_room _ _ Hfb). pose proof Hfb as [].
  unfold fill, c_put. cbn [c_buf c_off].
  replace ((0 <=? off) && (off + len fragment <=? len (fb_buf fb))) with true by blia.
  rw obind_Ok_l. cbn [c_buf].
  destruct (cover_loop_bits (length fragment) off (fb_covered fb) (Z.to_nat (fb_total fb))
    (fb_coveredN fb)) as (cv & -> & Hl & Hw & Hbits); [done|lia|unfold len in *; lia..|done|].
  rw obind_Ok_l. eexists; split; [done|]. split; [split; cbn; try done|done].
  - golia.
  - unfold len in *. by rw Hl.
Qed.

Lemma lookup_fill (buf fragment : list Z) off j : 0 <= off -> off + len fragment <= len buf ->
  (take (Z.to_nat off) buf ++ fragment ++ drop (Z.to_nat (off + len fragment)) buf) !! j
  = if (off <=? Z.of_nat j) && (Z.of_nat j <? off + len fragment)
    then fragment !! (j - Z.to_nat off)%nat else buf !! j.
Proof.
  unfold len. intros H0 Hl. rw lookup_app. destruct (off <=? Z.of_nat j) eqn:H1; zbool; cbn [andb].
  - rw lookup_take_ge; [lia|]. rw length_take. replace (Z.to_nat off `min` length buf)%nat with (Z.to_nat off) by lia.
    rw lookup_app. destruct (Z.of_nat j <? _) eqn:H2; zbool.
    + destruct (fragment !! (j - Z.to_nat off)%nat) eqn:Hx; [done|].
      apply lookup_ge_None in Hx. lia.
    + rw (lookup_ge_None_2 fragment); [lia|]. rw lookup_drop. f_equal. lia.
  - rw lookup_take_lt; [lia|]. destruct (buf !! j) eqn:Hx; [done|].
    apply lookup_ge_None in Hx. lia.
Qed.

Lemma fill_agrees fb fb' off fragment m : agrees fb m -> piece_of off fragment m ->
  len (fb_buf fb) = fb_total fb -> off + len fragment <= fb_total fb ->
  fb_total fb' = fb_total fb ->
  fb_buf fb' = take (Z.to_nat off) (fb_buf fb) ++ fragment
                 ++ drop (Z.to_nat (off + len fragment)) (fb_buf fb) ->
  (forall j, 0 <= j -> bit (fb_covered fb') j
      = ((off <=? j) && (j <? off + len fragment)) || bit (fb_covered fb) j) ->
  agrees fb' m.
Proof.
  intros [Ht Ha] [H0 Hp] Hlen Hin Ht' Hbuf Hbits. split; [congruence|]. intros j Hj.
  rw Hbits; [lia|]. rw Hbuf lookup_fill; [lia..|].
  destruct (_ && _) eqn:Hr; zbool; [|cbn; by apply Ha]. intros _.
  rw -Hp lookup_take_lt; [unfold len in *; lia|]. rw lookup_drop. f_equal. lia.
Qed.

Lemma agrees_full maxMsg fb m : fb_ok maxMsg fb -> agrees fb m ->
  fb_coveredN fb = fb_total fb -> fb_buf fb = m.
Proof.
  intros [] [Ht Ha] Hfull. rw fo_count0 in Hfull.
  assert (forall j, 0 <= j < fb_total fb -> bit (fb_covered fb) j = true) as Hall.
  { intros j Hj. apply (countb_full (bit (fb_covered fb)) (Z.to_nat (fb_total fb))); lia. }
  apply list_eq. intros j. destruct (decide (j < length m)%nat) as [Hj|Hj].
  - apply Ha; [done|]. apply Hall. unfold len in Ht. lia.
  - unfold len in *. rw !lookup_ge_None_2 //; lia.
Qed.

(** * The state invariant *)

(** A stored buffer is well formed and not complete. *)
Definition stored_ok (maxMsg : Z) (fb : fragmentBuffer) : Prop :=
  fb_ok maxMsg fb /\ fb_coveredN fb < fb_total fb.

Definition bufs_ok (r : Reassembler) (bufs : gmap reasmKey fragmentBuffer) : Prop :=
  map_len bufs <= r_maxConcurrentPerSource r /\
  map_Forall (fun _ fb => stored_ok (r_maxMessageSize r) fb) bufs.

Record reasm_ok (r : Reassembler) : Prop := {
  ro_conc : 1 <= r_maxConcurrentPerSource r;
  ro_sources : map_len (r_bySource r) <= r_maxSources r;
  ro_bufs : map_Forall (fun _ bufs => bufs <> ∅ /\ bufs_ok r bufs) (r_bySource r) }.

Lemma map_len_insert {K V} `{Countable K} (m : gmap K V) k v :
  map_len (<[k:=v]> m) <= map_len m + 1.
Proof. unfold map_len. rw map_size_insert. destruct (m !! k); cbn; lia. Qed.

Lemma map_len_insert_irrel {K V} `{Countable K} (m : gmap K V) k v v' :
  map_len (<[k:=v]> m) = map_len (<[k:=v']> m).
Proof. unfold map_len. by rw !map_size_insert. Qed.

Lemma map_len_insert_Some {K V} `{Countable K} (m : gmap K V) k v v0 :
  m !! k = Some v0 -> map_len (<[k:=v]> m) = map_len m.
Proof. intros Hk. unfold map_len. by rw (map_size_insert_Some _ _ _ (ex_intro _ _ Hk)). Qed.

Lemma map_len_delete {K V} `{Countable K} (m : gmap K V) k : map_len (delete k m) <= map_len m.
Proof. unfold map_len. apply inj_le, map_subseteq_size, delete_subseteq. Qed.

Lemma map_len_delete_Some {K V} `{Countable K} (m : gmap K V) k v :
  m !! k = Some v -> map_len (delete k m) = map_len m - 1.
Proof.
  intros Hk. unfold map_len. rw (map_size_delete_Some _ _ (ex_intro _ _ Hk)).
  assert (size m <> 0%nat) by (apply map_size_ne_0_lookup; eauto). lia.
Qed.

Lemma map_len_0 {K V} `{Countable K} (m : gmap K V) : map_len m = 0 <-> m = ∅.
Proof. unfold map_len. rw -map_size_empty_iff. lia. Qed.

Lemma map_len_omap {K V} `{Countable K} (f : V -> option V) (m : gmap K V) :
  map_len (omap f m) <= map_len m.
Proof.
  unfold map_len. apply inj_le. rw -!(size_dom (D := gset K)).
  apply subseteq_size, dom_omap_subseteq.
Qed.

Lemma evictExpired_lookup now r src bufs' :
  r_bySource (evictExpiredLocked now r) !! src = Some bufs' <->
  exists bufs, r_bySource r !! src = Some bufs /\ bufs' <> ∅ /\
    bufs' = filter (fun kv => ~ fb_createdAt kv.2 < now - r_timeout r) bufs.
Proof.
  unfold evictExpiredLocked. cbn [with_bySource r_bySource]. rw lookup_omap.
  destruct (r_bySource r !! src) as [bufs|]; cbn; [|split; [done|by intros (? & ? & _)]].
  case_match; zbool; split.
  - done.
  - intros (? & [= <-] & Hne & ->). by apply map_len_0 in H.
  - intros [= <-]. exists bufs. repeat split. by rw -map_len_0.
  - by intros (? & [= <-] & Hne & ->).
Qed.

Lemma evictExpired_ok now r : reasm_ok r -> reasm_ok (evictExpiredLocked now r).
Proof.
  intros []. split; cbn; [done| |].
  - etrans; [apply map_len_omap|done].
  - intros src bufs' (bufs & Hb & Hne & ->)%evictExpired_lookup. split; [done|].
    apply ro_bufs0 in Hb as [_ [Hlen Hall]]. split.
    + etrans; [|apply Hlen]. unfold map_len. apply inj_le, map_subseteq_size, map_filter_subseteq.
    + intros k fb [Hk _]%map_lookup_filter_Some. by apply Hall in Hk.
Qed.

Section Add_proofs.
Context (range : gmap reasmKey fragmentBuffer -> list (reasmKey * fragmentBuffer)).
Hypothesis range_enumerates : forall m, range m ≡ₚ map_to_list m.

Lemma oldest_of_in es : forall o k fb, oldest_of es o = Some (k, fb) ->
  (k, fb) ∈ es \/ o = Some (k, fb).
Proof.
  induction es as [|[k0 fb0] es IH]; intros o k fb H; cbn in H; [by right|].
  apply IH in H as [H|H]; [left; by right|].
  destruct o as [[k1 fb1]|]; [case_match|]; simplify_eq; [left; by left|by right|left; by left].
Qed.

Lemma oldest_of_some es : forall o, o <> None \/ es <> [] -> oldest_of es o <> None.
Proof.
  induction es as [|[k0 fb0] es IH]; intros o H; cbn; [by destruct H|].
  apply IH. left. destruct o as [[? ?]|]; [|done]. by case_match.
Qed.

(** Evicting the oldest buffer removes exactly one entry of a map that has any. *)
Lemma evictOldest_spec bufs : bufs <> ∅ ->
  exists k fb, bufs !! k = Some fb /\ evictOldestLocked range bufs = delete k bufs.
Proof.
  intros Hne. unfold evictOldestLocked.
  destruct (oldest_of (range bufs) None) as [[k fb]|] eqn:Ho.
  - apply oldest_of_in in Ho as [Hin|]; [|done]. exists k, fb. split; [|done].
    apply elem_of_map_to_list. by rw -range_enumerates.
  - exfalso. eapply oldest_of_some; [|apply Ho]. right. intros Hnil.
    apply Hne. apply map_to_list_empty_iff, Permutation_nil. by rw -range_enumerates Hnil.
Qed.

Lemma buffer_for_ok r bufs key total t : 1 <= r_maxConcurrentPerSource r -> bufs_ok r bufs ->
  0 < total <= r_maxMessageSize r ->
  match buffer_for range r bufs key total t with
  | Ok (bufs', fb) => map_Forall (fun _ fb => stored_ok (r_maxMessageSize r) fb) bufs' /\
      map_len (<[key := fb]> bufs') <= r_maxConcurrentPerSource r /\
      fb_ok (r_maxMessageSize r) fb /\ fb_total fb = total
  | Err _ => True
  | Panic => False
  end.
Proof.
  intros Hc [Hlen Hall] Ht. unfold buffer_for. destruct (bufs !! key) as [fb|] eqn:Hk.
  - destruct (fb_total fb =? total) eqn:Heq; [|done]. zbool.
    split; [done|]. rw (map_len_insert_Some _ _ _ _ Hk). split; [done|].
    by apply Hall in Hk as [? _].
  - destruct (_ <=? _) eqn:Hfull; zbool.
    + destruct (evictOldest_spec bufs) as (k & fb & Hin & ->).
      { intros ->. unfold map_len in Hfull. rw map_size_empty in Hfull. lia. }
      split; [by apply map_Forall_delete|]. split; [|split; [by apply new_fb_ok|done]].
      pose proof (map_len_insert (delete k bufs) key (mkFragmentBuffer total (replicate (Z.to_nat total) 0)
                  (replicate (Z.to_nat ((total + 63) / 64)) 0) 0 t)) as Hi.
      rw (map_len_delete_Some _ _ _ Hin) in Hi. lia.
    + split; [done|]. split; [|split; [by apply new_fb_ok|done]].
      pose proof (map_len_insert bufs key (mkFragmentBuffer total (replicate (Z.to_nat total) 0)
                  (replicate (Z.to_nat ((total + 63) / 64)) 0) 0 t)) as Hi. lia.
Qed.

(** What [add_to_source] does to the source's buffers when the fragment lies in the message. *)
Lemma add_to_source_cases r t source h fragment bufs :
  1 <= r_maxConcurrentPerSource r -> bufs_ok r bufs ->
  0 < hh_TotalLength h <= r_maxMessageSize r ->
  0 <= hh_FragOffset h -> hh_FragOffset h + len fragment <= hh_TotalLength h ->
  (exists e, buffer_for range r bufs (hh_SenderIndex h, hh_MsgType h) (hh_TotalLength h) t
               = Err e /\ add_to_source range t source h fragment bufs r = (r, Err e)) \/
  (exists bufs' fb fb', buffer_for range r bufs (hh_SenderIndex h, hh_MsgType h)
                          (hh_TotalLength h) t = Ok (bufs', fb) /\
    fill fb (hh_FragOffset h) fragment = Ok fb' /\ fb_ok (r_maxMessageSize r) fb' /\
    map_Forall (fun _ fb => stored_ok (r_maxMessageSize r) fb) bufs' /\
    map_len (<[(hh_SenderIndex h, hh_MsgType h) := fb']> bufs') <= r_maxConcurrentPerSource r /\
    add_to_source range t source h fragment bufs r =
      if fb_coveredN fb' <? fb_total fb'
      then (with_bySource r (<[source := <[(hh_SenderIndex h, hh_MsgType h) := fb']> bufs']> (r_bySource r)), Ok None)
      else (with_bySource r
              (if map_len (delete (hh_SenderIndex h, hh_MsgType h) bufs') =? 0
               then delete source (r_bySource r)
               else <[source := delete (hh_SenderIndex h, hh_MsgType h) bufs']> (r_bySource r)),
            Ok (Some (fb_buf fb')))).
Proof.
  intros Hr Hb Ht H0 Hin. unfold add_to_source, st_bind, st_get, st_lift.
  pose proof (buffer_for_ok r bufs (hh_SenderIndex h, hh_MsgType h) (hh_TotalLength h) t Hr Hb Ht) as Hbf.
  destruct (buffer_for _ _ _ _ _ _) as [[bufs' fb]|e|]; [|left; by exists e|done].
  destruct Hbf as (Hall & Hlen & Hfb & Htot). right. exists bufs', fb.
  destruct (fill_ok _ fb (hh_FragOffset h) fragment Hfb) as (fb' & Hf & Hok & _); [lia..|].
  exists fb'. rw Hf (map_len_insert_irrel _ _ fb' fb).
  do 5 (split; [done|]). by destruct (fb_coveredN fb' <? fb_total fb').
Qed.

Lemma insert_source_ok r source bufs : reasm_ok r -> bufs <> ∅ -> bufs_ok r bufs ->
  map_len (<[source := bufs]> (r_bySource r)) <= r_maxSources r ->
  reasm_ok (with_bySource r (<[source := bufs]> (r_bySource r))).
Proof.
  intros [] Hne Hb Hs. split; cbn; [done|done|].
  apply map_Forall_insert_2; [done|]. apply ro_bufs0.
Qed.

Lemma delete_source_ok r source : reasm_ok r ->
  reasm_ok (with_bySource r (delete source (r_bySource r))).
Proof.
  intros []. split; cbn; [done| |].
  - etrans; [apply map_len_delete|done].
  - by apply map_Forall_delete.
Qed.

(** Inserting the empty map for a new source first makes no difference. *)
Lemma add_to_source_new r t source h fragment :
  1 <= r_maxConcurrentPerSource r -> 0 < hh_TotalLength h <= r_maxMessageSize r ->
  0 <= hh_FragOffset h -> hh_FragOffset h + len fragment <= hh_TotalLength h ->
  add_to_source range t source h fragment ∅ (with_bySource r (<[source := ∅]> (r_bySource r)))
  = add_to_source range t source h fragment ∅ r.
Proof.
  intros Hc Ht H0 Hin. assert (bufs_ok r ∅) as Hb.
  { split; [unfold map_len; rw map_size_empty; lia|apply map_Forall_empty]. }
  destruct (add_to_source_cases r t source h fragment ∅ Hc Hb Ht H0 Hin)
    as [(e & He & _)|(bufs' & fb & fb' & Hbf & Hf & _ & _ & _ & ->)].
  - unfold buffer_for in He. by rw lookup_empty in He.
  - unfold add_to_source, st_bind, st_get, st_lift.
    change (buffer_for range (with_bySource r _)) with (buffer_for range r). rw Hbf Hf.
    destruct (fb_coveredN fb' <? fb_total fb'); cbn; unfold with_bySource; cbn.
    + by rw insert_insert_eq.
    + case_match; by rw ?delete_insert_eq ?insert_insert_eq.
Qed.

Lemma add_to_source_ok r t source h fragment bufs :
  reasm_ok r -> bufs_ok r bufs -> 0 < hh_TotalLength h <= r_maxMessageSize r ->
  0 <= hh_FragOffset h -> hh_FragOffset h + len fragment <= hh_TotalLength h ->
  map_len (<[source := bufs]> (r_bySource r)) <= r_maxSources r ->
  reasm_ok (add_to_source range t source h fragment bufs r).1 /\
  (add_to_source range t source h fragment bufs r).2 <> Panic.
Proof.
  intros Hr Hb Ht H0 Hin Hs. pose proof (ro_conc r Hr) as Hc.
  destruct (add_to_source_cases r t source h fragment bufs Hc Hb Ht H0 Hin)
    as [(e & _ & ->)|(bufs' & fb & fb' & Hbf & Hf & Hok & Hall & Hlen & ->)]; [done|].
  destruct (fb_coveredN fb' <? fb_total fb') eqn:Hcov; zbool; (split; [|done]).
  - apply insert_source_ok; [done|apply insert_non_empty| |by rw (map_len_insert_irrel _ _ _ bufs)].
    split; [done|]. by apply map_Forall_insert_2.
  - cbn [fst]. case_match; zbool; [by apply delete_source_ok|].
    apply insert_source_ok; [done|by rw -map_len_0| |by rw (map_len_insert_irrel _ _ _ bufs)].
    split; [|by apply map_Forall_delete]. etrans; [|apply Hlen].
    rw -(delete_insert_eq bufs' _ fb'). apply map_len_delete.
Qed.

(** A fragment that [ParseDatagramHandshake] returned. *)
Definition fragment_ok (h : DatagramHandshakeHeader) (fragment : list Z) : Prop :=
  0 <= hh_FragOffset h /\ 0 <= hh_FragLength h.

Lemma Add_ok now t source h fragment r : reasm_ok r -> fragment_ok h fragment ->
  reasm_ok (Add range now t source h fragment r).1 /\
  (Add range now t source h fragment r).2 <> Panic.
Proof.
  intros Hr [H0 Hl0]. unfold Add, st_bind, st_get, st_mod.
  destruct (negb (_ || (_ <? _))) eqn:Hg1; [|done]. zbool.
  destruct (negb (_ || negb _)) eqn:Hg2; [|done]. zbool.
  pose proof (evictExpired_ok now r Hr) as Hr1. cbv zeta.
  set (r1 := evictExpiredLocked now r) in *.
  assert (0 < hh_TotalLength h <= r_maxMessageSize r1) as Ht by (cbn; lia).
  assert (hh_FragOffset h + len fragment <= hh_TotalLength h) as Hin by lia.
  clearbody r1. pose proof Hr1 as [Hc Hs Hbs].
  destruct (r_bySource r1 !! source) as [bufs|] eqn:Hsrc.
  - apply add_to_source_ok; [done| |done..|by rw (map_len_insert_Some _ _ _ _ Hsrc)].
    by apply Hbs in Hsrc as [_ ?].
  - destruct (negb _) eqn:Hfull; [|done]. zbool. rw add_to_source_new; [done..|].
    apply add_to_source_ok; [done| |done..|].
    + split; [unfold map_len; rw map_size_empty; lia|apply map_Forall_empty].
    + pose proof (map_len_insert (r_bySource r1) source ∅). lia.
Qed.
End Add_proofs.

(** * Memory *)

(** The bytes all partial messages hold together. *)
Definition map_sum {K V} `{Countable K} (f : V -> Z) (m : gmap K V) : Z :=
  map_fold (fun _ v a => a + f v) 0 m.

Definition buffered (r : Reassembler) : Z :=
  map_sum (map_sum (fun fb => len (fb_buf fb))) (r_bySource r).

Lemma map_sum_bound {K V} `{Countable K} (f : V -> Z) (m : gmap K V) B : 
  map_Forall (fun _ v => f v <= B) m -> map_sum f m <= map_len m * B.
Proof.
  unfold map_sum. induction m as [|k v m Hk IH] using map_ind; intros Hf.
  - rw map_fold_empty. unfold map_len. by rw map_size_empty.
  - rw map_fold_insert_L //; [intros; lia|].
    apply map_Forall_insert_1_1 in Hf as Hv. apply map_Forall_insert_1_2 in Hf; [|done].
    specialize (IH Hf). unfold map_len in *. rw map_size_insert_None //. nia.
Qed.

Lemma buffered_bound r : reasm_ok r -> 0 <= r_maxMessageSize r ->
  buffered r <= r_maxSources r * (r_maxConcurrentPerSource r * r_maxMessageSize r).
Proof.
  intros [] Hm. unfold buffered. etrans.
  - apply (map_sum_bound _ _ (r_maxConcurrentPerSource r * r_maxMessageSize r)).
    intros src bufs Hb. apply ro_bufs0 in Hb as [_ [Hlen Hall]]. etrans.
    + apply (map_sum_bound _ _ (r_maxMessageSize r)). intros k fb Hfb.
      apply Hall in Hfb as [[] _]. lia.
    + by apply Z.mul_le_mono_nonneg_r.
  - apply Z.mul_le_mono_nonneg_r; [nia|done].
Qed.

(** * Reassembling a message *)

Section Reassemble.
Context (range : gmap reasmKey fragmentBuffer -> list (reasmKey * fragmentBuffer)).
Context (source : string) (m : list Z) (key : reasmKey).

(** One arrival: the two clock readings, the parsed header and the fragment. *)
Record arrival := mkArrival {
  a_now : Z;
  a_created : Z;
  a_header : DatagramHandshakeHeader;
  a_fragment : list Z }.

(** The arrival is a fragment of the message [m] of [key]. *)
Record arrival_of (a : arrival) : Prop := {
  ao_total : hh_TotalLength (a_header a) = len m;
  ao_key : (hh_SenderIndex (a_header a), hh_MsgType (a_header a)) = key;
  ao_len : hh_FragLength (a_header a) = len (a_fragment a);
  ao_in : hh_FragOffset (a_header a) + len (a_fragment a) <= len m;
  ao_piece : piece_of (hh_FragOffset (a_header a)) (a_fragment a) m }.

Definition covers (a : arrival) (j : Z) : bool :=
  (hh_FragOffset (a_header a) <=? j) && (j <? hh_FragOffset (a_header a) + len (a_fragment a)).

(** Every byte of the message is in some arrival. *)
Definition all_covered (l : list arrival) : Prop :=
  forall j, 0 <= j < len m -> exists a, a ∈ l /\ covers a j = true.

Definition add_arrival (a : arrival) : ST Reassembler error (option (list Z)) :=
  Add range (a_now a) (a_created a) source (a_header a) (a_fragment a).

Fixpoint feed (l : list arrival) : ST Reassembler error (list (option (list Z))) :=
  match l with
  | [] => st_ret []
  | a :: l' => do! x := add_arrival a in
               do! xs := feed l' in
               st_ret (x :: xs)
  end.

(** The reassembler holds exactly what the arrivals [l] wrote. *)
Definition holds (r : Reassembler) (t0 : Z) (l : list arrival) : Prop :=
  exists fb, r_bySource r !! source = Some {[key := fb]} /\
    fb_ok (r_maxMessageSize r) fb /\ agrees fb m /\ fb_createdAt fb = t0 /\
    forall j, 0 <= j -> bit (fb_covered fb) j = existsb (fun a => covers a j) l.

Definition room_for (r : Reassembler) : Prop :=
  r_bySource r !! source = None /\ map_len (r_bySource r) < r_maxSources r.

Lemma evict_room now r : room_for r -> room_for (evictExpiredLocked now r).
Proof.
  intros [Hn Hs]. split.
  - destruct (r_bySource (evictExpiredLocked now r) !! source) eqn:H; [|done].
    apply evictExpired_lookup in H as (? & H & _). congruence.
  - cbn. eapply Z.le_lt_trans; [apply map_len_omap|done].
Qed.

Lemma evict_holds now r t0 l : now - r_timeout r <= t0 -> holds r t0 l ->
  holds (evictExpiredLocked now r) t0 l.
Proof.
  intros Ht (fb & Hs & Hok & Ha & Hc & Hb). exists fb. split; [|done].
  apply evictExpired_lookup. exists {[key := fb]}. split; [done|]. split; [apply map_non_empty_singleton|].
  symmetry. rw map_filter_singleton_True //. cbn. lia.
Qed.

Lemma existsb_snoc {A} (f : A -> bool) l a : existsb f (l ++ [a]) = existsb f l || f a.
Proof. rw existsb_app. cbn. by rw orb_false_r. Qed.

Lemma all_covered_countb l fb : fb_ok (len m) fb -> fb_total fb = len m ->
  (forall j, 0 <= j -> bit (fb_covered fb) j = existsb (fun a => covers a j) l) ->
  (fb_coveredN fb <? fb_total fb) = false <-> all_covered l.
Proof.
  intros [] Ht Hb. rw Z.ltb_ge fo_count0.
  pose proof (countb_bound (bit (fb_covered fb)) (Z.to_nat (fb_total fb))) as Hcb.
  split.
  - intros Hle j Hj. assert (bit (fb_covered fb) j = true) as Hj'.
    { apply (countb_full _ (Z.to_nat (fb_total fb))); lia. }
    rw Hb in Hj'; [lia|]. apply existsb_exists in Hj' as (a & Ha & Hc).
    exists a. by rw list_elem_of_In.
  - intros Hall. rw (proj2 (countb_full _ _)); [|lia]. intros j Hj.
    destruct (Hall j) as (a & Ha & Hc); [lia|]. rw Hb; [lia|]. apply existsb_exists.
    exists a. by rw -list_elem_of_In.
Qed.

(** Filling the message's buffer when the source has no other message in progress. *)
Lemma add_to_source_step r a l fb bufs t0 : len m <= r_maxMessageSize r ->
  arrival_of a -> fb_ok (r_maxMessageSize r) fb -> agrees fb m -> fb_createdAt fb = t0 ->
  (forall j, 0 <= j -> bit (fb_covered fb) j = existsb (fun a => covers a j) l) ->
  buffer_for range r bufs key (len m) (a_created a) = Ok (bufs, fb) ->
  <[key := fb]> bufs = {[key := fb]} -> delete key bufs = ∅ ->
  let res := add_to_source range (a_created a) source (a_header a) (a_fragment a) bufs r in
  (~ all_covered (l ++ [a]) -> exists r', res = (with_bySource r r', Ok None) /\
     holds (with_bySource r r') t0 (l ++ [a])) /\
  (all_covered (l ++ [a]) ->
     res = (with_bySource r (delete source (r_bySource r)), Ok (Some m))).
Proof.
  intros Hm [Hto Hk Hfl Hin Hp] Hok Ha Ht Hb Hbf Hins Hdel res. subst res.
  pose proof Ha as [Htot _]. pose proof Hp as [Hoff0 _].
  destruct (fill_ok _ fb (hh_FragOffset (a_header a)) (a_fragment a) Hok)
    as (fb' & Hf & Hok' & Htot' & Hc' & Hbuf & Hbits); [done|lia|].
  assert (agrees fb' m) as Ha'.
  { eapply fill_agrees; [apply Ha|apply Hp|apply Hok|lia|done..]. }
  assert (fb_ok (len m) fb') as Hokm by (destruct Hok'; split; [lia|done..]).
  assert (forall j, 0 <= j -> bit (fb_covered fb') j = existsb (fun a => covers a j) (l ++ [a]))
    as Hb' by (intros j Hj; rw existsb_snoc Hbits // Hb // orb_comm; done).
  pose proof (all_covered_countb (l ++ [a]) fb' Hokm) as Hcov.
  unfold add_to_source, st_bind, st_get, st_lift. rw Hto Hk Hbf Hf Htot'.
  rw Htot' in Hcov. specialize (Hcov Htot Hb'). rw Hdel.
  destruct (fb_coveredN fb' <? fb_total fb) eqn:Hlt; split; intros Hall.
  - eexists; split; [done|]. exists fb'. cbn. rw lookup_insert_eq.
    split; [|by rw Hc']. f_equal. rw -(insert_insert_eq bufs key fb' fb) Hins. apply insert_singleton_eq.
  - by apply Hcov in Hall.
  - by destruct Hall; apply Hcov.
  - unfold st_mod, st_ret. rw (proj2 (map_len_0 ∅) eq_refl). cbn [Z.eqb].
    rw (agrees_full _ _ _ Hokm Ha') //.
    destruct Hokm. zbool. pose proof (countb_bound (bit (fb_covered fb')) (Z.to_nat (fb_total fb'))). lia.
Qed.

Hypothesis range_enumerates : forall m, range m ≡ₚ map_to_list m.

(** The guards of [Add] let a fragment of the message through. *)
Lemma Add_guards r a : 0 < len m <= r_maxMessageSize r -> arrival_of a ->
  add_arrival a r =
  (let r1 := evictExpiredLocked (a_now a) r in
   match r_bySource r1 !! source with
   | Some bufs => add_to_source range (a_created a) source (a_header a) (a_fragment a) bufs r1
   | None =>
      (check! negb (r_maxSources r1 <=? map_len (r_bySource r1)) else errReassemblerFull in
       add_to_source range (a_created a) source (a_header a) (a_fragment a) ∅)
        (if negb (r_maxSources r1 <=? map_len (r_bySource r1))
         then with_bySource r1 (<[source := ∅]> (r_bySource r1)) else r1)
   end).
Proof.
  intros Hm [Hto Hk Hfl Hin Hp]. unfold add_arrival, Add, st_bind, st_get, st_mod. rw Hto Hfl.
  replace (negb _) with true by blia.
  replace (negb ((_ <? _) || _)) with true by (rw Z.eqb_refl; cbn [negb]; rw orb_false_r; blia).
  cbv zeta. case_match; [done|]. by destruct (negb _).
Qed.

Definition within (r : Reassembler) (t0 : Z) (a : arrival) : Prop := a_now a - r_timeout r <= t0.

(** The result of one more arrival, from a source with no state or one that holds [l]. *)
Lemma add_arrival_step r t0 l a :
  1 <= r_maxConcurrentPerSource r -> 0 < len m <= r_maxMessageSize r -> arrival_of a ->
  (room_for r /\ l = [] /\ a_created a = t0) \/ (holds r t0 l /\ within r t0 a) ->
  (~ all_covered (l ++ [a]) -> exists bs, add_arrival a r = (with_bySource r bs, Ok None) /\
     holds (with_bySource r bs) t0 (l ++ [a])) /\
  (all_covered (l ++ [a]) -> exists bs, add_arrival a r = (with_bySource r bs, Ok (Some m)) /\
     bs !! source = None).
Proof.
  intros Hc Hm Hao Hst. rw (Add_guards r a Hm Hao). cbv zeta.
  set (r1 := evictExpiredLocked (a_now a) r).
  destruct Hst as [(Hroom & -> & Ht0)|[Hh Hwi]].
  - apply (evict_room (a_now a)) in Hroom as [Hnone Hs]. fold r1 in Hnone, Hs. rw Hnone.
    replace (negb (r_maxSources r1 <=? map_len (r_bySource r1))) with true by blia.
    pose proof Hao as [Hto Hk Hfl Hin [Hoff _]].
    rw add_to_source_new; [done|done|by rw Hto|done|lia|].
    destruct (add_to_source_step r1 a []
      (mkFragmentBuffer (len m) (replicate (Z.to_nat (len m)) 0)
         (replicate (Z.to_nat ((len m + 63) / 64)) 0) 0 (a_created a)) ∅ t0) as [H1 H2];
      [cbn; lia|done|by apply new_fb_ok| |done| | | |apply delete_empty|].
    + split; [done|]. intros j Hj. cbn. by rw bit_zeros.
    + intros j Hj. cbn. apply bit_zeros.
    + unfold buffer_for. rw lookup_empty. by rw (proj2 (map_len_0 ∅) eq_refl);
        replace (r_maxConcurrentPerSource r1 <=? 0) with false by (cbn; blia).
    + apply insert_empty.
    + split; [intros Hn; destruct (H1 Hn) as (bs & ? & ?); by exists bs|].
      intros Hall. eexists. split; [by rw H2|]. apply lookup_delete_eq.
  - apply (evict_holds (a_now a)) in Hh as (fb & Hs & Hok & Ha & Ht & Hb); [|done].
    fold r1 in Hs, Hok. rw Hs. pose proof Ha as [Htot _].
    destruct (add_to_source_step r1 a l fb {[key := fb]} t0) as [H1 H2];
      [cbn; lia|done..| | |apply delete_singleton_eq|].
    + unfold buffer_for. rw lookup_singleton_eq. by rw Htot Z.eqb_refl.
    + apply insert_singleton_eq.
    + split; [intros Hn; destruct (H1 Hn) as (bs & ? & ?); by exists bs|].
      intros Hall. eexists. split; [by rw H2|]. apply lookup_delete_eq.
Qed.

Lemma all_covered_mono l l' : l ⊆ l' -> all_covered l -> all_covered l'.
Proof. intros Hs H j Hj. destruct (H j Hj) as (a & Ha & Hc). exists a. split; [by apply Hs|done]. Qed.

Lemma feed_holds l : forall r t0 pre, 1 <= r_maxConcurrentPerSource r ->
  0 < len m <= r_maxMessageSize r -> holds r t0 pre -> Forall arrival_of l ->
  Forall (within r t0) l -> ~ all_covered (pre ++ l) ->
  exists bs, feed l r = (with_bySource r bs, Ok (replicate (length l) None)) /\
    holds (with_bySource r bs) t0 (pre ++ l).
Proof.
  induction l as [|a l IH]; intros r t0 pre Hc Hm Hh Hao Hwi Hn.
  - exists (r_bySource r). rw app_nil_r. by destruct r.
  - apply Forall_cons_1 in Hao as [Ha Hao]. apply Forall_cons_1 in Hwi as [Hw Hwi].
    destruct (add_arrival_step r t0 pre a) as [H1 _]; [done..|by right|].
    destruct H1 as (bs & Heq & Hh').
    { intros Hall. apply Hn. eapply all_covered_mono; [|apply Hall].
      rw (cons_middle a pre l). intros x. rw !elem_of_app. tauto. }
    rw (cons_middle a) app_assoc in Hn |- *.
    destruct (IH (with_bySource r bs) t0 (pre ++ [a])) as (bs' & Hf & Hh''); [done..|].
    exists bs'. split; [|done]. cbn [feed length replicate]. unfold st_bind at 1. rw Heq.
    unfold st_bind. by rw Hf.
Qed.

(** The message is delivered with the arrival that completes it, not before, and the source's
    state is gone then. *)
Lemma feed_completes r l a : 1 <= r_maxConcurrentPerSource r ->
  0 < len m <= r_maxMessageSize r -> room_for r -> Forall arrival_of (l ++ [a]) ->
  Forall (within r (a_created (hd a l))) (l ++ [a]) ->
  ~ all_covered l -> all_covered (l ++ [a]) ->
  exists r1 bs, feed l r = (r1, Ok (replicate (length l) None)) /\
    add_arrival a r1 = (with_bySource r bs, Ok (Some m)) /\ bs !! source = None.
Proof.
  intros Hc Hm Hroom [Hao [Ha _]%Forall_cons_1]%Forall_app Hwi Hn Hall.
  destruct l as [|a0 l]; cbn [hd] in Hwi.
  - exists r. destruct (add_arrival_step r (a_created a) [] a) as [_ H2]; [done..|by left|].
    destruct (H2 Hall) as (bs & ? & ?). by exists bs.
  - apply Forall_cons_1 in Hao as [Ha0 Hao]. apply Forall_app in Hwi as [Hwl [Hwa _]%Forall_cons_1].
    apply Forall_cons_1 in Hwl as [_ Hwl].
    destruct (add_arrival_step r (a_created a0) [] a0) as [H1 _]; [done..|by left|].
    destruct H1 as (bs0 & Heq & Hh).
    { intros H. apply Hn. eapply all_covered_mono; [|apply H]. intros x ->%list_elem_of_singleton. by left. }
    destruct (feed_holds l (with_bySource r bs0) (a_created a0) [a0]) as (bs1 & Hf & Hh1); [done..|].
    destruct (add_arrival_step (with_bySource r bs1) (a_created a0) (a0 :: l) a) as [_ H2];
      [done..|by right|].
    destruct (H2 Hall) as (bs & Hadd & Hnone). exists (with_bySource r bs1), bs.
    split; [|done]. cbn [feed length replicate]. unfold st_bind at 1. rw Heq.
    unfold st_bind. by rw Hf.
Qed.
End Reassemble.

(** * Properties *)

Lemma NewReassembler_ok c s t : reasm_ok (NewReassembler c s t).
Proof.
  unfold NewReassembler. split; cbn [r_maxConcurrentPerSource r_bySource r_maxSources].
  - case_match; zbool; [by vm_compute|lia].
  - unfold map_len. by rw map_size_empty.
  - apply map_Forall_empty.
Qed.

(** C22: from a well-formed reassembler, any fragment the parser let through leaves it well
    formed, whether it is accepted or refused, and nothing panics: at most [maxSources]
    sources, at most [maxConcurrentPerSource] messages each, none of them empty, complete or
    over the size limit, each with a coverage count equal to the bits it has set. *)
Theorem Add_preserves_invariant range now t source h fragment r :
  (forall m, range m ≡ₚ map_to_list m) -> reasm_ok r ->
  0 <= hh_FragOffset h -> 0 <= hh_FragLength h ->
  reasm_ok (Add range now t source h fragment r).1 /\
  (Add range now t source h fragment r).2 <> Panic.
Proof. intros Hr Hok H0 H1. by apply Add_ok. Qed.

Definition example_fragment : DatagramHandshakeHeader :=
  mkDatagramHandshakeHeader (mkDatagramHeader DatagramFrameHandshake 0 0 0) 1
    MessageTypeClientHello 0 2 5 [].

Lemma Add_preserves_invariant_witness :
  reasm_ok (Add map_to_list 0 0 "a" example_fragment [7; 8] (NewReassembler 0 0 0)).1.
Proof.
  apply (Add_preserves_invariant map_to_list 0 0 "a" example_fragment [7; 8]
    (NewReassembler 0 0 0)); [done|apply NewReassembler_ok|by vm_compute..].
Defined.

(** The memory held for unauthenticated peers is bounded: all partial messages together
    never exceed sources times messages per source times message size. *)
Theorem reassembly_memory_bound r : reasm_ok r -> 0 <= r_maxMessageSize r ->
  buffered r <= r_maxSources r * (r_maxConcurrentPerSource r * r_maxMessageSize r).
Proof. apply buffered_bound. Qed.

Lemma reassembly_memory_bound_witness :
  buffered (Add map_to_list 0 0 "a" example_fragment [7; 8] (NewReassembler 0 0 0)).1
  <= 1024 * (4 * 4096).
Proof.
  apply (reassembly_memory_bound
    (Add map_to_list 0 0 "a" example_fragment [7; 8] (NewReassembler 0 0 0)).1); [|by vm_compute].
  apply Add_ok; [done|apply NewReassembler_ok|by vm_compute].
Defined.
