(* ===== verification/Fragment.v ===== *)
(** Fragmentation of handshake messages.

    [pkg/tunnel/dgram_handshake.go]: the send-side fragmenter, the inverse of the reassembler.
    The loop over the offsets runs with fuel; a message of [n] bytes needs at most [n]
    iterations, which is the fuel it gets, and the theorems show that it never runs out. *)

From Corelib Require Import ssreflect.
From stdpp Require Import base tactics list numbers strings gmap.
From Stdlib Require Import ZArith Lia.
From S2P Require Import Prelude Base Messages DatagramCodec Replay Reassembly.

Local Open Scope Z_scope.
Local Open Scope go_scope.

(** * The code *)

Definition maxHandshakeFragmentPayload (cookieLen : Z) : Z :=
  DatagramMTU - DatagramHeaderSize - DatagramHandshakeExtSize - cookieLen.

(** [h := base; h.Seq = seq; h.FragOffset = off; h.FragLength = n; h.TotalLength = total]. *)
Definition fragment_header (base : DatagramHandshakeHeader) (seq off n total : Z)
    : DatagramHandshakeHeader :=
  let b := hh_Header base in
  mkDatagramHandshakeHeader
    (mkDatagramHeader (dh_Type b) (dh_Epoch b) (dh_RecvIndex b) seq)
    (hh_SenderIndex base) (hh_MsgType base) (u16 off) (u16 n) (u16 total) (hh_Cookie base).

(** [frame = append(frame, make([]byte, DatagramMTU-len(frame))...)] when padding. *)
Definition pad_frame (pad : bool) (frame : list Z) : list Z :=
  if pad && (len frame <? DatagramMTU)
  then frame ++ replicate (Z.to_nat (DatagramMTU - len frame)) 0 else frame.

(** [for off := 0; off < total; off += maxFrag]; running out of fuel is [Panic]. *)
Fixpoint fragment_loop (fuel : nat) (base : DatagramHandshakeHeader) (msg : list Z) (pad : bool)
    (maxFrag off seq : Z) : outcome error (list (list Z)) :=
  let total := len msg in
  if off <? total then
    match fuel with
    | O => Panic
    | S fuel =>
        let e := off + maxFrag in
        let e := if total <? e then total else e in
        let! chunk := slice msg off e in
        let! frame := EncodeDatagramHandshake (fragment_header base seq off (e - off) total) chunk in
        let! frames := fragment_loop fuel base msg pad maxFrag (off + maxFrag) (u64_add seq 1) in
        Ok (pad_frame pad frame :: frames)
    end
  else Ok [].

Definition fragmentHandshake (base : DatagramHandshakeHeader) (msg : list Z) (pad : bool)
    : outcome error (list (list Z)) :=
  let total := len msg in
  guard! negb ((total =? 0) || (DatagramMaxHandshakeMessageSize <? total))
    else ErrMessageTooLarge in
  let maxFrag := maxHandshakeFragmentPayload (len (hh_Cookie base)) in
  guard! negb (maxFrag <=? 0) else ErrInvalidMessage in
  fragment_loop (Z.to_nat total) base msg pad maxFrag 0 (dh_Seq (hh_Header base)).

(** * The frames *)

#[export] Hint Unfold maxHandshakeFragmentPayload DatagramMaxHandshakeMessageSize : gosz.

Section Frames.
Context (base : DatagramHandshakeHeader) (msg : list Z) (pad : bool).
Hypothesis base_ok : DatagramHandshakeHeader_ok base.
Hypothesis base_type : dh_Type (hh_Header base) = DatagramFrameHandshake.
Hypothesis cookie_ok : len (hh_Cookie base) <= 255.
Hypothesis msg_ok : 0 < len msg <= DatagramMaxHandshakeMessageSize.

Let maxFrag : Z := maxHandshakeFragmentPayload (len (hh_Cookie base)).

(** A header and its chunk of the message. *)
Record fragment_of (p : DatagramHandshakeHeader * list Z) : Prop := {
  fo_ok : DatagramHandshakeHeader_ok p.1;
  fo_type : dh_Type (hh_Header p.1) = DatagramFrameHandshake;
  fo_cookie : hh_Cookie p.1 = hh_Cookie base;
  fo_key : (hh_SenderIndex p.1, hh_MsgType p.1) = (hh_SenderIndex base, hh_MsgType base);
  fo_len : hh_FragLength p.1 = len p.2;
  fo_msg : hh_TotalLength p.1 = len msg;
  fo_in : hh_FragOffset p.1 + len p.2 <= len msg;
  fo_max : 0 < len p.2 <= maxFrag;
  fo_piece : piece_of (hh_FragOffset p.1) p.2 msg }.

Definition frame_of (p : DatagramHandshakeHeader * list Z) : list Z :=
  pad_frame pad (wire_DatagramHandshake p.1 p.2).

Definition in_piece (p : DatagramHandshakeHeader * list Z) (j : Z) : Prop :=
  hh_FragOffset p.1 <= j < hh_FragOffset p.1 + len p.2.

Lemma maxFrag_pos : 919 <= maxFrag.
Proof. unfold maxFrag. golia. Qed.

Lemma len_wire_DatagramHandshake h f :
  len (wire_DatagramHandshake h f) = 26 + len (hh_Cookie h) + len f.
Proof. unfold wire_DatagramHandshake. golia. Qed.

Lemma fragment_header_of seq off e : is_u64 seq -> 0 <= off < len msg ->
  e = Z.min (off + maxFrag) (len msg) ->
  fragment_of (fragment_header base seq off (e - off) (len msg),
               take (Z.to_nat (e - off)) (drop (Z.to_nat off) msg)).
Proof.
  intros Hs Hoff He. pose proof maxFrag_pos. destruct base_ok as [[] ? ? ? ? ?].
  unfold DatagramMaxHandshakeMessageSize in msg_ok.
  unfold fragment_header. rw !u16_small; [lia..|].
  split; cbn; try done; try golia.
  - split; cbn; try done; unfold is_u16; lia.
  - split; [lia|]. rw length_take length_drop. f_equal. unfold len in *. lia.
Qed.

(** The loop from [off] on: it returns one frame per chunk, the chunks cover the rest of the
    message and no byte is in two of them. *)
Lemma fragment_loop_frames fuel : forall off seq, is_u64 seq -> 0 <= off ->
  len msg - off <= Z.of_nat fuel ->
  exists ps, fragment_loop fuel base msg pad maxFrag off seq = Ok (map frame_of ps) /\
    Forall fragment_of ps /\
    (forall p, p ∈ ps -> off <= hh_FragOffset p.1) /\
    (forall j, off <= j < len msg -> exists p, p ∈ ps /\ in_piece p j) /\
    (forall p q j, p ∈ ps -> q ∈ ps -> in_piece p j -> in_piece q j -> p = q).
Proof.
  pose proof maxFrag_pos as Hmax.
  induction fuel as [|fuel IH]; intros off seq Hs H0 Hf; cbn [fragment_loop].
  - replace (off <? len msg) with false by blia. exists []. split; [done|].
    split; [done|]. split; [by intros ? ?%elem_of_nil|]. split; [lia|by intros ? ? ? ?%elem_of_nil].
  - destruct (off <? len msg) eqn:Hlt; zbool.
    2:{ exists []. split; [done|]. split; [done|]. split; [by intros ? ?%elem_of_nil|].
        split; [lia|by intros ? ? ? ?%elem_of_nil]. }
    cbv zeta. set (e := if len msg <? off + maxFrag then len msg else off + maxFrag).
    assert (e = Z.min (off + maxFrag) (len msg)) as He by (subst e; case_match; zbool; lia).
    clearbody e. pose proof (fragment_header_of seq off e Hs ltac:(lia) He) as Hp.
    set (p := (_, _)) in Hp.
    assert (@slice error _ msg off e = Ok p.2) as ->.
    { unfold slice. by replace (_ && _ && _) with true by blia. }
    rw obind_Ok_l. pose proof Hp as [Hok Hty Hck Hkey Hlen Htot Hin Hpm Hpc].
    change (fragment_header base seq off (e - off) (len msg)) with p.1.
    rw EncodeDatagramHandshake_wire; [by rw Hck|]. rw obind_Ok_l.
    destruct (IH (off + maxFrag) (u64_add seq 1)) as (ps & -> & Hall & Hge & Hcov & Hdis);
      [apply u64_range|lia|lia|].
    assert (hh_FragOffset p.1 = off) as Hpo by (cbn; apply u16_small; unfold DatagramMaxHandshakeMessageSize in *; lia).
    assert (off + len p.2 = e) as Hpe by (cbn; golia).
    exists (p :: ps). split; [done|]. split; [by constructor|]. split; [|split].
    + intros q [->|Hq]%elem_of_cons; [lia|]. apply Hge in Hq. lia.
    + intros j Hj. destruct (decide (j < off + maxFrag)).
      * exists p. split; [by left|]. unfold in_piece. lia.
      * destruct (Hcov j) as (q & Hq & Hqj); [lia|]. exists q. split; [by right|done].
    + unfold in_piece. intros q1 q2 j [->|H1]%elem_of_cons [->|H2]%elem_of_cons Hj1 Hj2; try done.
      * apply Hge in H2. lia.
      * apply Hge in H1. lia.
      * by eapply Hdis.
Qed.

Lemma fragmentHandshake_frames : exists ps,
  fragmentHandshake base msg pad = Ok (map frame_of ps) /\
  Forall fragment_of ps /\
  (forall j, 0 <= j < len msg -> exists p, p ∈ ps /\ in_piece p j) /\
  (forall p q j, p ∈ ps -> q ∈ ps -> in_piece p j -> in_piece q j -> p = q).
Proof.
  pose proof maxFrag_pos as Hmax. unfold fragmentHandshake. gd. cbv zeta.
  replace (negb _) with true by (symmetry; apply negb_true_iff, Z.leb_gt; unfold maxFrag in *; lia).
  destruct (fragment_loop_frames (Z.to_nat (len msg)) 0 (dh_Seq (hh_Header base)))
    as (ps & Hl & Hall & _ & Hcov & Hdis); [apply base_ok|lia|lia|].
  by exists ps.
Qed.

Lemma frame_of_parses p : fragment_of p -> ParseDatagramHandshake (frame_of p) = Ok p.
Proof.
  intros []. unfold frame_of, pad_frame. destruct p as [h f]. cbn [fst snd] in *.
  case_match.
  - apply ParseDatagramHandshake_wire; [done|by rw fo_cookie0|done|done|lia].
  - rw -(app_nil_r (wire_DatagramHandshake h f)).
    apply ParseDatagramHandshake_wire; [done|by rw fo_cookie0|done|done|lia].
Qed.

Lemma frame_of_size p : fragment_of p ->
  len (frame_of p) <= DatagramMTU /\ (pad = true -> len (frame_of p) = DatagramMTU).
Proof.
  intros []. unfold frame_of, pad_frame.
  assert (len (wire_DatagramHandshake p.1 p.2) <= DatagramMTU) as Hl.
  { rw len_wire_DatagramHandshake fo_cookie0. unfold maxFrag in *. golia. }
  destruct pad; cbn [andb]; [|split; [done|done]].
  case_match; zbool; [|split; [done|lia]]. autorewrite with golen. split; lia.
Qed.
End Frames.

(** * Fragmenting and reassembling *)

(** One datagram at the receiver: parse the frame, then [Add]. *)
Definition receive_frame (range : gmap reasmKey fragmentBuffer -> list (reasmKey * fragmentBuffer))
    (now createdAt : Z) (source : string) (frame : list Z)
    : ST Reassembler error (option (list Z)) :=
  do! '(h, fragment) := st_lift (ParseDatagramHandshake frame) in
  Add range now createdAt source h fragment.

(** Datagrams one after the other, each with the clock readings of its arrival. *)
Fixpoint receive_frames (range : gmap reasmKey fragmentBuffer -> list (reasmKey * fragmentBuffer))
    (source : string) (l : list (Z * Z * list Z)) : ST Reassembler error (list (option (list Z))) :=
  match l with
  | [] => st_ret []
  | (now, createdAt, frame) :: l' =>
      do! x := receive_frame range now createdAt source frame in
      do! xs := receive_frames range source l' in
      st_ret (x :: xs)
  end.

(** An arrival as the reassembler sees it. *)
Definition arrival_at (range_time : Z * Z) (p : DatagramHandshakeHeader * list Z) : arrival :=
  mkArrival range_time.1 range_time.2 p.1 p.2.

Lemma Forall_choose {A B} (R : A -> B -> Prop) l :
  Forall (fun x => exists y, R x y) l -> exists ys, Forall2 R l ys.
Proof.
  induction 1 as [|x l [y Hy] _ [ys IH]]; [by exists []|]. exists (y :: ys). by constructor.
Qed.

Lemma Forall2_in_l {A B} (R : A -> B -> Prop) l k x :
  Forall2 R l k -> x ∈ l -> exists y, y ∈ k /\ R x y.
Proof.
  induction 1 as [|a b l k Hab _ IH]; [by intros ?%elem_of_nil|].
  intros [->|Hx]%elem_of_cons; [exists b; split; [by left|done]|].
  destruct (IH Hx) as (y & Hy & ?). exists y. split; [by right|done].
Qed.

Lemma Forall2_in_r {A B} (R : A -> B -> Prop) l k y :
  Forall2 R l k -> y ∈ k -> exists x, x ∈ l /\ R x y.
Proof.
  induction 1 as [|a b l k Hab _ IH]; [by intros ?%elem_of_nil|].
  intros [->|Hx]%elem_of_cons; [exists a; split; [by left|done]|].
  destruct (IH Hx) as (x & Hx' & ?). exists x. split; [by right|done].
Qed.

Section EndToEnd.
Context (range : gmap reasmKey fragmentBuffer -> list (reasmKey * fragmentBuffer)).
Context (base : DatagramHandshakeHeader) (msg : list Z) (pad : bool) (source : string).
Context (ps : list (DatagramHandshakeHeader * list Z)).
Hypothesis cookie_ok : len (hh_Cookie base) <= 255.
Hypothesis ps_ok : Forall (fragment_of base msg) ps.

(** The datagram [y] carries the fragment [p] of the list. *)
Definition carries (y : Z * Z * list Z) (a : arrival) : Prop :=
  exists p, p ∈ ps /\ y.2 = frame_of pad p /\ a = arrival_at y.1 p.

Lemma carries_arrival y a : carries y a ->
  arrival_of msg (hh_SenderIndex base, hh_MsgType base) a.
Proof.
  intros (p & Hp & _ & ->). destruct (proj1 (list.Forall_forall _ _) ps_ok p Hp). by split.
Qed.

Lemma receive_frame_arrival y a : carries y a ->
  receive_frame range y.1.1 y.1.2 source y.2 = add_arrival range source a.
Proof.
  intros (p & Hp & -> & ->). pose proof (proj1 (list.Forall_forall _ _) ps_ok p Hp) as Hf.
  unfold receive_frame, add_arrival. rw (frame_of_parses base msg pad cookie_ok p Hf). by destruct p.
Qed.

Lemma receive_frames_feed l as_ : Forall2 carries l as_ ->
  forall r, receive_frames range source l r = feed range source as_ r.
Proof.
  induction 1 as [|[[now cr] fr] a l as_ Hc _ IH]; intros r; [done|].
  cbn [receive_frames feed]. unfold st_bind.
  rw (receive_frame_arrival _ _ Hc : receive_frame range now cr source fr = _).
  destruct (add_arrival range source a r) as [r' []]; [by rw IH|done|done].
Qed.

Hypothesis ps_cover : forall j, 0 <= j < len msg -> exists p, p ∈ ps /\ in_piece p j.
Hypothesis ps_disjoint : forall p q j, p ∈ ps -> q ∈ ps -> in_piece p j -> in_piece q j -> p = q.

Lemma covers_in_piece y p j : covers (arrival_at y p) j = true <-> in_piece p j.
Proof. unfold covers, in_piece. cbn. rw andb_true_iff Z.leb_le Z.ltb_lt. done. Qed.

(** Without the frame [x] carries, a byte of the message is missing. *)
Lemma missing_frame l la x a : Forall2 carries l la -> carries x a ->
  Forall (fun y => y.2 <> x.2) l -> ~ all_covered msg la.
Proof.
  intros Hla (p & Hp & Hx & _) Hlast Hall.
  destruct (proj1 (list.Forall_forall _ _) ps_ok p Hp) as [_ _ _ _ _ _ Hin Hmax [Hoff _]].
  destruct (Hall (hh_FragOffset p.1)) as (a' & Ha' & Hc); [lia|].
  destruct (Forall2_in_r _ _ _ _ Hla Ha') as (y & Hy & q & Hq & Hyq & ->).
  apply covers_in_piece in Hc.
  assert (p = q) as <- by (eapply ps_disjoint; [done|done| |done]; unfold in_piece; lia).
  apply (proj1 (list.Forall_forall _ _) Hlast y Hy). by rw Hyq Hx.
Qed.

Lemma all_frames_cover xs as_ : Forall2 carries xs as_ ->
  Forall (fun f => exists y, y ∈ xs /\ y.2 = f) (map (frame_of pad) ps) -> all_covered msg as_.
Proof.
  intros Hxs Hcov j Hj. destruct (ps_cover j Hj) as (p & Hp & Hpj).
  destruct (proj1 (list.Forall_forall _ _) Hcov (frame_of pad p)) as (y & Hy & Hyf);
    [by apply list_elem_of_fmap_2|].
  destruct (Forall2_in_l _ _ _ _ Hxs Hy) as (a & Ha & q & Hq & Hyq & ->).
  exists (arrival_at y.1 q). split; [done|]. apply covers_in_piece.
  pose proof (proj1 (list.Forall_forall _ _) ps_ok) as Hok. rw Hyf in Hyq.
  pose proof (frame_of_parses base msg pad cookie_ok p (Hok p Hp)) as Hpp.
  rw Hyq (frame_of_parses base msg pad cookie_ok q (Hok q Hq)) in Hpp.
  by apply Ok_inj in Hpp as ->.
Qed.

Lemma carries_within l la r t0 : Forall2 carries l la ->
  Forall (fun y => y.1.1 - r_timeout r <= t0) l -> Forall (within r t0) la.
Proof.
  induction 1 as [|y a l la (p & _ & _ & ->) _ IH]; [by constructor|].
  intros [? ?]%Forall_cons_1. by constructor; [|apply IH].
Qed.
End EndToEnd.

(** * Properties *)

(** A message within the size limit is always split into frames; every frame fits the
    datagram MTU and, when padding is on, is exactly that long; each parses to a fragment of
    the message with the base header's fields, and together the fragments cover every byte. *)
Theorem fragmentHandshake_correct base msg pad :
  DatagramHandshakeHeader_ok base -> dh_Type (hh_Header base) = DatagramFrameHandshake ->
  len (hh_Cookie base) <= 255 -> 0 < len msg <= DatagramMaxHandshakeMessageSize ->
  exists frames, fragmentHandshake base msg pad = Ok frames /\
    Forall (fun f => len f <= DatagramMTU /\ (pad = true -> len f = DatagramMTU) /\
      exists h frag, ParseDatagramHandshake f = Ok (h, frag) /\
        hh_SenderIndex h = hh_SenderIndex base /\ hh_MsgType h = hh_MsgType base /\
        hh_TotalLength h = len msg /\ piece_of (hh_FragOffset h) frag msg) frames /\
    forall j, 0 <= j < len msg -> exists f h frag, f ∈ frames /\
      ParseDatagramHandshake f = Ok (h, frag) /\ hh_FragOffset h <= j < hh_FragOffset h + len frag.
Proof.
  intros Hb Ht Hc Hm.
  destruct (fragmentHandshake_frames base msg pad Hb Ht Hc Hm) as (ps & -> & Hall & Hcov & _).
  exists (map (frame_of pad) ps). split; [done|]. split.
  - apply Forall_map. eapply Forall_impl; [apply Hall|]. intros [h frag] Hp. cbn.
    pose proof (frame_of_size base msg pad _ Hp) as []. do 2 (split; [done|]).
    exists h, frag. split; [by eapply frame_of_parses|].
    destruct Hp. cbn in *. by simplify_eq.
  - intros j Hj. destruct (Hcov j Hj) as ([h frag] & Hin & Hp).
    exists (frame_of pad (h, frag)), h, frag. split; [by apply list_elem_of_fmap_2|].
    split; [|done]. eapply frame_of_parses; [apply Hc|by apply (proj1 (list.Forall_forall _ _) Hall)].
Qed.

(** A message of 1200 bytes, which needs two frames. *)
Definition example_base : DatagramHandshakeHeader :=
  mkDatagramHandshakeHeader (mkDatagramHeader DatagramFrameHandshake 0 7 100) 42
    MessageTypeClientHello 0 0 0 [].
Definition example_msg : list Z := replicate 1200 5.
Definition example_frames : list (list Z) :=
  match fragmentHandshake example_base example_msg false with Ok fs => fs | _ => [] end.
Definition example_frame (i : nat) : list Z := nth i example_frames [].

Lemma fragmentHandshake_correct_witness :
  exists frames, fragmentHandshake example_base example_msg true = Ok frames /\
    Forall (fun f => len f = DatagramMTU) frames.
Proof.
  destruct (fragmentHandshake_correct example_base example_msg true) as (fs & H & Hall & _);
    [split; [split|..]; by vm_compute|by vm_compute..|].
  exists fs. split; [done|]. eapply Forall_impl; [apply Hall|]. cbn. intros f (_ & Hp & _).
  by apply Hp.
Defined.

(** C21: fragmenting and reassembling is the identity under loss-free reordering and
    duplication: feed the receiver the frames of a message in any order, any number of times,
    within the reassembly timeout, to a source with no state and a free slot.  Every arrival
    before the last missing frame returns nothing, the arrival that brings the last missing
    frame returns exactly the message, and the source's state is gone then.  The order in
    which Go ranges over a map is arbitrary. *)
Theorem fragment_reassemble range base msg pad frames source r l x :
  (forall m, range m ≡ₚ map_to_list m) ->
  DatagramHandshakeHeader_ok base -> dh_Type (hh_Header base) = DatagramFrameHandshake ->
  len (hh_Cookie base) <= 255 -> 0 < len msg <= DatagramMaxHandshakeMessageSize ->
  fragmentHandshake base msg pad = Ok frames ->
  1 <= r_maxConcurrentPerSource r -> len msg <= r_maxMessageSize r -> room_for source r ->
  Forall (fun y => y.2 ∈ frames) (l ++ [x]) ->
  Forall (fun y => y.1.1 - r_timeout r <= (hd x l).1.2) (l ++ [x]) ->
  Forall (fun f => exists y, y ∈ l ++ [x] /\ y.2 = f) frames ->
  Forall (fun y => y.2 <> x.2) l ->
  exists r1 bs, receive_frames range source l r = (r1, Ok (replicate (length l) None)) /\
    receive_frame range x.1.1 x.1.2 source x.2 r1 = (with_bySource r bs, Ok (Some msg)) /\
    bs !! source = None.
Proof.
  intros Hr Hb Ht Hc Hm Hf Hconc Hmax Hroom Hin Hwi Hcov Hlast.
  destruct (fragmentHandshake_frames base msg pad Hb Ht Hc Hm) as (ps & Hf' & Hall & Hpc & Hdis).
  rw Hf' in Hf. apply Ok_inj in Hf as <-.
  assert (exists as_, Forall2 (carries pad ps) (l ++ [x]) as_) as [as_ Has].
  { apply Forall_choose. eapply Forall_impl; [apply Hin|].
    intros y (p & Hy & Hp)%list_elem_of_fmap. by exists (arrival_at y.1 p), p. }
  apply Forall2_app_inv_l in Has as (la & ra & Hla & Hra & ->).
  inversion Hra as [|? a ? ? Hxa Hnil]; subst. inversion Hnil; subst. clear Hra Hnil.
  assert (Forall2 (carries pad ps) (l ++ [x]) (la ++ [a])) as Hxs
    by (apply Forall2_app; [done|by constructor]).
  destruct (feed_completes range source msg (hh_SenderIndex base, hh_MsgType base) Hr r la a)
    as (r1 & bs & Hfeed & Hadd & Hnone); [done|lia|done| | | | |].
  - apply list.Forall_forall. intros a' Ha'.
    destruct (Forall2_in_r _ _ _ _ Hxs Ha') as (y & _ & Hy). by eapply carries_arrival.
  - eapply carries_within; [apply Hxs|].
    by replace (a_created (hd a la)) with ((hd x l).1.2); [|destruct Hla as [|? ? ? ? (? & _ & _ & ->) _];
      [destruct Hxa as (? & _ & _ & ->)|]].
  - by eapply missing_frame.
  - by eapply all_frames_cover.
  - exists r1, bs. rw (receive_frames_feed range base msg pad source ps Hc Hall l la Hla).
    rw (receive_frame_arrival range base msg pad source ps Hc Hall x a Hxa).
    by rw (Forall2_length _ _ _ Hla).
Qed.

Lemma fragment_reassemble_witness :
  exists r1 bs,
    receive_frames map_to_list "peer" [(3, 3, example_frame 1); (4, 4, example_frame 1)]
      (NewReassembler 0 0 0) = (r1, Ok [None; None]) /\
    receive_frame map_to_list 5 5 "peer" (example_frame 0) r1
      = (with_bySource (NewReassembler 0 0 0) bs, Ok (Some example_msg)) /\
    bs !! "peer" = None.
Proof.
  apply (fragment_reassemble map_to_list example_base example_msg false example_frames "peer"
    (NewReassembler 0 0 0) [(3, 3, example_frame 1); (4, 4, example_frame 1)]
    (5, 5, example_frame 0)); [done|split; [split|..]; by vm_compute|by vm_compute..| | | |].
  - assert (example_frames = [example_frame 0; example_frame 1]) as -> by (vm_compute; reflexivity).
    do 2 (apply Forall_cons_2; [cbn [snd]; right; left|]). apply Forall_cons_2; [left|constructor].
  - repeat constructor; by vm_compute.
  - assert (example_frames = [example_frame 0; example_frame 1]) as -> by (vm_compute; reflexivity).
    apply Forall_cons_2; [exists (5, 5, example_frame 0); split; [right; right; left|done]|].
    apply Forall_cons_2; [exists (3, 3, example_frame 1); split; [left|done]|constructor].
  - repeat constructor; intros H; apply (f_equal len) in H; by vm_compute in H.
Defined.
