(* ===== verification/Crypto.v ===== *)
(** Key derivation and authenticated encryption.

    [pkg/crypto/kdf.go], [pkg/crypto/aead.go] and [pkg/crypto/aead_inplace.go].  SHAKE-256,
    SHA3-256 and the two AEAD ciphers are Go's standard library and [golang.org/x/crypto]: they
    are the operations of the class [Primitives], and [PrimitivesLaws] states what the code
    relies on (output lengths, decryption of what was encrypted, and that only an encryption of
    the plaintext opens to it). *)

From Corelib Require Import ssreflect.
From stdpp Require Import base tactics list numbers strings.
From Stdlib Require Import ZArith Lia.
From S2P Require Import Prelude Base.

Local Open Scope Z_scope.
Local Open Scope go_scope.

(** * External primitives *)

Class Primitives := {
  (** The bytes absorbed and the number of bytes squeezed. *)
  shake256 : list Z -> Z -> list Z;
  sha3_256 : list Z -> list Z;
  (** [cipher.AEAD] of a suite and key: nonce, text, additional data. *)
  aead_seal : CipherSuite -> list Z -> list Z -> list Z -> list Z -> list Z;
  aead_open : CipherSuite -> list Z -> list Z -> list Z -> list Z -> option (list Z) }.

Class PrimitivesLaws (P : Primitives) : Prop := {
  shake256_len : forall x n, 0 <= n -> len (shake256 x n) = n;
  sha3_256_len : forall x, len (sha3_256 x) = 32;
  aead_seal_len : forall cs k n p a, len (aead_seal cs k n p a) = len p + 16;
  aead_open_seal : forall cs k n p a, aead_open cs k n (aead_seal cs k n p a) a = Some p;
  aead_open_only : forall cs k n c a p, aead_open cs k n c a = Some p ->
    c = aead_seal cs k n p a }.

(** * Key derivation *)

Section KDF.
Context {P : Primitives}.

(** [math.MaxUint32]. *)
Definition MaxUint32 : Z := 4294967295.

Definition safeUint32 (n : Z) : option Z :=
  if (n <? 0) || (MaxUint32 <? n) then None else Some (u32 n).

(** A 4-byte big-endian length followed by the bytes, as both derivations write it. *)
Definition write_prefixed (op : string) (h b : list Z) : outcome error (list Z) :=
  match safeUint32 (len b) with
  | None => Err (NewCryptoError op ErrInvalidKeySize)
  | Some n => Ok (h ++ be_put 4 n ++ b)
  end.

Definition DeriveKey (domain input : list Z) (outputLen : Z) : outcome error (list Z) :=
  guard! negb ((outputLen <=? 0) || (Z.shiftl 1 20 <? outputLen))
    else NewCryptoError "DeriveKey" ErrInvalidKeySize in
  let! h := write_prefixed "DeriveKey" [] domain in
  let! h := write_prefixed "DeriveKey" h input in
  Ok (shake256 h outputLen).

(** [for _, input := range inputs]: the length-prefixed inputs one after the other. *)
Fixpoint write_inputs (op : string) (h : list Z) (inputs : list (list Z))
    : outcome error (list Z) :=
  match inputs with
  | [] => Ok h
  | b :: r => let! h := write_prefixed op h b in write_inputs op h r
  end.

Definition DeriveKeyMultiple (domain : list Z) (inputs : list (list Z)) (outputLen : Z)
    : outcome error (list Z) :=
  guard! negb ((outputLen <=? 0) || (Z.shiftl 1 20 <? outputLen))
    else NewCryptoError "DeriveKeyMultiple" ErrInvalidKeySize in
  let! h := write_prefixed "DeriveKeyMultiple" [] domain in
  match safeUint32 (len inputs) with
  | None => Err (NewCryptoError "DeriveKeyMultiple" ErrInvalidKeySize)
  | Some n =>
      let h := h ++ be_put 4 n in
      let! h := write_inputs "DeriveKeyMultiple" h inputs in
      Ok (shake256 h outputLen)
  end.

Definition TranscriptHash (components : list (list Z)) : outcome error (list Z) :=
  match safeUint32 (len components) with
  | None => Err (NewCryptoError "TranscriptHash" ErrInvalidKeySize)
  | Some n =>
      let! h := write_inputs "TranscriptHash" (be_put 4 n) components in
      Ok (sha3_256 h)
  end.

Definition DeriveCHKEMSecret (x25519Secret mlkemSecret transcriptHash : list Z)
    : outcome error (list Z) :=
  guard! len x25519Secret =? X25519SharedSecretSize
    else NewCryptoError "DeriveCHKEMSecret" ErrInvalidKeySize in
  guard! len mlkemSecret =? MLKEMSharedSecretSize
    else NewCryptoError "DeriveCHKEMSecret" ErrInvalidKeySize in
  guard! len transcriptHash =? TranscriptHashSize
    else NewCryptoError "DeriveCHKEMSecret" ErrInvalidKeySize in
  DeriveKeyMultiple DomainSeparatorCHKEM [x25519Secret; mlkemSecret; transcriptHash]
    CHKEMSharedSecretSize.

Definition DeriveHandshakeKeys (masterSecret : list Z)
    : outcome error (list Z * list Z * list Z * list Z) :=
  guard! len masterSecret =? CHKEMSharedSecretSize
    else NewCryptoError "DeriveHandshakeKeys" ErrInvalidKeySize in
  let! keyMaterial := DeriveKey DomainSeparatorHandshake masterSecret
                        (2 * AESKeySize + 2 * AESNonceSize) in
  let offset := 0 in
  let! initiatorKey := slice keyMaterial offset (offset + AESKeySize) in
  let offset := offset + AESKeySize in
  let! responderKey := slice keyMaterial offset (offset + AESKeySize) in
  let offset := offset + AESKeySize in
  let! initiatorIV := slice keyMaterial offset (offset + AESNonceSize) in
  let offset := offset + AESNonceSize in
  let! responderIV := slice keyMaterial offset (offset + AESNonceSize) in
  Ok (initiatorKey, responderKey, initiatorIV, responderIV).

Definition DeriveTrafficKeys (masterSecret : list Z) : outcome error (list Z * list Z) :=
  guard! len masterSecret =? CHKEMSharedSecretSize
    else NewCryptoError "DeriveTrafficKeys" ErrInvalidKeySize in
  let! keyMaterial := DeriveKey DomainSeparatorTraffic masterSecret (2 * AESKeySize) in
  let! initiatorKey := slice keyMaterial 0 AESKeySize in
  let! responderKey := slice_from keyMaterial AESKeySize in
  Ok (initiatorKey, responderKey).

Definition DeriveDatagramNoncePrefixes (masterSecret : list Z)
    : outcome error (list Z * list Z) :=
  guard! len masterSecret =? CHKEMSharedSecretSize
    else NewCryptoError "DeriveDatagramNoncePrefixes" ErrInvalidKeySize in
  let! material := DeriveKey DomainSeparatorDatagramNonce masterSecret
                     (2 * DatagramNoncePrefixSize) in
  let! initiatorPrefix := slice material 0 DatagramNoncePrefixSize in
  let! responderPrefix := slice_from material DatagramNoncePrefixSize in
  Ok (initiatorPrefix, responderPrefix).

Definition DeriveStreamNoncePrefixes (masterSecret : list Z)
    : outcome error (list Z * list Z) :=
  guard! len masterSecret =? CHKEMSharedSecretSize
    else NewCryptoError "DeriveStreamNoncePrefixes" ErrInvalidKeySize in
  let! material := DeriveKey DomainSeparatorStreamNonce masterSecret
                     (2 * DatagramNoncePrefixSize) in
  let! initiatorPrefix := slice material 0 DatagramNoncePrefixSize in
  let! responderPrefix := slice_from material DatagramNoncePrefixSize in
  Ok (initiatorPrefix, responderPrefix).

Definition DeriveResumptionSecret (psk freshSecret : list Z) : outcome error (list Z) :=
  guard! len psk =? CHKEMSharedSecretSize
    else NewCryptoError "DeriveResumptionSecret" ErrInvalidKeySize in
  guard! len freshSecret =? CHKEMSharedSecretSize
    else NewCryptoError "DeriveResumptionSecret" ErrInvalidKeySize in
  DeriveKeyMultiple DomainSeparatorResumption [psk; freshSecret] CHKEMSharedSecretSize.

Definition DeriveRekeySecret (currentSecret additionalData : list Z) : outcome error (list Z) :=
  guard! len currentSecret =? CHKEMSharedSecretSize
    else NewCryptoError "DeriveRekeySecret" ErrInvalidKeySize in
  DeriveKeyMultiple DomainSeparatorRekey [currentSecret; additionalData] CHKEMSharedSecretSize.

Definition DeriveAuthenticatedSecret (ephemeralSecret staticSecret : list Z)
    : outcome error (list Z) :=
  guard! len ephemeralSecret =? CHKEMSharedSecretSize
    else NewCryptoError "DeriveAuthenticatedSecret" ErrInvalidKeySize in
  guard! len staticSecret =? CHKEMSharedSecretSize
    else NewCryptoError "DeriveAuthenticatedSecret" ErrInvalidKeySize in
  DeriveKeyMultiple DomainSeparatorAuthentication [ephemeralSecret; staticSecret]
    CHKEMSharedSecretSize.

Definition DerivePSKSecret (masterSecret psk : list Z) : outcome error (list Z) :=
  guard! len masterSecret =? CHKEMSharedSecretSize
    else NewCryptoError "DerivePSKSecret" ErrInvalidKeySize in
  guard! len psk =? PSKSize else NewCryptoError "DerivePSKSecret" ErrInvalidKeySize in
  DeriveKeyMultiple DomainSeparatorPSK [masterSecret; psk] CHKEMSharedSecretSize.
End KDF.

(** * AEAD *)

(** The cipher is a suite and a key; [fips] is the build mode [FIPSMode()]. *)
Record AEAD := mkAEAD {
  ae_suite : CipherSuite;
  ae_key : list Z;
  ae_counter : Z;
  ae_maxSeq : Z }.

Definition with_counter (a : AEAD) (c : Z) : AEAD :=
  mkAEAD (ae_suite a) (ae_key a) c (ae_maxSeq a).

Definition NewAEAD (fips : bool) (suite : CipherSuite) (key : list Z) : outcome error AEAD :=
  guard! negb (fips && negb (CipherSuite_IsFIPSApproved suite))
    else ErrCipherSuiteNotFIPSApproved in
  guard! len key =? AESKeySize else ErrInvalidKeySize in
  guard! (suite =? CipherSuiteAES256GCM) || (suite =? CipherSuiteChaCha20Poly1305)
    else ErrUnsupportedCipherSuite in
  Ok (mkAEAD suite key 0 MaxPacketsBeforeRekey).

Definition nextNonce : ST AEAD error (list Z) :=
  do! a := st_get in
  check! negb (ae_maxSeq a <=? ae_counter a) else ErrNonceExhausted in
  do! c := st_lift (c_put (be_put 8 (ae_counter a)) (Cursor (replicate 12 0) 4)) in
  do! _ := st_mod (fun a => with_counter a (u64_add (ae_counter a) 1)) in
  st_ret (c_buf c).

Section AEAD_ops.
Context {P : Primitives}.

(** [cipher.Seal] writes behind the nonce in the buffer made for the whole packet. *)
Definition Seal (plaintext additionalData : list Z) : ST AEAD error (list Z) :=
  do! nonce := nextNonce in
  do! a := st_get in
  st_ret (nonce ++ aead_seal (ae_suite a) (ae_key a) nonce plaintext additionalData).

Definition SealWithNonce (a : AEAD) (nonce plaintext additionalData : list Z)
    : outcome error (list Z) :=
  guard! len nonce =? AESNonceSize else ErrInvalidNonce in
  Ok (aead_seal (ae_suite a) (ae_key a) nonce plaintext additionalData).

Definition Open (a : AEAD) (ciphertext additionalData : list Z) : outcome error (list Z) :=
  guard! negb (len ciphertext <? MinPacketSize) else ErrCiphertextTooShort in
  let! nonce := slice ciphertext 0 AESNonceSize in
  let! encrypted := slice_from ciphertext AESNonceSize in
  match aead_open (ae_suite a) (ae_key a) nonce encrypted additionalData with
  | Some plaintext => Ok plaintext
  | None => Err ErrAuthenticationFailed
  end.

Definition OpenWithNonce (a : AEAD) (nonce ciphertext additionalData : list Z)
    : outcome error (list Z) :=
  guard! len nonce =? AESNonceSize else ErrInvalidNonce in
  guard! negb (len ciphertext <? AESTagSize) else ErrCiphertextTooShort in
  match aead_open (ae_suite a) (ae_key a) nonce ciphertext additionalData with
  | Some plaintext => Ok plaintext
  | None => Err ErrAuthenticationFailed
  end.

(** The in-place variants append to [dst]. *)
Definition SealWithNonceTo (a : AEAD) (dst nonce plaintext additionalData : list Z)
    : outcome error (list Z) :=
  guard! len nonce =? AESNonceSize else ErrInvalidNonce in
  Ok (dst ++ aead_seal (ae_suite a) (ae_key a) nonce plaintext additionalData).

Definition OpenWithNonceTo (a : AEAD) (dst nonce ciphertext additionalData : list Z)
    : outcome error (list Z) :=
  guard! len nonce =? AESNonceSize else ErrInvalidNonce in
  guard! negb (len ciphertext <? AESTagSize) else ErrCiphertextTooShort in
  match aead_open (ae_suite a) (ae_key a) nonce ciphertext additionalData with
  | Some pt => Ok (dst ++ pt)
  | None => Err ErrAuthenticationFailed
  end.
End AEAD_ops.

Definition Counter (a : AEAD) : Z := ae_counter a.

Definition SetCounter (counter : Z) : ST AEAD error unit :=
  do! a := st_get in
  check! negb (ae_maxSeq a <=? counter) else ErrNonceExhausted in
  st_mod (fun a => with_counter a counter).

(** [a.counter >= a.maxSeq * 9 / 10] on 64-bit unsigned integers. *)
Definition AEAD_NeedsRekey (a : AEAD) : bool := u64 (ae_maxSeq a * 9) / 10 <=? ae_counter a.

(** * What the derivations absorb *)

#[export] Hint Unfold MaxUint32 AESKeySize AESNonceSize AESTagSize MinPacketSize
  CHKEMSharedSecretSize X25519SharedSecretSize MLKEMSharedSecretSize TranscriptHashSize
  PSKSize DatagramNoncePrefixSize : gosz.

(** A byte string that fits a 4-byte length. *)
Definition fits32 (b : list Z) : Prop := len b < 2 ^ 32.

Definition pfx (b : list Z) : list Z := be_put 4 (len b) ++ b.

Definition single_absorb (domain input : list Z) : list Z := pfx domain ++ pfx input.

Definition list_absorb (inputs : list (list Z)) : list Z :=
  be_put 4 (len inputs) ++ concat (map pfx inputs).

Definition multi_absorb (domain : list Z) (inputs : list (list Z)) : list Z :=
  pfx domain ++ list_absorb inputs.

Lemma safeUint32_ok n : 0 <= n < 2 ^ 32 -> safeUint32 n = Some n.
Proof.
  intros. unfold safeUint32, MaxUint32. replace (_ || _) with false by blia.
  by rw u32_small.
Qed.

Lemma write_prefixed_ok op h b : fits32 b -> write_prefixed op h b = Ok (h ++ pfx b).
Proof.
  intros Hb. pose proof (len_nonneg b). unfold write_prefixed. by rw safeUint32_ok.
Qed.

Lemma write_inputs_ok op inputs : forall h, Forall fits32 inputs ->
  write_inputs op h inputs = Ok (h ++ concat (map pfx inputs)).
Proof.
  induction inputs as [|b r IH]; intros h Hf; cbn [write_inputs map concat].
  - by rw app_nil_r.
  - apply Forall_cons_1 in Hf as [Hb Hr]. rw write_prefixed_ok // obind_Ok_l IH //.
    by rw app_assoc.
Qed.

Lemma app_inj_len {A} (a b c d : list A) : len a = len c -> a ++ b = c ++ d -> a = c /\ b = d.
Proof. intros Hl. apply app_inj_1. unfold len in Hl. lia. Qed.

Lemma pfx_inj a b r s : fits32 a -> fits32 b -> pfx a ++ r = pfx b ++ s -> a = b /\ r = s.
Proof.
  unfold fits32, pfx. rw -!app_assoc. intros Ha Hb [He Hr]%app_inj_len; [|golia].
  apply be_put_inj in He; [|golia..]. by apply app_inj_len in Hr.
Qed.

Lemma concat_pfx_inj l : forall k, length l = length k -> Forall fits32 l -> Forall fits32 k ->
  concat (map pfx l) = concat (map pfx k) -> l = k.
Proof.
  induction l as [|a l IH]; intros [|b k] Hl Hfl Hfk; try done.
  apply Forall_cons_1 in Hfl as [Ha Hfl]. apply Forall_cons_1 in Hfk as [Hb Hfk].
  cbn [map concat]. intros [-> Hr]%pfx_inj; [|done..]. f_equal. apply IH; [|done..].
  by injection Hl.
Qed.

Definition fits_inputs (l : list (list Z)) : Prop := len l < 2 ^ 32 /\ Forall fits32 l.

Lemma list_absorb_inj l k : fits_inputs l -> fits_inputs k ->
  list_absorb l = list_absorb k -> l = k.
Proof.
  intros [Hl Hfl] [Hk Hfk]. unfold list_absorb. intros [He Hr]%app_inj_len; [|golia].
  apply be_put_inj in He; [|golia..]. apply concat_pfx_inj in Hr; [done| |done..].
  unfold len in He. lia.
Qed.

Lemma multi_absorb_inj d1 l d2 k : fits32 d1 -> fits32 d2 -> fits_inputs l -> fits_inputs k ->
  multi_absorb d1 l = multi_absorb d2 k -> d1 = d2 /\ l = k.
Proof.
  unfold multi_absorb. intros ? ? ? ? [-> Hr]%pfx_inj; [|done..].
  by apply list_absorb_inj in Hr.
Qed.

Section Derivations.
Context {P : Primitives}.

Lemma DeriveKeyMultiple_absorbs d l n : fits32 d -> fits_inputs l -> 0 < n <= 2 ^ 20 ->
  DeriveKeyMultiple d l n = Ok (shake256 (multi_absorb d l) n).
Proof.
  intros Hd [Hl Hf] Hn. unfold DeriveKeyMultiple. change (Z.shiftl 1 20) with (2 ^ 20).
  replace (negb _) with true by blia. rw write_prefixed_ok // obind_Ok_l.
  rw safeUint32_ok; [pose proof (len_nonneg l); lia|]. cbv zeta.
  rw write_inputs_ok // obind_Ok_l. unfold multi_absorb, list_absorb.
  by rw app_nil_l -app_assoc.
Qed.

Lemma DeriveKey_absorbs d i n : fits32 d -> fits32 i -> 0 < n <= 2 ^ 20 ->
  DeriveKey d i n = Ok (shake256 (single_absorb d i) n).
Proof.
  intros Hd Hi Hn. unfold DeriveKey. change (Z.shiftl 1 20) with (2 ^ 20).
  replace (negb _) with true by blia.
  by rw write_prefixed_ok // obind_Ok_l write_prefixed_ok // obind_Ok_l.
Qed.

Lemma TranscriptHash_absorbs l : fits_inputs l ->
  TranscriptHash l = Ok (sha3_256 (list_absorb l)).
Proof.
  intros [Hl Hf]. unfold TranscriptHash.
  rw safeUint32_ok; [pose proof (len_nonneg l); lia|]. by rw write_inputs_ok.
Qed.

Context {L : PrimitivesLaws P}.

Lemma split_material (m : list Z) n : 0 <= n -> len m = 2 * n ->
  exists a b, len a = n /\ len b = n /\ m = a ++ b /\
    @slice error _ m 0 n = Ok a /\ @slice_from error _ m n = Ok b.
Proof.
  intros Hn Hm. exists (take (Z.to_nat n) m), (drop (Z.to_nat n) m).
  assert (len (take (Z.to_nat n) m) = n) as Ha by golia.
  split; [done|]. split; [golia|]. split; [by rw take_drop|].
  pose proof (at_off_0 m) as H. rw -{2}(take_drop (Z.to_nat n) m) in H.
  split; [by apply (slice_at_eq _ _ _ _ _ _ H); [|lia]|].
  eapply at_off_app in H. by apply (slice_from_at_eq _ _ _ _ H); lia.
Qed.

Lemma DeriveTrafficKeys_ok ms : len ms = 32 -> exists ik rk, len ik = 32 /\ len rk = 32 /\
  shake256 (single_absorb DomainSeparatorTraffic ms) 64 = ik ++ rk /\
  DeriveTrafficKeys ms = Ok (ik, rk).
Proof.
  intros Hm. unfold DeriveTrafficKeys. gd.
  rw DeriveKey_absorbs; [by vm_compute|unfold fits32; lia|done|]. rw obind_Ok_l.
  destruct (split_material (shake256 (single_absorb DomainSeparatorTraffic ms) (2 * AESKeySize)) AESKeySize)
    as (a & b & Ha & Hb & Hab & -> & ->); [done|by rw shake256_len|].
  by exists a, b.
Qed.

Lemma DeriveDatagramNoncePrefixes_ok ms : len ms = 32 -> exists ip rp, len ip = 4 /\ len rp = 4 /\
  shake256 (single_absorb DomainSeparatorDatagramNonce ms) 8 = ip ++ rp /\
  DeriveDatagramNoncePrefixes ms = Ok (ip, rp).
Proof.
  intros Hm. unfold DeriveDatagramNoncePrefixes. gd.
  rw DeriveKey_absorbs; [by vm_compute|unfold fits32; lia|done|]. rw obind_Ok_l.
  destruct (split_material (shake256 (single_absorb DomainSeparatorDatagramNonce ms)
    (2 * DatagramNoncePrefixSize)) DatagramNoncePrefixSize)
    as (a & b & Ha & Hb & Hab & -> & ->); [done|by rw shake256_len|].
  by exists a, b.
Qed.

Lemma DeriveStreamNoncePrefixes_ok ms : len ms = 32 -> exists ip rp, len ip = 4 /\ len rp = 4 /\
  shake256 (single_absorb DomainSeparatorStreamNonce ms) 8 = ip ++ rp /\
  DeriveStreamNoncePrefixes ms = Ok (ip, rp).
Proof.
  intros Hm. unfold DeriveStreamNoncePrefixes. gd.
  rw DeriveKey_absorbs; [by vm_compute|unfold fits32; lia|done|]. rw obind_Ok_l.
  destruct (split_material (shake256 (single_absorb DomainSeparatorStreamNonce ms)
    (2 * DatagramNoncePrefixSize)) DatagramNoncePrefixSize)
    as (a & b & Ha & Hb & Hab & -> & ->); [done|by rw shake256_len|].
  by exists a, b.
Qed.
End Derivations.

(** * AEAD lemmas *)

(** The nonce of counter value [c]. *)
Definition counter_nonce (c : Z) : list Z := replicate 4 0 ++ be_put 8 c.

Lemma len_counter_nonce c : len (counter_nonce c) = 12.
Proof. unfold counter_nonce. golia. Qed.

Lemma nextNonce_eq a : nextNonce a =
  if ae_counter a <? ae_maxSeq a
  then (with_counter a (u64_add (ae_counter a) 1), Ok (counter_nonce (ae_counter a)))
  else (a, Err ErrNonceExhausted).
Proof.
  unfold nextNonce, st_bind, st_get, st_lift, st_mod.
  destruct (ae_maxSeq a <=? ae_counter a) eqn:H; zbool; cbn [negb].
  - by replace (ae_counter a <? ae_maxSeq a) with false by blia.
  - replace (ae_counter a <? ae_maxSeq a) with true by blia.
    change (Cursor (replicate 12 0) 4) with (filled (replicate 4 0) 8).
    by rw c_put_filled; [golia|]; rw filled_done; [golia|].
Qed.

Section AEAD_proofs.
Context {P : Primitives} {L : PrimitivesLaws P}.

Lemma Open_Seal a nonce p ad : len nonce = 12 ->
  Open a (nonce ++ aead_seal (ae_suite a) (ae_key a) nonce p ad) ad
  = if len p =? 0 then Err ErrCiphertextTooShort else Ok p.
Proof.
  intros Hn. pose proof (aead_seal_len (ae_suite a) (ae_key a) nonce p ad) as Hl.
  unfold Open. set (ct := aead_seal _ _ _ _ _) in *.
  assert (len (nonce ++ ct) = 28 + len p) as Hlen by golia.
  destruct (len p =? 0) eqn:Hp; zbool.
  - by replace (len (nonce ++ ct) <? MinPacketSize) with true by (symmetry; apply Z.ltb_lt; golia).
  - gd. pose proof (at_off_0 (nonce ++ ct)) as H.
    rw (slice_at_eq _ _ _ _ _ _ H) ?obind_Ok_l; [golia|golia|].
    eapply at_off_app in H. rw (slice_from_at_eq _ _ _ _ H) ?obind_Ok_l; [golia|].
    subst ct. by rw aead_open_seal.
Qed.

Lemma OpenWithNonce_Seal a nonce p ad : len nonce = 12 ->
  OpenWithNonce a nonce (aead_seal (ae_suite a) (ae_key a) nonce p ad) ad = Ok p.
Proof.
  intros Hn. unfold OpenWithNonce. pose proof (aead_seal_len (ae_suite a) (ae_key a) nonce p ad).
  gd. gd. by rw aead_open_seal.
Qed.

(** Sealing a list of packets with one cipher: the outcome of each. *)
Fixpoint seal_all (a : AEAD) (ps : list (list Z * list Z)) : AEAD * list (outcome error (list Z)) :=
  match ps with
  | [] => (a, [])
  | (p, ad) :: r => let '(a', o) := Seal p ad a in
                    let '(a'', os) := seal_all a' r in
                    (a'', o :: os)
  end.

(** The nonces of the packets that were sealed. *)
Definition nonces (os : list (outcome error (list Z))) : list (list Z) :=
  os ≫= (fun o => match o with Ok c => [take 12 c] | _ => [] end).

Lemma Seal_eq p ad a : Seal p ad a =
  if ae_counter a <? ae_maxSeq a
  then (with_counter a (u64_add (ae_counter a) 1),
        Ok (counter_nonce (ae_counter a)
            ++ aead_seal (ae_suite a) (ae_key a) (counter_nonce (ae_counter a)) p ad))
  else (a, Err ErrNonceExhausted).
Proof. unfold Seal, st_bind. rw nextNonce_eq. by destruct (ae_counter a <? ae_maxSeq a). Qed.

Lemma counter_nonce_inj a b : is_u64 a -> is_u64 b -> counter_nonce a = counter_nonce b -> a = b.
Proof.
  intros Ha Hb [_ H]%app_inj_len; [|done]. by apply be_put_inj in H.
Qed.

(** Every nonce a run uses is the nonce of a counter value not used before. *)
Lemma seal_all_nonces ps : forall a, 0 <= ae_counter a -> ae_maxSeq a < 2 ^ 64 ->
  NoDup (nonces (seal_all a ps).2) /\
  forall n, n ∈ nonces (seal_all a ps).2 ->
    exists c, ae_counter a <= c < ae_maxSeq a /\ n = counter_nonce c.
Proof.
  induction ps as [|[p ad] r IH]; intros a H0 Hm; cbn [seal_all].
  { split; [constructor|by intros ? ?%elem_of_nil]. }
  rw Seal_eq. destruct (ae_counter a <? ae_maxSeq a) eqn:Hlt; zbool.
  - unfold u64_add. rw u64_small; [lia|].
    destruct (IH (with_counter a (ae_counter a + 1))) as [Hnd Hin]; [cbn; lia|done|].
    destruct (seal_all _ r) as [a' os]. cbn [snd] in *.
    set (c := _ ++ aead_seal _ _ _ _ _).
    assert (take 12 c = counter_nonce (ae_counter a)) as Hc.
    { subst c. apply take_app_length'. pose proof (len_counter_nonce (ae_counter a)).
      unfold len in *. lia. }
    change (nonces (Ok c :: os)) with (take 12 c :: nonces os). rw Hc. split.
    + constructor; [|done]. intros (c' & Hc' & Heq)%Hin. cbn in Hc'.
      apply counter_nonce_inj in Heq; unfold is_u64; lia.
    + intros n [->|Hn]%elem_of_cons; [exists (ae_counter a); split; [lia|done]|].
      apply Hin in Hn as (c' & Hc' & ->). cbn in Hc'. exists c'. split; [lia|done].
  - destruct (IH a H0 Hm) as [Hnd Hin]. by destruct (seal_all a r) as [a' os].
Qed.
End AEAD_proofs.

(** * A concrete instance *)

(** Not cryptography: the least that satisfies the laws, for the witnesses. *)
Definition toy_shake (x : list Z) (n : Z) : list Z :=
  take (Z.to_nat n) (x ++ replicate (Z.to_nat n) 0).

Definition toy_tag (k n a : list Z) : list Z := take 16 (k ++ n ++ a ++ replicate 16 0).

Definition toy_open (k n c a : list Z) : option (list Z) :=
  if bool_decide (drop (length c - 16) c = toy_tag k n a)
  then Some (take (length c - 16) c) else None.

Definition toy : Primitives := {|
  shake256 := toy_shake;
  sha3_256 := fun x => toy_shake x 32;
  aead_seal := fun _ k n p a => p ++ toy_tag k n a;
  aead_open := fun _ k n c a => toy_open k n c a |}.

Lemma length_toy_tag k n a : length (toy_tag k n a) = 16%nat.
Proof. unfold toy_tag. rw length_take !length_app length_replicate. lia. Qed.

#[export] Instance toy_laws : PrimitivesLaws toy.
Proof.
  split; cbn.
  - intros x n Hn. unfold toy_shake. golia.
  - intros x. unfold toy_shake. golia.
  - intros _ k n p a. unfold len. rw length_app length_toy_tag. lia.
  - intros _ k n p a. unfold toy_open. rw length_app length_toy_tag.
    replace (length p + 16 - 16)%nat with (length p) by lia.
    rw drop_app_length take_app_length. by rw bool_decide_true.
  - intros _ k n c a p. unfold toy_open. case_match eqn:Hb; [|done]. intros [= <-].
    apply bool_decide_eq_true in Hb. rw -Hb. by rw take_drop.
Qed.

(** * Properties *)

Definition domain_separators : list (list Z) :=
  [DomainSeparatorCHKEM; DomainSeparatorHandshake; DomainSeparatorTraffic;
   DomainSeparatorRekey; DomainSeparatorResumption; DomainSeparatorDatagramNonce;
   DomainSeparatorAuthentication; DomainSeparatorPSK; DomainSeparatorStreamNonce].

(** C35: a derivation from several inputs absorbs an encoding that determines the label, the
    number of inputs and each input: two calls hash the same bytes only if they agree on all
    of them.  The same holds for the transcript hash. *)
Theorem kdf_inputs_unambiguous (P : Primitives) d l n :
  fits32 d -> fits_inputs l -> 0 < n <= 2 ^ 20 ->
  DeriveKeyMultiple d l n = Ok (shake256 (multi_absorb d l) n) /\
  TranscriptHash l = Ok (sha3_256 (list_absorb l)) /\
  (forall d' l', fits32 d' -> fits_inputs l' ->
     multi_absorb d' l' = multi_absorb d l -> d' = d /\ l' = l) /\
  (forall l', fits_inputs l' -> list_absorb l' = list_absorb l -> l' = l).
Proof.
  intros Hd Hl Hn. split; [by apply DeriveKeyMultiple_absorbs|].
  split; [by apply TranscriptHash_absorbs|]. split.
  - intros d' l' Hd' Hl'. by apply multi_absorb_inj.
  - intros l' Hl'. by apply list_absorb_inj.
Qed.

Lemma kdf_inputs_unambiguous_witness :
  @DeriveKeyMultiple toy DomainSeparatorPSK [[1]; [2; 3]] 32
  = Ok (toy_shake (multi_absorb DomainSeparatorPSK [[1]; [2; 3]]) 32).
Proof.
  apply (kdf_inputs_unambiguous toy DomainSeparatorPSK [[1]; [2; 3]] 32); [by vm_compute| |by vm_compute].
  split; [by vm_compute|]. repeat constructor; by vm_compute.
Defined.

(** The nine labels the program derives keys under are different, and a label separates:
    what two derivations under different labels absorb is different, whichever of the two
    constructions each of them uses. *)
Theorem domain_separation :
  NoDup domain_separators /\
  forall d1 d2, d1 ∈ domain_separators -> d2 ∈ domain_separators -> d1 <> d2 ->
  forall i1 i2 l1 l2,
    single_absorb d1 i1 <> single_absorb d2 i2 /\ multi_absorb d1 l1 <> multi_absorb d2 l2 /\
    single_absorb d1 i1 <> multi_absorb d2 l2.
Proof.
  split.
  { unfold domain_separators.
    repeat (apply NoDup_cons; split; [rw ?not_elem_of_cons; repeat split; first [apply not_elem_of_nil | by vm_compute]|]).
    apply NoDup_nil_2. }
  assert (Forall fits32 domain_separators) as Hf by (repeat constructor; by vm_compute).
  intros d1 d2 H1%(proj1 (list.Forall_forall _ _) Hf) H2%(proj1 (list.Forall_forall _ _) Hf) Hne.
  intros i1 i2 l1 l2.
  repeat split; intros He; unfold single_absorb, multi_absorb in He;
    apply pfx_inj in He as [? _]; done.
Qed.

(** Opening what [Seal] produced under the same key and additional data gives the
    plaintext back for every non-empty plaintext; the sealed empty plaintext is 28 bytes, one
    less than the minimum [Open] demands, and is always refused. *)
Theorem Seal_Open (P : Primitives) (L : PrimitivesLaws P) a p ad :
  ae_counter a < ae_maxSeq a ->
  exists a' c, Seal p ad a = (a', Ok c) /\
    Open a c ad = if len p =? 0 then Err ErrCiphertextTooShort else Ok p.
Proof.
  intros Hc. rw Seal_eq. replace (ae_counter a <? ae_maxSeq a) with true by blia.
  do 2 eexists. split; [done|]. apply Open_Seal, len_counter_nonce.
Qed.

Definition example_AEAD : AEAD := mkAEAD CipherSuiteAES256GCM (replicate 32 9) 5 MaxPacketsBeforeRekey.

Lemma Seal_Open_witness :
  exists a' c, @Seal toy [1; 2] [3] example_AEAD = (a', Ok c) /\
    @Open toy example_AEAD c [3] = Ok [1; 2].
Proof. apply (Seal_Open toy toy_laws example_AEAD [1; 2] [3]). by vm_compute. Defined.

(** No run of [Seal] on one cipher, however long, uses a nonce twice: it stops with
    [ErrNonceExhausted] before the counter could repeat. *)
Theorem Seal_nonces_unique (P : Primitives) fips suite key a ps :
  NewAEAD fips suite key = Ok a -> NoDup (nonces (seal_all a ps).2).
Proof.
  intros H. unfold NewAEAD in H. okinv H. apply Ok_inj in H as <-.
  by apply seal_all_nonces.
Qed.

Lemma Seal_nonces_unique_witness :
  NoDup (nonces (@seal_all toy (mkAEAD CipherSuiteAES256GCM (replicate 32 1) 0 MaxPacketsBeforeRekey)
                   [([1], []); ([1], []); ([], [])]).2).
Proof.
  apply (Seal_nonces_unique toy false CipherSuiteAES256GCM (replicate 32 1)). reflexivity.
Defined.

(** A ciphertext opens under a nonce only if it is the encryption of the plaintext it opens
    to under that key, nonce and additional data, and what was sealed opens; the in-place
    variants behave the same and append to the caller's buffer. *)
Theorem SealWithNonce_OpenWithNonce (P : Primitives) (L : PrimitivesLaws P) a dst nonce p ad :
  len nonce = 12 ->
  exists c, SealWithNonce a nonce p ad = Ok c /\ len c = len p + 16 /\
    OpenWithNonce a nonce c ad = Ok p /\
    SealWithNonceTo a dst nonce p ad = Ok (dst ++ c) /\
    OpenWithNonceTo a dst nonce c ad = Ok (dst ++ p) /\
    (forall c' p', OpenWithNonce a nonce c' ad = Ok p' -> SealWithNonce a nonce p' ad = Ok c').
Proof.
  intros Hn. exists (aead_seal (ae_suite a) (ae_key a) nonce p ad).
  pose proof (aead_seal_len (ae_suite a) (ae_key a) nonce p ad) as Hl.
  split; [unfold SealWithNonce; by gd|]. split; [done|].
  split; [by apply OpenWithNonce_Seal|]. split; [unfold SealWithNonceTo; by gd|].
  split; [unfold OpenWithNonceTo; gd; gd; by rw aead_open_seal|].
  intros c' p' H. unfold OpenWithNonce in H. okinv H. apply Ok_inj in H as ->.
  apply aead_open_only in Ho as ->. unfold SealWithNonce. by gd.
Qed.

Lemma SealWithNonce_OpenWithNonce_witness :
  exists c, @SealWithNonce toy example_AEAD (replicate 12 4) [1; 2] [3] = Ok c /\
    @OpenWithNonce toy example_AEAD (replicate 12 4) c [3] = Ok [1; 2].
Proof.
  destruct (SealWithNonce_OpenWithNonce toy toy_laws example_AEAD [] (replicate 12 4) [1; 2] [3])
    as (c & H1 & _ & H2 & _); [reflexivity|by exists c].
Defined.
