(* ===== verification/Chkem.v ===== *)
(** The hybrid key encapsulation mechanisms.

    [pkg/chkem/chkem.go], [suite.go], [suite_xwing.go], [identity.go] and the wrappers they call
    in [pkg/crypto] ([x25519.go], [mlkem.go], [xwing.go], [random.go]).  Curve25519 is Go's
    [crypto/ecdh]; ML-KEM-1024 and X-Wing are CIRCL: they are the operations of the class
    [KEMPrimitives].  An X25519 key is its 32 bytes and an ML-KEM private key the 64-byte seed
    it is generated from.  Randomness is explicit: an operation gets the bytes its draws from
    the CSPRNG return, [None] for a draw that fails. *)

From Corelib Require Import ssreflect.
From stdpp Require Import base tactics list numbers strings.
From Stdlib Require Import ZArith Lia.
From S2P Require Import Prelude Base Crypto.

Local Open Scope Z_scope.
Local Open Scope go_scope.

(** * External primitives *)

Class KEMPrimitives := {
  x25519_pub : list Z -> list Z;
  (** [ECDH]: fails when the peer's point has low order. *)
  x25519_dh : list Z -> list Z -> option (list Z);
  mlkem_pub : list Z -> list Z;
  (** [Unpack] accepts a canonically encoded key. *)
  mlkem_unpack : list Z -> bool;
  (** ciphertext and shared secret from the public key and the coins *)
  mlkem_encaps : list Z -> list Z -> list Z * list Z;
  mlkem_decaps : list Z -> list Z -> list Z;
  xwing_pub : list Z -> list Z;
  (** shared secret and ciphertext; fails when the key does not unpack *)
  xwing_encaps : list Z -> list Z -> option (list Z * list Z);
  xwing_decaps : list Z -> list Z -> list Z }.

Class KEMLaws (K : KEMPrimitives) : Prop := {
  x25519_pub_len : forall sk, len (x25519_pub sk) = 32;
  x25519_dh_len : forall sk pk s, x25519_dh sk pk = Some s -> len s = 32;
  x25519_agree : forall a b s, x25519_dh a (x25519_pub b) = Some s ->
    x25519_dh b (x25519_pub a) = Some s;
  mlkem_pub_len : forall sd, len (mlkem_pub sd) = 1568;
  mlkem_pub_unpack : forall sd, mlkem_unpack (mlkem_pub sd) = true;
  mlkem_encaps_len : forall pk c, len (mlkem_encaps pk c).1 = 1568 /\
    len (mlkem_encaps pk c).2 = 32;
  mlkem_correct : forall sd c, mlkem_decaps sd (mlkem_encaps (mlkem_pub sd) c).1
    = (mlkem_encaps (mlkem_pub sd) c).2;
  xwing_pub_len : forall sd, len (xwing_pub sd) = 1216;
  xwing_encaps_len : forall pk c ss ct, xwing_encaps pk c = Some (ss, ct) ->
    len ss = 32 /\ len ct = 1120;
  xwing_correct : forall sd c ss ct, xwing_encaps (xwing_pub sd) c = Some (ss, ct) ->
    xwing_decaps sd ct = ss }.

(** * Roles and keys *)

Inductive Role := RoleInitiator | RoleResponder.

#[export] Instance Role_eq_dec : EqDecision Role.
Proof. solve_decision. Defined.

Definition Role_byte (r : Role) : Z :=
  match r with RoleInitiator => 0x01 | RoleResponder => 0x02 end.

Definition Role_peer (r : Role) : Role :=
  match r with RoleInitiator => RoleResponder | RoleResponder => RoleInitiator end.

Definition protocolVersionBytes : list Z := be_put 2 ProtocolVersion.

Definition SuiteCHKEMv1 : Z := 0x0001.
Definition SuiteXWing : Z := 0x0002.

(** [KeyPair]: the X25519 and ML-KEM pairs (public bytes, private) of CH-KEM-v1, and for
    another suite its id and its key handle (the X-Wing seed and public key). *)
Record KeyPair := mkKeyPair {
  kp_x25519 : option (list Z * list Z);
  kp_mlkem : option (list Z * list Z);
  kp_suite : Z;
  kp_impl : option (list Z * list Z) }.

Record PublicKey := mkPublicKey {
  pk_x25519 : option (list Z);
  pk_mlkem : option (list Z);
  pk_suite : Z;
  pk_raw : list Z }.

Record Ciphertext := mkCiphertext {
  ct_x25519Ephemeral : list Z;
  ct_mlkemCiphertext : list Z;
  ct_suite : Z;
  ct_raw : list Z }.

(** The draws of one operation, in order. *)
Definition Draws : Type := nat -> option (list Z).

(** A read of [n] bytes from [crypto.Reader]: [n] bytes or an error. *)
Definition read_random (rnd : Draws) (i : nat) (n : Z) : outcome error (list Z) :=
  match rnd i with
  | Some b => if len b =? n then Ok b else Err (ErrExternal "rand")
  | None => Err (ErrExternal "rand")
  end.

(** [NewCryptoError(op, err)] around a failing call. *)
Definition wrap_err {A} (op : string) (o : outcome error A) : outcome error A :=
  match o with
  | Err e => Err (NewCryptoError op e)
  | o => o
  end.

Definition SecureRandomBytes (rnd : Draws) (i : nat) (n : Z) : outcome error (list Z) :=
  wrap_err "SecureRandom" (read_random rnd i n).

Definition mlkemSeedSize : Z := 64.
Definition StaticKeySeedSize : Z := X25519PrivateKeySize + mlkemSeedSize.

Section Chkem.
Context {P : Primitives} {K : KEMPrimitives}.

(** ** The wrappers of [pkg/crypto] *)

Definition GenerateX25519KeyPair (rnd : Draws) (i : nat) : outcome error (list Z * list Z) :=
  let! sk := wrap_err "X25519KeyPair.Generate" (read_random rnd i X25519PrivateKeySize) in
  Ok (x25519_pub sk, sk).

Definition NewX25519KeyPairFromBytes (privateKeyBytes : list Z)
    : outcome error (list Z * list Z) :=
  guard! len privateKeyBytes =? X25519PrivateKeySize else ErrInvalidKeySize in
  Ok (x25519_pub privateKeyBytes, privateKeyBytes).

Definition X25519 (privateKey peerPublic : list Z) : outcome error (list Z) :=
  match x25519_dh privateKey peerPublic with
  | Some s => Ok s
  | None => Err (NewCryptoError "X25519" (ErrExternal "low order point"))
  end.

Definition ParseX25519PublicKey (data : list Z) : outcome error (list Z) :=
  guard! len data =? X25519PublicKeySize else ErrInvalidPublicKey in
  Ok data.

Definition GenerateMLKEMKeyPair (rnd : Draws) (i : nat) : outcome error (list Z * list Z) :=
  let! sd := wrap_err "MLKEMKeyPair.Generate" (read_random rnd i mlkemSeedSize) in
  Ok (mlkem_pub sd, sd).

Definition NewMLKEMKeyPairFromSeed (seed : list Z) : outcome error (list Z * list Z) :=
  guard! len seed =? 64 else ErrInvalidKeySize in
  Ok (mlkem_pub seed, seed).

Definition MLKEMEncapsulateWithSeed (ek seed : list Z) : outcome error (list Z * list Z) :=
  guard! len seed =? 32 else ErrInvalidKeySize in
  Ok (mlkem_encaps ek seed).

Definition MLKEMEncapsulate (rnd : Draws) (i : nat) (ek : list Z)
    : outcome error (list Z * list Z) :=
  let! seed := wrap_err "MLKEMEncapsulate" (SecureRandomBytes rnd i 32) in
  MLKEMEncapsulateWithSeed ek seed.

Definition MLKEMDecapsulate (dk ciphertext : list Z) : outcome error (list Z) :=
  guard! len ciphertext =? MLKEMCiphertextSize else ErrInvalidCiphertext in
  Ok (mlkem_decaps dk ciphertext).

Definition ParseMLKEMPublicKey (data : list Z) : outcome error (list Z) :=
  guard! len data =? MLKEMPublicKeySize else ErrInvalidPublicKey in
  guard! mlkem_unpack data
    else NewCryptoError "ParseMLKEMPublicKey" (ErrExternal "public key not normalized") in
  Ok data.

Definition NewXWingKeyPairFromSeed (seed : list Z) : outcome error (list Z * list Z) :=
  guard! len seed =? XWingSeedSize else ErrInvalidKeySize in
  Ok (xwing_pub seed, seed).

Definition GenerateXWingKeyPair (rnd : Draws) : outcome error (list Z * list Z) :=
  let! seed := wrap_err "XWing.Generate" (SecureRandomBytes rnd 0 XWingSeedSize) in
  NewXWingKeyPairFromSeed seed.

Definition XWingEncapsulateWithSeed (publicKey seed : list Z)
    : outcome error (list Z * list Z) :=
  guard! len seed =? 64 else ErrInvalidKeySize in
  match xwing_encaps publicKey seed with
  | Some (ss, ct) => Ok (ct, ss)
  | None => Err (NewCryptoError "XWing.Encapsulate" (ErrExternal "public key not normalized"))
  end.

Definition XWingEncapsulate (rnd : Draws) (publicKey : list Z)
    : outcome error (list Z * list Z) :=
  guard! len publicKey =? XWingPublicKeySize else ErrInvalidPublicKey in
  let! seed := wrap_err "XWing.Encapsulate" (SecureRandomBytes rnd 0 64) in
  XWingEncapsulateWithSeed publicKey seed.

Definition XWingDecapsulate (privateSeed ciphertext : list Z) : outcome error (list Z) :=
  guard! len privateSeed =? XWingSeedSize else ErrInvalidPrivateKey in
  guard! len ciphertext =? XWingCiphertextSize else ErrInvalidCiphertext in
  Ok (xwing_decaps privateSeed ciphertext).

Definition ParseXWingPublicKey (data : list Z) : outcome error (list Z) :=
  guard! len data =? XWingPublicKeySize else ErrInvalidPublicKey in
  Ok data.

(** ** CH-KEM-v1 *)

Definition v1_pair (x m : list Z * list Z) : KeyPair := mkKeyPair (Some x) (Some m) 0 None.

Definition GenerateKeyPair (rnd : Draws) : outcome error KeyPair :=
  let! x := wrap_err "CHKEM.GenerateKeyPair" (GenerateX25519KeyPair rnd 0) in
  let! m := wrap_err "CHKEM.GenerateKeyPair" (GenerateMLKEMKeyPair rnd 1) in
  Ok (v1_pair x m).

Definition ParseKeyPair (seed : list Z) : outcome error KeyPair :=
  guard! len seed =? StaticKeySeedSize else ErrInvalidKeySize in
  let! xs := slice seed 0 X25519PrivateKeySize in
  let! x := wrap_err "CHKEM.ParseKeyPair" (NewX25519KeyPairFromBytes xs) in
  let! ms := slice_from seed X25519PrivateKeySize in
  let! m := wrap_err "CHKEM.ParseKeyPair" (NewMLKEMKeyPairFromSeed ms) in
  Ok (v1_pair x m).

Definition GenerateStaticKeyPair (rnd : Draws) : outcome error (KeyPair * list Z) :=
  let! seed := wrap_err "CHKEM.GenerateStaticKeyPair" (SecureRandomBytes rnd 0 StaticKeySeedSize) in
  let! kp := ParseKeyPair seed in
  Ok (kp, seed).

(** [KeyPair.PublicKey]; an X-Wing pair whose handle was zeroized has an empty [raw]. *)
Definition KeyPair_PublicKey (kp : KeyPair) : PublicKey :=
  if negb (kp_suite kp =? 0) then
    match kp_impl kp with
    | Some (pub, _) => mkPublicKey None None (kp_suite kp) pub
    | None => mkPublicKey None None (kp_suite kp) []
    end
  else mkPublicKey (fst <$> kp_x25519 kp) (fst <$> kp_mlkem kp) 0 [].

(** The six values the transcript hash of a CH-KEM exchange binds. *)
Definition chkem_transcript (pkx pkm ephemeral ctm : list Z) (role : Role) : list (list Z) :=
  [pkx; pkm; ephemeral; ctm; protocolVersionBytes; [Role_byte role]].

Definition Encapsulate (rnd : Draws) (recipientPublic : PublicKey) (role : Role)
    : outcome error (Ciphertext * list Z) :=
  match pk_x25519 recipientPublic, pk_mlkem recipientPublic with
  | Some pkx, Some pkm =>
      let! '(epub, esk) := wrap_err "CHKEM.Encapsulate" (GenerateX25519KeyPair rnd 0) in
      let! x25519Secret := wrap_err "CHKEM.Encapsulate" (X25519 esk pkx) in
      let! '(ctm, mlkemSecret) := wrap_err "CHKEM.Encapsulate" (MLKEMEncapsulate rnd 1 pkm) in
      let ct := mkCiphertext epub ctm 0 [] in
      let! transcriptHash := TranscriptHash (chkem_transcript pkx pkm epub ctm role) in
      let! sharedSecret := DeriveCHKEMSecret x25519Secret mlkemSecret transcriptHash in
      Ok (ct, sharedSecret)
  | _, _ => Err ErrInvalidPublicKey
  end.

Definition Decapsulate (ct : Ciphertext) (kp : KeyPair) (role : Role) : outcome error (list Z) :=
  guard! negb ((len (ct_x25519Ephemeral ct) =? 0) || (len (ct_mlkemCiphertext ct) =? 0))
    else ErrInvalidCiphertext in
  match kp_x25519 kp, kp_mlkem kp with
  | Some (xpub, xpriv), Some (mpub, mpriv) =>
      let! ephemeralPublic :=
        wrap_err "CHKEM.Decapsulate" (ParseX25519PublicKey (ct_x25519Ephemeral ct)) in
      let! x25519Secret := wrap_err "CHKEM.Decapsulate" (X25519 xpriv ephemeralPublic) in
      let! mlkemSecret :=
        wrap_err "CHKEM.Decapsulate" (MLKEMDecapsulate mpriv (ct_mlkemCiphertext ct)) in
      let! transcriptHash := TranscriptHash (chkem_transcript xpub mpub
        (ct_x25519Ephemeral ct) (ct_mlkemCiphertext ct) (Role_peer role)) in
      DeriveCHKEMSecret x25519Secret mlkemSecret transcriptHash
  | _, _ => Err ErrInvalidPrivateKey
  end.

(** [PublicKey.Bytes]: a key with a nil component dereferences it and panics. *)
Definition PublicKey_Bytes (pk : PublicKey) : outcome error (list Z) :=
  if negb (pk_suite pk =? 0) then Ok (pk_raw pk)
  else match pk_x25519 pk, pk_mlkem pk with
       | Some x, m =>
           let c := c_make CHKEMPublicKeySize in
           let! c := c_copy (take (Z.to_nat X25519PublicKeySize) x) X25519PublicKeySize c in
           let! c := c_copy (default [] m) MLKEMPublicKeySize c in
           Ok (c_buf c)
       | None, _ => Panic
       end.

Definition ParsePublicKey (data : list Z) : outcome error PublicKey :=
  guard! len data =? CHKEMPublicKeySize else ErrInvalidPublicKey in
  let! xd := slice data 0 X25519PublicKeySize in
  let! x := ParseX25519PublicKey xd in
  let! md := slice_from data X25519PublicKeySize in
  let! m := ParseMLKEMPublicKey md in
  Ok (mkPublicKey (Some x) (Some m) 0 []).

Definition Ciphertext_Bytes (ct : Ciphertext) : outcome error (list Z) :=
  if negb (ct_suite ct =? 0) then Ok (ct_raw ct)
  else
    let c := c_make CHKEMCiphertextSize in
    let! c := c_copy (take (Z.to_nat X25519PublicKeySize) (ct_x25519Ephemeral ct))
                X25519PublicKeySize c in
    let! c := c_copy (ct_mlkemCiphertext ct) MLKEMCiphertextSize c in
    Ok (c_buf c).

Definition ParseCiphertext (data : list Z) : outcome error Ciphertext :=
  guard! len data =? CHKEMCiphertextSize else ErrInvalidCiphertext in
  let! e := slice data 0 X25519PublicKeySize in
  let! m := slice_from data X25519PublicKeySize in
  Ok (mkCiphertext e m 0 []).

Definition KeyPair_Zeroize (kp : KeyPair) : KeyPair :=
  if negb (kp_suite kp =? 0) then mkKeyPair (kp_x25519 kp) (kp_mlkem kp) (kp_suite kp) None
  else mkKeyPair None None (kp_suite kp) (kp_impl kp).

Definition PublicKey_Clone (pk : PublicKey) : PublicKey :=
  if negb (pk_suite pk =? 0) then mkPublicKey None None (pk_suite pk) (pk_raw pk)
  else mkPublicKey (pk_x25519 pk) (pk_mlkem pk) 0 [].

Definition PublicKey_Suite (pk : PublicKey) : Z :=
  if pk_suite pk =? 0 then SuiteCHKEMv1 else pk_suite pk.

Definition KeyPair_Suite (kp : KeyPair) : Z :=
  if kp_suite kp =? 0 then SuiteCHKEMv1 else kp_suite kp.

(** ** X-Wing *)

Definition xwing_GenerateKeyPair (rnd : Draws) : outcome error KeyPair :=
  let! kp := GenerateXWingKeyPair rnd in
  Ok (mkKeyPair None None SuiteXWing (Some kp)).

Definition xwing_ParseKeyPair (seed : list Z) : outcome error KeyPair :=
  let! kp := NewXWingKeyPairFromSeed seed in
  Ok (mkKeyPair None None SuiteXWing (Some kp)).

Definition xwing_GenerateStaticKeyPair (rnd : Draws) : outcome error (KeyPair * list Z) :=
  let! seed := wrap_err "XWing.GenerateStaticKeyPair" (SecureRandomBytes rnd 0 XWingSeedSize) in
  let! kp := xwing_ParseKeyPair seed in
  Ok (kp, seed).

Definition xwing_Encapsulate (rnd : Draws) (recipient : PublicKey) (_ : Role)
    : outcome error (Ciphertext * list Z) :=
  guard! pk_suite recipient =? SuiteXWing else ErrInvalidPublicKey in
  let! '(ct, ss) := XWingEncapsulate rnd (pk_raw recipient) in
  Ok (mkCiphertext [] [] SuiteXWing ct, ss).

Definition xwing_Decapsulate (ct : Ciphertext) (kp : KeyPair) (_ : Role)
    : outcome error (list Z) :=
  guard! ct_suite ct =? SuiteXWing else ErrInvalidCiphertext in
  match kp_impl kp with
  | None => Err ErrInvalidPrivateKey
  | Some (_, seed) => XWingDecapsulate seed (ct_raw ct)
  end.

Definition xwing_ParsePublicKey (data : list Z) : outcome error PublicKey :=
  let! raw := ParseXWingPublicKey data in
  Ok (mkPublicKey None None SuiteXWing raw).

Definition xwing_ParseCiphertext (data : list Z) : outcome error Ciphertext :=
  guard! len data =? XWingCiphertextSize else ErrInvalidCiphertext in
  Ok (mkCiphertext [] [] SuiteXWing data).

(** ** The suite interface and its registry *)

Record Suite := mkSuite {
  s_ID : Z;
  s_GenerateKeyPair : Draws -> outcome error KeyPair;
  s_GenerateStaticKeyPair : Draws -> outcome error (KeyPair * list Z);
  s_ParseKeyPair : list Z -> outcome error KeyPair;
  s_Encapsulate : Draws -> PublicKey -> Role -> outcome error (Ciphertext * list Z);
  s_Decapsulate : Ciphertext -> KeyPair -> Role -> outcome error (list Z);
  s_ParsePublicKey : list Z -> outcome error PublicKey;
  s_ParseCiphertext : list Z -> outcome error Ciphertext;
  s_PublicKeySize : Z;
  s_CiphertextSize : Z;
  s_SeedSize : Z;
  s_IsFIPSApproved : bool }.

Definition chkemV1 : Suite :=
  mkSuite SuiteCHKEMv1 GenerateKeyPair GenerateStaticKeyPair ParseKeyPair Encapsulate
    Decapsulate ParsePublicKey ParseCiphertext CHKEMPublicKeySize CHKEMCiphertextSize
    StaticKeySeedSize true.

Definition xwingSuite : Suite :=
  mkSuite SuiteXWing xwing_GenerateKeyPair xwing_GenerateStaticKeyPair xwing_ParseKeyPair
    xwing_Encapsulate xwing_Decapsulate xwing_ParsePublicKey xwing_ParseCiphertext
    XWingPublicKeySize XWingCiphertextSize XWingSeedSize true.

(** [registry] read by [GetSuite]. *)
Definition GetSuite (id : Z) : option Suite :=
  if id =? SuiteCHKEMv1 then Some chkemV1
  else if id =? SuiteXWing then Some xwingSuite
  else None.

Definition DefaultSuite : Suite := chkemV1.

Definition SupportedSuites : list Z := [SuiteCHKEMv1; SuiteXWing].

(** ** Suite-tagged identity files *)

Definition suiteTagSize : Z := 2.

Definition TagSuite (id : Z) (body : list Z) : outcome error (list Z) :=
  let c := c_make (suiteTagSize + len body) in
  let! c := c_put (be_put 2 id) c in
  let! c := c_copy body (len body) c in
  Ok (c_buf c).

Definition splitSuiteTag (data : list Z) : outcome error (Suite * list Z) :=
  guard! negb (len data <? suiteTagSize) else ErrInvalidKeySize in
  let! id := get_be 2 data 0 in
  match GetSuite id with
  | None => Err ErrUnsupportedKEMSuite
  | Some suite =>
      let! body := slice_from data suiteTagSize in
      Ok (suite, body)
  end.

Definition ParseTaggedKeyPair (data : list Z) : outcome error KeyPair :=
  let! '(suite, body) := splitSuiteTag data in
  s_ParseKeyPair suite body.

Definition ParseTaggedPublicKey (data : list Z) : outcome error PublicKey :=
  let! '(suite, body) := splitSuiteTag data in
  s_ParsePublicKey suite body.
End Chkem.

#[export] Hint Unfold X25519PrivateKeySize X25519PublicKeySize X25519SharedSecretSize
  MLKEMPublicKeySize MLKEMCiphertextSize MLKEMSharedSecretSize CHKEMPublicKeySize
  CHKEMCiphertextSize CHKEMSharedSecretSize TranscriptHashSize XWingPublicKeySize
  XWingCiphertextSize XWingSeedSize mlkemSeedSize StaticKeySeedSize suiteTagSize : gosz.

(** * What a suite promises its users *)

(** A key pair a suite generated or parsed. *)
Definition key_of `{Primitives, KEMPrimitives} (s : Suite) (kp : KeyPair) : Prop :=
  (exists rnd, s_GenerateKeyPair s rnd = Ok kp) \/ exists seed, s_ParseKeyPair s seed = Ok kp.

(** The contract of the interface [chkem.Suite]: both ends of an exchange with opposite roles
    derive the same 32-byte secret, and keys and ciphertexts survive the wire. *)
Class SuiteLaws `{Primitives, KEMPrimitives} (s : Suite) : Prop := {
  suite_id : forall kp, key_of s kp -> PublicKey_Suite (KeyPair_PublicKey kp) = s_ID s;
  suite_agree : forall kp rnd role ct ss, key_of s kp ->
    s_Encapsulate s rnd (KeyPair_PublicKey kp) role = Ok (ct, ss) ->
    s_Decapsulate s ct kp (Role_peer role) = Ok ss;
  suite_secret_len : forall pk rnd role ct ss,
    s_Encapsulate s rnd pk role = Ok (ct, ss) -> len ss = CHKEMSharedSecretSize;
  suite_pk_wire : forall kp, key_of s kp -> exists b,
    PublicKey_Bytes (KeyPair_PublicKey kp) = Ok b /\ len b = s_PublicKeySize s /\
    s_ParsePublicKey s b = Ok (KeyPair_PublicKey kp);
  suite_ct_wire : forall pk rnd role ct ss, s_Encapsulate s rnd pk role = Ok (ct, ss) ->
    exists b, Ciphertext_Bytes ct = Ok b /\ len b = s_CiphertextSize s /\
    s_ParseCiphertext s b = Ok ct }.

Section Suites.
Context {P : Primitives} {PL : PrimitivesLaws P} {K : KEMPrimitives} {KL : KEMLaws K}.

Lemma wrap_err_Ok {A} op (o : outcome error A) a : wrap_err op o = Ok a <-> o = Ok a.
Proof. by destruct o. Qed.

Lemma read_random_Ok rnd i n b : read_random rnd i n = Ok b -> rnd i = Some b /\ len b = n.
Proof.
  unfold read_random. destruct (rnd i) as [b'|]; [|done].
  destruct (_ =? _) eqn:Hb; [|done]. intros ->%Ok_inj. split; [done|lia].
Qed.

Lemma DeriveKeyMultiple_len d l n r : DeriveKeyMultiple d l n = Ok r -> len r = n.
Proof.
  unfold DeriveKeyMultiple. intros H. okinv H. apply Ok_inj in H as <-. apply shake256_len. zbool; lia.
Qed.

Lemma DeriveCHKEMSecret_len x m h r : DeriveCHKEMSecret x m h = Ok r -> len r = CHKEMSharedSecretSize.
Proof. unfold DeriveCHKEMSecret. intros H. okinv H. by eapply DeriveKeyMultiple_len. Qed.

(** The shape of a v1 key pair: the public halves belong to the private ones. *)
Lemma v1_key kp : key_of chkemV1 kp -> exists sk sd,
  kp = v1_pair (x25519_pub sk, sk) (mlkem_pub sd, sd).
Proof.
  intros [[rnd H]|[seed H]]; cbn in H.
  - unfold GenerateKeyPair, GenerateX25519KeyPair, GenerateMLKEMKeyPair in H.
    okinv H. apply Ok_inj in H as <-.
    apply wrap_err_Ok in Hx, Hx0. okinv Hx. okinv Hx0.
    apply Ok_inj in Hx as <-. apply Ok_inj in Hx0 as <-. by eauto.
  - unfold ParseKeyPair, NewX25519KeyPairFromBytes, NewMLKEMKeyPairFromSeed in H.
    okinv H. apply Ok_inj in H as <-.
    apply wrap_err_Ok in Hx0, Hx2. okinv Hx0. okinv Hx2.
    apply Ok_inj in Hx0 as <-. apply Ok_inj in Hx2 as <-. by eauto.
Qed.

Lemma v1_encaps_inv rnd pk role ct ss : Encapsulate rnd pk role = Ok (ct, ss) ->
  exists pkx pkm e x c h, pk_x25519 pk = Some pkx /\ pk_mlkem pk = Some pkm /\
    x25519_dh e pkx = Some x /\
    ct = mkCiphertext (x25519_pub e) (mlkem_encaps pkm c).1 0 [] /\
    TranscriptHash (chkem_transcript pkx pkm (x25519_pub e) (mlkem_encaps pkm c).1 role) = Ok h /\
    DeriveCHKEMSecret x (mlkem_encaps pkm c).2 h = Ok ss.
Proof.
  unfold Encapsulate, GenerateX25519KeyPair, X25519, MLKEMEncapsulate, MLKEMEncapsulateWithSeed.
  intros H. okinv H. apply Ok_inj in H as [= <- <-].
  apply wrap_err_Ok in Hx, Hx0, Hx1. okinv Hx. apply Ok_inj in Hx as [= <- <-].
  okinv Hx0. apply Ok_inj in Hx0 as <-. okinv Hx1. apply Ok_inj in Hx1.
  match type of Hx1 with mlkem_encaps ?k ?c = (?a, ?b) =>
    assert (a = (mlkem_encaps k c).1 /\ b = (mlkem_encaps k c).2) as [-> ->]
      by (by rw Hx1) end.
  by eauto 20.
Qed.

Lemma decaps_inv ct kp role ss : Decapsulate ct kp role = Ok ss ->
  exists xpub xpriv mpub mpriv x m h,
    kp_x25519 kp = Some (xpub, xpriv) /\ kp_mlkem kp = Some (mpub, mpriv) /\
    len (ct_x25519Ephemeral ct) = 32 /\ len (ct_mlkemCiphertext ct) = 1568 /\
    TranscriptHash (chkem_transcript xpub mpub (ct_x25519Ephemeral ct)
      (ct_mlkemCiphertext ct) (Role_peer role)) = Ok h /\
    DeriveCHKEMSecret x m h = Ok ss.
Proof.
  unfold Decapsulate, ParseX25519PublicKey, MLKEMDecapsulate. intros H. okinv H.
  apply wrap_err_Ok in Hx, Hx1. okinv Hx. okinv Hx1. autounfold with gosz in *. zbool.
  by eexists _, _, _, _, _, _, _.
Qed.

Lemma ParsePublicKey_inv data pk : ParsePublicKey data = Ok pk ->
  exists x m, pk = mkPublicKey (Some x) (Some m) 0 [] /\ len x = 32 /\ len m = 1568.
Proof.
  unfold ParsePublicKey, ParseX25519PublicKey, ParseMLKEMPublicKey. intros H. okinv H.
  apply Ok_inj in H as <-. okinv Hx0. okinv Hx2. apply Ok_inj in Hx0 as <-.
  apply Ok_inj in Hx2 as <-. autounfold with gosz in *. zbool. by eauto.
Qed.

Lemma two_parts_wire a b n : len a = 32 -> len b = n -> 0 <= n ->
  (let! c := c_copy (take (Z.to_nat X25519PublicKeySize) a) X25519PublicKeySize
               (c_make (32 + n)) in
   let! c := c_copy b n c in Ok (c_buf c)) = Ok (E := error) (a ++ b).
Proof.
  intros Ha Hb Hn. rw take_ge; [unfold len, X25519PublicKeySize in *; lia|]. rw c_make_filled.
  rw c_copy_filled; [golia|golia|]. cbn [obind].
  rw c_copy_filled; [golia|golia|]. cbn [obind]. rw filled_done; [golia|]. done.
Qed.

Lemma two_parts_read (a b : list Z) : len a = 32 ->
  slice (E := error) (a ++ b) 0 X25519PublicKeySize = Ok a /\
  slice_from (E := error) (a ++ b) X25519PublicKeySize = Ok b.
Proof.
  intros Ha. pose proof (at_off_0 (a ++ b)) as H. split.
  - by eapply slice_at_eq; [apply H|golia|golia].
  - eapply slice_from_at_eq; [apply at_off_pre|golia].
Qed.

#[export] Instance chkemV1_laws : SuiteLaws chkemV1.
Proof.
  split.
  - intros kp (sk & sd & ->)%v1_key. done.
  - intros kp rnd role ct ss (sk & sd & ->)%v1_key H.
    apply v1_encaps_inv in H as (pkx & pkm & e & x & c & h & [= <-] & [= <-] & Hx & -> & Hh & Hs).
    cbn. unfold Decapsulate, ParseX25519PublicKey, X25519, MLKEMDecapsulate.
    destruct (mlkem_encaps_len (mlkem_pub sd) c) as [Hl1 Hl2].
    cbn. rw x25519_pub_len Hl1. cbn. rw (x25519_agree _ _ _ Hx). cbn. rw mlkem_correct.
    replace (Role_peer (Role_peer role)) with role by (by destruct role).
    by rw Hh.
  - intros pk rnd role ct ss H.
    apply v1_encaps_inv in H as (pkx & pkm & e & x & c & h & _ & _ & _ & _ & _ & Hs).
    by eapply DeriveCHKEMSecret_len.
  - intros kp (sk & sd & ->)%v1_key. exists (x25519_pub sk ++ mlkem_pub sd).
    pose proof (x25519_pub_len sk) as Hx. pose proof (mlkem_pub_len sd) as Hm.
    destruct (two_parts_read (x25519_pub sk) (mlkem_pub sd) Hx) as [R1 R2].
    repeat split; [by apply two_parts_wire|cbn; golia|]. cbn.
    unfold ParsePublicKey. rw R1 R2. cbn. unfold ParseX25519PublicKey, ParseMLKEMPublicKey.
    rw len_app Hx Hm mlkem_pub_unpack. done.
  - intros pk rnd role ct ss H.
    apply v1_encaps_inv in H as (pkx & pkm & e & x & c & h & _ & _ & _ & -> & _ & _).
    destruct (mlkem_encaps_len pkm c) as [Hm _]. pose proof (x25519_pub_len e) as Hx.
    exists (x25519_pub e ++ (mlkem_encaps pkm c).1).
    destruct (two_parts_read (x25519_pub e) (mlkem_encaps pkm c).1 Hx) as [R1 R2].
    repeat split; [by apply two_parts_wire|cbn; golia|]. cbn.
    unfold ParseCiphertext. rw R1 R2 len_app Hx Hm. done.
Qed.

Lemma xwing_key kp : key_of xwingSuite kp -> exists seed,
  kp = mkKeyPair None None SuiteXWing (Some (xwing_pub seed, seed)) /\ len seed = XWingSeedSize.
Proof.
  intros [[rnd H]|[seed H]]; cbn in H;
    unfold xwing_GenerateKeyPair, xwing_ParseKeyPair, GenerateXWingKeyPair,
      NewXWingKeyPairFromSeed in H; okinv H; apply Ok_inj in H as <-; okinv Hx;
    apply Ok_inj in Hx as <-; eexists; split; (done || lia).
Qed.

Lemma xwing_encaps_inv rnd pk role ct ss : xwing_Encapsulate rnd pk role = Ok (ct, ss) ->
  exists c raw, xwing_encaps (pk_raw pk) c = Some (ss, raw) /\
    ct = mkCiphertext [] [] SuiteXWing raw.
Proof.
  unfold xwing_Encapsulate, XWingEncapsulate, XWingEncapsulateWithSeed. intros H.
  okinv H. apply Ok_inj in H as [= <- <-]. okinv Hx. apply Ok_inj in Hx as [= <- <-]. eauto.
Qed.

#[export] Instance xwingSuite_laws : SuiteLaws xwingSuite.
Proof.
  split.
  - intros kp (seed & -> & _)%xwing_key. done.
  - intros kp rnd role ct ss (seed & -> & Hs)%xwing_key H.
    apply (xwing_encaps_inv _ _ role) in H as (c & raw & He & ->). cbn in He.
    destruct (xwing_encaps_len _ _ _ _ He) as [_ Hl]. cbn.
    unfold xwing_Decapsulate, XWingDecapsulate. cbn.
    rw Hs Hl. cbn. by rw (xwing_correct _ _ _ _ He).
  - intros pk rnd role ct ss H. apply (xwing_encaps_inv _ _ role) in H as (c & raw & He & ->).
    by destruct (xwing_encaps_len _ _ _ _ He).
  - intros kp (seed & -> & Hs)%xwing_key. exists (xwing_pub seed).
    pose proof (xwing_pub_len seed) as Hp. repeat split; [done|].
    cbn. unfold xwing_ParsePublicKey, ParseXWingPublicKey. by rw Hp.
  - intros pk rnd role ct ss H. apply (xwing_encaps_inv _ _ role) in H as (c & raw & He & ->).
    destruct (xwing_encaps_len _ _ _ _ He) as [_ Hl]. exists raw. repeat split; [done|].
    cbn. unfold xwing_ParseCiphertext. by rw Hl.
Qed.

Lemma GetSuite_laws id s : GetSuite id = Some s -> SuiteLaws s /\ s_ID s = id.
Proof.
  unfold GetSuite. destruct (id =? SuiteCHKEMv1) eqn:H1; [|destruct (id =? SuiteXWing) eqn:H2].
  - intros [= <-]. split; [apply _|cbn; lia].
  - intros [= <-]. split; [apply _|cbn; lia].
  - done.
Qed.
End Suites.

(** * Binding *)

Section Binding.
Context {P : Primitives} {PL : PrimitivesLaws P}.

(** These two inputs differ and are hashed to the same 32 bytes. *)
Definition shake_collision (x y : list Z) : Prop := x <> y /\ shake256 x 32 = shake256 y 32.
Definition sha3_collision (x y : list Z) : Prop := x <> y /\ sha3_256 x = sha3_256 y.

Lemma TranscriptHash_eq l k h : fits_inputs l -> fits_inputs k ->
  TranscriptHash l = Ok h -> TranscriptHash k = Ok h ->
  l = k \/ sha3_collision (list_absorb l) (list_absorb k).
Proof.
  intros Hl Hk. rw !TranscriptHash_absorbs //. intros <-%Ok_inj H%Ok_inj.
  destruct (decide (list_absorb l = list_absorb k)) as [He|]; [left|by right].
  by apply list_absorb_inj in He.
Qed.

Lemma DeriveKeyMultiple_eq d l k s : fits32 d -> fits_inputs l -> fits_inputs k ->
  DeriveKeyMultiple d l 32 = Ok s -> DeriveKeyMultiple d k 32 = Ok s ->
  l = k \/ shake_collision (multi_absorb d l) (multi_absorb d k).
Proof.
  intros Hd Hl Hk. rw !DeriveKeyMultiple_absorbs //. intros <-%Ok_inj H%Ok_inj.
  destruct (decide (multi_absorb d l = multi_absorb d k)) as [He|]; [left|by right].
  by apply multi_absorb_inj in He as [_ He].
Qed.

Lemma fits_inputs_of l : (length l < 1000)%nat -> Forall (fun b => len b <= 65536) l ->
  fits_inputs l.
Proof.
  intros Hl Hf. split; [unfold len; lia|]. eapply Forall_impl; [apply Hf|].
  intros b Hb. cbv beta in Hb. unfold fits32. lia.
Qed.

(** What the derivations of a CH-KEM secret and of a rekey absorb. *)
Definition chkem_absorb (x m h : list Z) : list Z := multi_absorb DomainSeparatorCHKEM [x; m; h].
Definition rekey_absorb (ms fresh : list Z) : list Z := multi_absorb DomainSeparatorRekey [ms; fresh].

Lemma DeriveCHKEMSecret_eq x m h x' m' h' s :
  DeriveCHKEMSecret x m h = Ok s -> DeriveCHKEMSecret x' m' h' = Ok s ->
  (x = x' /\ m = m' /\ h = h') \/ shake_collision (chkem_absorb x m h) (chkem_absorb x' m' h').
Proof.
  unfold DeriveCHKEMSecret. intros H H'. okinv H. okinv H'.
  autounfold with gosz in *. zbool.
  pose proof (fun a b c => DeriveKeyMultiple_eq _ _ _ _ a b c H H') as Hq.
  destruct Hq as [[= -> -> ->]|Hc]; [done|..|by left|by right];
    (apply fits_inputs_of; [simpl; lia|repeat apply Forall_cons_2; try lia; done]).
Qed.

Lemma DeriveRekeySecret_eq ms f f' s : len f = 32 -> len f' = 32 ->
  DeriveRekeySecret ms f = Ok s -> DeriveRekeySecret ms f' = Ok s ->
  f = f' \/ shake_collision (rekey_absorb ms f) (rekey_absorb ms f').
Proof.
  unfold DeriveRekeySecret. intros Hf Hf' H H'. okinv H. okinv H'.
  autounfold with gosz in *. zbool.
  pose proof (fun a b c => DeriveKeyMultiple_eq _ _ _ _ a b c H H') as Hq.
  destruct Hq as [[= ->]|Hc]; [done|..|by left|by right];
    (apply fits_inputs_of; [simpl; lia|repeat apply Forall_cons_2; try lia; done]).
Qed.

Lemma chkem_transcript_eq px pm e m r px' pm' e' m' r' h :
  TranscriptHash (chkem_transcript px pm e m r) = Ok h ->
  TranscriptHash (chkem_transcript px' pm' e' m' r') = Ok h ->
  len px = 32 -> len pm = 1568 -> len e = 32 -> len m = 1568 ->
  len px' = 32 -> len pm' = 1568 -> len e' = 32 -> len m' = 1568 ->
  (px = px' /\ pm = pm' /\ e = e' /\ m = m' /\ r = r') \/
  sha3_collision (list_absorb (chkem_transcript px pm e m r)) (list_absorb (chkem_transcript px' pm' e' m' r')).
Proof.
  intros H H'. intros.
  pose proof (fun a b => TranscriptHash_eq _ _ _ a b H H') as Hq.
  destruct Hq as [Hq|Hc]; [..| |by right].
  1-2: apply fits_inputs_of; [simpl; lia|]; unfold chkem_transcript, protocolVersionBytes;
    repeat apply Forall_cons_2; try (rw ?len_be_put; lia); try done; destruct r, r'; by vm_compute.
  left. injection Hq as -> -> -> -> Hr. repeat split; try done. by destruct r, r'.
Qed.
End Binding.

(** * A concrete instance *)

Definition pad (n : nat) (l : list Z) : list Z := take n (l ++ replicate n 0).

Lemma len_pad n l : len (pad n l) = Z.of_nat n.
Proof. unfold pad. golia. Qed.

(** Not cryptography: the least that satisfies the laws, for the witnesses. *)
Definition toyKEM : KEMPrimitives := {|
  x25519_pub := pad 32;
  x25519_dh := fun sk pk => Some (zip_with Z.lxor (pad 32 sk) (pad 32 pk));
  mlkem_pub := pad 1568;
  mlkem_unpack := fun _ => true;
  mlkem_encaps := fun _ c => (pad 1568 (pad 32 c), pad 32 c);
  mlkem_decaps := fun _ ct => take 32 ct;
  xwing_pub := pad 1216;
  xwing_encaps := fun _ c => Some (pad 32 c, pad 1120 (pad 32 c));
  xwing_decaps := fun _ ct => take 32 ct |}.

Lemma take_pad n m l : length l = n -> (n <= m)%nat -> take n (pad m l) = l.
Proof.
  intros Hl Hm. unfold pad. rw take_take. rw Nat.min_l //. rw -Hl. apply take_app_length.
Qed.

Lemma length_pad n l : length (pad n l) = n.
Proof. pose proof (len_pad n l). unfold len in *. lia. Qed.

Lemma pad_id n l : length l = n -> pad n l = l.
Proof. intros Hl. unfold pad. rw -Hl. apply take_app_length. Qed.

#[export] Instance toyKEM_laws : KEMLaws toyKEM.
Proof.
  split; cbn -[pad]; try (intros; apply len_pad); try done.
  - intros sk pk s [= <-]. unfold len. rw length_zip_with !length_pad. done.
  - intros a b s [= <-]. f_equal. rw zip_with_flip.
    rw (pad_id 32 (pad 32 a)); [apply length_pad|]. rw (pad_id 32 (pad 32 b)); [apply length_pad|].
    by apply zip_with_ext; [intros ??; apply Z.lxor_comm| |].
  - intros pk c. by rw !len_pad.
  - intros sd c. apply take_pad; [apply length_pad|lia].
  - intros pk c ss ct [= <- <-]. by rw !len_pad.
  - intros sd c ss ct [= <- <-]. apply take_pad; [apply length_pad|lia].
Qed.

Section Parts.
Context {P : Primitives} {K : KEMPrimitives} {KL : KEMLaws K}.

(** What the two directions of the exchange hash: the transcript and the two shared secrets. *)
Definition encaps_parts (rnd : Draws) (pk : PublicKey) (role : Role)
    : outcome error (list (list Z) * (list Z * list Z)) :=
  match pk_x25519 pk, pk_mlkem pk with
  | Some pkx, Some pkm =>
      let! '(epub, esk) := GenerateX25519KeyPair rnd 0 in
      let! x := X25519 esk pkx in
      let! '(ctm, m) := MLKEMEncapsulate rnd 1 pkm in
      Ok (chkem_transcript pkx pkm epub ctm role, (x, m))
  | _, _ => Err ErrInvalidPublicKey
  end.

Definition decaps_parts (ct : Ciphertext) (kp : KeyPair) (role : Role)
    : outcome error (list (list Z) * (list Z * list Z)) :=
  match kp_x25519 kp, kp_mlkem kp with
  | Some (xpub, xpriv), Some (mpub, mpriv) =>
      let! x := X25519 xpriv (ct_x25519Ephemeral ct) in
      let! m := MLKEMDecapsulate mpriv (ct_mlkemCiphertext ct) in
      Ok (chkem_transcript xpub mpub (ct_x25519Ephemeral ct) (ct_mlkemCiphertext ct) (Role_peer role), (x, m))
  | _, _ => Err ErrInvalidPrivateKey
  end.

(** An encapsulation and a decapsulation that hash different things to the same value. *)
Definition chkem_collision (rnd : Draws) (pk : PublicKey) (role : Role)
    (ct' : Ciphertext) (kp' : KeyPair) (role' : Role) : Prop :=
  exists t x m h t' x' m' h', encaps_parts rnd pk role = Ok (t, (x, m)) /\ TranscriptHash t = Ok h /\
    decaps_parts ct' kp' role' = Ok (t', (x', m')) /\ TranscriptHash t' = Ok h' /\
    (sha3_collision (list_absorb t) (list_absorb t') \/
     shake_collision (chkem_absorb x m h) (chkem_absorb x' m' h')).

Lemma encaps_hashes rnd pk role ct ss : Encapsulate rnd pk role = Ok (ct, ss) ->
  exists pkx pkm x m h, pk_x25519 pk = Some pkx /\ pk_mlkem pk = Some pkm /\
    len (ct_x25519Ephemeral ct) = 32 /\ len (ct_mlkemCiphertext ct) = 1568 /\
    let t := chkem_transcript pkx pkm (ct_x25519Ephemeral ct) (ct_mlkemCiphertext ct) role in
    encaps_parts rnd pk role = Ok (t, (x, m)) /\ TranscriptHash t = Ok h /\ DeriveCHKEMSecret x m h = Ok ss.
Proof.
  unfold Encapsulate, encaps_parts. destruct (pk_x25519 pk) as [pkx|]; [|done].
  destruct (pk_mlkem pk) as [pkm|]; [|done]. intros H. okinv H. apply Ok_inj in H as [= <- <-].
  apply wrap_err_Ok in Hx, Hx0, Hx1. rw Hx obind_Ok_l Hx0 obind_Ok_l Hx1 obind_Ok_l.
  eexists pkx, pkm, _, _, _. do 2 (split; [done|]). cbn [ct_x25519Ephemeral ct_mlkemCiphertext].
  unfold GenerateX25519KeyPair in Hx. okinv Hx. apply Ok_inj in Hx as [= <- <-].
  unfold MLKEMEncapsulate, MLKEMEncapsulateWithSeed in Hx1. okinv Hx1. apply Ok_inj in Hx1.
  match type of Hx1 with mlkem_encaps ?k ?c = _ => pose proof (mlkem_encaps_len k c) as [Hl _]; rw Hx1 in Hl end.
  split; [apply x25519_pub_len|]. split; [exact Hl|]. by eauto.
Qed.

Lemma decaps_hashes ct kp role ss : Decapsulate ct kp role = Ok ss ->
  exists xpub xpriv mpub mpriv x m h, kp_x25519 kp = Some (xpub, xpriv) /\ kp_mlkem kp = Some (mpub, mpriv) /\
    len (ct_x25519Ephemeral ct) = 32 /\ len (ct_mlkemCiphertext ct) = 1568 /\
    let t := chkem_transcript xpub mpub (ct_x25519Ephemeral ct) (ct_mlkemCiphertext ct) (Role_peer role) in
    decaps_parts ct kp role = Ok (t, (x, m)) /\ TranscriptHash t = Ok h /\ DeriveCHKEMSecret x m h = Ok ss.
Proof.
  unfold Decapsulate, decaps_parts. intros H. okinv H. apply wrap_err_Ok in Hx, Hx0, Hx1.
  unfold ParseX25519PublicKey in Hx. okinv Hx. apply Ok_inj in Hx as <-.
  pose proof Hx1 as Hm. unfold MLKEMDecapsulate in Hm. okinv Hm. autounfold with gosz in *. zbool.
  eexists _, _, _, _, _, _, _. do 4 (split; [done|]). rw Hx0 obind_Ok_l Hx1 obind_Ok_l. by eauto.
Qed.

Lemma chkem_binds rnd pk role ct ss ct' kp' role' :
  (exists data, ParsePublicKey data = Ok pk) -> key_of chkemV1 kp' ->
  Encapsulate rnd pk role = Ok (ct, ss) -> Decapsulate ct' kp' role' = Ok ss ->
  (KeyPair_PublicKey kp' = pk /\ role' = Role_peer role /\
   ct_x25519Ephemeral ct' = ct_x25519Ephemeral ct /\
   ct_mlkemCiphertext ct' = ct_mlkemCiphertext ct) \/ chkem_collision rnd pk role ct' kp' role'.
Proof.
  intros [data Hpk] (sk & sd & ->)%v1_key He Hd.
  apply encaps_hashes in He as (pkx & pkm & x & m & h & Hx & Hm & Hl1 & Hl2 & Hp & Hh & Hs).
  apply decaps_hashes in Hd as (xpub & xpriv & mpub & mpriv & x' & m' & h' & Hx' & Hm' & Hl3 & Hl4 & Hp' & Hh' & Hs').
  injection Hx' as <- <-. injection Hm' as <- <-.
  destruct (DeriveCHKEMSecret_eq _ _ _ _ _ _ _ Hs Hs') as [(_ & _ & <-)|?];
    [|right; eexists _, _, _, _, _, _, _, _; eauto 10].
  apply ParsePublicKey_inv in Hpk as (px & pm & -> & Hpx & Hpm).
  injection Hx as <-. injection Hm as <-. pose proof (x25519_pub_len sk). pose proof (mlkem_pub_len sd).
  destruct (chkem_transcript_eq _ _ _ _ _ _ _ _ _ _ _ Hh Hh') as [(-> & -> & -> & -> & Hr)|?];
    [lia..| |right; eexists _, _, _, _, _, _, _, _; eauto 10].
  left. repeat split; try done. by destruct role, role'.
Qed.
End Parts.

(** * Properties *)

(** C23: a key exchange over the wire.  For every suite the registry holds: the serialised
    public key of a key pair has the suite's size; whoever parses it and encapsulates gets a
    ciphertext of the suite's size, and the key's owner, parsing that ciphertext and
    decapsulating in the opposite role, derives the same secret of 32 bytes. *)
Theorem suite_exchange (P : Primitives) (PL : PrimitivesLaws P) (K : KEMPrimitives)
    (KL : KEMLaws K) id s kp :
  GetSuite id = Some s -> key_of s kp ->
  exists pkb, PublicKey_Bytes (KeyPair_PublicKey kp) = Ok pkb /\ len pkb = s_PublicKeySize s /\
    forall rnd role ct ss,
      (let! pk := s_ParsePublicKey s pkb in s_Encapsulate s rnd pk role) = Ok (ct, ss) ->
      exists ctb, Ciphertext_Bytes ct = Ok ctb /\ len ctb = s_CiphertextSize s /\
        (let! ct' := s_ParseCiphertext s ctb in s_Decapsulate s ct' kp (Role_peer role)) = Ok ss /\
        len ss = CHKEMSharedSecretSize.
Proof.
  intros [Hs _]%GetSuite_laws Hk. destruct (suite_pk_wire kp Hk) as (pkb & Hb & Hl & Hp).
  exists pkb. do 2 (split; [done|]). intros rnd role ct ss. rw Hp obind_Ok_l. intros He.
  destruct (suite_ct_wire _ _ _ _ _ He) as (ctb & Hc & Hcl & Hcp). exists ctb.
  do 2 (split; [done|]). rw Hcp obind_Ok_l. split; [by eapply suite_agree|].
  by eapply suite_secret_len.
Qed.

(** Draws that return the numbers 1, 2, ... of the sizes [ns]. *)
Definition example_draws (ns : list nat) : Draws :=
  fun i => n ← ns !! i; Some (replicate n (Z.of_nat i + 1)).

Definition example_v1_key : KeyPair :=
  @v1_pair (pad 32 (replicate 32 1), replicate 32 1) (pad 1568 (replicate 64 2), replicate 64 2).

Lemma suite_exchange_witness :
  exists pkb, PublicKey_Bytes (KeyPair_PublicKey example_v1_key) = Ok pkb /\ len pkb = 1600.
Proof.
  destruct (suite_exchange toy toy_laws toyKEM toyKEM_laws SuiteCHKEMv1 (@chkemV1 toy toyKEM)
    example_v1_key) as (pkb & Hb & Hl & _).
  - reflexivity.
  - left. exists (example_draws [32; 64]%nat). vm_compute. reflexivity.
  - exists pkb. split; [exact Hb|exact Hl].
Defined.

(** C24: the CH-KEM secret binds the exchange.  If a recipient decapsulates to the secret an
    encapsulation produced, then the key, the ciphertext and the roles are those of the
    encapsulation, or what these two runs hash is different and collides under SHA3-256 or
    SHAKE-256.  In particular
    a ciphertext reflected to its sender (same role) does not yield the sender's secret. *)
Theorem chkem_secret_binds (P : Primitives) (K : KEMPrimitives) (KL : KEMLaws K)
    rnd pk role ct ss ct' kp' role' :
  (exists data, ParsePublicKey data = Ok pk) -> key_of chkemV1 kp' ->
  Encapsulate rnd pk role = Ok (ct, ss) -> Decapsulate ct' kp' role' = Ok ss ->
  (KeyPair_PublicKey kp' = pk /\ role' = Role_peer role /\
   ct_x25519Ephemeral ct' = ct_x25519Ephemeral ct /\
   ct_mlkemCiphertext ct' = ct_mlkemCiphertext ct) \/ chkem_collision rnd pk role ct' kp' role'.
Proof. by apply chkem_binds. Qed.

Definition example_encaps : Ciphertext * list Z :=
  match @Encapsulate toy toyKEM (example_draws [32; 32]%nat) (KeyPair_PublicKey example_v1_key)
          RoleInitiator with
  | Ok r => r
  | _ => (mkCiphertext [] [] 0 [], [])
  end.

Lemma chkem_secret_binds_witness :
  @Decapsulate toy toyKEM example_encaps.1 example_v1_key RoleResponder = Ok example_encaps.2 /\
  ((KeyPair_PublicKey example_v1_key = KeyPair_PublicKey example_v1_key /\
    RoleResponder = Role_peer RoleInitiator /\
    ct_x25519Ephemeral example_encaps.1 = ct_x25519Ephemeral example_encaps.1 /\
    ct_mlkemCiphertext example_encaps.1 = ct_mlkemCiphertext example_encaps.1) \/
   @chkem_collision toy toyKEM (example_draws [32; 32]%nat) (KeyPair_PublicKey example_v1_key) RoleInitiator
     example_encaps.1 example_v1_key RoleResponder).
Proof.
  split; [vm_compute; reflexivity|].
  apply (chkem_secret_binds toy toyKEM toyKEM_laws (example_draws [32; 32]%nat)
    (KeyPair_PublicKey example_v1_key) RoleInitiator example_encaps.1 example_encaps.2
    example_encaps.1 example_v1_key RoleResponder).
  - exists (replicate 32 1 ++ pad 1568 (replicate 64 2)). vm_compute. reflexivity.
  - left. exists (example_draws [32; 64]%nat). vm_compute. reflexivity.
  - vm_compute. reflexivity.
  - vm_compute. reflexivity.
Defined.

(** Identity files.  A key pair or public key tagged with a registered suite is parsed by
    that suite; an unregistered tag is refused, and so is a file shorter than the tag. *)
Theorem tagged_identities (P : Primitives) (K : KEMPrimitives) id body :
  is_u16 id ->
  exists data, TagSuite id body = Ok data /\ len data = suiteTagSize + len body /\
    ParseTaggedKeyPair data
      = match GetSuite id with
        | Some s => s_ParseKeyPair s body
        | None => Err ErrUnsupportedKEMSuite
        end /\
    ParseTaggedPublicKey data
      = match GetSuite id with
        | Some s => s_ParsePublicKey s body
        | None => Err ErrUnsupportedKEMSuite
        end.
Proof.
  intros Hid. exists (be_put 2 id ++ body). split.
  { unfold TagSuite. rw c_make_filled. do 2 cursor_step. rw filled_done; [golia|]. done. }
  split; [golia|]. unfold ParseTaggedKeyPair, ParseTaggedPublicKey.
  assert (splitSuiteTag (be_put 2 id ++ body)
    = match GetSuite id with
      | Some s => Ok (s, body) | None => Err ErrUnsupportedKEMSuite end) as ->.
  { unfold splitSuiteTag. unfold is_u16 in Hid. decode_at (be_put 2 id ++ body) H Hl. gd. rd H.
    destruct (GetSuite id); [|done]. apply at_off_app in H. by rw (slice_from_at_eq _ _ _ _ H); [golia|]. }
  by destruct (GetSuite id).
Qed.

Lemma tagged_identities_witness :
  exists data, @TagSuite SuiteXWing (replicate 32 7) = Ok data /\
    @ParseTaggedKeyPair toy toyKEM data = s_ParseKeyPair (@xwingSuite toyKEM) (replicate 32 7).
Proof.
  destruct (tagged_identities toy toyKEM SuiteXWing (replicate 32 7)) as (d & H & _ & Hk & _).
  - by vm_compute.
  - exists d. split; [exact H|exact Hk].
Defined.
