(* ===== verification/Ticket.v ===== *)
(** Session resumption tickets: [pkg/tunnel/ticket.go].

    A [time.Time] is its number of nanoseconds since the Unix epoch and a [time.Duration] its
    number of nanoseconds; the clock is an argument.  [fips] is the build mode [FIPSMode()]. *)

From Corelib Require Import ssreflect.
From stdpp Require Import base tactics list numbers strings.
From Stdlib Require Import ZArith Lia.
From S2P Require Import Prelude Base Crypto.

Local Open Scope Z_scope.
Local Open Scope go_scope.

(** * Time *)

Definition Second : Z := 1000000000.
Definition Hour : Z := 3600 * Second.
Definition maxDuration : Z := 2 ^ 63 - 1.
Definition minDuration : Z := - 2 ^ 63.

(** [t.Unix()] and [time.Unix(sec, 0)]. *)
Definition Unix (t : Z) : Z := t / Second.
Definition time_Unix (sec : Z) : Z := sec * Second.

(** [time.Since]: the difference, saturated at the range of a duration. *)
Definition time_Since (now t : Z) : Z := Z.max minDuration (Z.min maxDuration (now - t)).

(** * Tickets *)

Record SessionTicket := mkSessionTicket {
  st_Version : Z;
  st_CipherSuite : CipherSuite;
  st_MasterSecret : list Z;
  st_CreatedAt : Z }.

Record TicketManager := mkTicketManager {
  tm_currentKey : list Z;
  tm_previousKey : option (list Z);
  tm_lifetime : Z }.

#[export] Instance TicketManager_eta : Eta TicketManager := {| eta := fun t =>
  mkTicketManager (tm_currentKey t) (tm_previousKey t) (tm_lifetime t) |}.

Definition NewTicketManager (key : list Z) (lifetime : Z) : outcome error TicketManager :=
  guard! len key =? 32 else ErrInvalidKeySize in
  let lifetime := if lifetime =? 0 then 24 * Hour else lifetime in
  Ok (mkTicketManager key None lifetime).

Definition RotateKey (newKey : list Z) : ST TicketManager error unit :=
  check! len newKey =? 32 else ErrInvalidKeySize in
  do! tm := st_get in
  do! _ := st_mod (fun tm' => tm' <| tm_previousKey := Some (tm_currentKey tm) |>) in
  st_mod (fun tm => tm <| tm_currentKey := newKey |>).

Section Tickets.
Context {P : Primitives} (fips : bool).

(** The secret is copied into its 32 bytes of the plaintext: a longer one is cut, a shorter one
    leaves zeros. *)
Definition EncryptTicket (tm : TicketManager) (ticket : SessionTicket)
    : outcome error (list Z) :=
  let key := tm_currentKey tm in
  let c := c_make 43 in
  let! c := c_put [st_Version ticket] c in
  let! c := c_put (be_put 2 (st_CipherSuite ticket)) c in
  let! c := c_copy (take 32 (st_MasterSecret ticket)) 32 c in
  let unixTime := Unix (st_CreatedAt ticket) in
  guard! negb (unixTime <? 0) else ErrInvalidMessage in
  let! c := c_put (be_put 8 (u64 unixTime)) c in
  let! aead := NewAEAD fips CipherSuiteAES256GCM key in
  (Seal (c_buf c) [] aead).2.

Definition decryptWithKey (data key : list Z) : outcome error (list Z) :=
  let! aead := NewAEAD fips CipherSuiteAES256GCM key in
  Open aead data [].

(** The current key, and when that fails the previous one. *)
Definition decryptWithEither (tm : TicketManager) (data : list Z) : outcome error (list Z) :=
  match decryptWithKey data (tm_currentKey tm), tm_previousKey tm with
  | Err _, Some previousKey => decryptWithKey data previousKey
  | o, _ => o
  end.

Definition DecryptTicket (now : Z) (tm : TicketManager) (data : list Z)
    : outcome error SessionTicket :=
  match decryptWithEither tm data with
  | Err _ => Err ErrInvalidTicket
  | Panic => Panic
  | Ok plaintext =>
      guard! len plaintext =? 43 else ErrInvalidTicket in
      let! tb := slice plaintext 35 43 in
      let! unixTime := get_be 8 tb 0 in
      guard! negb (0x7FFFFFFFFFFFFFFF <? unixTime) else ErrInvalidTicket in
      let! version := idx plaintext 0 in
      let! csb := slice plaintext 1 3 in
      let! cs := get_be 2 csb 0 in
      let! ms := slice plaintext 3 35 in
      let ticket := mkSessionTicket version cs ms (time_Unix unixTime) in
      guard! negb (tm_lifetime tm <? time_Since now (st_CreatedAt ticket)) else ErrExpiredTicket in
      guard! negb (fips && negb (CipherSuite_IsFIPSApproved (st_CipherSuite ticket)))
        else ErrCipherSuiteNotFIPSApproved in
      Ok ticket
  end.

(** * Proofs *)

Definition ticket_ok (t : SessionTicket) : Prop :=
  is_u8 (st_Version t) /\ is_u16 (st_CipherSuite t) /\ len (st_MasterSecret t) = 32 /\
  0 <= Unix (st_CreatedAt t) < 2 ^ 63.

(** The 43 bytes of a ticket. *)
Definition ticket_bytes (t : SessionTicket) : list Z :=
  [st_Version t] ++ be_put 2 (st_CipherSuite t) ++ st_MasterSecret t
    ++ be_put 8 (Unix (st_CreatedAt t)).

(** The ticket a manager reads back: its time in whole seconds, unless it expired or names a
    cipher the FIPS build refuses. *)
Definition ticket_admitted (now lifetime : Z) (t : SessionTicket) : outcome error SessionTicket :=
  let created := time_Unix (Unix (st_CreatedAt t)) in
  if lifetime <? time_Since now created then Err ErrExpiredTicket
  else if fips && negb (CipherSuite_IsFIPSApproved (st_CipherSuite t))
       then Err ErrCipherSuiteNotFIPSApproved
       else Ok (mkSessionTicket (st_Version t) (st_CipherSuite t) (st_MasterSecret t) created).

Definition ticket_seal (key p : list Z) : list Z :=
  counter_nonce 0 ++ aead_seal CipherSuiteAES256GCM key (counter_nonce 0) p [].

Lemma len_ticket_bytes t : ticket_ok t -> len (ticket_bytes t) = 43.
Proof. intros (_ & _ & Hm & _). unfold ticket_bytes. golia. Qed.

Lemma NewAEAD_AES key : len key = 32 ->
  NewAEAD fips CipherSuiteAES256GCM key = Ok (mkAEAD CipherSuiteAES256GCM key 0 MaxPacketsBeforeRekey).
Proof. intros Hk. unfold NewAEAD. destruct fips; cbn; gd; done. Qed.

Lemma EncryptTicket_eq tm t : ticket_ok t -> len (tm_currentKey tm) = 32 ->
  EncryptTicket tm t = Ok (ticket_seal (tm_currentKey tm) (ticket_bytes t)).
Proof.
  intros (Hv & Hc & Hm & Hu) Hk. unfold EncryptTicket. rw c_make_filled.
  rw (take_ge (st_MasterSecret t)); [unfold len in Hm; lia|].
  do 3 cursor_step. gd. rw u64_small; [lia|]. cursor_step.
  rw NewAEAD_AES // obind_Ok_l Seal_eq. rw filled_done; [golia|].
  unfold ticket_seal, ticket_bytes. cbn. by rw -!app_assoc.
Qed.

Context {L : PrimitivesLaws P}.

Lemma decryptWithKey_seal key p : len key = 32 -> 0 < len p ->
  decryptWithKey (ticket_seal key p) key = Ok p.
Proof.
  intros Hk Hp. unfold decryptWithKey, ticket_seal. rw NewAEAD_AES // obind_Ok_l.
  pose proof (Open_Seal (mkAEAD CipherSuiteAES256GCM key 0 MaxPacketsBeforeRekey)
    (counter_nonce 0) p [] (len_counter_nonce 0)) as H.
  cbn [ae_suite ae_key] in H. rw H. by replace (len p =? 0) with false by blia.
Qed.

(** A ticket another key does not open. *)
Lemma decryptWithKey_other key key' p : len key' = 32 -> 0 < len p ->
  aead_open CipherSuiteAES256GCM key' (counter_nonce 0)
    (aead_seal CipherSuiteAES256GCM key (counter_nonce 0) p []) [] = None ->
  decryptWithKey (ticket_seal key p) key' = Err ErrAuthenticationFailed.
Proof.
  intros Hk Hp Ho. unfold decryptWithKey, ticket_seal. rw NewAEAD_AES // obind_Ok_l.
  pose proof (aead_seal_len CipherSuiteAES256GCM key (counter_nonce 0) p []) as Hl.
  pose proof (len_counter_nonce 0). unfold Open.
  set (ct := aead_seal _ _ _ _ _) in *. gd.
  pose proof (at_off_0 (counter_nonce 0 ++ ct)) as H0.
  rw (slice_at_eq _ _ _ _ _ _ H0) ?obind_Ok_l; [golia|golia|].
  eapply at_off_app in H0. rw (slice_from_at_eq _ _ _ _ H0) ?obind_Ok_l; [golia|].
  by rw Ho.
Qed.

Lemma DecryptTicket_bytes now tm data t : ticket_ok t ->
  decryptWithEither tm data = Ok (ticket_bytes t) ->
  DecryptTicket now tm data = ticket_admitted now (tm_lifetime tm) t.
Proof.
  intros Hok Hd. unfold DecryptTicket, ticket_admitted. rw Hd.
  pose proof (len_ticket_bytes t Hok) as Hlen. destruct Hok as (Hv & Hc & Hm & Hu).
  unfold ticket_bytes in *. decode_at ([st_Version t] ++ be_put 2 (st_CipherSuite t)
    ++ st_MasterSecret t ++ be_put 8 (Unix (st_CreatedAt t))) H Hl.
  pose proof (at_off_app _ _ _ _ H) as H1. pose proof (at_off_app _ _ _ _ H1) as H3.
  pose proof (at_off_app _ _ _ _ H3) as H35. unfold is_u8, is_u16 in *. gd.
  rw -(app_nil_r (be_put 8 _)) in H35.
  rw (slice_at_eq _ _ _ _ _ _ H35); [golia|golia|]. cbn [obind].
  rw get_be_self; [lia|]. cbn [obind]. gd.
  rd H. rw (slice_at_eq _ _ _ _ _ _ H1); [golia|golia|]. cbn [obind].
  rw get_be_self; [lia|]. cbn [obind]. rw (slice_at_eq _ _ _ _ _ _ H3); [golia|golia|].
  cbn [obind st_CreatedAt st_CipherSuite].
  destruct (tm_lifetime tm <? _); [done|]. by destruct (fips && _).
Qed.
End Tickets.

(** * Properties *)

(** A ticket a manager encrypted decrypts under the same key to the same version, cipher
    suite and secret with its time in whole seconds, is refused after its lifetime, and
    survives one key rotation (provided the new key does not happen to open it itself). *)
Theorem ticket_roundtrip (P : Primitives) (L : PrimitivesLaws P) fips tm t now newKey :
  ticket_ok t -> len (tm_currentKey tm) = 32 -> len newKey = 32 ->
  exists data, EncryptTicket fips tm t = Ok data /\
    DecryptTicket fips now tm data = ticket_admitted fips now (tm_lifetime tm) t /\
    (decryptWithKey fips data newKey = Err ErrAuthenticationFailed ->
     exists tm', RotateKey newKey tm = (tm', Ok tt) /\
       DecryptTicket fips now tm' data = ticket_admitted fips now (tm_lifetime tm) t).
Proof.
  intros Hok Hk Hn. pose proof (len_ticket_bytes t Hok) as Hl.
  assert (decryptWithKey fips (ticket_seal (tm_currentKey tm) (ticket_bytes t)) (tm_currentKey tm)
    = Ok (ticket_bytes t)) as Hd by (apply decryptWithKey_seal; [done..|by rw Hl]).
  exists (ticket_seal (tm_currentKey tm) (ticket_bytes t)). split; [by apply EncryptTicket_eq|].
  split.
  - apply DecryptTicket_bytes; [done|]. unfold decryptWithEither. by rw Hd.
  - intros Hnew. exists (mkTicketManager newKey (Some (tm_currentKey tm)) (tm_lifetime tm)).
    split; [unfold RotateKey; by rw Hn|].
    apply (DecryptTicket_bytes fips now (mkTicketManager _ _ _)); [done|].
    unfold decryptWithEither. cbn [tm_currentKey tm_previousKey]. by rw Hnew.
Qed.

Definition example_ticket : SessionTicket :=
  mkSessionTicket 1 CipherSuiteAES256GCM (replicate 32 7) (1000 * Second + 5).

Definition example_manager : TicketManager := mkTicketManager (replicate 32 1) None (24 * Hour).

Lemma ticket_roundtrip_witness :
  exists data, @EncryptTicket toy false example_manager example_ticket = Ok data /\
    @DecryptTicket toy false (2000 * Second) example_manager data
    = Ok (mkSessionTicket 1 CipherSuiteAES256GCM (replicate 32 7) (1000 * Second)) /\
    exists tm', RotateKey (replicate 32 2) example_manager = (tm', Ok tt) /\
      @DecryptTicket toy false (2000 * Second) tm' data
      = Ok (mkSessionTicket 1 CipherSuiteAES256GCM (replicate 32 7) (1000 * Second)).
Proof.
  destruct (ticket_roundtrip toy toy_laws false example_manager example_ticket (2000 * Second)
    (replicate 32 2)) as (data & He & Hd & Hr).
  - repeat split; by vm_compute.
  - reflexivity.
  - reflexivity.
  - exists data. split; [exact He|]. split; [exact Hd|]. apply Hr.
    vm_compute in He. injection He as <-. vm_compute. reflexivity.
Defined.

(** Every ticket a manager encrypts under one key is sealed under the same nonce: the
    cipher is built anew for each ticket, so its nonce counter always starts at zero. *)
Theorem EncryptTicket_reuses_nonce (P : Primitives) fips tm t1 t2 :
  ticket_ok t1 -> ticket_ok t2 -> len (tm_currentKey tm) = 32 ->
  exists nonce, len nonce = 12 /\
    forall t, t = t1 \/ t = t2 -> exists pt, len pt = 43 /\
      EncryptTicket fips tm t
      = Ok (nonce ++ aead_seal CipherSuiteAES256GCM (tm_currentKey tm) nonce pt []).
Proof.
  intros H1 H2 Hk. exists (counter_nonce 0). split; [apply len_counter_nonce|].
  intros t Ht. exists (ticket_bytes t). assert (ticket_ok t) as H by (by destruct Ht as [-> | ->]).
  split; [by apply len_ticket_bytes|by apply EncryptTicket_eq].
Qed.

Lemma EncryptTicket_reuses_nonce_witness :
  exists nonce, len nonce = 12 /\
    forall t, t = example_ticket \/ t = mkSessionTicket 1 CipherSuiteAES256GCM (replicate 32 8) 0 ->
      exists pt, len pt = 43 /\ @EncryptTicket toy true example_manager t
        = Ok (nonce ++ @aead_seal toy CipherSuiteAES256GCM (replicate 32 1) nonce pt []).
Proof.
  apply (EncryptTicket_reuses_nonce toy true example_manager example_ticket
    (mkSessionTicket 1 CipherSuiteAES256GCM (replicate 32 8) 0)).
  - repeat split; by vm_compute.
  - repeat split; by vm_compute.
  - reflexivity.
Defined.
