(* ===== verification/Session.v ===== *)
(** Tunnel sessions, the stream side: [pkg/tunnel/session.go].

    A [Session] is one record with the fields of the Go struct; a method is a function of [ST]
    on it.  The methods hold [s.mu] for their whole body and are atomic, except [Encrypt],
    whose sequence number, cipher snapshot and seal are separate atomic steps: it is given both
    as their sequence and, for the theorem on nonces, as an interleaving of threads.  The clock
    is an argument.  Observer callbacks do not change the session and are left out, and so is
    the zeroization of buffers nobody reads any more. *)

From Corelib Require Import ssreflect.
From stdpp Require Import base tactics list numbers strings relations.
From Stdlib Require Import ZArith Lia.
From S2P Require Import Prelude Base Messages Replay Crypto Chkem Ticket.

Local Open Scope Z_scope.
Local Open Scope go_scope.

(** * State *)

Inductive SessionState :=
  | SessionStateNew | SessionStateHandshaking | SessionStateEstablished
  | SessionStateRekeying | SessionStateClosed.

#[export] Instance SessionState_eq_dec : EqDecision SessionState.
Proof. solve_decision. Defined.

Definition SessionState_String (s : SessionState) : string :=
  match s with
  | SessionStateNew => "New"
  | SessionStateHandshaking => "Handshaking"
  | SessionStateEstablished => "Established"
  | SessionStateRekeying => "Rekeying"
  | SessionStateClosed => "Closed"
  end.

(** The cipher pair of a datagram epoch ([dgram_session.go]); [de_retireAfter] is [None] for the
    zero time of the current epoch. *)
Record datagramEpoch := mkEpoch {
  de_epoch : Z;
  de_sendCipher : option AEAD;
  de_recvCipher : option AEAD;
  de_startSeq : Z;
  de_startedAt : Z;
  de_retireAfter : option Z }.

#[export] Instance datagramEpoch_eta : Eta datagramEpoch := {| eta := fun e =>
  mkEpoch (de_epoch e) (de_sendCipher e) (de_recvCipher e) (de_startSeq e) (de_startedAt e)
    (de_retireAfter e) |}.

Record datagramEpochState := mkEpochState {
  es_cur : option datagramEpoch;
  es_prev : option datagramEpoch }.

Record Session := mkSession {
  s_SessionID : list Z;
  s_Role : Role;
  s_state : SessionState;
  s_Version : Version;
  s_CipherSuite : CipherSuite;
  s_kemSuite : Suite;
  s_LocalKeyPair : option KeyPair;
  s_RemotePublicKey : option PublicKey;
  s_StaticKeyPair : option KeyPair;
  s_PinnedServerKey : option PublicKey;
  s_RequireStaticAuth : bool;
  s_PSK : option (list Z);
  s_PSKIdentity : list Z;
  s_PSKLookup : option (list Z -> option (list Z));
  s_RequirePSK : bool;
  s_masterSecret : option (list Z);
  s_sendCipher : option AEAD;
  s_recvCipher : option AEAD;
  s_sendSeq : Z;
  s_sendEpochStartSeq : Z;
  s_replayWindow : ReplayWindow;
  s_CreatedAt : Z;
  s_EstablishedAt : Z;
  s_LastActivity : Z;
  s_BytesSent : Z;
  s_BytesReceived : Z;
  s_PacketsSent : Z;
  s_PacketsRecv : Z;
  s_rekeyInProgress : bool;
  s_pendingRekeyKeyPair : option KeyPair;
  s_pendingRekeySecret : option (list Z);
  s_rekeyActivationSeq : Z;
  s_pendingRecvCipher : option AEAD;
  s_pendingSendCipher : option AEAD;
  s_sendNoncePrefix : list Z;
  s_recvNoncePrefix : list Z;
  s_dgramEpochs : option datagramEpochState;
  s_dgramReplay : option DatagramReplayWindow;
  s_lastActivityNanos : Z }.

#[export] Instance Session_eta : Eta Session := {| eta := fun s =>
  mkSession (s_SessionID s) (s_Role s) (s_state s) (s_Version s) (s_CipherSuite s) (s_kemSuite s)
    (s_LocalKeyPair s) (s_RemotePublicKey s) (s_StaticKeyPair s) (s_PinnedServerKey s)
    (s_RequireStaticAuth s) (s_PSK s) (s_PSKIdentity s) (s_PSKLookup s) (s_RequirePSK s)
    (s_masterSecret s) (s_sendCipher s) (s_recvCipher s) (s_sendSeq s) (s_sendEpochStartSeq s)
    (s_replayWindow s) (s_CreatedAt s) (s_EstablishedAt s) (s_LastActivity s) (s_BytesSent s)
    (s_BytesReceived s) (s_PacketsSent s) (s_PacketsRecv s) (s_rekeyInProgress s)
    (s_pendingRekeyKeyPair s) (s_pendingRekeySecret s) (s_rekeyActivationSeq s)
    (s_pendingRecvCipher s) (s_pendingSendCipher s) (s_sendNoncePrefix s) (s_recvNoncePrefix
    s) (s_dgramEpochs s) (s_dgramReplay s) (s_lastActivityNanos s) |}.

(** The zero [time.Time], January 1 of the year 1. *)
Definition time_zero : Z := -62135596800 * Second.

Definition is_state (s : Session) (st : SessionState) : bool := bool_decide (s_state s = st).

(** * Operations *)

Section Session.
Context {P : Primitives} {K : KEMPrimitives} (fips : bool).

(** A session that has just been created. *)
Definition fresh_session (now : Z) (role : Role) (id : list Z) (suite : Suite)
    (keyPair : option KeyPair) : Session :=
  mkSession id role SessionStateNew (mkVersion 0 0) 0 suite keyPair None None None
    false None [] None false None None None 0 0 NewReplayWindow now time_zero time_zero
    0 0 0 0 false None None 0 None None [] [] None None 0.

(** The draws are the session id and, for an initiator, those of the key generation. *)
Definition NewSession (rnd keyrnd : Draws) (now : Z) (role : Role) : outcome error Session :=
  let! sessionID := SecureRandomBytes rnd 0 SessionIDSize in
  let suite := DefaultSuite in
  let! keyPair := match role with
                  | RoleInitiator => let! kp := s_GenerateKeyPair suite keyrnd in Ok (Some kp)
                  | RoleResponder => Ok None
                  end in
  Ok (fresh_session now role sessionID suite keyPair).

(** The send and receive half of a pair derived for (initiator, responder). *)
Definition by_role {A} (role : Role) (p : A * A) : A * A :=
  match role with
  | RoleInitiator => (p.1, p.2)
  | RoleResponder => (p.2, p.1)
  end.

Definition InitializeKeys (now : Z) (masterSecret : list Z) (cipherSuite : CipherSuite)
    : ST Session error unit :=
  do! s := st_get in
  check! negb (is_state s SessionStateClosed) else ErrTunnelClosed in
  check! len masterSecret =? CHKEMSharedSecretSize else ErrInvalidKeySize in
  do! _ := st_mod (fun s => s <| s_masterSecret := Some masterSecret |>
                              <| s_CipherSuite := cipherSuite |>) in
  do! keys := st_lift (DeriveTrafficKeys masterSecret) in
  let '(sendKey, recvKey) := by_role (s_Role s) keys in
  do! _ := st_mod (fun s => s <| s_sendCipher := None |>) in
  do! send := st_lift (NewAEAD fips cipherSuite sendKey) in
  do! _ := st_mod (fun s => s <| s_sendCipher := Some send |> <| s_recvCipher := None |>) in
  do! recv := st_lift (NewAEAD fips cipherSuite recvKey) in
  do! _ := st_mod (fun s => s <| s_recvCipher := Some recv |>) in
  do! prefixes := st_lift (DeriveStreamNoncePrefixes masterSecret) in
  let '(sendPrefix, recvPrefix) := by_role (s_Role s) prefixes in
  st_mod (fun s => s <| s_sendNoncePrefix := sendPrefix |> <| s_recvNoncePrefix := recvPrefix |>
                     <| s_sendEpochStartSeq := s_sendSeq s |> <| s_EstablishedAt := now |>
                     <| s_state := SessionStateEstablished |>).

(** [buildAEADNonce]: the four bytes of the prefix, then the sequence number. *)
Definition buildAEADNonce (prefix : list Z) (seq : Z) : outcome error (list Z) :=
  let c := c_make AESNonceSize in
  let! c := c_copy (take (Z.to_nat DatagramNoncePrefixSize) prefix) DatagramNoncePrefixSize c in
  let! c := c_put (be_put 8 seq) c in
  Ok (c_buf c).

(** ** Encrypt, in its atomic steps *)

(** [s.sendSeq.Add(1) - 1] *)
Definition nextSendSeq : ST Session error Z :=
  do! s := st_get in
  do! _ := st_mod (fun s => s <| s_sendSeq := u64_add (s_sendSeq s) 1 |>) in
  st_ret (s_sendSeq s).

(** What [Encrypt] reads under the read lock. *)
Record SendView := mkView {
  v_cipher : option AEAD;
  v_prefix : list Z;
  v_startSeq : Z }.

Definition send_view (s : Session) : SendView :=
  mkView (s_sendCipher s) (s_sendNoncePrefix s) (s_sendEpochStartSeq s).

(** The guards and the seal, on the snapshot only. *)
Definition seal_view (v : SendView) (seq : Z) (plaintext : list Z) : outcome error (list Z) :=
  match v_cipher v with
  | None => Err ErrInvalidState
  | Some cipher =>
      guard! negb ((v_startSeq v <=? seq)
                   && (MaxPacketsBeforeRekey <=? u64_sub seq (v_startSeq v)))
        else ErrNonceExhausted in
      let aad := be_put 8 seq in
      let! nonce := buildAEADNonce (v_prefix v) seq in
      SealWithNonce cipher nonce plaintext aad
  end.

Definition account_sent (now : Z) (plaintext : list Z) : ST Session error unit :=
  st_mod (fun s => s <| s_BytesSent := i64 (s_BytesSent s + len plaintext) |>
                     <| s_PacketsSent := i64 (s_PacketsSent s + 1) |>
                     <| s_LastActivity := now |>).

Definition Encrypt (now : Z) (plaintext : list Z) : ST Session error (list Z * Z) :=
  do! seq := nextSendSeq in
  do! s := st_get in
  do! ciphertext := st_lift (seal_view (send_view s) seq plaintext) in
  do! _ := account_sent now plaintext in
  st_ret (ciphertext, seq).

(** ** Decrypt *)

Definition promotePendingRecvCipher : ST Session error unit :=
  do! s := st_get in
  match s_pendingRecvCipher s with
  | None => st_ret tt
  | Some c => st_mod (fun s => s <| s_recvCipher := Some c |> <| s_pendingRecvCipher := None |>)
  end.

(** Trial decryption: the current cipher, then the pending one, which a success promotes. *)
Definition open_trial (cipher : AEAD) (pendingCipher : option AEAD)
    (nonce ciphertext aad : list Z) : ST Session error (list Z) :=
  match OpenWithNonce cipher nonce ciphertext aad, pendingCipher with
  | Err e, Some pending =>
      match OpenWithNonce pending nonce ciphertext aad with
      | Ok pt => do! _ := promotePendingRecvCipher in st_ret pt
      | Err _ => st_err e
      | Panic => st_lift Panic
      end
  | o, _ => st_lift o
  end.

Definition Decrypt (now : Z) (ciphertext : list Z) (seq : Z) : ST Session error (list Z) :=
  do! s := st_get in
  match s_recvCipher s with
  | None => st_err ErrInvalidState
  | Some cipher =>
      let '(rw, fresh) := ReplayWindow_Check (s_replayWindow s) seq in
      do! _ := st_mod (fun s => s <| s_replayWindow := rw |>) in
      do! fresh := st_lift fresh in
      check! fresh else ErrReplayDetected in
      let aad := be_put 8 seq in
      do! nonce := st_lift (buildAEADNonce (s_recvNoncePrefix s) seq) in
      do! plaintext := open_trial cipher (s_pendingRecvCipher s) nonce ciphertext aad in
      do! _ := st_mod (fun s => s <| s_BytesReceived := i64 (s_BytesReceived s + len plaintext) |>
                                  <| s_PacketsRecv := i64 (s_PacketsRecv s + 1) |>
                                  <| s_LastActivity := now |>) in
      st_ret plaintext
  end.

(** ** Key wear *)

Definition datagramRekeyHighWater : Z := MaxPacketsBeforeRekey * 9 / 10.

Definition NeedsRekey (now : Z) (s : Session) : bool :=
  match s_sendCipher s with
  | None => false
  | Some _ =>
      (datagramRekeyHighWater <=? u64_sub (s_sendSeq s) (s_sendEpochStartSeq s))
      || (MaxBytesBeforeRekey <=? s_BytesSent s)
      || (MaxPacketsBeforeRekey <=? s_PacketsSent s)
      || (MaxSessionDurationSeconds * Second <=? time_Since now (s_EstablishedAt s))
  end.

(** ** Rekey *)

Definition Rekey (now : Z) (newMasterSecret : list Z) : ST Session error unit :=
  check! len newMasterSecret =? CHKEMSharedSecretSize else ErrInvalidKeySize in
  do! s := st_get in
  do! keys := st_lift (DeriveTrafficKeys newMasterSecret) in
  let '(sendKey, recvKey) := by_role (s_Role s) keys in
  do! newSendCipher := st_lift (NewAEAD fips (s_CipherSuite s) sendKey) in
  do! newRecvCipher := st_lift (NewAEAD fips (s_CipherSuite s) recvKey) in
  st_mod (fun s => s <| s_sendCipher := Some newSendCipher |>
                     <| s_recvCipher := Some newRecvCipher |>
                     <| s_sendEpochStartSeq := s_sendSeq s |>
                     <| s_masterSecret := Some newMasterSecret |>
                     <| s_replayWindow := NewReplayWindow |>
                     <| s_EstablishedAt := now |>).

Definition ExportTicket (tm : TicketManager) (s : Session) : outcome error (list Z) :=
  guard! is_state s SessionStateEstablished else ErrInvalidState in
  match s_masterSecret s with
  | None => Err ErrInvalidState
  | Some ms =>
      EncryptTicket fips tm (mkSessionTicket 1 (s_CipherSuite s) ms (s_EstablishedAt s))
  end.

Definition Resume (now : Z) (ticketBytes : list Z) (tm : TicketManager)
    : ST Session error (list Z) :=
  do! ticket := st_lift (DecryptTicket fips now tm ticketBytes) in
  do! _ := st_mod (fun s => s <| s_CipherSuite := st_CipherSuite ticket |>) in
  st_ret (st_MasterSecret ticket).

Definition Close : ST Session error unit :=
  st_mod (fun s => s <| s_state := SessionStateClosed |> <| s_masterSecret := None |>
                     <| s_LocalKeyPair := None |> <| s_sendCipher := None |>
                     <| s_recvCipher := None |>).

Definition InitiateRekey (rnd : Draws) : ST Session error (list Z * Z) :=
  do! s := st_get in
  check! negb (s_rekeyInProgress s) else ErrRekeyInProgress in
  check! is_state s SessionStateEstablished else ErrInvalidState in
  do! newKeyPair := st_lift (s_GenerateKeyPair (s_kemSuite s) rnd) in
  let activationSeq := u64_add (s_sendSeq s) 16 in
  do! _ := st_mod (fun s => s <| s_rekeyInProgress := true |>
                              <| s_pendingRekeyKeyPair := Some newKeyPair |>
                              <| s_rekeyActivationSeq := activationSeq |>
                              <| s_state := SessionStateRekeying |>) in
  do! pk := st_lift (PublicKey_Bytes (KeyPair_PublicKey newKeyPair)) in
  st_ret (pk, activationSeq).

(** [DeriveRekeySecret] on a nil master secret sees its length, zero. *)
Definition ms_bytes (s : Session) : list Z := default [] (s_masterSecret s).

Definition PrepareRekeyResponse (rnd : Draws) (newPublicKeyBytes : list Z) (activationSeq : Z)
    : ST Session error (list Z) :=
  do! s := st_get in
  check! is_state s SessionStateEstablished || is_state s SessionStateRekeying
    else ErrInvalidState in
  do! newPublicKey := st_lift (s_ParsePublicKey (s_kemSuite s) newPublicKeyBytes) in
  do! '(ciphertext, freshSecret) :=
    st_lift (s_Encapsulate (s_kemSuite s) rnd newPublicKey RoleResponder) in
  do! newSecret := st_lift (DeriveRekeySecret (ms_bytes s) freshSecret) in
  do! '(initiatorKey, responderKey) := st_lift (DeriveTrafficKeys newSecret) in
  do! newRecvCipher := st_lift (NewAEAD fips (s_CipherSuite s) initiatorKey) in
  do! newSendCipher := st_lift (NewAEAD fips (s_CipherSuite s) responderKey) in
  do! _ := st_mod (fun s => s <| s_rekeyInProgress := true |>
                              <| s_rekeyActivationSeq := activationSeq |>
                              <| s_pendingRecvCipher := Some newRecvCipher |>
                              <| s_pendingSendCipher := Some newSendCipher |>
                              <| s_pendingRekeySecret := Some newSecret |>
                              <| s_state := SessionStateRekeying |>) in
  st_lift (Ciphertext_Bytes ciphertext).

Definition finalizeRekeyStateLocked (now : Z) : ST Session error unit :=
  do! s := st_get in
  do! _ := match s_pendingRekeySecret s with
           | Some secret => st_mod (fun s => s <| s_masterSecret := Some secret |>
                                               <| s_pendingRekeySecret := None |>)
           | None => st_ret tt
           end in
  st_mod (fun s => s <| s_rekeyInProgress := false |> <| s_rekeyActivationSeq := 0 |>
                     <| s_EstablishedAt := now |> <| s_state := SessionStateEstablished |>).

Definition ProcessRekeyResponse (now : Z) (ciphertextBytes : list Z) : ST Session error unit :=
  do! s := st_get in
  match s_rekeyInProgress s, s_pendingRekeyKeyPair s with
  | true, Some kp =>
      do! ciphertext := st_lift (s_ParseCiphertext (s_kemSuite s) ciphertextBytes) in
      do! freshSecret := st_lift (s_Decapsulate (s_kemSuite s) ciphertext kp RoleInitiator) in
      do! newSecret := st_lift (DeriveRekeySecret (ms_bytes s) freshSecret) in
      do! '(initiatorKey, responderKey) := st_lift (DeriveTrafficKeys newSecret) in
      do! newSendCipher := st_lift (NewAEAD fips (s_CipherSuite s) initiatorKey) in
      do! newRecvCipher := st_lift (NewAEAD fips (s_CipherSuite s) responderKey) in
      do! _ := st_mod (fun s => s <| s_sendCipher := Some newSendCipher |>
                                  <| s_sendEpochStartSeq := s_sendSeq s |>
                                  <| s_pendingRecvCipher := Some newRecvCipher |>
                                  <| s_pendingRekeySecret := Some newSecret |>
                                  <| s_pendingRekeyKeyPair := None |>) in
      finalizeRekeyStateLocked now
  | _, _ => st_err ErrInvalidState
  end.

(** [if s.pendingSendCipher != nil { ... }] of both activations. *)
Definition switch_send : ST Session error unit :=
  do! s := st_get in
  match s_pendingSendCipher s with
  | Some c => st_mod (fun s => s <| s_sendCipher := Some c |> <| s_pendingSendCipher := None |>
                                 <| s_sendEpochStartSeq := s_sendSeq s |>)
  | None => st_ret tt
  end.

Definition ActivatePendingKeys (now : Z) : ST Session error unit :=
  do! s := st_get in
  if negb (s_rekeyInProgress s) then st_ret tt
  else
    do! _ := promotePendingRecvCipher in
    do! _ := switch_send in
    do! _ := st_mod (fun s => s <| s_replayWindow := NewReplayWindow |>) in
    finalizeRekeyStateLocked now.

Definition ActivateRekeySend (now : Z) : ST Session error unit :=
  do! _ := switch_send in
  finalizeRekeyStateLocked now.
End Session.

(** * Nonces under concurrent sends *)

Section Nonces.
Context {P : Primitives} (fips : bool).

(** The operations other than [Encrypt] an established session can undergo, with the inputs
    their callers and the environment choose. *)
Inductive SessionOp :=
  | OpDecrypt (now : Z) (ciphertext : list Z) (seq : Z)
  | OpInitiateRekey (rnd : Draws)
  | OpPrepareRekeyResponse (rnd : Draws) (pk : list Z) (activationSeq : Z)
  | OpProcessRekeyResponse (now : Z) (ct : list Z)
  | OpActivateRekeySend (now : Z)
  | OpActivatePendingKeys (now : Z)
  | OpRekey (now : Z) (secret : list Z)
  | OpClose.

Definition run_op (op : SessionOp) (s : Session) : Session :=
  match op with
  | OpDecrypt now ct seq => (Decrypt now ct seq s).1
  | OpInitiateRekey rnd => (InitiateRekey rnd s).1
  | OpPrepareRekeyResponse rnd pk a => (PrepareRekeyResponse fips rnd pk a s).1
  | OpProcessRekeyResponse now ct => (ProcessRekeyResponse fips now ct s).1
  | OpActivateRekeySend now => (ActivateRekeySend now s).1
  | OpActivatePendingKeys now => (ActivatePendingKeys now s).1
  | OpRekey now secret => (Rekey fips now secret s).1
  | OpClose => (Close s).1
  end.

(** A call of [Encrypt] in flight: its text, its sequence number, and what it has read. *)
Record Sending := mkSending {
  sg_plaintext : list Z;
  sg_seq : Z;
  sg_view : option SendView }.

(** The session, the calls in flight, and the (key, nonce) pairs sealed under so far. *)
Record World := mkWorld {
  w_session : Session;
  w_sending : list Sending;
  w_sealed : list (list Z * list Z) }.

Inductive send_step : World -> World -> Prop :=
  | step_take s ts out p s' seq :
      nextSendSeq s = (s', Ok seq) ->
      send_step (mkWorld s ts out) (mkWorld s' (mkSending p seq None :: ts) out)
  | step_load s l1 l2 out p seq :
      send_step (mkWorld s (l1 ++ mkSending p seq None :: l2) out)
                (mkWorld s (l1 ++ mkSending p seq (Some (send_view s)) :: l2) out)
  | step_seal s l1 l2 out p seq v c n ct now :
      v_cipher v = Some c -> buildAEADNonce (v_prefix v) seq = Ok n ->
      seal_view v seq p = Ok ct ->
      send_step (mkWorld s (l1 ++ mkSending p seq (Some v) :: l2) out)
                (mkWorld (account_sent now p s).1 (l1 ++ l2) ((ae_key c, n) :: out))
  | step_refuse s l1 l2 out p seq v e :
      seal_view v seq p = Err e ->
      send_step (mkWorld s (l1 ++ mkSending p seq (Some v) :: l2) out)
                (mkWorld s (l1 ++ l2) out)
  | step_op s ts out op :
      send_step (mkWorld s ts out) (mkWorld (run_op op s) ts out).

(** Operations other than [Encrypt] leave the send counter and the nonce prefix alone. *)
Definition same_send (s s' : Session) : Prop :=
  s_sendSeq s' = s_sendSeq s /\ s_sendNoncePrefix s' = s_sendNoncePrefix s.

#[local] Instance same_send_preorder : PreOrder same_send.
Proof. split; [done|]. intros a b c [H1 H2] [H3 H4]. split; congruence. Qed.

Lemma finalize_same_send now : keeps same_send (finalizeRekeyStateLocked now).
Proof. unfold finalizeRekeyStateLocked. keeps_auto; done. Qed.
Lemma promote_same_send : keeps same_send promotePendingRecvCipher.
Proof. unfold promotePendingRecvCipher. keeps_auto; done. Qed.
Lemma switch_same_send : keeps same_send switch_send.
Proof. unfold switch_send. keeps_auto; done. Qed.

Lemma open_trial_same_send c p n ct aad : keeps same_send (open_trial c p n ct aad).
Proof. unfold open_trial. keeps_auto. apply promote_same_send. Qed.

Lemma run_op_same_send op s : same_send s (run_op op s).
Proof.
  revert s. destruct op; cbn [run_op];
    match goal with |- forall s, same_send s (?m s).1 => change (keeps same_send m) end.
  - unfold Decrypt. keeps_auto; try done. apply open_trial_same_send.
  - unfold InitiateRekey. keeps_auto; done.
  - unfold PrepareRekeyResponse. keeps_auto; done.
  - unfold ProcessRekeyResponse. keeps_auto; try done. apply finalize_same_send.
  - unfold ActivateRekeySend. keeps_auto; [apply switch_same_send|apply finalize_same_send].
  - unfold ActivatePendingKeys. keeps_auto; try done;
      [apply promote_same_send|apply switch_same_send|apply finalize_same_send].
  - unfold Rekey. keeps_auto; done.
  - unfold Close. keeps_auto; done.
Qed.

Lemma buildAEADNonce_eq prefix seq :
  buildAEADNonce prefix seq = Ok (pad 4 prefix ++ be_put 8 seq).
Proof.
  unfold buildAEADNonce. replace (c_copy _ _ _) with (Ok (E := error) (filled (pad 4 prefix) 8))
    by (by destruct prefix as [|? [|? [|? [|? ?]]]]).
  rw obind_Ok_l c_put_filled; [golia|]. rw obind_Ok_l. by rw filled_done; [golia|].
Qed.

(** The sequence numbers handed out are all different and below the counter; what was sealed
    was sealed under the nonces of some of them. *)
Record nonce_inv (prefix : list Z) (w : World) (seqs : list Z) : Prop := {
  ni_prefix : s_sendNoncePrefix (w_session w) = prefix;
  ni_views : Forall (fun t => forall v, sg_view t = Some v -> v_prefix v = prefix) (w_sending w);
  ni_sealed : map snd (w_sealed w) = map (fun q => pad 4 prefix ++ be_put 8 q) seqs;
  ni_nodup : NoDup (map sg_seq (w_sending w) ++ seqs);
  ni_below : Forall (fun q => 0 <= q < s_sendSeq (w_session w)) (map sg_seq (w_sending w) ++ seqs);
  ni_counter : 0 <= s_sendSeq (w_session w) }.

Lemma nonce_inv_seal prefix s l1 l2 out p q v c n now seqs :
  nonce_inv prefix (mkWorld s (l1 ++ mkSending p q (Some v) :: l2) out) seqs ->
  buildAEADNonce (v_prefix v) q = Ok n -> v_cipher v = Some c ->
  nonce_inv prefix (mkWorld (account_sent now p s).1 (l1 ++ l2) ((ae_key c, n) :: out)) (q :: seqs).
Proof.
  intros [Hp Hv Hs Hn Hb Hc] Hbn Hvc. cbn [w_session w_sending w_sealed] in *.
  apply Forall_app in Hv as [Hv1 Hv2]. apply Forall_cons_1 in Hv2 as [Hq Hv2].
  specialize (Hq v eq_refl). rw buildAEADNonce_eq Hq in Hbn. apply Ok_inj in Hbn as <-.
  rw map_app in Hn Hb. cbn [map] in Hn, Hb.
  assert (map sg_seq (l1 ++ l2) ++ q :: seqs ≡ₚ map sg_seq l1 ++ q :: map sg_seq l2 ++ seqs) as Hperm
    by (rw map_app; solve_Permutation).
  rw -app_assoc in Hn Hb. cbn [app sg_seq] in Hn, Hb.
  split; cbn [w_session w_sending w_sealed]; try done.
  - by apply Forall_app_2.
  - cbn. by rw Hs.
  - by rw Hperm.
  - by rw Hperm.
Qed.

Lemma nonce_inv_refuse prefix s l1 l2 out t seqs :
  nonce_inv prefix (mkWorld s (l1 ++ t :: l2) out) seqs ->
  nonce_inv prefix (mkWorld s (l1 ++ l2) out) seqs.
Proof.
  intros [Hp Hv Hs Hn Hb Hc]. cbn [w_session w_sending w_sealed] in *.
  apply Forall_app in Hv as [Hv1 Hv2]. apply Forall_cons_1 in Hv2 as [_ Hv2].
  rw map_app in Hn Hb. cbn [map] in Hn, Hb. rw -app_assoc in Hn Hb. cbn [app sg_seq] in Hn, Hb.
  split; cbn; try done; [by apply Forall_app_2| |]; rw map_app -app_assoc.
  - apply NoDup_app in Hn as (Hn1 & Hd & Hn2). apply NoDup_cons in Hn2 as [Hq Hn2].
    apply NoDup_app. split; [done|]. split; [|done]. intros x Hx Hx2. apply (Hd x Hx).
    by apply elem_of_cons; right.
  - apply Forall_app in Hb as [Hb1 Hb2]. apply Forall_cons_1 in Hb2 as [_ Hb2].
    by apply Forall_app_2.
Qed.

Lemma nonce_inv_step prefix w w' seqs : send_step w w' -> nonce_inv prefix w seqs ->
  s_sendSeq (w_session w) + 1 < 2 ^ 64 ->
  exists seqs', nonce_inv prefix w' seqs' /\
    s_sendSeq (w_session w') <= s_sendSeq (w_session w) + 1.
Proof.
  intros Hstep Hi Hlt. pose proof Hi as [Hp Hv Hs Hn Hb Hc].
  destruct Hstep as [s ts out p s' q Ht|s l1 l2 out p q|s l1 l2 out p q v c n ct now Hvc Hbn Hsl
    |s l1 l2 out p q v e He|s ts out op]; cbn [w_session w_sending w_sealed] in *.
  - unfold nextSendSeq in Ht. injection Ht as <- <-. exists seqs.
    assert (u64_add (s_sendSeq s) 1 = s_sendSeq s + 1) as Hu by (unfold u64_add; rw u64_small; lia).
    split; [|cbn; lia]. split; cbn; try done; rw ?Hu; [by apply Forall_cons_2| | |lia].
    + apply NoDup_cons_2; [|done]. intros Hin. apply (proj1 (list.Forall_forall _ _) Hb) in Hin. lia.
    + apply Forall_cons_2; [lia|]. eapply Forall_impl; [exact Hb|]. cbn; lia.
  - exists seqs. split; [|cbn; lia]. split; cbn; try done.
    + apply Forall_app in Hv as [Hv1 Hv2]. apply Forall_cons_1 in Hv2 as [_ Hv2].
      apply Forall_app_2; [done|]. apply Forall_cons_2; [|done]. by intros v [= <-].
    + move: Hn. by rw !map_app.
    + move: Hb. by rw !map_app.
  - exists (q :: seqs). split; [|cbn; lia]. by eapply nonce_inv_seal; [|done|done].
  - exists seqs. split; [|cbn; lia]. by eapply nonce_inv_refuse.
  - exists seqs. destruct (run_op_same_send op s) as [H1 H2].
    split; [split; cbn; rw ?H1 ?H2; done|]. cbn. lia.
Qed.

Lemma nonce_inv_steps prefix n : forall w w' seqs, nsteps send_step n w w' ->
  nonce_inv prefix w seqs -> s_sendSeq (w_session w) + Z.of_nat n < 2 ^ 64 ->
  exists seqs', nonce_inv prefix w' seqs' /\
    s_sendSeq (w_session w') <= s_sendSeq (w_session w) + Z.of_nat n.
Proof.
  induction n as [|n IH]; intros w w' seqs Hn Hi Hlt.
  - inversion Hn; subst. exists seqs. split; [done|lia].
  - inversion Hn as [|? ? w1 ? Hs Hr]; subst.
    destruct (nonce_inv_step _ _ _ _ Hs Hi ltac:(lia)) as (seqs1 & Hi1 & Hle).
    destruct (IH w1 w' seqs1 Hr Hi1 ltac:(lia)) as (seqs2 & Hi2 & Hle2).
    exists seqs2. split; [done|lia].
Qed.

Lemma nonces_NoDup prefix w seqs : nonce_inv prefix w seqs ->
  s_sendSeq (w_session w) <= 2 ^ 64 -> NoDup (map snd (w_sealed w)).
Proof.
  intros [_ _ Hs Hn Hb _] Hle. rw Hs. apply NoDup_app in Hn as (_ & _ & Hn).
  apply Forall_app in Hb as [_ Hb]. clear Hs. induction seqs as [|q r IH]; [constructor|].
  apply Forall_cons_1 in Hb as [Hq Hb]. apply NoDup_cons in Hn as [Hnq Hn].
  apply NoDup_cons_2; [|by apply IH]. intros (q' & Heq & Hin)%list_elem_of_fmap.
  apply app_inj_len in Heq as [_ Heq]; [|done].
  apply (proj1 (list.Forall_forall _ _) Hb) in Hin as Hq'.
  apply be_put_inj in Heq; [|unfold is_u64 in *; lia..]. by subst.
Qed.
End Nonces.

(** * Delivery and rekeying between two sessions *)

Section Channel.
Context {P : Primitives} {PL : PrimitivesLaws P} {K : KEMPrimitives} (fips : bool).

(** The cipher in a field has this suite and key; its own counter does not matter. *)
Definition keyed (cs : CipherSuite) (key : list Z) (o : option AEAD) : Prop :=
  exists c, o = Some c /\ ae_suite c = cs /\ ae_key c = key.

Lemma NewAEAD_keyed cs key c : NewAEAD fips cs key = Ok c -> keyed cs key (Some c).
Proof. unfold NewAEAD. intros H. okinv H. apply Ok_inj in H as <-. by eexists. Qed.

Lemma NewAEAD_ok cs key key' c : NewAEAD fips cs key = Ok c -> len key' = 32 ->
  exists c', NewAEAD fips cs key' = Ok c'.
Proof.
  unfold NewAEAD. intros H Hl. okinv H. gd. by eexists.
Qed.

Definition stream_nonce (prefix : list Z) (seq : Z) : list Z := pad 4 prefix ++ be_put 8 seq.

Lemma len_stream_nonce prefix seq : len (stream_nonce prefix seq) = 12.
Proof. unfold stream_nonce. rw len_app len_pad. golia. Qed.

(** The wire form of record [seq] under a key. *)
Definition record_of (cs : CipherSuite) (key prefix : list Z) (seq : Z) (p : list Z) : list Z :=
  aead_seal cs key (stream_nonce prefix seq) p (be_put 8 seq).

(** The key of the sender is not worn out. *)
Definition key_fresh (s : Session) : Prop :=
  s_sendEpochStartSeq s <= s_sendSeq s < s_sendEpochStartSeq s + MaxPacketsBeforeRekey /\
  0 <= s_sendEpochStartSeq s /\ s_sendSeq s < 2 ^ 64 - 1.

Lemma seal_view_eq v c seq p : v_cipher v = Some c ->
  0 <= v_startSeq v <= seq -> seq < v_startSeq v + MaxPacketsBeforeRekey -> seq < 2 ^ 64 ->
  seal_view v seq p = Ok (record_of (ae_suite c) (ae_key c) (v_prefix v) seq p).
Proof.
  intros Hc H0 Hw Hlt. unfold seal_view. rw Hc. unfold u64_sub. rw u64_small; [lia|].
  replace (negb _) with true by blia. rw buildAEADNonce_eq obind_Ok_l.
  unfold SealWithNonce. fold (stream_nonce (v_prefix v) seq). by rw len_stream_nonce.
Qed.

Lemma Encrypt_eq now p s cs key : keyed cs key (s_sendCipher s) -> key_fresh s ->
  exists s', Encrypt now p s
      = (s', Ok (record_of cs key (s_sendNoncePrefix s) (s_sendSeq s) p, s_sendSeq s)) /\
    s_sendSeq s' = s_sendSeq s + 1 /\ s_sendCipher s' = s_sendCipher s /\
    s_sendNoncePrefix s' = s_sendNoncePrefix s /\ s_sendEpochStartSeq s' = s_sendEpochStartSeq s.
Proof.
  intros (c & Hc & <- & <-) (Hw & H0 & Hlt). unfold Encrypt.
  rw (st_bind_ok nextSendSeq _ s (s <| s_sendSeq := u64_add (s_sendSeq s) 1 |>) (s_sendSeq s)); [done|].
  rw st_bind_get. erewrite st_bind_lift; [|by apply seal_view_eq; [exact Hc|cbn; lia..]].
  eexists. split; [reflexivity|]. cbn. unfold u64_add. by rw u64_small; [lia|].
Qed.

(** A receiver holds the key as its current cipher, or as its pending one when the current
    cipher does not open the record. *)
Definition can_open (cs : CipherSuite) (key : list Z) (r : Session) (seq : Z) (ct : list Z) : Prop :=
  keyed cs key (s_recvCipher r) \/
  (keyed cs key (s_pendingRecvCipher r) /\
   exists old, s_recvCipher r = Some old /\
     aead_open (ae_suite old) (ae_key old) (stream_nonce (s_recvNoncePrefix r) seq) ct (be_put 8 seq)
     = None).

Lemma open_trial_eq cs key r seq p c :
  let ct := record_of cs key (s_recvNoncePrefix r) seq p in
  can_open cs key r seq ct -> s_recvCipher r = Some c ->
  exists r', open_trial c (s_pendingRecvCipher r) (stream_nonce (s_recvNoncePrefix r) seq) ct
               (be_put 8 seq) r = (r', Ok p) /\
    keyed cs key (s_recvCipher r') /\ s_replayWindow r' = s_replayWindow r /\
    s_recvNoncePrefix r' = s_recvNoncePrefix r.
Proof.
  intros ct Hcan Hc. subst ct. unfold open_trial, record_of.
  pose proof (len_stream_nonce (s_recvNoncePrefix r) seq) as Hl.
  destruct Hcan as [(c' & Hc' & <- & <-)|[(pc & Hp & <- & <-) (old & Hold & Ho)]].
  - rw Hc in Hc'. injection Hc' as <-. rw OpenWithNonce_Seal //.
    exists r. repeat split; try done. by eexists.
  - rw Hc in Hold. injection Hold as <-. unfold OpenWithNonce at 1.
    pose proof (aead_seal_len (ae_suite pc) (ae_key pc) (stream_nonce (s_recvNoncePrefix r) seq) p (be_put 8 seq)).
    gd. gd. rw Ho Hp. rw OpenWithNonce_Seal //. unfold promotePendingRecvCipher, st_bind, st_get, st_mod.
    rw Hp. eexists. split; [reflexivity|]. cbn. split; [by eexists|done].
Qed.

Lemma Decrypt_eq now cs key r seq p acc :
  let ct := record_of cs key (s_recvNoncePrefix r) seq p in
  can_open cs key r seq ct -> is_u64 seq -> window_of (s_replayWindow r) acc ->
  exists r', Decrypt now ct seq r
      = (r', if spec_accepts (w_size (s_replayWindow r)) acc seq then Ok p else Err ErrReplayDetected) /\
    s_recvNoncePrefix r' = s_recvNoncePrefix r /\ w_size (s_replayWindow r') = w_size (s_replayWindow r) /\
    if spec_accepts (w_size (s_replayWindow r)) acc seq
    then keyed cs key (s_recvCipher r') /\ window_of (s_replayWindow r') (seq :: acc)
    else r' = r <| s_replayWindow := s_replayWindow r' |> /\ window_of (s_replayWindow r') acc.
Proof.
  intros ct Hcan Hq Hw. unfold Decrypt. rw st_bind_get.
  assert (exists c, s_recvCipher r = Some c) as [c Hc]
    by (destruct Hcan as [(c & ? & _)|[_ (c & ? & _)]]; eauto). rw Hc.
  unfold ReplayWindow_Check.
  destruct (Check_refines _ _ seq Hw Hq) as (w' & -> & Hsz & Hw'). rw st_bind_mod.
  erewrite st_bind_lift; [|done].
  destruct (spec_accepts _ _ _); [|by eexists].
  rw buildAEADNonce_eq. erewrite st_bind_lift; [|done].
  set (r1 := r <| s_replayWindow := w' |>).
  destruct (open_trial_eq cs key r1 seq p c Hcan Hc) as (r' & Hr & Hk & Hrw & Hpre).
  change (open_trial c (s_pendingRecvCipher r) (pad 4 (s_recvNoncePrefix r) ++ be_put 8 seq) ct
    (be_put 8 seq) r1 = (r', Ok p)) in Hr.
  rw (st_bind_ok _ _ _ _ _ Hr). rw st_bind_mod. eexists. split; [reflexivity|].
  cbn. by rw Hrw Hpre.
Qed.

(** What keys from a master secret give a session of either role. *)
Record keyed_from (s' : Session) (role : Role) (cs : CipherSuite) (ms ik rk ip rp : list Z) : Prop := {
  kf_secret : s_masterSecret s' = Some ms;
  kf_state : s_state s' = SessionStateEstablished;
  kf_suite : s_CipherSuite s' = cs;
  kf_send : keyed cs (by_role role (ik, rk)).1 (s_sendCipher s');
  kf_recv : keyed cs (by_role role (ik, rk)).2 (s_recvCipher s');
  kf_sendp : s_sendNoncePrefix s' = (by_role role (ip, rp)).1;
  kf_recvp : s_recvNoncePrefix s' = (by_role role (ip, rp)).2 }.

Lemma InitializeKeys_ok now ms cs s ik rk ip rp :
  s_state s <> SessionStateClosed -> len ms = 32 ->
  DeriveTrafficKeys ms = Ok (ik, rk) -> DeriveStreamNoncePrefixes ms = Ok (ip, rp) ->
  (exists c, NewAEAD fips cs ik = Ok c) -> (exists c, NewAEAD fips cs rk = Ok c) ->
  exists s', InitializeKeys fips now ms cs s = (s', Ok tt) /\
    keyed_from s' (s_Role s) cs ms ik rk ip rp.
Proof.
  intros Hst Hl Ht Hp [ci Hci] [cr Hcr]. unfold InitializeKeys. rw st_bind_get.
  unfold is_state. rw bool_decide_false //. cbn [negb]. gd. rw st_bind_mod (st_bind_lift _ _ _ _ Ht).
  pose proof (NewAEAD_keyed _ _ _ Hci) as Ki. pose proof (NewAEAD_keyed _ _ _ Hcr) as Kr.
  destruct (s_Role s) eqn:Hr; cbn [by_role fst snd]; rw st_bind_mod.
  - rw (st_bind_lift _ _ _ _ Hci) st_bind_mod (st_bind_lift _ _ _ _ Hcr) st_bind_mod.
    rw (st_bind_lift _ _ _ _ Hp). eexists. split; [reflexivity|]. by split.
  - rw (st_bind_lift _ _ _ _ Hcr) st_bind_mod (st_bind_lift _ _ _ _ Hci) st_bind_mod.
    rw (st_bind_lift _ _ _ _ Hp). eexists. split; [reflexivity|]. by split.
Qed.

(** Sender and receiver share the key and nonce prefix of a direction. *)
Definition stream_linked (s r : Session) : Prop :=
  exists cs key, keyed cs key (s_sendCipher s) /\ keyed cs key (s_recvCipher r) /\
    s_recvNoncePrefix r = s_sendNoncePrefix s.

Lemma keyed_from_linked s r role cs ms ik rk ip rp :
  keyed_from s role cs ms ik rk ip rp -> keyed_from r (Role_peer role) cs ms ik rk ip rp ->
  stream_linked s r.
Proof.
  intros [_ _ _ Hs _ Hsp _] [_ _ _ _ Hr _ Hrp]. exists cs, (by_role role (ik, rk)).1.
  destruct role; cbn in *; by rw Hsp Hrp.
Qed.

Lemma InitiateRekey_inv rnd s s' pk q : InitiateRekey rnd s = (s', Ok (pk, q)) ->
  exists kp, s_GenerateKeyPair (s_kemSuite s) rnd = Ok kp /\
    PublicKey_Bytes (KeyPair_PublicKey kp) = Ok pk /\
    s_rekeyInProgress s' = true /\ s_pendingRekeyKeyPair s' = Some kp /\
    s_kemSuite s' = s_kemSuite s /\ s_CipherSuite s' = s_CipherSuite s /\
    s_masterSecret s' = s_masterSecret s /\ s_recvCipher s' = s_recvCipher s.
Proof.
  unfold InitiateRekey. intros H. stinv H. injection H as <- <- <-. eexists. by cbn.
Qed.

Lemma PrepareRekeyResponse_inv rnd pkb q s s' ct :
  PrepareRekeyResponse fips rnd pkb q s = (s', Ok ct) ->
  exists pk c fresh ns ik rk rc sc, s_ParsePublicKey (s_kemSuite s) pkb = Ok pk /\
    s_Encapsulate (s_kemSuite s) rnd pk RoleResponder = Ok (c, fresh) /\
    DeriveRekeySecret (ms_bytes s) fresh = Ok ns /\ DeriveTrafficKeys ns = Ok (ik, rk) /\
    NewAEAD fips (s_CipherSuite s) ik = Ok rc /\ NewAEAD fips (s_CipherSuite s) rk = Ok sc /\
    Ciphertext_Bytes c = Ok ct /\
    s_sendCipher s' = s_sendCipher s /\ s_recvCipher s' = s_recvCipher s /\
    s_pendingRecvCipher s' = Some rc /\ s_pendingSendCipher s' = Some sc /\
    s_pendingRekeySecret s' = Some ns.
Proof.
  unfold PrepareRekeyResponse. intros H. stinv H. apply st_lift_inv in H as [-> H].
  eexists _, _, _, _, _, _, _, _. by repeat (split; [eassumption|]).
Qed.

Lemma ProcessRekeyResponse_ok now s kp ct c fresh ns ik rk sc rc :
  s_rekeyInProgress s = true -> s_pendingRekeyKeyPair s = Some kp ->
  s_ParseCiphertext (s_kemSuite s) ct = Ok c ->
  s_Decapsulate (s_kemSuite s) c kp RoleInitiator = Ok fresh ->
  DeriveRekeySecret (ms_bytes s) fresh = Ok ns -> DeriveTrafficKeys ns = Ok (ik, rk) ->
  NewAEAD fips (s_CipherSuite s) ik = Ok sc -> NewAEAD fips (s_CipherSuite s) rk = Ok rc ->
  exists s', ProcessRekeyResponse fips now ct s = (s', Ok tt) /\
    s_masterSecret s' = Some ns /\ s_state s' = SessionStateEstablished /\
    s_sendCipher s' = Some sc /\ s_pendingRecvCipher s' = Some rc /\
    s_recvCipher s' = s_recvCipher s.
Proof.
  intros Hr Hkp Hp Hd Hn Ht Hs Hc. unfold ProcessRekeyResponse. rw st_bind_get Hr Hkp.
  rw (st_bind_lift _ _ _ _ Hp) (st_bind_lift _ _ _ _ Hd) (st_bind_lift _ _ _ _ Hn).
  rw (st_bind_lift _ _ _ _ Ht) (st_bind_lift _ _ _ _ Hs) (st_bind_lift _ _ _ _ Hc) st_bind_mod.
  eexists. split; [reflexivity|]. by cbn.
Qed.

Lemma ActivateRekeySend_ok now s sc ns :
  s_pendingSendCipher s = Some sc -> s_pendingRekeySecret s = Some ns ->
  exists s', ActivateRekeySend now s = (s', Ok tt) /\
    s_masterSecret s' = Some ns /\ s_state s' = SessionStateEstablished /\
    s_sendCipher s' = Some sc /\ s_pendingRecvCipher s' = s_pendingRecvCipher s /\
    s_recvCipher s' = s_recvCipher s.
Proof.
  intros Hs Hn. unfold ActivateRekeySend, switch_send, finalizeRekeyStateLocked.
  set (s1 := s <| s_sendCipher := Some sc |> <| s_pendingSendCipher := None |>
               <| s_sendEpochStartSeq := s_sendSeq s |>).
  rw (st_bind_ok _ _ s s1 tt); [by rw st_bind_get Hs|]. rw st_bind_get.
  change (s_pendingRekeySecret s1) with (s_pendingRekeySecret s). rw Hn st_bind_mod.
  eexists. split; [reflexivity|]. by cbn.
Qed.

(** Both ends of a rekey derive one secret, and each can open what the other now sends. *)
Lemma rekey_exchange rnd rnd' now now' a b a1 b1 pk q ct :
  SuiteLaws (s_kemSuite a) -> s_kemSuite b = s_kemSuite a ->
  s_CipherSuite b = s_CipherSuite a -> ms_bytes b = ms_bytes a ->
  InitiateRekey rnd a = (a1, Ok (pk, q)) ->
  PrepareRekeyResponse fips rnd' pk q b = (b1, Ok ct) ->
  exists a2 b2 fresh ns ik rk,
    ProcessRekeyResponse fips now ct a1 = (a2, Ok tt) /\
    ActivateRekeySend now' b1 = (b2, Ok tt) /\
    DeriveRekeySecret (ms_bytes a) fresh = Ok ns /\ DeriveTrafficKeys ns = Ok (ik, rk) /\
    (s_masterSecret a2 = Some ns /\ s_masterSecret b2 = Some ns) /\
    (s_state a2 = SessionStateEstablished /\ s_state b2 = SessionStateEstablished) /\
    (s_sendCipher b1 = s_sendCipher b /\ s_recvCipher a2 = s_recvCipher a /\
     s_recvCipher b2 = s_recvCipher b) /\
    (keyed (s_CipherSuite a) ik (s_sendCipher a2) /\
     keyed (s_CipherSuite a) ik (s_pendingRecvCipher b2)) /\
    (keyed (s_CipherSuite a) rk (s_sendCipher b2) /\
     keyed (s_CipherSuite a) rk (s_pendingRecvCipher a2)).
Proof.
  intros HL Hk Hcs Hms
    (kp & Hg & Hpk & Ar & Akp & Ak & Acs & Ams & Arc)%InitiateRekey_inv
    (pk' & c & fresh & ns & ik & rk & rc & sc & Hp & He & Hd & Ht & Hrc & Hsc & Hct
      & Bs & Br & Bpr & Bps & Bn)%PrepareRekeyResponse_inv.
  rw Hk in Hp He. rw Hcs in Hrc Hsc. rw Hms in Hd.
  assert (key_of (s_kemSuite a) kp) as Hkey by (left; eauto).
  destruct (suite_pk_wire kp Hkey) as (b' & Hb' & _ & Hpar). rw Hpk in Hb'.
  apply Ok_inj in Hb' as <-. rw Hp in Hpar. apply Ok_inj in Hpar as ->.
  destruct (suite_ct_wire _ _ _ _ _ He) as (ctb & Hctb & _ & Hparse). rw Hct in Hctb.
  apply Ok_inj in Hctb as <-. pose proof (suite_agree _ _ _ _ _ Hkey He) as Hdec.
  destruct (ProcessRekeyResponse_ok now a1 kp ct c fresh ns ik rk rc sc)
    as (a2 & HA & A1 & A2 & A3 & A4 & A5);
    [done|done|by rw Ak|by rw Ak|unfold ms_bytes; by rw Ams|done|by rw Acs|by rw Acs|].
  destruct (ActivateRekeySend_ok now' b1 sc ns Bps Bn) as (b2 & HB & B1 & B2 & B3 & B4 & B5).
  exists a2, b2, fresh, ns, ik, rk. do 6 (split; [done|]).
  split; [by rw A5 B5 Arc Br|]. rw A3 A4 B3 B4 Bpr.
  by repeat split; apply NewAEAD_keyed.
Qed.
End Channel.

(** * Properties *)

(** C7: whatever the schedule.  Calls of [Encrypt] run concurrently with each other and with
    receiving, rekeying and closing, their steps interleaved in any way: no nonce is ever used
    for two records, neither under one key nor across the keys of a session, in any run of
    fewer than 2^64 steps. *)
Theorem stream_nonces_unique (P : Primitives) fips n s w :
  0 <= s_sendSeq s -> s_sendSeq s + Z.of_nat n < 2 ^ 64 ->
  nsteps (send_step fips) n (mkWorld s [] []) w -> NoDup (map snd (w_sealed w)).
Proof.
  intros H0 Hn Hs.
  destruct (nonce_inv_steps fips (s_sendNoncePrefix s) n (mkWorld s [] []) w [])
    as (seqs & Hi & Hle); [done| |done|].
  - split; cbn; try done; constructor.
  - eapply nonces_NoDup; [exact Hi|]. cbn in Hle. lia.
Qed.

(** A session of either role with keys from one secret. *)
Definition example_session (role : Role) : Session :=
  (@InitializeKeys toy false 0 (replicate 32 5) CipherSuiteAES256GCM
     (fresh_session 0 role (replicate 16 3) (@chkemV1 toy toyKEM) None)).1
  <| s_kemSuite := @chkemV1 toy toyKEM |>.

Lemma stream_nonces_unique_witness :
  exists w, nsteps (@send_step toy false) 6 (mkWorld (example_session RoleInitiator) [] []) w /\
    length (w_sealed w) = 2%nat /\ NoDup (map snd (w_sealed w)).
Proof.
  eassert (nsteps (@send_step toy false) 6
    (mkWorld (example_session RoleInitiator) [] []) _) as H.
  { eapply nsteps_l; [apply (step_take _ _ _ _ [1]); reflexivity|].
    eapply nsteps_l; [apply (step_take _ _ _ _ [2]); reflexivity|].
    eapply nsteps_l; [apply (step_load _ _ [_] [])|].
    eapply nsteps_l; [apply (step_load _ _ [] [_])|].
    eapply nsteps_l; [eapply (step_seal _ _ [_] [] _ _ _ _ _ _ _ 9); reflexivity|].
    eapply nsteps_l; [eapply (step_seal _ _ [] [] _ _ _ _ _ _ _ 9); reflexivity|].
    apply nsteps_O. }
  eexists. split; [exact H|]. split; [reflexivity|].
  refine (stream_nonces_unique toy false 6 (example_session RoleInitiator) _ _ _ H).
  - by vm_compute.
  - by vm_compute.
Defined.




Definition example_init := InitiateRekey (example_draws [32; 64]%nat) (example_session RoleInitiator).
Definition example_pk : list Z := match example_init.2 with Ok (pk, _) => pk | _ => [] end.
Definition example_resp := @PrepareRekeyResponse toy false (example_draws [32; 32]%nat) example_pk 16
  (example_session RoleResponder).
Definition example_ct : list Z := match example_resp.2 with Ok ct => ct | _ => [] end.

