(* ===== verification/DgramSession.v ===== *)
(** The datagram side of a session.

    [pkg/tunnel/dgram_session.go], [dgram_session_inplace.go] and the cryptographic half and
    the responder of [dgram_rekey.go]: epochs, sealing and opening frames by explicit epoch,
    and the fragmented rekey exchange with the responder's response cache.  The coarse clock of
    [coarsetime.go] and [time.Now] are arguments.  A nil [dgramEpochs] dereferenced is [Panic]. *)

From Corelib Require Import ssreflect.
From stdpp Require Import base tactics list numbers strings.
From Stdlib Require Import ZArith Lia.
From S2P Require Import Prelude Base Messages DatagramCodec Replay Fragment Crypto Chkem.
From S2P Require Import Ticket Session.

Local Open Scope Z_scope.
Local Open Scope go_scope.

Section Dgram.
Context {P : Primitives} (fips : bool).

(** * Epochs *)

Definition deriveDatagramCiphers (role : Role) (masterSecret : list Z) (cipherSuite : CipherSuite)
    : outcome error (AEAD * AEAD) :=
  let! keys := DeriveTrafficKeys masterSecret in
  let '(sendKey, recvKey) := by_role role keys in
  let! send := NewAEAD fips cipherSuite sendKey in
  let! recv := NewAEAD fips cipherSuite recvKey in
  Ok (send, recv).

Definition InitializeDatagramKeys (now : Z) (masterSecret : list Z) (cipherSuite : CipherSuite)
    : ST Session error unit :=
  do! s := st_get in
  check! negb (is_state s SessionStateClosed) else ErrTunnelClosed in
  check! len masterSecret =? CHKEMSharedSecretSize else ErrInvalidKeySize in
  do! _ := st_mod (fun s => s <| s_masterSecret := Some masterSecret |>
                              <| s_CipherSuite := cipherSuite |>) in
  do! '(send, recv) := st_lift (deriveDatagramCiphers (s_Role s) masterSecret cipherSuite) in
  do! prefixes := st_lift (DeriveDatagramNoncePrefixes masterSecret) in
  let '(sendPrefix, recvPrefix) := by_role (s_Role s) prefixes in
  st_mod (fun s => s <| s_sendNoncePrefix := sendPrefix |> <| s_recvNoncePrefix := recvPrefix |>
                     <| s_sendCipher := Some send |> <| s_recvCipher := Some recv |>
                     <| s_dgramEpochs := Some (mkEpochState
                          (Some (mkEpoch 0 (Some send) (Some recv) 0 now None)) None) |>
                     <| s_dgramReplay := Some NewDatagramReplayWindow |>
                     <| s_lastActivityNanos := now |> <| s_EstablishedAt := now |>
                     <| s_state := SessionStateEstablished |>).

(** [s.dgramEpochs.cur] *)
Definition cur_epoch (s : Session) : outcome error (option datagramEpoch) :=
  match s_dgramEpochs s with
  | Some es => Ok (es_cur es)
  | None => Panic
  end.

Definition nextDatagramSeq : ST Session error Z := nextSendSeq.

Definition datagramSendEpoch (s : Session) : outcome error Z :=
  let! cur := cur_epoch s in
  match cur with
  | Some e => Ok (de_epoch e)
  | None => Panic
  end.

(** The send cipher of the current epoch and its nonce prefix. *)
Definition send_epoch (s : Session) : outcome error (datagramEpoch * AEAD) :=
  let! cur := cur_epoch s in
  match cur with
  | Some e => match de_sendCipher e with
              | Some c => Ok (e, c)
              | None => Err ErrInvalidState
              end
  | None => Err ErrInvalidState
  end.

Definition DatagramSeal (coarse : Z) (aad : list Z) (seq : Z) (plaintext : list Z)
    : ST Session error (list Z) :=
  do! s := st_get in
  do! '(cur, cipher) := st_lift (send_epoch s) in
  check! negb (MaxPacketsBeforeRekey <=? u64_sub seq (de_startSeq cur)) else ErrNonceExhausted in
  do! nonce := st_lift (buildAEADNonce (s_sendNoncePrefix s) seq) in
  do! ct := st_lift (SealWithNonce cipher nonce plaintext aad) in
  do! _ := st_mod (fun s => s <| s_lastActivityNanos := coarse |>) in
  st_ret ct.

Definition DatagramSealTo (coarse : Z) (dst aad : list Z) (seq : Z) (plaintext : list Z)
    : ST Session error (list Z) :=
  do! s := st_get in
  do! '(cur, cipher) := st_lift (send_epoch s) in
  check! negb (MaxPacketsBeforeRekey <=? u64_sub seq (de_startSeq cur)) else ErrNonceExhausted in
  do! nonce := st_lift (buildAEADNonce (s_sendNoncePrefix s) seq) in
  do! out := st_lift (SealWithNonceTo cipher dst nonce plaintext aad) in
  do! _ := st_mod (fun s => s <| s_lastActivityNanos := coarse |>) in
  st_ret out.

(** The epoch is current, or the previous one and not retired yet. *)
Definition datagramRecvCipherLocked (now : Z) (epoch : Z) (s : Session) : option AEAD :=
  match s_dgramEpochs s with
  | None => None
  | Some es =>
      let prev := match es_prev es with
                  | Some p => if (de_epoch p =? epoch)
                                 && match de_retireAfter p with Some t => now <? t | None => false end
                              then de_recvCipher p else None
                  | None => None
                  end in
      match es_cur es with
      | Some c => if de_epoch c =? epoch then de_recvCipher c else prev
      | None => prev
      end
  end.

Definition DatagramOpen (now coarse : Z) (epoch seq : Z) (ciphertext aad : list Z)
    : ST Session error (list Z) :=
  do! s := st_get in
  match datagramRecvCipherLocked now epoch s with
  | None => st_err ErrAuthenticationFailed
  | Some cipher =>
      do! nonce := st_lift (buildAEADNonce (s_recvNoncePrefix s) seq) in
      do! pt := st_lift (OpenWithNonce cipher nonce ciphertext aad) in
      do! _ := st_mod (fun s => s <| s_lastActivityNanos := coarse |>) in
      st_ret pt
  end.

Definition DatagramOpenTo (now coarse : Z) (dst : list Z) (epoch seq : Z) (ciphertext aad : list Z)
    : ST Session error (list Z) :=
  do! s := st_get in
  match datagramRecvCipherLocked now epoch s with
  | None => st_err ErrAuthenticationFailed
  | Some cipher =>
      do! nonce := st_lift (buildAEADNonce (s_recvNoncePrefix s) seq) in
      do! pt := st_lift (OpenWithNonceTo cipher dst nonce ciphertext aad) in
      do! _ := st_mod (fun s => s <| s_lastActivityNanos := coarse |>) in
      st_ret pt
  end.

Definition AdvanceDatagramEpoch (now : Z) (newSecret : list Z) : ST Session error Z :=
  check! len newSecret =? CHKEMSharedSecretSize else ErrInvalidKeySize in
  do! s := st_get in
  match s_dgramEpochs s with
  | Some (mkEpochState (Some old) _) =>
      do! '(send, recv) :=
        st_lift (deriveDatagramCiphers (s_Role s) newSecret (s_CipherSuite s)) in
      let old := old <| de_retireAfter := Some (now + DatagramPrevEpochRetainSeconds * Second) |> in
      let newEpoch := u8 (de_epoch old + 1) in
      do! _ := st_mod (fun s =>
        s <| s_dgramEpochs := Some (mkEpochState
               (Some (mkEpoch newEpoch (Some send) (Some recv) (s_sendSeq s) now None)) (Some old)) |>
          <| s_masterSecret := Some newSecret |>
          <| s_sendCipher := Some send |> <| s_recvCipher := Some recv |>) in
      st_ret newEpoch
  | _ => st_err ErrInvalidState
  end.

Definition datagramRekeyDue (now seq : Z) (s : Session) : outcome error bool :=
  let! cur := cur_epoch s in
  match cur with
  | None => Ok false
  | Some cur => Ok ((datagramRekeyHighWater <=? u64_sub seq (de_startSeq cur))
                    || (MaxSessionDurationSeconds * Second <=? time_Since now (de_startedAt cur)))
  end.

(** * Rekey control messages *)

Definition rekeyAAD (msgType : MessageType) (epoch seq : Z) : list Z :=
  [u8 msgType; epoch] ++ be_put 8 seq.

Definition sealRekeyControl (msgType : MessageType) (payload : list Z)
    : ST Session error (list Z * Z) :=
  do! seq := nextDatagramSeq in
  do! s := st_get in
  do! '(cur, cipher) := st_lift (send_epoch s) in
  do! nonce := st_lift (buildAEADNonce (s_sendNoncePrefix s) seq) in
  do! ct := st_lift (SealWithNonce cipher nonce payload (rekeyAAD msgType (de_epoch cur) seq)) in
  st_ret (be_put 8 seq ++ ct, de_epoch cur).

Definition openRekeyControl (now : Z) (msgType : MessageType) (epoch : Z) (body : list Z)
    (s : Session) : outcome error (list Z) :=
  guard! negb (len body <? 8) else ErrInvalidMessage in
  let! sb := slice body 0 8 in
  let! seq := get_be 8 sb 0 in
  match datagramRecvCipherLocked now epoch s with
  | None => Err ErrAuthenticationFailed
  | Some cipher =>
      let! nonce := buildAEADNonce (s_recvNoncePrefix s) seq in
      let! ct := slice_from body 8 in
      OpenWithNonce cipher nonce ct (rekeyAAD msgType epoch seq)
  end.

Definition deriveNextDatagramSecret (fresh : list Z) (s : Session) : outcome error (list Z) :=
  DeriveRekeySecret (ms_bytes s) fresh.

Definition buildDatagramRekeyInit (kp : KeyPair) : ST Session error (list Z * Z) :=
  do! pk := st_lift (PublicKey_Bytes (KeyPair_PublicKey kp)) in
  sealRekeyControl MessageTypeDatagramRekeyInit pk.

Definition respondToDatagramRekey (rnd : Draws) (now : Z) (epoch : Z) (initBody : list Z)
    : ST Session error (list Z * Z) :=
  do! s := st_get in
  do! pubBytes := st_lift (openRekeyControl now MessageTypeDatagramRekeyInit epoch initBody s) in
  do! pub := st_lift (s_ParsePublicKey (s_kemSuite s) pubBytes) in
  do! '(ct, fresh) := st_lift (s_Encapsulate (s_kemSuite s) rnd pub RoleResponder) in
  do! ctb := st_lift (Ciphertext_Bytes ct) in
  do! resp := sealRekeyControl MessageTypeDatagramRekeyResponse ctb in
  do! s := st_get in
  do! newSecret := st_lift (deriveNextDatagramSecret fresh s) in
  do! _ := AdvanceDatagramEpoch now newSecret in
  st_ret resp.

Definition completeDatagramRekey (now : Z) (epoch : Z) (respBody : list Z) (kp : KeyPair)
    : ST Session error unit :=
  do! s := st_get in
  do! ctBytes := st_lift (openRekeyControl now MessageTypeDatagramRekeyResponse epoch respBody s) in
  do! ct := st_lift (s_ParseCiphertext (s_kemSuite s) ctBytes) in
  do! fresh := st_lift (s_Decapsulate (s_kemSuite s) ct kp RoleInitiator) in
  do! newSecret := st_lift (deriveNextDatagramSecret fresh s) in
  do! _ := AdvanceDatagramEpoch now newSecret in
  st_ret tt.

(** * The responder's receive loop *)

(** The fields of [datagramSession] the rekey uses; [writeAll] is the list of frames written. *)
Record datagramSession := mkDgramSession {
  ds_index : Z;
  ds_peerIndex : Z;
  ds_sess : Session;
  ds_rekeyRespValid : bool;
  ds_rekeyRespFrom : Z;
  ds_rekeyRespFrames : list (list Z) }.

#[export] Instance datagramSession_eta : Eta datagramSession := {| eta := fun d =>
  mkDgramSession (ds_index d) (ds_peerIndex d) (ds_sess d) (ds_rekeyRespValid d)
    (ds_rekeyRespFrom d) (ds_rekeyRespFrames d) |}.

Definition fragmentRekey (ds : datagramSession) (epoch : Z) (msgType : MessageType)
    (body : list Z) (pad : bool) : outcome error (list (list Z)) :=
  fragmentHandshake
    (mkDatagramHandshakeHeader
       (mkDatagramHeader DatagramFrameHandshake epoch (ds_peerIndex ds) 0)
       (ds_index ds) msgType 0 0 0 []) body pad.

(** Errors are dropped; the frames written are returned. *)
Definition handleRekeyInit (rnd : Draws) (now : Z) (pad : bool) (epoch : Z) (body : list Z)
    (ds : datagramSession) : datagramSession * outcome error (list (list Z)) :=
  if ds_rekeyRespValid ds && (ds_rekeyRespFrom ds =? epoch) then (ds, Ok (ds_rekeyRespFrames ds))
  else match datagramSendEpoch (ds_sess ds) with
       | Ok e =>
           if negb (epoch =? e) then (ds, Ok [])
           else match respondToDatagramRekey rnd now epoch body (ds_sess ds) with
                | (s', Ok (respBody, respEpoch)) =>
                    let ds := ds <| ds_sess := s' |> in
                    match fragmentRekey ds respEpoch MessageTypeDatagramRekeyResponse respBody pad with
                    | Ok frames => (ds <| ds_rekeyRespFrom := epoch |>
                                       <| ds_rekeyRespFrames := frames |>
                                       <| ds_rekeyRespValid := true |>, Ok frames)
                    | Err _ => (ds, Ok [])
                    | Panic => (ds, Panic)
                    end
                | (s', Err _) => (ds <| ds_sess := s' |>, Ok [])
                | (s', Panic) => (ds <| ds_sess := s' |>, Panic)
                end
       | Err _ => (ds, Ok [])
       | Panic => (ds, Panic)
       end.
End Dgram.

(** * Frames between two sessions *)

Section Link.
Context {P : Primitives} {PL : PrimitivesLaws P} (fips : bool).

(** The receiver holds, for the sender's current epoch, a cipher of the same suite and key, and
    the two agree on the nonce prefix of the direction. *)
Definition dgram_linked (now : Z) (s r : Session) : Prop :=
  exists cur c rc, send_epoch s = Ok (cur, c) /\
    datagramRecvCipherLocked now (de_epoch cur) r = Some rc /\
    ae_suite rc = ae_suite c /\ ae_key rc = ae_key c /\
    s_recvNoncePrefix r = s_sendNoncePrefix s.

Lemma OpenWithNonce_peer c rc nonce p ad : ae_suite rc = ae_suite c -> ae_key rc = ae_key c ->
  len nonce = 12 ->
  OpenWithNonce rc nonce (aead_seal (ae_suite c) (ae_key c) nonce p ad) ad = Ok p.
Proof. intros <- <- Hn. by apply OpenWithNonce_Seal. Qed.

Lemma sealRekeyControl_eq mt payload s cur c : send_epoch s = Ok (cur, c) ->
  sealRekeyControl mt payload s
  = (s <| s_sendSeq := u64_add (s_sendSeq s) 1 |>,
     Ok (be_put 8 (s_sendSeq s)
         ++ aead_seal (ae_suite c) (ae_key c) (stream_nonce (s_sendNoncePrefix s) (s_sendSeq s))
              payload (rekeyAAD mt (de_epoch cur) (s_sendSeq s)), de_epoch cur)).
Proof.
  intros Hs. unfold sealRekeyControl.
  set (s1 := s <| s_sendSeq := u64_add (s_sendSeq s) 1 |>).
  rw (st_bind_ok nextDatagramSeq _ s s1 (s_sendSeq s)); [done|]. rw st_bind_get.
  change (send_epoch s1) with (send_epoch s). rw (st_bind_lift _ _ _ _ Hs).
  change (s_sendNoncePrefix s1) with (s_sendNoncePrefix s). rw buildAEADNonce_eq.
  erewrite st_bind_lift; [|reflexivity]. unfold SealWithNonce.
  fold (stream_nonce (s_sendNoncePrefix s) (s_sendSeq s)). rw len_stream_nonce.
  by erewrite st_bind_lift; [|reflexivity].
Qed.

Lemma openRekeyControl_eq now mt epoch s r seq payload c rc :
  datagramRecvCipherLocked now epoch r = Some rc ->
  ae_suite rc = ae_suite c -> ae_key rc = ae_key c ->
  s_recvNoncePrefix r = s_sendNoncePrefix s -> is_u64 seq ->
  openRekeyControl now mt epoch (be_put 8 seq
    ++ aead_seal (ae_suite c) (ae_key c) (stream_nonce (s_sendNoncePrefix s) seq)
         payload (rekeyAAD mt epoch seq)) r = Ok payload.
Proof.
  intros Hr Hcs Hk Hp Hq. unfold openRekeyControl. set (ct := aead_seal _ _ _ _ _).
  pose proof (len_nonneg ct) as Hct. decode_at (be_put 8 seq ++ ct) H Hl. gd.
  rw (slice_at_eq _ _ _ _ _ _ H); [golia|golia|]. rw obind_Ok_l get_be_self; [done|].
  rw obind_Ok_l Hr Hp buildAEADNonce_eq obind_Ok_l.
  apply at_off_app in H. rw (slice_from_at_eq _ _ _ _ H); [golia|]. rw obind_Ok_l. subst ct.
  by apply OpenWithNonce_peer; [done|done|apply len_stream_nonce].
Qed.

(** What a rotation leaves behind. *)
Record advanced (now : Z) (s s' : Session) (ns ik rk : list Z) (old : datagramEpoch) : Prop := {
  ad_secret : s_masterSecret s' = Some ns;
  ad_cur : exists send recv, by_role (s_Role s) (ik, rk) = (ae_key send, ae_key recv) /\
    ae_suite send = s_CipherSuite s /\ ae_suite recv = s_CipherSuite s /\
    s_dgramEpochs s' = Some (mkEpochState
      (Some (mkEpoch (u8 (de_epoch old + 1)) (Some send) (Some recv) (s_sendSeq s) now None))
      (Some (old <| de_retireAfter := Some (now + DatagramPrevEpochRetainSeconds * Second) |>)));
  ad_send : s_sendNoncePrefix s' = s_sendNoncePrefix s;
  ad_recv : s_recvNoncePrefix s' = s_recvNoncePrefix s }.

Lemma NewAEAD_fields cs key c : NewAEAD fips cs key = Ok c -> ae_suite c = cs /\ ae_key c = key.
Proof. unfold NewAEAD. intros H. okinv H. by apply Ok_inj in H as <-. Qed.

Lemma AdvanceDatagramEpoch_inv now ns s s' e : AdvanceDatagramEpoch fips now ns s = (s', Ok e) ->
  exists old prev ik rk, s_dgramEpochs s = Some (mkEpochState (Some old) prev) /\
    DeriveTrafficKeys ns = Ok (ik, rk) /\ len ns = 32 /\
    (exists c, NewAEAD fips (s_CipherSuite s) ik = Ok c) /\
    (exists c, NewAEAD fips (s_CipherSuite s) rk = Ok c) /\ advanced now s s' ns ik rk old.
Proof.
  unfold AdvanceDatagramEpoch. intros H. stinv H.
  destruct d as [[old|] prev]; [|discriminate H]. stinv H.
  injection H as <- <-. unfold deriveDatagramCiphers in Hm. okinv Hm.
  destruct x as [ik rk]. apply Ok_inj in Hm as [= <- <-].
  exists old, prev, ik, rk. do 2 (split; [done|]). split; [golia|].
  split; [destruct (s_Role s); cbn in Hpair; injection Hpair as <- <-; by eauto|].
  split; [destruct (s_Role s); cbn in Hpair; injection Hpair as <- <-; by eauto|].
  apply NewAEAD_fields in Hx0 as [? ?], Hx1 as [? ?]. split; try done. exists x0, x1.
  split; [congruence|done].
Qed.

Lemma AdvanceDatagramEpoch_ok now ns s old prev ik rk send recv :
  len ns = 32 -> s_dgramEpochs s = Some (mkEpochState (Some old) prev) ->
  DeriveTrafficKeys ns = Ok (ik, rk) -> by_role (s_Role s) (ik, rk) = (send, recv) ->
  (exists c, NewAEAD fips (s_CipherSuite s) send = Ok c) ->
  (exists c, NewAEAD fips (s_CipherSuite s) recv = Ok c) ->
  exists s' e, AdvanceDatagramEpoch fips now ns s = (s', Ok e).
Proof.
  intros Hl He Ht Hb [sc Hsc] [rc Hrc]. unfold AdvanceDatagramEpoch. gd.
  rw st_bind_get He. unfold deriveDatagramCiphers. rw Ht obind_Ok_l Hb Hsc obind_Ok_l Hrc obind_Ok_l.
  erewrite st_bind_lift; [|reflexivity]. by eexists _, _.
Qed.

Lemma InitializeDatagramKeys_ok now ms cs s ik rk ip rp :
  s_state s <> SessionStateClosed -> len ms = 32 ->
  DeriveTrafficKeys ms = Ok (ik, rk) -> DeriveDatagramNoncePrefixes ms = Ok (ip, rp) ->
  (exists c, NewAEAD fips cs ik = Ok c) -> (exists c, NewAEAD fips cs rk = Ok c) ->
  exists s', InitializeDatagramKeys fips now ms cs s = (s', Ok tt) /\
    keyed_from s' (s_Role s) cs ms ik rk ip rp /\
    s_dgramEpochs s' = Some (mkEpochState
      (Some (mkEpoch 0 (s_sendCipher s') (s_recvCipher s') 0 now None)) None).
Proof.
  intros Hst Hl Ht Hp [ci Hci] [cr Hcr]. unfold InitializeDatagramKeys. rw st_bind_get.
  unfold is_state. rw bool_decide_false //. cbn [negb]. gd. rw st_bind_mod.
  pose proof (NewAEAD_keyed _ _ _ _ Hci) as Ki. pose proof (NewAEAD_keyed _ _ _ _ Hcr) as Kr.
  unfold deriveDatagramCiphers. rw Ht obind_Ok_l.
  destruct (s_Role s) eqn:Hr; cbn [by_role fst snd].
  - rw Hci obind_Ok_l Hcr obind_Ok_l. erewrite st_bind_lift; [|reflexivity]. cbv beta iota.
    rw (st_bind_lift _ _ _ _ Hp). eexists. split; [reflexivity|]. split; [by split|done].
  - rw Hcr obind_Ok_l Hci obind_Ok_l. erewrite st_bind_lift; [|reflexivity]. cbv beta iota.
    rw (st_bind_lift _ _ _ _ Hp). eexists. split; [reflexivity|]. split; [by split|done].
Qed.

(** Sessions keyed from one secret are linked at epoch 0. *)
Lemma epoch0_linked now t t' s r role cs ms ik rk ip rp :
  keyed_from s role cs ms ik rk ip rp -> keyed_from r (Role_peer role) cs ms ik rk ip rp ->
  s_dgramEpochs s = Some (mkEpochState (Some (mkEpoch 0 (s_sendCipher s) (s_recvCipher s) 0 t None)) None) ->
  s_dgramEpochs r = Some (mkEpochState (Some (mkEpoch 0 (s_sendCipher r) (s_recvCipher r) 0 t' None)) None) ->
  dgram_linked now s r.
Proof.
  intros [_ _ _ (c & Hc & Hcs & Hk) _ Hsp _] [_ _ _ _ (rc & Hrc & Hrcs & Hrk) _ Hrp] Hs Hr.
  eexists _, c, rc. split; [unfold send_epoch, cur_epoch; rw Hs Hc; reflexivity|].
  split; [unfold datagramRecvCipherLocked; by rw Hr Hrc|].
  split; [congruence|]. destruct role; cbn in *; split; congruence.
Qed.

Lemma send_epoch_inv s cur c : send_epoch s = Ok (cur, c) ->
  exists prev, s_dgramEpochs s = Some (mkEpochState (Some cur) prev) /\ de_sendCipher cur = Some c.
Proof.
  unfold send_epoch, cur_epoch. destruct (s_dgramEpochs s) as [[[e|] prev]|]; try done. cbn.
  destruct (de_sendCipher e) eqn:He; [|done]. intros [= -> ->]. eauto.
Qed.

Lemma sealRekeyControl_inv mt payload s s' r : sealRekeyControl mt payload s = (s', Ok r) ->
  exists cur c, send_epoch s = Ok (cur, c).
Proof.
  unfold sealRekeyControl. intros H. apply st_bind_inv in H as (s1 & q & Hq & H).
  injection Hq as <- <-. stinv H. eauto.
Qed.

(** After matching rotations each side holds what the other sends under. *)
Lemma advanced_linked t t' s s' r r' ns ik rk olds oldr now :
  advanced t s s' ns ik rk olds -> advanced t' r r' ns ik rk oldr ->
  s_Role r = Role_peer (s_Role s) -> s_CipherSuite r = s_CipherSuite s ->
  s_recvNoncePrefix r = s_sendNoncePrefix s -> de_epoch oldr = de_epoch olds ->
  dgram_linked now s' r'.
Proof.
  intros [_ (ss & sr & Hs & Hss & Hsr & Hse) Hsp _] [_ (rs & rr & Hr & Hrs & Hrr & Hre) _ Hrp]
    Hrole Hcs Hp He.
  eexists _, ss, rr. split; [unfold send_epoch, cur_epoch; by rw Hse|].
  split; [unfold datagramRecvCipherLocked; rw Hre; cbn; by rw He Z.eqb_refl|].
  split; [congruence|]. split; [|congruence].
  rw Hrole in Hr. destruct (s_Role s); cbn in *; congruence.
Qed.

(** The previous epoch keeps decrypting until it retires. *)
Lemma advanced_retains t s s' ns ik rk old now :
  advanced t s s' ns ik rk old -> 0 <= de_epoch old < 256 ->
  datagramRecvCipherLocked now (de_epoch old) s'
  = if now <? t + DatagramPrevEpochRetainSeconds * Second then de_recvCipher old else None.
Proof.
  intros [_ (ss & sr & _ & _ & _ & He) _ _] Hb. unfold datagramRecvCipherLocked. rw He. cbn.
  replace (u8 (de_epoch old + 1) =? de_epoch old) with false.
  2:{ symmetry. apply Z.eqb_neq. unfold u8.
      destruct (decide (de_epoch old = 255)) as [->|]; [done|].
      rw Z.mod_small; lia. }
  by rw Z.eqb_refl.
Qed.

Lemma advanced_epoch t s s' ns ik rk old : advanced t s s' ns ik rk old ->
  datagramSendEpoch s' = Ok (u8 (de_epoch old + 1)).
Proof. intros [_ (ss & sr & _ & _ & _ & He) _ _]. unfold datagramSendEpoch, cur_epoch. by rw He. Qed.

(** A session's own receive cipher for its current epoch. *)
Lemma recv_current now s cur prev :
  s_dgramEpochs s = Some (mkEpochState (Some cur) prev) ->
  datagramRecvCipherLocked now (de_epoch cur) s = de_recvCipher cur.
Proof. intros He. unfold datagramRecvCipherLocked. rw He. cbn. by rw Z.eqb_refl. Qed.

Lemma respond_inv rnd now e body b b1 resp e' :
  respondToDatagramRekey fips rnd now e body b = (b1, Ok (resp, e')) ->
  exists pkb pk ct fresh ctb ns ik rk cur c,
    openRekeyControl now MessageTypeDatagramRekeyInit e body b = Ok pkb /\
    s_ParsePublicKey (s_kemSuite b) pkb = Ok pk /\
    s_Encapsulate (s_kemSuite b) rnd pk RoleResponder = Ok (ct, fresh) /\
    Ciphertext_Bytes ct = Ok ctb /\ send_epoch b = Ok (cur, c) /\ e' = de_epoch cur /\
    resp = be_put 8 (s_sendSeq b)
      ++ aead_seal (ae_suite c) (ae_key c) (stream_nonce (s_sendNoncePrefix b) (s_sendSeq b))
           ctb (rekeyAAD MessageTypeDatagramRekeyResponse (de_epoch cur) (s_sendSeq b)) /\
    DeriveRekeySecret (ms_bytes b) fresh = Ok ns /\ DeriveTrafficKeys ns = Ok (ik, rk) /\
    len ns = 32 /\ (exists c, NewAEAD fips (s_CipherSuite b) ik = Ok c) /\
    (exists c, NewAEAD fips (s_CipherSuite b) rk = Ok c) /\
    advanced now (b <| s_sendSeq := u64_add (s_sendSeq b) 1 |>) b1 ns ik rk cur.
Proof.
  unfold respondToDatagramRekey. intros H. stinv H. injection H as -> ->.
  destruct (sealRekeyControl_inv _ _ _ _ _ Hm3) as (ecur & ecc & Hc).
  rw (sealRekeyControl_eq _ _ _ _ _ Hc) in Hm3. injection Hm3 as <- <- <-.
  apply AdvanceDatagramEpoch_inv in Hm5 as (old & prev & ik & rk & He & Ht & Hl & Hi & Hr & Hadv).
  destruct (send_epoch_inv _ _ _ Hc) as (prev' & He' & _).
  assert (old = ecur) as -> by (cbn in He; congruence).
  by eexists _, _, _, _, _, _, ik, rk, ecur, ecc.
Qed.

Lemma complete_ok now e resp kp a ctb ct fresh ns ik rk old prev :
  openRekeyControl now MessageTypeDatagramRekeyResponse e resp a = Ok ctb ->
  s_ParseCiphertext (s_kemSuite a) ctb = Ok ct ->
  s_Decapsulate (s_kemSuite a) ct kp RoleInitiator = Ok fresh ->
  DeriveRekeySecret (ms_bytes a) fresh = Ok ns -> len ns = 32 ->
  s_dgramEpochs a = Some (mkEpochState (Some old) prev) ->
  DeriveTrafficKeys ns = Ok (ik, rk) ->
  (exists c, NewAEAD fips (s_CipherSuite a) ik = Ok c) ->
  (exists c, NewAEAD fips (s_CipherSuite a) rk = Ok c) ->
  exists a2, completeDatagramRekey fips now e resp kp a = (a2, Ok tt) /\
    advanced now a a2 ns ik rk old.
Proof.
  intros Ho Hp Hd Hn Hl He Ht Hi Hr.
  destruct (by_role (s_Role a) (ik, rk)) as [send recv] eqn:Hb.
  destruct (AdvanceDatagramEpoch_ok now ns a old prev ik rk send recv) as (a2 & e2 & HA);
    [done|done|done|done|by destruct (s_Role a); cbn in Hb; injection Hb as <- <-..|].
  exists a2. split.
  - unfold completeDatagramRekey. rw st_bind_get (st_bind_lift _ _ _ _ Ho).
    rw (st_bind_lift _ _ _ _ Hp) (st_bind_lift _ _ _ _ Hd).
    unfold deriveNextDatagramSecret. rw (st_bind_lift _ _ _ _ Hn). by rw (st_bind_ok _ _ _ _ _ HA).
  - apply AdvanceDatagramEpoch_inv in HA as (old' & prev' & ik' & rk' & He' & Ht' & _ & _ & _ & Hadv).
    rw He in He'. injection He' as <- <-. rw Ht in Ht'. apply Ok_inj in Ht' as [= <- <-]. done.
Qed.

Lemma complete_inv now e resp kp a a2 : completeDatagramRekey fips now e resp kp a = (a2, Ok tt) ->
  exists ctb ct fresh ns ik rk old prev,
    openRekeyControl now MessageTypeDatagramRekeyResponse e resp a = Ok ctb /\
    s_ParseCiphertext (s_kemSuite a) ctb = Ok ct /\
    s_Decapsulate (s_kemSuite a) ct kp RoleInitiator = Ok fresh /\
    DeriveRekeySecret (ms_bytes a) fresh = Ok ns /\
    s_dgramEpochs a = Some (mkEpochState (Some old) prev) /\
    advanced now a a2 ns ik rk old.
Proof.
  unfold completeDatagramRekey. intros H. stinv H. injection H as ->.
  apply AdvanceDatagramEpoch_inv in Hm3 as (old & prev & ik & rk & He & Ht & _ & _ & _ & Hadv).
  by eexists _, _, _, _, ik, rk, old, prev.
Qed.

(** Two sessions in step at epoch [e]: initiator [a], responder [b]. *)
Record dgram_synced (now : Z) (a b : Session) (e : Z) : Prop := {
  sy_roles : s_Role a = RoleInitiator /\ s_Role b = RoleResponder;
  sy_kem : s_kemSuite b = s_kemSuite a;
  sy_cs : s_CipherSuite b = s_CipherSuite a;
  sy_ms : s_masterSecret b = s_masterSecret a;
  sy_epochs : datagramSendEpoch a = Ok e /\ datagramSendEpoch b = Ok e;
  sy_range : 0 <= e < 256;
  sy_ab : dgram_linked now a b;
  sy_ba : dgram_linked now b a }.

Lemma linked_epoch now s r e : datagramSendEpoch s = Ok e -> dgram_linked now s r ->
  exists cur c rc prev, send_epoch s = Ok (cur, c) /\ de_epoch cur = e /\
    s_dgramEpochs s = Some (mkEpochState (Some cur) prev) /\
    datagramRecvCipherLocked now e r = Some rc /\
    ae_suite rc = ae_suite c /\ ae_key rc = ae_key c /\
    s_recvNoncePrefix r = s_sendNoncePrefix s.
Proof.
  intros He (cur & c & rc & Hs & Hr & Hcs & Hk & Hp).
  destruct (send_epoch_inv _ _ _ Hs) as (prev & Hd & _).
  assert (de_epoch cur = e) as <-.
  { unfold datagramSendEpoch, cur_epoch in He. rw Hd in He. cbn in He. congruence. }
  by exists cur, c, rc, prev.
Qed.

(** The initiator opens the responder's answer, whatever it sent in between. *)
Lemma open_response now a a' b e cur c ctb :
  dgram_synced now a b e -> send_epoch b = Ok (cur, c) -> is_u64 (s_sendSeq b) ->
  s_dgramEpochs a' = s_dgramEpochs a -> s_recvNoncePrefix a' = s_recvNoncePrefix a ->
  openRekeyControl now MessageTypeDatagramRekeyResponse e
    (be_put 8 (s_sendSeq b)
      ++ aead_seal (ae_suite c) (ae_key c) (stream_nonce (s_sendNoncePrefix b) (s_sendSeq b))
           ctb (rekeyAAD MessageTypeDatagramRekeyResponse (de_epoch cur) (s_sendSeq b))) a'
  = Ok ctb.
Proof.
  intros [_ _ _ _ [_ He] _ _ Hba] Hs Hq Hd Hp.
  destruct (linked_epoch _ _ _ _ He Hba) as (cur' & c' & rc & prev & Hs' & <- & _ & Hr & Hcs & Hk & Hpre).
  rw Hs in Hs'. apply Ok_inj in Hs' as [= <- <-].
  apply (openRekeyControl_eq now _ _ b a' (s_sendSeq b) ctb c rc); [|done|done|congruence|done].
  unfold datagramRecvCipherLocked in *. by rw Hd.
Qed.

Lemma build_inv kp a a1 body e : buildDatagramRekeyInit kp a = (a1, Ok (body, e)) ->
  exists pkb cur c, PublicKey_Bytes (KeyPair_PublicKey kp) = Ok pkb /\ send_epoch a = Ok (cur, c) /\
    e = de_epoch cur /\ a1 = a <| s_sendSeq := u64_add (s_sendSeq a) 1 |> /\
    body = be_put 8 (s_sendSeq a)
      ++ aead_seal (ae_suite c) (ae_key c) (stream_nonce (s_sendNoncePrefix a) (s_sendSeq a))
           pkb (rekeyAAD MessageTypeDatagramRekeyInit (de_epoch cur) (s_sendSeq a)).
Proof.
  unfold buildDatagramRekeyInit. intros H. apply st_bind_inv in H as (s1 & pkb & Hpk & H).
  apply st_lift_inv in Hpk as [-> Hpk].
  destruct (sealRekeyControl_inv _ _ _ _ _ H) as (cur & c & Hc).
  rw (sealRekeyControl_eq _ _ _ _ _ Hc) in H. injection H as <- <- <-.
  by exists pkb, cur, c.
Qed.
End Link.

(** The answer to the first key pair, opened with the second, leads to the same secret although
    what is hashed on the way is different. *)
Definition retry_collision {P : Primitives} {K : KEMPrimitives} (ms : list Z) (rnd : Draws) (kp1 kp2 : KeyPair) : Prop :=
  exists ct fresh fresh', Encapsulate rnd (KeyPair_PublicKey kp1) RoleResponder = Ok (ct, fresh) /\
    Decapsulate ct kp2 RoleInitiator = Ok fresh' /\
    (shake_collision (rekey_absorb ms fresh) (rekey_absorb ms fresh') \/
     chkem_collision rnd (KeyPair_PublicKey kp1) RoleResponder ct kp2 RoleInitiator).

(** Two key pairs and one answer: equal secrets mean equal keys. *)
Lemma retry_binds {P : Primitives} {PL : PrimitivesLaws P} {K : KEMPrimitives} {KL : KEMLaws K}
    kp1 kp2 pkb pk rnd ct fresh ctb ct' fresh' ms ns ns' :
  key_of chkemV1 kp1 -> key_of chkemV1 kp2 ->
  PublicKey_Bytes (KeyPair_PublicKey kp1) = Ok pkb -> s_ParsePublicKey chkemV1 pkb = Ok pk ->
  s_Encapsulate chkemV1 rnd pk RoleResponder = Ok (ct, fresh) -> Ciphertext_Bytes ct = Ok ctb ->
  s_ParseCiphertext chkemV1 ctb = Ok ct' -> s_Decapsulate chkemV1 ct' kp2 RoleInitiator = Ok fresh' ->
  DeriveRekeySecret ms fresh = Ok ns -> DeriveRekeySecret ms fresh' = Ok ns' ->
  Some ns' <> Some ns \/ KeyPair_PublicKey kp2 = KeyPair_PublicKey kp1 \/ retry_collision ms rnd kp1 kp2.
Proof.
  intros Hk1 Hk2 Hpk Hp Henc Hctb Hp' Hdec Hd Hd'.
  destruct (suite_pk_wire kp1 Hk1) as (b' & Hb' & _ & Hpar). rw Hpk in Hb'. apply Ok_inj in Hb' as <-.
  destruct (suite_ct_wire _ _ _ _ _ Henc) as (ctb' & Hctb' & _ & Hparse).
  rw Hctb in Hctb'. apply Ok_inj in Hctb' as <-. rw Hparse in Hp'. apply Ok_inj in Hp' as <-.
  destruct (decide (ns' = ns)) as [->|Hne]; [right|left; congruence].
  destruct (decaps_inv _ _ _ _ Hdec) as (? & ? & ? & ? & ? & ? & ? & _ & _ & _ & _ & _ & Hl').
  rw Hp in Hpar. apply Ok_inj in Hpar as ->. cbn in Henc, Hdec.
  destruct (DeriveRekeySecret_eq ms fresh fresh' ns) as [->|Hcol];
    [by apply (suite_secret_len (s := chkemV1) _ _ _ _ _ Henc)|by apply (DeriveCHKEMSecret_len _ _ _ _ Hl')|done|done|
    |right; exists ct, fresh, fresh'; auto].
  destruct (chkem_binds rnd _ RoleResponder ct fresh' ct kp2 RoleInitiator (ex_intro _ pkb Hp) Hk2 Henc Hdec)
    as [[Hq _]|Hcol]; [by left|right; exists ct, fresh', fresh'; auto].
Qed.

(** * Properties *)

(** A frame sealed in the sender's current epoch opens to its plaintext at a receiver that
    holds the epoch's key; the in-place variants produce the same bytes behind the caller's
    buffer. *)
Theorem dgram_delivery (P : Primitives) (PL : PrimitivesLaws P) now coarse s r e aad seq p dst dst' :
  datagramSendEpoch s = Ok e -> dgram_linked now s r ->
  (forall cur c, send_epoch s = Ok (cur, c) ->
     u64_sub seq (de_startSeq cur) < MaxPacketsBeforeRekey) ->
  exists ct, len ct = len p + 16 /\
    (DatagramSeal coarse aad seq p s).2 = Ok ct /\
    (DatagramOpen now coarse e seq ct aad r).2 = Ok p /\
    (DatagramSealTo coarse dst aad seq p s).2 = Ok (dst ++ ct) /\
    (DatagramOpenTo now coarse dst' e seq ct aad r).2 = Ok (dst' ++ p).
Proof.
  intros He Hl Hw. destruct (linked_epoch _ _ _ _ He Hl)
    as (cur & c & rc & prev & Hs & <- & _ & Hr & Hcs & Hk & Hp). specialize (Hw _ _ Hs).
  set (nonce := stream_nonce (s_sendNoncePrefix s) seq).
  exists (aead_seal (ae_suite c) (ae_key c) nonce p aad).
  pose proof (len_stream_nonce (s_sendNoncePrefix s) seq) as Hn. fold nonce in Hn.
  pose proof (aead_seal_len (ae_suite c) (ae_key c) nonce p aad) as Hlen.
  pose proof (len_nonneg p). split; [done|].
  assert (negb (MaxPacketsBeforeRekey <=? u64_sub seq (de_startSeq cur)) = true) as Hg by blia.
  repeat split.
  - unfold DatagramSeal. rw st_bind_get (st_bind_lift _ _ _ _ Hs) Hg buildAEADNonce_eq.
    erewrite st_bind_lift; [|reflexivity]. unfold SealWithNonce. fold nonce. by rw Hn.
  - unfold DatagramOpen. rw st_bind_get Hr Hp buildAEADNonce_eq.
    erewrite st_bind_lift; [|reflexivity]. fold nonce. by rw OpenWithNonce_peer.
  - unfold DatagramSealTo. rw st_bind_get (st_bind_lift _ _ _ _ Hs) Hg buildAEADNonce_eq.
    erewrite st_bind_lift; [|reflexivity]. unfold SealWithNonceTo. fold nonce. by rw Hn.
  - unfold DatagramOpenTo. rw st_bind_get Hr Hp buildAEADNonce_eq.
    erewrite st_bind_lift; [|reflexivity]. change (pad 4 (s_sendNoncePrefix s) ++ be_put 8 seq) with nonce. unfold OpenWithNonceTo. gd. gd.
    rw -Hcs -Hk. by rw aead_open_seal.
Qed.

(** Datagram sessions of either role with keys from one secret. *)
Definition example_dgram (role : Role) : Session :=
  (@InitializeDatagramKeys toy false 0 (replicate 32 5) CipherSuiteAES256GCM
     (fresh_session 0 role (replicate 16 3) (@chkemV1 toy toyKEM) None)).1
  <| s_kemSuite := @chkemV1 toy toyKEM |>.

Lemma example_dgram_linked now role : @dgram_linked now (example_dgram role) (example_dgram (Role_peer role)).
Proof.
  destruct role; eexists _, _, _; (split; [vm_compute; reflexivity|]);
    (split; [vm_compute; reflexivity|]); repeat split; vm_compute; reflexivity.
Qed.

Lemma example_dgram_synced now : dgram_synced now (example_dgram RoleInitiator) (example_dgram RoleResponder) 0.
Proof.
  split; try done.
  - apply (example_dgram_linked now RoleInitiator).
  - apply (example_dgram_linked now RoleResponder).
Qed.

Lemma dgram_delivery_witness :
  exists ct, (@DatagramSeal toy 1 [8; 8] 5 [1; 2; 3] (example_dgram RoleInitiator)).2 = Ok ct /\
    (@DatagramOpen toy 1 1 0 5 ct [8; 8] (example_dgram RoleResponder)).2 = Ok [1; 2; 3].
Proof.
  destruct (dgram_delivery toy toy_laws 1 1 (example_dgram RoleInitiator) (example_dgram RoleResponder)
    0 [8; 8] 5 [1; 2; 3] [] []) as (ct & _ & H1 & H2 & _).
  - vm_compute. reflexivity.
  - apply (example_dgram_linked 1 RoleInitiator).
  - intros cur c H. vm_compute in H. injection H as <- _. by vm_compute.
  - exists ct. split; assumption.
Defined.


(** The pieces of a run of the rekey between the two example sessions. *)
Definition example_body (kp : KeyPair) : list Z :=
  match (@buildDatagramRekeyInit toy kp (example_dgram RoleInitiator)).2 with
  | Ok (body, _) => body
  | _ => []
  end.

Definition example_answer (kp : KeyPair) : list Z :=
  match (@respondToDatagramRekey toy false (example_draws [32; 32]%nat) 3 0 (example_body kp)
           (example_dgram RoleResponder)).2 with
  | Ok (resp, _) => resp
  | _ => []
  end.


(** A rekey message the responder has answered is answered again with the same frames and
    nothing else happens, whatever its retransmission carries and however often it arrives: no
    second encapsulation, no second rotation. *)
Theorem dgram_rekey_retransmit (P : Primitives) fips rnd rnd' now now' pad e body body' ds ds1 frames :
  handleRekeyInit fips rnd now pad e body ds = (ds1, Ok frames) -> frames <> [] ->
  handleRekeyInit fips rnd' now' pad e body' ds1 = (ds1, Ok frames).
Proof.
  intros H Hne. unfold handleRekeyInit in H.
  destruct (ds_rekeyRespValid ds && (ds_rekeyRespFrom ds =? e)) eqn:Hc.
  { injection H as -> <-. unfold handleRekeyInit. by rw Hc. }
  destruct (datagramSendEpoch (ds_sess ds)) as [e0| |]; [|congruence|discriminate H].
  destruct (negb (e =? e0)); [congruence|].
  destruct (respondToDatagramRekey _ _ _ _ _ _) as [s' [[rb re]| |]]; [|congruence|discriminate H].
  destruct (fragmentRekey _ _ _ _ _) as [fr| |]; [|congruence|discriminate H].
  injection H as <- <-. unfold handleRekeyInit. cbn. by rw Z.eqb_refl.
Qed.

Definition example_ds : datagramSession :=
  mkDgramSession 7 9 (example_dgram RoleResponder) false 0 [].

Definition example_frames : list (list Z) :=
  match (@handleRekeyInit toy false (example_draws [32; 32]%nat) 3 false 0
           (example_body example_v1_key) example_ds).2 with
  | Ok frames => frames
  | _ => []
  end.

Lemma dgram_rekey_retransmit_witness :
  length example_frames = 2%nat /\
  exists ds1, @handleRekeyInit toy false (example_draws [32; 32]%nat) 3 false 0
      (example_body example_v1_key) example_ds = (ds1, Ok example_frames) /\
    @handleRekeyInit toy false (fun _ => None) 4 false 0 [1; 2; 3] ds1 = (ds1, Ok example_frames).
Proof.
  split; [vm_compute; reflexivity|].
  assert (exists ds1, @handleRekeyInit toy false (example_draws [32; 32]%nat) 3 false 0
      (example_body example_v1_key) example_ds = (ds1, Ok example_frames)) as [ds1 H]
    by (eexists; apply run_pair; vm_compute; reflexivity).
  exists ds1. split; [exact H|].
  apply (dgram_rekey_retransmit toy false (example_draws [32; 32]%nat) (fun _ => None) 3 4 false 0
    (example_body example_v1_key) [1; 2; 3] example_ds ds1 example_frames H).
  intros He. vm_compute in He. discriminate He.
Defined.

(** Retrying a rekey under a new key pair.  An initiator that gave up on a rekey and starts
    another from the same epoch gets the responder's cached answer to the first one.  If it
    completes with it, both sides move to the same next epoch, but with different secrets,
    unless the second key pair is the first or what the two sides hash collides: the sessions can
    no longer talk to each other. *)
Theorem dgram_rekey_retry_desync (P : Primitives) (PL : PrimitivesLaws P) (K : KEMPrimitives)
    (KL : KEMLaws K) fips rnd now a b a1 a2 a3 b1 e kp1 kp2 body1 body2 resp e1 e2 e3 :
  s_kemSuite a = chkemV1 -> key_of chkemV1 kp1 -> key_of chkemV1 kp2 -> dgram_synced now a b e ->
  is_u64 (s_sendSeq a) -> is_u64 (s_sendSeq b) ->
  buildDatagramRekeyInit kp1 a = (a1, Ok (body1, e1)) ->
  respondToDatagramRekey fips rnd now e1 body1 b = (b1, Ok (resp, e2)) ->
  buildDatagramRekeyInit kp2 a1 = (a2, Ok (body2, e3)) ->
  completeDatagramRekey fips now e3 resp kp2 a2 = (a3, Ok tt) ->
  datagramSendEpoch a3 = Ok (u8 (e + 1)) /\ datagramSendEpoch b1 = Ok (u8 (e + 1)) /\
  (s_masterSecret a3 <> s_masterSecret b1 \/ KeyPair_PublicKey kp2 = KeyPair_PublicKey kp1 \/
   retry_collision (ms_bytes a) rnd kp1 kp2).
Proof.
  intros Hv1 Hk1 Hk2 Hsy Hqa Hqb (pkb & cur & c & Hpk & Hc & -> & -> & ->)%build_inv Hresp
    (pkb2 & cur2 & c2 & Hpk2 & Hc2 & -> & -> & ->)%build_inv Hcomp.
  change (send_epoch a = Ok (cur2, c2)) in Hc2. rw Hc in Hc2. apply Ok_inj in Hc2 as [= <- <-].
  pose proof Hsy as [[Ra Rb] Hkem Hcs Hms [Ea Eb] Hrg Hab Hba].
  destruct (linked_epoch _ _ _ _ Ea Hab)
    as (cur' & c' & rc & prev & Hs' & He & Hda & Hr & Hrcs & Hrk & Hpre).
  rw Hc in Hs'. apply Ok_inj in Hs' as [= <- <-]. rw He in Hresp Hcomp.
  destruct (linked_epoch _ _ _ _ Eb Hba) as (cb & c2 & rc2 & prev2 & Hs2 & He2 & _).
  apply respond_inv in Hresp as (pkb' & pk & ct & fresh & ctb & ns & ik & rk & cb' & cc & Ho & Hp
    & Henc & Hctb & Hsb & -> & -> & Hd & _ & _ & _ & _ & Hadv).
  rw Hs2 in Hsb. apply Ok_inj in Hsb as [= <- <-].
  rw (openRekeyControl_eq now _ _ a b (s_sendSeq a) pkb c rc Hr Hrcs Hrk Hpre Hqa) in Ho.
  apply Ok_inj in Ho as <-. rw Hkem Hv1 in Hp Henc.
  apply complete_inv in Hcomp as (ctb' & ct' & fresh' & ns' & ik' & rk' & old & prev3 & Ho' & Hp'
    & Hdec & Hd' & Heo & Hadv').
  rw (open_response now a _ b e cb c2 ctb Hsy Hs2 Hqb) in Ho'; [done..|]. apply Ok_inj in Ho' as <-.
  assert (old = cur) as -> by (cbn in Heo; congruence).
  rw (advanced_epoch _ _ _ _ _ _ _ Hadv) (advanced_epoch _ _ _ _ _ _ _ Hadv') He He2.
  do 2 (split; [done|]). rw (ad_secret _ _ _ _ _ _ _ Hadv) (ad_secret _ _ _ _ _ _ _ Hadv').
  eapply retry_binds; [exact Hk1|exact Hk2|exact Hpk|exact Hp|exact Henc|exact Hctb| | | |exact Hd'].
  - rw -Hv1. exact Hp'.
  - rw -Hv1. exact Hdec.
  - unfold ms_bytes in *. cbn in Hd' |- *. rw -Hms. exact Hd.
Qed.

(** A second key pair and the sessions of a run that retries with it. *)
Definition example_retry_key : KeyPair :=
  v1_pair (pad 32 (replicate 32 4), replicate 32 4) (pad 1568 (replicate 64 6), replicate 64 6).
Definition example_a1 : Session := (@buildDatagramRekeyInit toy example_v1_key (example_dgram RoleInitiator)).1.
Definition example_a2 : Session := (@buildDatagramRekeyInit toy example_retry_key example_a1).1.
Definition example_body2 : list Z :=
  match (@buildDatagramRekeyInit toy example_retry_key example_a1).2 with
  | Ok (body, _) => body
  | _ => []
  end.
Definition example_a3 : Session :=
  (@completeDatagramRekey toy false 3 0 (example_answer example_v1_key) example_retry_key example_a2).1.
Definition example_b1 : Session :=
  (@respondToDatagramRekey toy false (example_draws [32; 32]%nat) 3 0 (example_body example_v1_key)
     (example_dgram RoleResponder)).1.

Lemma dgram_rekey_retry_desync_witness :
  datagramSendEpoch example_a3 = Ok 1 /\ datagramSendEpoch example_b1 = Ok 1 /\
  (s_masterSecret example_a3 <> s_masterSecret example_b1 \/
   KeyPair_PublicKey example_retry_key = KeyPair_PublicKey example_v1_key \/
   @retry_collision toy toyKEM (ms_bytes (example_dgram RoleInitiator)) (example_draws [32; 32]%nat)
     example_v1_key example_retry_key).
Proof.
  apply (dgram_rekey_retry_desync toy toy_laws toyKEM toyKEM_laws false (example_draws [32; 32]%nat) 3
    (example_dgram RoleInitiator) (example_dgram RoleResponder) example_a1 example_a2 example_a3
    example_b1 0 example_v1_key example_retry_key (example_body example_v1_key) example_body2
    (example_answer example_v1_key) 0 0 0).
  - reflexivity.
  - left. exists (example_draws [32; 64]%nat). vm_compute. reflexivity.
  - right. exists (replicate 32 4 ++ replicate 64 6). vm_compute. reflexivity.
  - apply example_dgram_synced.
  - split; by vm_compute.
  - split; by vm_compute.
  - unfold example_a1. apply run_pair. vm_compute. reflexivity.
  - unfold example_b1. apply run_pair. vm_compute. reflexivity.
  - unfold example_a2. apply run_pair. vm_compute. reflexivity.
  - unfold example_a3. apply run_pair. vm_compute. reflexivity.
Defined.
