(* ===== verification/Handshake.v ===== *)
(** The handshake: [pkg/tunnel/handshake.go].

    The messages a peer creates and processes, as methods on the record [Handshake], which
    contains the session.  Both the stream drivers and the datagram state machine are built from
    them.  Randomness and the clock are arguments: [rnd] is the draw of a hello's random, [krnd]
    the draws of the key operation that follows it.  [MustSecureRandomBytes] panics when the
    CSPRNG fails. *)

From Corelib Require Import ssreflect.
From stdpp Require Import base tactics list numbers strings.
From Stdlib Require Import ZArith Lia.
From S2P Require Import Prelude Base Messages Codec Replay Crypto Chkem Ticket Session DgramSession.

Local Open Scope Z_scope.
Local Open Scope go_scope.

(** * State *)

Inductive HandshakeState :=
  | HandshakeStateInitial | HandshakeStateClientHelloSent | HandshakeStateServerHelloSent
  | HandshakeStateServerHelloReceived | HandshakeStateServerFinishedSent
  | HandshakeStateServerFinishedReceived | HandshakeStateComplete | HandshakeStateFailed.

#[export] Instance HandshakeState_eq_dec : EqDecision HandshakeState.
Proof. solve_decision. Defined.

Record Handshake := mkHandshake {
  h_session : Session;
  h_state : HandshakeState;
  h_clientRandom : option (list Z);
  h_serverRandom : option (list Z);
  h_sharedSecret : option (list Z);
  h_staticSecret : option (list Z);
  h_foldPSK : bool;
  h_pskKey : list Z;
  h_sendCipher : option AEAD;
  h_recvCipher : option AEAD;
  h_transcript : list Z;
  h_firstClientHello : option (list Z);
  h_sendHRR : bool;
  h_hrrSuite : Z;
  h_hrrDone : bool;
  h_ticket : option (list Z);
  h_ticketSecret : list Z;
  h_ticketManager : option TicketManager;
  h_resumed : bool;
  h_datagram : bool }.

#[export] Instance Handshake_eta : Eta Handshake := {| eta := fun h =>
  mkHandshake (h_session h) (h_state h) (h_clientRandom h) (h_serverRandom h) (h_sharedSecret h)
    (h_staticSecret h) (h_foldPSK h) (h_pskKey h) (h_sendCipher h) (h_recvCipher h)
    (h_transcript h) (h_firstClientHello h) (h_sendHRR h) (h_hrrSuite h) (h_hrrDone h)
    (h_ticket h) (h_ticketSecret h) (h_ticketManager h) (h_resumed h) (h_datagram h) |}.

Definition NewHandshake (session : Session) : Handshake :=
  mkHandshake session HandshakeStateInitial None None None None false [] None None [] None
    false 0 false None [] None false false.

Definition SetTicket (ticket secret : list Z) (h : Handshake) : Handshake :=
  h <| h_ticket := Some ticket |> <| h_ticketSecret := secret |>.

Definition SetTicketManager (tm : TicketManager) (h : Handshake) : Handshake :=
  h <| h_ticketManager := Some tm |>.

Definition in_state (h : Handshake) (st : HandshakeState) : bool := bool_decide (h_state h = st).

(** A method on the session, run from the handshake. *)
Definition on_session {A} (m : ST Session error A) : ST Handshake error A :=
  fun h => let '(s, o) := m (h_session h) in (h <| h_session := s |>, o).

Definition set_session (f : Session -> Session) : ST Handshake error unit :=
  st_mod (fun h => h <| h_session := f (h_session h) |>).

(** The secret as the code passes it; nil has length zero. *)
Definition secret_of (h : Handshake) : list Z := default [] (h_sharedSecret h).

(** * Negotiation *)

Definition ClientFinishedLabel : list Z := bytes_of_string "CH-KEM-Tunnel-ClientFinished".
Definition ServerFinishedLabel : list Z := bytes_of_string "CH-KEM-Tunnel-ServerFinished".

(** The first offered suite that is supported, or 0. *)
Definition selectCipherSuite (fips : bool) (offered : list CipherSuite) : CipherSuite :=
  match filter (fun o => o ∈ SupportedCipherSuites fips) offered with
  | o :: _ => o
  | [] => 0
  end.

Definition supportedKEMSuiteIDs : list Z := map u16 SupportedSuites.

Definition offeredKEMSuite (wireID : Z) : bool :=
  existsb (fun id => u16 id =? wireID) SupportedSuites.

(** The first local suite the client also offers. *)
Definition selectMutualKEMSuite (clientSuites : list Z) : option Z :=
  match filter (fun local => u16 local ∈ clientSuites) SupportedSuites with
  | local :: _ => Some local
  | [] => None
  end.

Definition ConstantTimeCompare (a b : list Z) : bool := bool_decide (a = b).

Section Handshake.
Context {P : Primitives} {K : KEMPrimitives} (fips : bool).

Definition resolveKEMSuite (wireID : Z) : outcome error Suite :=
  match GetSuite wireID with
  | Some suite => Ok suite
  | None => Err ErrUnsupportedKEMSuite
  end.

Definition MustSecureRandomBytes (rnd : Draws) (n : Z) : outcome error (list Z) :=
  match SecureRandomBytes rnd 0 n with
  | Ok b => Ok b
  | _ => Panic
  end.

(** * Helpers *)

Definition initializeSessionKeys (now : Z) : ST Handshake error unit :=
  do! h := st_get in
  if h_datagram h
  then on_session (InitializeDatagramKeys fips now (secret_of h) (s_CipherSuite (h_session h)))
  else on_session (InitializeKeys fips now (secret_of h) (s_CipherSuite (h_session h))).

Definition foldStaticSecret : ST Handshake error unit :=
  do! h := st_get in
  match h_staticSecret h with
  | None => st_ret tt
  | Some ss =>
      do! mixed := st_lift (DeriveAuthenticatedSecret (secret_of h) ss) in
      st_mod (fun h => h <| h_sharedSecret := Some mixed |> <| h_staticSecret := None |>)
  end.

Definition foldPSKSecret : ST Handshake error unit :=
  do! h := st_get in
  if negb (h_foldPSK h) then st_ret tt
  else
    do! mixed := st_lift (DerivePSKSecret (secret_of h) (h_pskKey h)) in
    st_mod (fun h => h <| h_sharedSecret := Some mixed |>).

(** An assignment [x, err = NewAEAD(...)] stores nil on an error. *)
Definition deriveHandshakeKeys : ST Handshake error unit :=
  do! h := st_get in
  do! '(initiatorKey, responderKey, _, _) := st_lift (DeriveHandshakeKeys (secret_of h)) in
  let '(sendKey, recvKey) := by_role (s_Role (h_session h)) (initiatorKey, responderKey) in
  do! _ := st_mod (fun h => h <| h_sendCipher := None |>) in
  do! send := st_lift (NewAEAD fips (s_CipherSuite (h_session h)) sendKey) in
  do! _ := st_mod (fun h => h <| h_sendCipher := Some send |> <| h_recvCipher := None |>) in
  do! recv := st_lift (NewAEAD fips (s_CipherSuite (h_session h)) recvKey) in
  st_mod (fun h => h <| h_recvCipher := Some recv |>).

(** The two folds and the handshake keys, as both hello handlers end. *)
Definition fold_and_derive : ST Handshake error unit :=
  do! _ := foldStaticSecret in
  do! _ := foldPSKSecret in
  deriveHandshakeKeys.

Definition replaceFirstHelloWithHash (hrrFrame : list Z) : ST Handshake error unit :=
  do! h := st_get in
  do! ch1Hash := st_lift (TranscriptHash [default [] (h_firstClientHello h)]) in
  st_mod (fun h => h <| h_transcript := ch1Hash ++ hrrFrame |>).

(** [h.transcript.Write(data)] *)
Definition write_transcript (data : list Z) : ST Handshake error unit :=
  st_mod (fun h => h <| h_transcript := h_transcript h ++ data |>).

Definition responderPSK (s : Session) (identity : list Z) : option (list Z) :=
  if len identity =? 0 then None
  else match s_PSKLookup s with
       | Some lookup => match lookup identity with
                        | Some key => if len key =? PSKSize then Some key else None
                        | None => None
                        end
       | None => match s_PSK s with
                 | Some psk => if bool_decide (identity = s_PSKIdentity s) then Some psk else None
                 | None => None
                 end
       end.

Definition cleanup : ST Handshake error unit :=
  st_mod (fun h => h <| h_sharedSecret := None |> <| h_clientRandom := None |>
                     <| h_serverRandom := None |> <| h_sendCipher := None |>
                     <| h_recvCipher := None |> <| h_transcript := [] |>).

(** The secret after the KEM: mixed with the ticket's when resuming. *)
Definition resumption_mix (freshSecret : list Z) : ST Handshake error unit :=
  do! h := st_get in
  if h_resumed h then
    do! _ := st_mod (fun h => h <| h_sharedSecret := None |>) in
    do! mixed := st_lift (DeriveResumptionSecret (h_ticketSecret h) freshSecret) in
    st_mod (fun h => h <| h_sharedSecret := Some mixed |>)
  else st_mod (fun h => h <| h_sharedSecret := Some freshSecret |>).

(** [verify_data] of a Finished message. *)
Definition verify_data (label : list Z) (h : Handshake) : outcome error (list Z) :=
  DeriveKeyMultiple label [secret_of h; h_transcript h] 32.

(** [h.sendCipher.Seal(plaintext, nil)]: advances the cipher's nonce counter. *)
Definition seal_finished (plaintext : list Z) : ST Handshake error (list Z) :=
  do! h := st_get in
  match h_sendCipher h with
  | None => st_lift Panic
  | Some c => let '(c', o) := Seal plaintext [] c in
              do! _ := st_mod (fun h => h <| h_sendCipher := Some c' |>) in
              st_lift o
  end.

(** Opening and verifying a Finished message; the plaintext joins the transcript. *)
Definition verify_finished (label data : list Z) : ST Handshake error (list Z) :=
  do! h := st_get in
  match h_recvCipher h with
  | None => st_lift Panic
  | Some c =>
      match Open c data [] with
      | Panic => st_lift Panic
      | Err _ => st_err (NewProtocolError "handshake" ErrAuthenticationFailed)
      | Ok plaintext =>
          do! verifyData := st_lift (DecodeFinished plaintext) in
          do! expectedVerifyData := st_lift (verify_data label h) in
          check! ConstantTimeCompare verifyData expectedVerifyData
            else NewProtocolError "handshake" ErrAuthenticationFailed in
          st_ret plaintext
      end
  end.

(** * The initiator *)

(** The static leg: encapsulate to the pinned server key. *)
Definition static_encapsulate (krnd : Draws) : ST Handshake error (list Z) :=
  do! h := st_get in
  match s_PinnedServerKey (h_session h) with
  | None => st_ret []
  | Some pinned =>
      do! staticSuite := st_lift (resolveKEMSuite (u16 (PublicKey_Suite pinned))) in
      do! '(staticCT, staticSecret) := st_lift (s_Encapsulate staticSuite krnd pinned RoleInitiator) in
      do! _ := st_mod (fun h => h <| h_staticSecret := Some staticSecret |>) in
      st_lift (Ciphertext_Bytes staticCT)
  end.

(** The PSK leg: advertise the identity and note the key to fold. *)
Definition psk_advertise : ST Handshake error (list Z) :=
  do! h := st_get in
  match s_PSK (h_session h) with
  | None => st_ret []
  | Some psk =>
      do! _ := st_mod (fun h => h <| h_foldPSK := true |> <| h_pskKey := psk |>) in
      st_ret (s_PSKIdentity (h_session h))
  end.

(** The client's random, drawn once and kept across a retry. *)
Definition client_random (rnd : Draws) : ST Handshake error (list Z) :=
  do! h := st_get in
  match h_clientRandom h with
  | Some r => st_ret r
  | None =>
      do! r := st_lift (MustSecureRandomBytes rnd 32) in
      do! _ := st_mod (fun h => h <| h_clientRandom := Some r |>) in
      st_ret r
  end.

Definition CreateClientHello (rnd krnd : Draws) : ST Handshake error (list Z) :=
  do! h := st_get in
  check! in_state h HandshakeStateInitial else ErrInvalidState in
  do! clientRandom := client_random rnd in
  do! pk := st_lift (match s_LocalKeyPair (h_session h) with
                     | Some kp => PublicKey_Bytes (KeyPair_PublicKey kp)
                     | None => Panic
                     end) in
  do! staticCT := static_encapsulate krnd in
  do! identity := psk_advertise in
  do! data := st_lift (EncodeClientHello
    (mkClientHello Current clientRandom (default [] (h_ticket h))
       (u16 (s_ID (s_kemSuite (h_session h)))) supportedKEMSuiteIDs pk
       (SupportedCipherSuites fips) staticCT identity)) in
  do! _ := write_transcript data in
  do! _ := st_mod (fun h => match h_firstClientHello h with
                            | None => h <| h_firstClientHello := Some data |>
                            | Some _ => h
                            end) in
  do! _ := st_mod (fun h => h <| h_state := HandshakeStateClientHelloSent |>) in
  do! _ := set_session (fun s => s <| s_state := SessionStateHandshaking |>) in
  st_ret data.

Definition ProcessHelloRetryRequest (krnd : Draws) (data : list Z) : ST Handshake error unit :=
  do! h := st_get in
  check! in_state h HandshakeStateClientHelloSent else ErrInvalidState in
  check! negb (h_hrrDone h) else ErrUnsupportedKEMSuite in
  do! msg := st_lift (DecodeHelloRetryRequest data) in
  check! IsCompatible (hrr_Version msg) Current else ErrUnsupportedVersion in
  do! suite := st_lift (resolveKEMSuite (hrr_KEMSuite msg)) in
  check! offeredKEMSuite (hrr_KEMSuite msg) else ErrUnsupportedKEMSuite in
  do! newKeyPair := st_lift (s_GenerateKeyPair suite krnd) in
  do! _ := set_session (fun s => s <| s_kemSuite := suite |>
                                   <| s_LocalKeyPair := Some newKeyPair |>) in
  do! _ := replaceFirstHelloWithHash data in
  st_mod (fun h => h <| h_hrrDone := true |> <| h_state := HandshakeStateInitial |>).

(** [len(msg.SessionID) > 0 && h.ticket != nil && bytes.Equal(msg.SessionID, h.ticket)] *)
Definition resumption_accepted (sessionID : list Z) (h : Handshake) : bool :=
  (0 <? len sessionID) && bool_decide (h_ticket h = Some sessionID).

(** A nil key pair is refused by [Decapsulate] of either suite. *)
Definition decapsulate_local (ct : Ciphertext) (s : Session) : outcome error (list Z) :=
  match s_LocalKeyPair s with
  | Some kp => s_Decapsulate (s_kemSuite s) ct kp RoleInitiator
  | None => Err ErrInvalidPrivateKey
  end.

Definition ProcessServerHello (data : list Z) : ST Handshake error unit :=
  do! h := st_get in
  check! in_state h HandshakeStateClientHelloSent else ErrInvalidState in
  do! msg := st_lift (DecodeServerHello data) in
  check! IsCompatible (sh_Version msg) Current else ErrUnsupportedVersion in
  check! sh_KEMSuite msg =? u16 (s_ID (s_kemSuite (h_session h))) else ErrUnsupportedKEMSuite in
  do! _ := st_mod (fun h => if resumption_accepted (sh_SessionID msg) h
                            then h <| h_resumed := true |> else h) in
  do! _ := st_mod (fun h => h <| h_serverRandom := Some (sh_Random msg) |>) in
  do! ct := st_lift (s_ParseCiphertext (s_kemSuite (h_session h)) (sh_CHKEMCiphertext msg)) in
  do! freshSecret := st_lift (decapsulate_local ct (h_session h)) in
  do! _ := resumption_mix freshSecret in
  do! _ := write_transcript data in
  do! _ := set_session (fun s => s <| s_SessionID := sh_SessionID msg |>
                                   <| s_Version := sh_Version msg |>
                                   <| s_CipherSuite := sh_CipherSuite msg |>) in
  do! _ := fold_and_derive in
  st_mod (fun h => h <| h_state := HandshakeStateServerHelloReceived |>).

Definition ProcessServerFinished (data : list Z) : ST Handshake error unit :=
  do! h := st_get in
  check! in_state h HandshakeStateServerHelloReceived && bool_decide (is_Some (h_recvCipher h))
    else ErrInvalidState in
  do! plaintext := verify_finished ServerFinishedLabel data in
  do! _ := write_transcript plaintext in
  st_mod (fun h => h <| h_state := HandshakeStateServerFinishedReceived |>).

Definition CreateClientFinished (now : Z) : ST Handshake error (list Z) :=
  do! h := st_get in
  check! in_state h HandshakeStateServerFinishedReceived && bool_decide (is_Some (h_sendCipher h))
    else ErrInvalidState in
  do! verifyData := st_lift (verify_data ClientFinishedLabel h) in
  do! plaintext := st_lift (EncodeFinished MessageTypeClientFinished verifyData) in
  do! ciphertext := seal_finished plaintext in
  do! _ := initializeSessionKeys now in
  do! _ := st_mod (fun h => h <| h_state := HandshakeStateComplete |>) in
  do! _ := cleanup in
  st_ret ciphertext.

(** * The responder *)

(** Resumption: a ticket that does not decrypt is ignored. *)
Definition try_resume (now : Z) (sessionID : list Z) : ST Handshake error unit :=
  do! h := st_get in
  match h_ticketManager h with
  | Some tm =>
      if 0 <? len sessionID then
        match Resume fips now sessionID tm (h_session h) with
        | (s', Ok secret) =>
            st_mod (fun h => h <| h_session := s' <| s_SessionID := sessionID |> |>
                               <| h_resumed := true |> <| h_ticketSecret := secret |>)
        | (s', Err _) => st_mod (fun h => h <| h_session := s' |>)
        | (s', Panic) => st_lift Panic
        end
      else st_ret tt
  | None => st_ret tt
  end.

(** The static leg: recover the secret the client encapsulated to the server's identity. *)
Definition static_decapsulate (staticCiphertext : list Z) : ST Handshake error unit :=
  do! h := st_get in
  match s_StaticKeyPair (h_session h) with
  | Some kp =>
      if 0 <? len staticCiphertext then
        do! staticSuite := st_lift (resolveKEMSuite (u16 (KeyPair_Suite kp))) in
        do! staticCT := st_lift (s_ParseCiphertext staticSuite staticCiphertext) in
        do! staticSecret := st_lift (s_Decapsulate staticSuite staticCT kp RoleResponder) in
        st_mod (fun h => h <| h_staticSecret := Some staticSecret |>)
      else st_ret tt
  | None => st_ret tt
  end.

(** The PSK leg: the key of the identity, or a random one when a PSK is required. *)
Definition psk_select (krnd : Draws) (identity : list Z) : ST Handshake error unit :=
  do! h := st_get in
  match responderPSK (h_session h) identity with
  | Some key => st_mod (fun h => h <| h_foldPSK := true |> <| h_pskKey := key |>)
  | None =>
      if s_RequirePSK (h_session h) then
        do! dummy := st_lift (SecureRandomBytes krnd 0 PSKSize) in
        st_mod (fun h => h <| h_foldPSK := true |> <| h_pskKey := dummy |>)
      else st_ret tt
  end.

Definition ProcessClientHello (krnd : Draws) (now : Z) (data : list Z) : ST Handshake error unit :=
  do! h := st_get in
  check! in_state h HandshakeStateInitial else ErrInvalidState in
  do! msg := st_lift (DecodeClientHello data) in
  check! IsCompatible (ch_Version msg) Current else ErrUnsupportedVersion in
  match GetSuite (ch_KEMSuite msg) with
  | None =>
      check! negb (h_hrrDone h) else ErrUnsupportedKEMSuite in
      match selectMutualKEMSuite (ch_KEMSuites msg) with
      | None => st_err ErrUnsupportedKEMSuite
      | Some mutual => st_mod (fun h => h <| h_firstClientHello := Some data |>
                                          <| h_hrrSuite := mutual |> <| h_sendHRR := true |>)
      end
  | Some suite =>
      do! _ := set_session (fun s => s <| s_kemSuite := suite |>) in
      do! _ := st_mod (fun h => h <| h_clientRandom := Some (ch_Random msg) |>) in
      do! _ := try_resume now (ch_SessionID msg) in
      do! clientPublicKey := st_lift (s_ParsePublicKey suite (ch_CHKEMPublicKey msg)) in
      do! _ := set_session (fun s => s <| s_RemotePublicKey := Some clientPublicKey |>) in
      check! negb (s_RequireStaticAuth (h_session h) && (len (ch_CHKEMStaticCiphertext msg) =? 0))
        else ErrStaticAuthRequired in
      do! _ := static_decapsulate (ch_CHKEMStaticCiphertext msg) in
      do! _ := psk_select krnd (ch_PSKIdentity msg) in
      let cs := selectCipherSuite fips (ch_CipherSuites msg) in
      do! _ := set_session (fun s => s <| s_CipherSuite := cs |>) in
      check! CipherSuite_IsSupported cs else ErrUnsupportedCipherSuite in
      do! _ := write_transcript data in
      set_session (fun s => s <| s_Version := ch_Version msg |>
                              <| s_state := SessionStateHandshaking |>)
  end.

Definition CreateHelloRetryRequest : ST Handshake error (list Z) :=
  do! h := st_get in
  check! h_sendHRR h else ErrInvalidState in
  do! data := st_lift (EncodeHelloRetryRequest (mkHelloRetryRequest Current (u16 (h_hrrSuite h)))) in
  do! _ := replaceFirstHelloWithHash data in
  do! _ := st_mod (fun h => h <| h_sendHRR := false |> <| h_hrrDone := true |>) in
  st_ret data.

Definition CreateServerHello (rnd krnd : Draws) : ST Handshake error (list Z) :=
  do! h := st_get in
  match s_RemotePublicKey (h_session h) with
  | None => st_err ErrInvalidState
  | Some remote =>
      do! serverRandom := st_lift (MustSecureRandomBytes rnd 32) in
      do! _ := st_mod (fun h => h <| h_serverRandom := Some serverRandom |>) in
      let s := h_session h in
      do! '(ct, freshSecret) := st_lift (s_Encapsulate (s_kemSuite s) krnd remote RoleResponder) in
      do! ctBytes := st_lift (Ciphertext_Bytes ct) in
      do! _ := resumption_mix freshSecret in
      do! data := st_lift (EncodeServerHello
        (mkServerHello Current serverRandom (s_SessionID s) (u16 (s_ID (s_kemSuite s))) ctBytes
           (s_CipherSuite s))) in
      do! _ := write_transcript data in
      do! _ := fold_and_derive in
      do! _ := st_mod (fun h => h <| h_state := HandshakeStateServerHelloSent |>) in
      st_ret data
  end.

Definition CreateServerFinished : ST Handshake error (list Z) :=
  do! h := st_get in
  check! in_state h HandshakeStateServerHelloSent && bool_decide (is_Some (h_sendCipher h))
    else ErrInvalidState in
  do! verifyData := st_lift (verify_data ServerFinishedLabel h) in
  do! plaintext := st_lift (EncodeFinished MessageTypeServerFinished verifyData) in
  do! ciphertext := seal_finished plaintext in
  do! _ := write_transcript plaintext in
  do! _ := st_mod (fun h => h <| h_state := HandshakeStateServerFinishedSent |>) in
  st_ret ciphertext.

Definition ProcessClientFinished (now : Z) (data : list Z) : ST Handshake error unit :=
  do! h := st_get in
  check! in_state h HandshakeStateServerFinishedSent else ErrInvalidState in
  do! _ := verify_finished ClientFinishedLabel data in
  do! _ := initializeSessionKeys now in
  do! _ := st_mod (fun h => h <| h_state := HandshakeStateComplete |>) in
  cleanup.
End Handshake.

(** * The stream drivers *)

(** The connection: the bytes still to be read, what was written so far, and the results of the
    writes to come (a missing entry is a success). *)
Record Conn := mkConn {
  cn_in : list Z;
  cn_out : list (list Z);
  cn_wfail : list bool }.

#[export] Instance Conn_eta : Eta Conn := {| eta := fun c =>
  mkConn (cn_in c) (cn_out c) (cn_wfail c) |}.

(** A driver works on the handshake and the connection. *)
Definition Driver (A : Type) : Type := ST (Handshake * Conn) error A.

Definition on_handshake {A} (m : ST Handshake error A) : Driver A :=
  fun '(h, c) => let '(h', o) := m h in ((h', c), o).

Definition rw_Write (b : list Z) : Driver unit :=
  fun '(h, c) =>
    if default false (head (cn_wfail c)) then ((h, c <| cn_wfail := tail (cn_wfail c) |>), Err (ErrExternal "write"))
    else ((h, c <| cn_out := cn_out c ++ [b] |> <| cn_wfail := tail (cn_wfail c) |>), Ok tt).

(** A reader of the input stream. *)
Definition rw_Read {A} (m : ST (list Z) error A) : Driver A :=
  fun '(h, c) => let '(i, o) := m (cn_in c) in ((h, c <| cn_in := i |>), o).

Definition encryptedRecord (ciphertext : list Z) : list Z :=
  be_put 4 (u32 (len ciphertext)) ++ ciphertext.

Definition writeEncryptedRecord (ciphertext : list Z) : Driver unit :=
  rw_Write (encryptedRecord ciphertext).

Definition readEncryptedRecord : ST (list Z) error (list Z) :=
  do! lenBuf := ReadFull 4 in
  do! length := st_lift (get_be 4 lenBuf 0) in
  check! negb (MaxMessageSize <? length) else ErrMessageTooLarge in
  ReadFull length.

(** [sendHandshakeAlert]: best effort, its error is dropped. *)
Definition sendHandshakeAlert (code : Z) (desc : string) : Driver unit :=
  fun s => match EncodeAlert AlertLevelFatal code (bytes_of_string desc) with
           | Ok msg => ((rw_Write msg s).1, Ok tt)
           | Err _ => (s, Ok tt)
           | Panic => (s, Panic)
           end.

(** [if err := m; err != nil { sendHandshakeAlert(...); return f(err) }] *)
Definition or_alert {A} (m : Driver A) (f : error -> error) : Driver A :=
  fun s => match m s with
           | (s', Err e) => match sendHandshakeAlert AlertCodeHandshakeFailure "handshake failed" s' with
                            | (s'', Panic) => (s'', Panic)
                            | (s'', _) => (s'', Err (f e))
                            end
           | r => r
           end.

Section Drivers.
Context {P : Primitives} {K : KEMPrimitives} (fips : bool).

(** The draws a driver's operations take, in order. *)
Definition initiatorExchangeHellos (rnd krnd hrnd krnd2 : Draws) : Driver unit :=
  do! clientHello := on_handshake (CreateClientHello fips rnd krnd) in
  do! _ := rw_Write clientHello in
  do! msg := rw_Read ReadMessage in
  do! t := st_lift (idx msg 0) in
  do! msg :=
    if t =? MessageTypeHelloRetryRequest then
      do! _ := or_alert (on_handshake (ProcessHelloRetryRequest hrnd msg)) (fun e => e) in
      do! retry := on_handshake (CreateClientHello fips rnd krnd2) in
      do! _ := rw_Write retry in
      rw_Read ReadMessage
    else st_ret msg in
  or_alert (on_handshake (ProcessServerHello fips msg)) (fun e => e).

Definition responderExchangeHellos (now : Z) (prnd prnd2 rnd krnd : Draws) : Driver unit :=
  do! clientHello := rw_Read ReadMessage in
  do! _ := or_alert (on_handshake (ProcessClientHello fips prnd now clientHello)) (fun e => e) in
  do! '(h, _) := st_get in
  do! _ :=
    if h_sendHRR h then
      do! hrr := on_handshake CreateHelloRetryRequest in
      do! _ := rw_Write hrr in
      do! retry := rw_Read ReadMessage in
      or_alert (on_handshake (ProcessClientHello fips prnd2 now retry)) (fun e => e)
    else st_ret tt in
  do! serverHello := on_handshake (CreateServerHello fips rnd krnd) in
  do! serverFinished := on_handshake CreateServerFinished in
  rw_Write (serverHello ++ encryptedRecord serverFinished).

(** [if h.session.PinnedServerKey != nil { return ErrServerKeyMismatch }; return err] *)
Definition pinned_error (h : Handshake) (e : error) : error :=
  match s_PinnedServerKey (h_session h) with
  | Some _ => ErrServerKeyMismatch
  | None => e
  end.

Definition initiatorFinish (now : Z) : Driver unit :=
  do! '(h, _) := st_get in
  do! serverFinished := (fun s => match rw_Read readEncryptedRecord s with
                                  | (s', Err e) => (s', Err (pinned_error h e))
                                  | r => r
                                  end) in
  do! _ := or_alert (on_handshake (ProcessServerFinished serverFinished)) (pinned_error h) in
  do! clientFinished := on_handshake (CreateClientFinished fips now) in
  writeEncryptedRecord clientFinished.

Definition responderFinish (now : Z) : Driver unit :=
  do! clientFinished := rw_Read readEncryptedRecord in
  or_alert (on_handshake (ProcessClientFinished fips now clientFinished)) (fun e => e).

Definition InitiatorHandshake (rnd krnd hrnd krnd2 : Draws) (now : Z) (session : Session) (c : Conn)
    : (Handshake * Conn) * outcome error unit :=
  (do! _ := initiatorExchangeHellos rnd krnd hrnd krnd2 in
   initiatorFinish now) (NewHandshake session, c).

Definition ResponderHandshake (prnd prnd2 rnd krnd : Draws) (now : Z) (session : Session) (c : Conn)
    : (Handshake * Conn) * outcome error unit :=
  (do! _ := responderExchangeHellos now prnd prnd2 rnd krnd in
   responderFinish now) (NewHandshake session, c).

Definition InitiatorResumptionHandshake (rnd krnd hrnd krnd2 : Draws) (now : Z) (session : Session)
    (ticket secret : list Z) (c : Conn) : (Handshake * Conn) * outcome error unit :=
  (do! _ := initiatorExchangeHellos rnd krnd hrnd krnd2 in
   initiatorFinish now) (SetTicket ticket secret (NewHandshake session), c).

Definition ResponderResumptionHandshake (prnd prnd2 rnd krnd : Draws) (now : Z) (session : Session)
    (tm : TicketManager) (c : Conn) : (Handshake * Conn) * outcome error unit :=
  (do! _ := responderExchangeHellos now prnd prnd2 rnd krnd in
   responderFinish now) (SetTicketManager tm (NewHandshake session), c).
End Drivers.
