(* ===== verification/Hellos.v ===== *)
(** The hello exchange, from both ends.

    Lemmas about [Handshake]: the key schedule as a function of the exchanged secrets, what an
    initiator that sent a client hello did, that a responder whose configuration matches
    accepts it, and that the initiator derives from the answer what the responder derived,
    whether or not they use a static key, a PSK or a resumption ticket. *)

From Corelib Require Import ssreflect.
From stdpp Require Import base tactics list numbers strings.
From Stdlib Require Import ZArith Lia.
From S2P Require Import Prelude Base Messages Codec Replay Crypto Chkem Ticket Session DgramSession.
From S2P Require Import Handshake.

Local Open Scope Z_scope.
Local Open Scope go_scope.

(** * The key schedule *)

Section KeySchedule.
Context {P : Primitives} {PL : PrimitivesLaws P} (fips : bool).

(** The folds both hello handlers apply to the KEM secret, as one function. *)
Definition folds (s0 : list Z) (static psk : option (list Z)) : outcome error (list Z) :=
  let! s := match static with Some x => DeriveAuthenticatedSecret s0 x | None => Ok s0 end in
  match psk with Some k => DerivePSKSecret s k | None => Ok s end.

Definition psk_of (h : Handshake) : option (list Z) :=
  if h_foldPSK h then Some (h_pskKey h) else None.

(** A fresh cipher. *)
Definition fresh_cipher (cs : CipherSuite) (key : list Z) : AEAD := mkAEAD cs key 0 MaxPacketsBeforeRekey.

(** The handshake [h'] after the key schedule ran on [h]. *)
Record hs_after (h h' : Handshake) (ms ik rk : list Z) : Prop := {
  ha_secret : h_sharedSecret h' = Some ms;
  ha_session : h_session h' = h_session h;
  ha_transcript : h_transcript h' = h_transcript h;
  ha_datagram : h_datagram h' = h_datagram h;
  ha_send : h_sendCipher h' = Some (fresh_cipher (s_CipherSuite (h_session h))
              (by_role (s_Role (h_session h)) (ik, rk)).1);
  ha_recv : h_recvCipher h' = Some (fresh_cipher (s_CipherSuite (h_session h))
              (by_role (s_Role (h_session h)) (ik, rk)).2) }.

Lemma NewAEAD_eq cs key c : NewAEAD fips cs key = Ok c -> c = fresh_cipher cs key.
Proof. unfold NewAEAD. intros H. okinv H. by apply Ok_inj in H as <-. Qed.

(** Whether a suite can be used does not depend on the key. *)
Definition suite_usable (cs : CipherSuite) : Prop :=
  forall key, len key = 32 -> NewAEAD fips cs key = Ok (fresh_cipher cs key).

Lemma NewAEAD_usable cs key c : NewAEAD fips cs key = Ok c -> suite_usable cs.
Proof.
  intros H key' Hl. destruct (NewAEAD_ok _ _ _ key' _ H Hl) as [c' Hc].
  rw Hc. by rw (NewAEAD_eq _ _ _ Hc).
Qed.

Lemma DeriveHandshakeKeys_ok ms : len ms = 32 ->
  exists ik rk x y, DeriveHandshakeKeys ms = Ok (ik, rk, x, y) /\ len ik = 32 /\ len rk = 32.
Proof.
  intros Hm. unfold DeriveHandshakeKeys. gd.
  rw DeriveKey_absorbs; [by vm_compute|unfold fits32; lia|done|]. rw obind_Ok_l. cbv zeta.
  set (m := shake256 _ _). assert (len m = 88) as Hl by (by apply shake256_len).
  destruct (slice_in (E := error) m 0 (0 + AESKeySize)) as [a Ha]; [golia|golia|].
  destruct (slice_in (E := error) m (0 + AESKeySize) (0 + AESKeySize + AESKeySize)) as [b Hb]; [golia|golia|].
  destruct (slice_in (E := error) m (0 + AESKeySize + AESKeySize)
    (0 + AESKeySize + AESKeySize + AESNonceSize)) as [c Hc]; [golia|golia|].
  destruct (slice_in (E := error) m (0 + AESKeySize + AESKeySize + AESNonceSize)
    (0 + AESKeySize + AESKeySize + AESNonceSize + AESNonceSize)) as [d Hd]; [golia|golia|].
  rw Ha obind_Ok_l Hb obind_Ok_l Hc obind_Ok_l Hd obind_Ok_l. exists a, b, c, d.
  apply slice_inv in Ha as (_ & _ & ->), Hb as (_ & _ & ->). split; [done|].
  autounfold with gosz. split; unfold len in *; rw length_take length_drop; lia.
Qed.

Lemma foldStaticSecret_ok h s0 s1 : h_sharedSecret h = Some s0 ->
  match h_staticSecret h with Some x => DeriveAuthenticatedSecret s0 x | None => Ok s0 end = Ok s1 ->
  exists h', foldStaticSecret h = (h', Ok tt) /\ h_sharedSecret h' = Some s1 /\
    h_session h' = h_session h /\ h_transcript h' = h_transcript h /\
    h_datagram h' = h_datagram h /\ psk_of h' = psk_of h.
Proof.
  intros Hs Hf. unfold foldStaticSecret. rw st_bind_get. destruct (h_staticSecret h) as [x|].
  - unfold secret_of. rw Hs. rw (st_bind_lift _ _ _ _ Hf). eexists. split; [reflexivity|]. by cbn.
  - apply Ok_inj in Hf as <-. by exists h.
Qed.

Lemma foldPSKSecret_ok h s1 ms : h_sharedSecret h = Some s1 ->
  match psk_of h with Some k => DerivePSKSecret s1 k | None => Ok s1 end = Ok ms ->
  exists h', foldPSKSecret h = (h', Ok tt) /\ h_sharedSecret h' = Some ms /\
    h_session h' = h_session h /\ h_transcript h' = h_transcript h /\ h_datagram h' = h_datagram h.
Proof.
  unfold psk_of. intros Hs Hf. unfold foldPSKSecret. rw st_bind_get. destruct (h_foldPSK h).
  - cbn [negb]. unfold secret_of. rw Hs. rw (st_bind_lift _ _ _ _ Hf). eexists. by split.
  - apply Ok_inj in Hf as <-. by exists h.
Qed.

Lemma deriveHandshakeKeys_ok h ms ik rk x y : h_sharedSecret h = Some ms ->
  DeriveHandshakeKeys ms = Ok (ik, rk, x, y) -> len ik = 32 -> len rk = 32 ->
  suite_usable (s_CipherSuite (h_session h)) ->
  exists h', deriveHandshakeKeys fips h = (h', Ok tt) /\ hs_after h h' ms ik rk.
Proof.
  intros Hs Hk Hi Hr Hu. unfold deriveHandshakeKeys, secret_of. rw st_bind_get Hs.
  rw (st_bind_lift _ _ _ _ Hk). cbv beta iota.
  pose proof (Hu _ Hi) as Hci. pose proof (Hu _ Hr) as Hcr.
  destruct (s_Role (h_session h)) eqn:Hrole; cbn [by_role fst snd]; rw st_bind_mod.
  - rw (st_bind_lift _ _ _ _ Hci) st_bind_mod (st_bind_lift _ _ _ _ Hcr).
    eexists. split; [reflexivity|]. split; cbn; by rw ?Hrole.
  - rw (st_bind_lift _ _ _ _ Hcr) st_bind_mod (st_bind_lift _ _ _ _ Hci).
    eexists. split; [reflexivity|]. split; cbn; by rw ?Hrole.
Qed.

Lemma fold_and_derive_ok h s0 ms ik rk x y : h_sharedSecret h = Some s0 ->
  folds s0 (h_staticSecret h) (psk_of h) = Ok ms ->
  DeriveHandshakeKeys ms = Ok (ik, rk, x, y) -> len ik = 32 -> len rk = 32 ->
  suite_usable (s_CipherSuite (h_session h)) ->
  exists h', fold_and_derive fips h = (h', Ok tt) /\ hs_after h h' ms ik rk.
Proof.
  intros Hs Hf Hk Hi Hr Hu. unfold folds in Hf. apply obind_Ok in Hf as (s1 & Hf1 & Hf2).
  destruct (foldStaticSecret_ok h s0 s1 Hs Hf1) as (h1 & H1 & S1 & E1 & T1 & D1 & P1).
  rw -P1 in Hf2. destruct (foldPSKSecret_ok h1 s1 ms S1 Hf2) as (h2 & H2 & S2 & E2 & T2 & D2).
  destruct (deriveHandshakeKeys_ok h2 ms ik rk x y S2 Hk Hi Hr) as (h3 & H3 & [A1 A2 A3 A4 A5 A6]);
    [by rw E2 E1|].
  exists h3. unfold fold_and_derive. rw (st_bind_ok _ _ _ _ _ H1) (st_bind_ok _ _ _ _ _ H2) H3.
  split; [done|]. split; congruence.
Qed.

(** Conversely a key schedule that succeeded had all its inputs in order. *)
Lemma fold_and_derive_inv h h' s0 : h_sharedSecret h = Some s0 ->
  fold_and_derive fips h = (h', Ok tt) ->
  exists ms, folds s0 (h_staticSecret h) (psk_of h) = Ok ms /\ len ms = 32 /\
    suite_usable (s_CipherSuite (h_session h)).
Proof.
  intros Hs H. unfold fold_and_derive in H.
  apply st_bind_inv in H as (h1 & [] & H1 & H). apply st_bind_inv in H as (h2 & [] & H2 & H3).
  assert (exists s1, match h_staticSecret h with
            | Some x => DeriveAuthenticatedSecret s0 x | None => Ok s0 end = Ok s1) as [s1 Hf1].
  { unfold foldStaticSecret in H1. rw st_bind_get in H1. destruct (h_staticSecret h); [|by eauto].
    unfold secret_of in H1. rw Hs in H1. stinv H1. eauto. }
  destruct (foldStaticSecret_ok h s0 s1 Hs Hf1) as (h1' & H1' & S1 & E1 & _ & _ & P1).
  rw H1 in H1'. injection H1' as <-.
  assert (exists ms, match psk_of h1 with
            | Some k => DerivePSKSecret s1 k | None => Ok s1 end = Ok ms) as [ms Hf2].
  { unfold foldPSKSecret in H2. rw st_bind_get in H2. unfold psk_of.
    destruct (h_foldPSK h1); [|by eauto]. cbn [negb] in H2.
    unfold secret_of in H2. rw S1 in H2. stinv H2. eauto. }
  destruct (foldPSKSecret_ok h1 s1 ms S1 Hf2) as (h2' & H2' & S2 & E2 & _).
  rw H2 in H2'. injection H2' as <-. exists ms.
  split; [unfold folds; rw Hf1 obind_Ok_l -P1; exact Hf2|].
  unfold deriveHandshakeKeys, secret_of in H3. rw st_bind_get S2 in H3. change (default [] (Some ms)) with ms in H3. stinv H3.
  split; [unfold DeriveHandshakeKeys in Hm; okinv Hm; golia|].
  rw -E1 -E2. by eapply NewAEAD_usable.
Qed.
End KeySchedule.

(** * The hellos *)

Section Hellos.
Context {P : Primitives} {PL : PrimitivesLaws P} {K : KEMPrimitives} {KL : KEMLaws K} (fips : bool).

(** The fields the preparation of a hello leaves alone. *)
Record hs_frame (h h' : Handshake) : Prop := {
  fr_session : h_session h' = h_session h;
  fr_transcript : h_transcript h' = h_transcript h;
  fr_ticket : h_ticket h' = h_ticket h;
  fr_ticketSecret : h_ticketSecret h' = h_ticketSecret h;
  fr_resumed : h_resumed h' = h_resumed h;
  fr_datagram : h_datagram h' = h_datagram h;
  fr_first : h_firstClientHello h' = h_firstClientHello h;
  fr_hrr : h_hrrDone h' = h_hrrDone h }.

Lemma client_random_inv rnd h h' r : client_random rnd h = (h', Ok r) ->
  hs_frame h h' /\ h_staticSecret h' = h_staticSecret h /\ psk_of h' = psk_of h.
Proof.
  unfold client_random. rw st_bind_get. destruct (h_clientRandom h).
  - intros [= <- <-]. by split.
  - intros H. stinv H. injection H as <- <-. by split.
Qed.

(** What the static leg of the initiator did. *)
Definition static_sent (krnd : Draws) (h h' : Handshake) (stct : list Z) : Prop :=
  match s_PinnedServerKey (h_session h) with
  | None => stct = [] /\ h_staticSecret h' = h_staticSecret h
  | Some pk => exists ssui ct ss, GetSuite (u16 (PublicKey_Suite pk)) = Some ssui /\
      s_Encapsulate ssui krnd pk RoleInitiator = Ok (ct, ss) /\
      Ciphertext_Bytes ct = Ok stct /\ h_staticSecret h' = Some ss
  end.

Lemma static_encapsulate_inv krnd h h' stct : static_encapsulate krnd h = (h', Ok stct) ->
  hs_frame h h' /\ psk_of h' = psk_of h /\ static_sent krnd h h' stct.
Proof.
  unfold static_encapsulate, static_sent. rw st_bind_get. destruct (s_PinnedServerKey (h_session h)).
  - intros H. stinv H. apply st_lift_inv in H as [-> H]. split; [by split|]. split; [done|].
    unfold resolveKEMSuite in Hm. destruct (GetSuite _) eqn:Hg; [|done]. apply Ok_inj in Hm as ->.
    by eauto 10.
  - intros [= <- <-]. by split.
Qed.

Lemma psk_advertise_inv h h' ident : psk_advertise h = (h', Ok ident) ->
  hs_frame h h' /\ h_staticSecret h' = h_staticSecret h /\
  match s_PSK (h_session h) with
  | None => ident = [] /\ psk_of h' = psk_of h
  | Some k => ident = s_PSKIdentity (h_session h) /\ psk_of h' = Some k
  end.
Proof.
  unfold psk_advertise. rw st_bind_get. destruct (s_PSK (h_session h)).
  - intros H. stinv H. injection H as <- <-. by split.
  - intros [= <- <-]. by split.
Qed.

(** The hello the initiator sent and the state it is in. *)
Record hello_sent (krnd : Draws) (h h1 : Handshake) (ch : list Z) (m : ClientHello) : Prop := {
  hs_enc : EncodeClientHello m = Ok ch;
  hs_version : ch_Version m = Current;
  hs_sid : ch_SessionID m = default [] (h_ticket h);
  hs_suite : ch_KEMSuite m = u16 (s_ID (s_kemSuite (h_session h)));
  hs_suites : ch_KEMSuites m = supportedKEMSuiteIDs;
  hs_pk : exists kp, s_LocalKeyPair (h_session h) = Some kp /\
    PublicKey_Bytes (KeyPair_PublicKey kp) = Ok (ch_CHKEMPublicKey m);
  hs_css : ch_CipherSuites m = SupportedCipherSuites fips;
  hs_static : static_sent krnd h h1 (ch_CHKEMStaticCiphertext m);
  hs_psk : match s_PSK (h_session h) with
           | None => ch_PSKIdentity m = [] /\ psk_of h1 = psk_of h
           | Some k => ch_PSKIdentity m = s_PSKIdentity (h_session h) /\ psk_of h1 = Some k
           end;
  hs_state : h_state h1 = HandshakeStateClientHelloSent;
  hs_transcript : h_transcript h1 = h_transcript h ++ ch;
  hs_session : h_session h1 = (h_session h) <| s_state := SessionStateHandshaking |>;
  hs_ticket : h_ticket h1 = h_ticket h;
  hs_ticketSecret : h_ticketSecret h1 = h_ticketSecret h;
  hs_resumed : h_resumed h1 = h_resumed h;
  hs_datagram : h_datagram h1 = h_datagram h;
  hs_first : h_firstClientHello h1 = Some (default ch (h_firstClientHello h));
  hs_hrr : h_hrrDone h1 = h_hrrDone h }.

Lemma hello_tail data h h1 ch :
  (do! _ := write_transcript data in
   do! _ := st_mod (fun h => match h_firstClientHello h with
                             | None => h <| h_firstClientHello := Some data |>
                             | Some _ => h
                             end) in
   do! _ := st_mod (fun h => h <| h_state := HandshakeStateClientHelloSent |>) in
   do! _ := set_session (fun s => s <| s_state := SessionStateHandshaking |>) in
   st_ret data) h = (h1, Ok ch) ->
  ch = data /\ h_state h1 = HandshakeStateClientHelloSent /\
  h_transcript h1 = h_transcript h ++ data /\
  h_session h1 = (h_session h) <| s_state := SessionStateHandshaking |> /\
  h_ticket h1 = h_ticket h /\ h_ticketSecret h1 = h_ticketSecret h /\ h_resumed h1 = h_resumed h /\
  h_datagram h1 = h_datagram h /\ h_staticSecret h1 = h_staticSecret h /\ psk_of h1 = psk_of h /\
  h_firstClientHello h1 = Some (default data (h_firstClientHello h)) /\ h_hrrDone h1 = h_hrrDone h.
Proof.
  unfold write_transcript, set_session. rw !st_bind_mod. intros [= <- <-].
  destruct h as [? ? ? ? ? ? ? ? ? ? ? [?|]]; repeat split.
Qed.

Lemma CreateClientHello_inv rnd krnd h h1 ch : CreateClientHello fips rnd krnd h = (h1, Ok ch) ->
  exists m, hello_sent krnd h h1 ch m.
Proof.
  unfold CreateClientHello. rw st_bind_get. destruct (in_state h _); [|done]. intros H.
  apply st_bind_inv in H as (h2 & r & ([E1 T1 K1 S1 R1 D1 F1 N1] & St1 & P1)%client_random_inv & H).
  apply st_bind_inv in H as (h3 & pkb & [-> Hpk]%st_lift_inv & H).
  apply st_bind_inv in H as (h3 & stct & ([E2 T2 K2 S2 R2 D2 F2 N2] & P2 & St2)%static_encapsulate_inv & H).
  apply st_bind_inv in H as (h4 & ident & ([E3 T3 K3 S3 R3 D3 F3 N3] & St3 & P3)%psk_advertise_inv & H).
  apply st_bind_inv in H as (h5 & data & [-> He]%st_lift_inv & H).
  apply hello_tail in H as (-> & A1 & A2 & A3 & A4 & A5 & A6 & A7 & A8 & A9 & A10 & A11).
  destruct (s_LocalKeyPair (h_session h)) as [kp|] eqn:Hkp; [|done].
  unfold static_sent in St2. rw E1 in St2. rw E2 E1 in P3. eexists. split; [exact He|cbn [
    ch_Version ch_SessionID ch_KEMSuite ch_KEMSuites ch_CHKEMPublicKey ch_CipherSuites
    ch_CHKEMStaticCiphertext ch_PSKIdentity]..]; try reflexivity; try congruence.
  - by exists kp.
  - unfold static_sent. rw A8 St3. rw -St1. exact St2.
  - destruct (s_PSK (h_session h)); destruct P3 as [-> P3]; split; congruence.
Qed.

(** ** Peers whose configuration matches *)

(** A key pair of a registered suite. *)
Definition registered_key (sui : Suite) (kp : KeyPair) : Prop :=
  GetSuite (s_ID sui) = Some sui /\ key_of sui kp.

(** The pinned server key, if any, is the responder's static identity. *)
Definition static_ready (h g : Handshake) : Prop :=
  match s_PinnedServerKey (h_session h) with
  | None => h_staticSecret h = None /\ s_RequireStaticAuth (h_session g) = false
  | Some pk => exists ssui skp, s_StaticKeyPair (h_session g) = Some skp /\
      pk = KeyPair_PublicKey skp /\ registered_key ssui skp
  end.

(** The initiator's PSK, if any, is the one the responder has for its identity. *)
Definition psk_ready (h g : Handshake) : Prop :=
  match s_PSK (h_session h) with
  | None => psk_of h = None /\ s_RequirePSK (h_session g) = false
  | Some k => responderPSK (h_session g) (s_PSKIdentity (h_session h)) = Some k
  end.

(** The initiator's ticket, if any, is one the responder refuses or one that carries the secret
    the initiator stored with it.  A responder that refuses it answers with its own session id. *)
Definition ticket_ready (frs : bool) (now : Z) (h g : Handshake) : Prop :=
  match h_ticket h with
  | None => True
  | Some t => 0 < len t /\
      match h_ticketManager g with
      | None => s_SessionID (h_session g) <> t
      | Some tm => match DecryptTicket frs now tm t with
                   | Ok tk => st_MasterSecret tk = h_ticketSecret h
                   | Err _ => s_SessionID (h_session g) <> t
                   | Panic => False
                   end
      end
  end.

(** Both peers are about to exchange a client hello: at the start, or after a retry request. *)
Record hs_ready (frs : bool) (now : Z) (h g : Handshake) : Prop := {
  hr_role : s_Role (h_session h) = RoleInitiator /\ s_Role (h_session g) = RoleResponder;
  hr_datagram : h_datagram g = h_datagram h;
  hr_transcript : h_transcript g = h_transcript h;
  hr_short : len (h_transcript h) <= 2 ^ 20;
  hr_key : exists kp, s_LocalKeyPair (h_session h) = Some kp /\
    registered_key (s_kemSuite (h_session h)) kp;
  hr_initial : h_state g = HandshakeStateInitial;
  hr_fresh : h_resumed h = false /\ h_resumed g = false /\ h_staticSecret g = None /\ psk_of g = None;
  hr_static : static_ready h g;
  hr_psk : psk_ready h g;
  hr_ticket : ticket_ready frs now h g }.

Lemma registered_cases sui kp : registered_key sui kp ->
  SuiteLaws sui /\ u16 (s_ID sui) = s_ID sui /\ KeyPair_Suite kp = s_ID sui /\
  0 < s_PublicKeySize sui <= 1600 /\ 0 < s_CiphertextSize sui <= 1600.
Proof.
  intros [Hg Hk]. destruct (GetSuite_laws _ _ Hg) as [Hl _]. split; [done|].
  assert (sui = chkemV1 \/ sui = xwingSuite) as [-> | ->].
  { unfold GetSuite in Hg. destruct (_ =? _); [|destruct (_ =? _)];
      [left; by injection Hg|right; by injection Hg|done]. }
  - apply v1_key in Hk as (? & ? & ->). repeat (split; [reflexivity|]). cbn. golia.
  - apply xwing_key in Hk as (? & -> & _). repeat (split; [reflexivity|]). cbn. golia.
Qed.

(** The static leg on the wire. *)
Lemma static_sent_wire krnd h g h1 stct : static_ready h g -> static_sent krnd h h1 stct ->
  len stct <= 1600 /\
  match s_PinnedServerKey (h_session h) with
  | None => stct = [] /\ h_staticSecret h1 = None
  | Some _ => 0 < len stct /\ exists skp ssui ct ss, s_StaticKeyPair (h_session g) = Some skp /\
      GetSuite (u16 (KeyPair_Suite skp)) = Some ssui /\ s_ParseCiphertext ssui stct = Ok ct /\
      s_Decapsulate ssui ct skp RoleResponder = Ok ss /\ h_staticSecret h1 = Some ss
  end.
Proof.
  unfold static_ready, static_sent. destruct (s_PinnedServerKey (h_session h)) as [pk|].
  - intros (ssui & skp & Hs & -> & Hreg) (ssui' & ct & ss & Hg & He & Hb & Hss).
    destruct (registered_cases _ _ Hreg) as (Hl & Hu & Hkp & _ & Hct). destruct Hreg as [Hg' Hk].
    rw (suite_id _ Hk) Hu Hg' in Hg. injection Hg as <-.
    destruct (suite_ct_wire _ _ _ _ _ He) as (b & Hb' & Hlen & Hp). rw Hb in Hb'. apply Ok_inj in Hb' as <-.
    split; [lia|]. split; [lia|]. exists skp, ssui, ct, ss. rw Hkp Hu.
    repeat (split; [done|]). split; [by apply (suite_agree _ _ _ _ _ Hk He)|done].
  - intros [-> Hr] [-> Hs]. by rw Hs.
Qed.

(** The hello on the wire, for a public key of a reasonable size. *)
Lemma hello_sent_form krnd h g h1 ch m : static_ready h g -> hello_sent krnd h h1 ch m ->
  len (ch_CHKEMPublicKey m) <= 4000 ->
  ClientHello_ok m /\ ClientHello_fits m /\ ch = wire_ClientHello m /\
  len (ch_CHKEMStaticCiphertext m) <= 1600.
Proof.
  intros R S Hpk. destruct (static_sent_wire _ _ _ _ _ R (hs_static _ _ _ _ _ S)) as [Hst _].
  pose proof (hs_enc _ _ _ _ _ S) as He.
  assert (ClientHello_ok m) as Hok.
  { apply ClientHello_Validate_ok. unfold EncodeClientHello in He. okinv He. by destruct x. }
  assert (ClientHello_fits m) as Hfit.
  { split; rw ?(hs_suite _ _ _ _ _ S) ?(hs_suites _ _ _ _ _ S) ?(hs_css _ _ _ _ _ S); try lia.
    - unfold u16, is_u16. apply Z.mod_pos_bound. lia.
    - by repeat constructor.
    - done.
    - by destruct fips. }
  rw (EncodeClientHello_wire _ Hok Hfit) in He. by apply Ok_inj in He as <-.
Qed.

(** What the responder decodes is what the initiator meant. *)
Lemma hello_sent_decodes krnd h g h1 ch m : static_ready h g -> hello_sent krnd h h1 ch m ->
  len (ch_CHKEMPublicKey m) <= 4000 -> DecodeClientHello ch = Ok m.
Proof.
  intros R S Hpk. destruct (hello_sent_form _ _ _ _ _ _ R S Hpk) as (Hok & Hfit & -> & _).
  rw -(app_nil_r (wire_ClientHello m)). by apply DecodeClientHello_wire.
Qed.

(** A framed message of a size the stream reader takes. *)
Definition framed (mt : Z) (b : list Z) : Prop := exists p, b = wire_payload mt p /\ len p <= 8192.

Lemma framed_len mt b : framed mt b -> len b <= 8197.
Proof. intros (p & -> & Hp). rw len_wire_payload. lia. Qed.

Lemma hello_sent_frame krnd h g h1 ch m : static_ready h g -> hello_sent krnd h h1 ch m ->
  len (ch_CHKEMPublicKey m) <= 4000 -> framed MessageTypeClientHello ch.
Proof.
  intros R S Hpk. destruct (hello_sent_form _ _ _ _ _ _ R S Hpk) as ([_ Hr _ Hsid _ _ Hpsk] & _ & -> & Hst).
  eexists. split; [reflexivity|]. rw (hs_css _ _ _ _ _ S) (hs_suites _ _ _ _ _ S).
  assert (len (wire_u16s (SupportedCipherSuites fips)) <= 4) as Hcs by (by destruct fips).
  assert (len (wire_u16s supportedKEMSuiteIDs) = 4) as Hks by done.
  pose proof (len_wire_opt 2 (ch_CHKEMStaticCiphertext m)). pose proof (len_wire_opt 1 (ch_PSKIdentity m)).
  destruct (0 <? len (ch_CHKEMStaticCiphertext m)), (0 <? len (ch_PSKIdentity m)); golia.
Qed.

Lemma hello_sent_pk krnd frs now h g h1 ch m : hs_ready frs now h g -> hello_sent krnd h h1 ch m ->
  len (ch_CHKEMPublicKey m) <= 4000.
Proof.
  intros R S. destruct (hr_key _ _ _ _ R) as (kp & Hkp & Hreg).
  destruct (registered_cases _ _ Hreg) as (Hl & _ & _ & Hpk & _).
  destruct (hs_pk _ _ _ _ _ S) as (kp' & Hkp' & Hb). rw Hkp in Hkp'. injection Hkp' as <-.
  destruct (suite_pk_wire _ (proj2 Hreg)) as (b & Hb' & Hlen & _). rw Hb in Hb'. apply Ok_inj in Hb' as <-. lia.
Qed.

(** ** The responder *)

Lemma Handshake_eta_session (g : Handshake) : g <| h_session := h_session g |> = g.
Proof. by destruct g. Qed.

Lemma try_resume_ok frs now h g : ticket_ready frs now h g -> h_resumed g = false ->
  exists cs id r k,
    try_resume frs now (default [] (h_ticket h)) g =
      (g <| h_session := (h_session g) <| s_CipherSuite := cs |> <| s_SessionID := id |> |>
         <| h_resumed := r |> <| h_ticketSecret := k |>, Ok tt) /\
    r = resumption_accepted id h /\ (r = true -> k = h_ticketSecret h).
Proof.
  unfold ticket_ready, try_resume, resumption_accepted. rw st_bind_get. intros Ht Hr.
  assert (forall t, h_ticket h = t -> match t with Some t => s_SessionID (h_session g) <> t | None => True end ->
    exists cs id r k, (g, Ok tt) =
      (g <| h_session := (h_session g) <| s_CipherSuite := cs |> <| s_SessionID := id |> |>
         <| h_resumed := r |> <| h_ticketSecret := k |>, Ok (E := error) tt) /\
      r = (0 <? len id) && bool_decide (h_ticket h = Some id) /\ (r = true -> k = h_ticketSecret h)) as Hsame.
  { intros t Ht' Hne. exists (s_CipherSuite (h_session g)), (s_SessionID (h_session g)), false, (h_ticketSecret g).
    split; [|split; [|done]].
    - destruct g as [[]]. cbn in Hr. subst. reflexivity.
    - symmetry. apply andb_false_intro2, bool_decide_eq_false_2. rw Ht'. by destruct t; [intros [= ->]|]. }
  destruct (h_ticket h) as [t|] eqn:Hht; cbn [default from_option id]; [|
    destruct (h_ticketManager g); by apply (Hsame None)].
  destruct Ht as [Hlen Ht]. replace (0 <? len t) with true by (symmetry; apply Z.ltb_lt; lia).
  destruct (h_ticketManager g) as [tm|]; [|by apply (Hsame (Some t))].
  unfold Resume. destruct (DecryptTicket frs now tm t) as [tk|e|] eqn:Hd; [| |done].
  - erewrite (st_bind_lift tk) by reflexivity. rw st_bind_mod. cbn [st_ret].
    exists (st_CipherSuite tk), t, true, (st_MasterSecret tk).
    split; [by destruct g as [[]]|]. split; [|by intros _].
    replace (0 <? len t) with true by (symmetry; apply Z.ltb_lt; lia). by rw bool_decide_true.
  - unfold st_bind, st_lift, st_mod. rw Handshake_eta_session. by apply (Hsame (Some t)).
Qed.

Lemma static_decapsulate_ok krnd h g h1 stct : static_ready h g -> static_sent krnd h h1 stct ->
  forall g', s_StaticKeyPair (h_session g') = s_StaticKeyPair (h_session g) -> h_staticSecret g' = None ->
  static_decapsulate stct g' = (g' <| h_staticSecret := h_staticSecret h1 |>, Ok tt).
Proof.
  intros R S g' Hs Hn. destruct (static_sent_wire _ _ _ _ _ R S) as [_ H].
  unfold static_decapsulate. rw st_bind_get Hs. destruct (s_PinnedServerKey (h_session h)).
  - destruct H as (Hl & skp & ssui & ct & ss & Hk & Hg & Hp & Hd & ->). rw Hk.
    replace (0 <? len stct) with true by (symmetry; apply Z.ltb_lt; lia).
    unfold resolveKEMSuite. rw Hg.
    by erewrite st_bind_lift, st_bind_lift, st_bind_lift by (reflexivity || eassumption).
  - destruct H as [-> ->]. destruct (s_StaticKeyPair (h_session g)); rw -Hn; by destruct g'.
Qed.

Lemma psk_select_ok krnd h g h1 ident : psk_ready h g ->
  match s_PSK (h_session h) with
  | None => ident = [] /\ psk_of h1 = psk_of h
  | Some k => ident = s_PSKIdentity (h_session h) /\ psk_of h1 = Some k
  end ->
  forall g', responderPSK (h_session g') ident = responderPSK (h_session g) ident ->
  s_RequirePSK (h_session g') = s_RequirePSK (h_session g) -> psk_of g' = None ->
  exists b k, psk_select krnd ident g' = (g' <| h_foldPSK := b |> <| h_pskKey := k |>, Ok tt) /\
    (if b then Some k else None) = psk_of h1.
Proof.
  unfold psk_ready, psk_select. intros R S g' Hr Hq Hn. rw st_bind_get Hr Hq.
  destruct (s_PSK (h_session h)) as [k|].
  - destruct S as [-> ->]. rw R. exists true, k. by split.
  - destruct S as [-> ->], R as [-> ->]. exists (h_foldPSK g'), (h_pskKey g').
    change (responderPSK _ []) with (@None (list Z)). split; [by destruct g'|exact Hn].
Qed.

(** Every FIPS setting of the two peers leads to AES-256-GCM. *)
Lemma selected_suite frs : selectCipherSuite frs (SupportedCipherSuites fips) = CipherSuiteAES256GCM.
Proof. by destruct frs, fips. Qed.

(** The responder after the client hello. *)
Record hello_received (h h1 g g1 : Handshake) : Prop := {
  hv_kem : s_kemSuite (h_session g1) = s_kemSuite (h_session h);
  hv_remote : exists kp, s_LocalKeyPair (h_session h) = Some kp /\
    s_RemotePublicKey (h_session g1) = Some (KeyPair_PublicKey kp);
  hv_role : s_Role (h_session g1) = s_Role (h_session g);
  hv_suite : s_CipherSuite (h_session g1) = CipherSuiteAES256GCM;
  hv_static : h_staticSecret g1 = h_staticSecret h1;
  hv_psk : psk_of g1 = psk_of h1;
  hv_transcript : h_transcript g1 = h_transcript h1;
  hv_datagram : h_datagram g1 = h_datagram g;
  hv_open : s_state (h_session g1) = SessionStateHandshaking;
  hv_hrr : h_sendHRR g1 = h_sendHRR g;
  hv_resumed : h_resumed g1 = resumption_accepted (s_SessionID (h_session g1)) h;
  hv_ticket : h_resumed g1 = true -> h_ticketSecret g1 = h_ticketSecret h }.

Lemma responderPSK_ext s s' ident : s_PSKLookup s' = s_PSKLookup s -> s_PSK s' = s_PSK s ->
  s_PSKIdentity s' = s_PSKIdentity s -> responderPSK s' ident = responderPSK s ident.
Proof. by unfold responderPSK; intros -> -> ->. Qed.

Lemma static_required h g krnd h1 stct : static_ready h g -> static_sent krnd h h1 stct ->
  s_RequireStaticAuth (h_session g) && (len stct =? 0) = false.
Proof.
  intros R S. destruct (static_sent_wire _ _ _ _ _ R S) as [_ H]. unfold static_ready in R.
  destruct (s_PinnedServerKey (h_session h)); [|by destruct R as [_ ->]].
  apply andb_false_intro2. lia.
Qed.

Lemma ProcessClientHello_ok frs krnd prnd now h g h1 ch m :
  hs_ready frs now h g -> hello_sent krnd h h1 ch m ->
  exists g1, ProcessClientHello frs prnd now ch g = (g1, Ok tt) /\ hello_received h h1 g g1.
Proof.
  intros R S.
  pose proof (hello_sent_decodes _ _ _ _ _ _ (hr_static _ _ _ _ R) S (hello_sent_pk _ _ _ _ _ _ _ _ R S)) as Hdec.
  destruct (hr_key _ _ _ _ R) as (kp & Hkp & Hreg).
  destruct (registered_cases _ _ Hreg) as (Hl & Hu & _). destruct Hreg as [Hg Hk].
  destruct (hs_pk _ _ _ _ _ S) as (kp' & Hkp' & Hb). rw Hkp in Hkp'. injection Hkp' as <-.
  destruct (suite_pk_wire _ Hk) as (b & Hb' & _ & Hparse). rw Hb in Hb'. apply Ok_inj in Hb' as <-.
  destruct (hr_fresh _ _ _ _ R) as (_ & Hres & Hst & Hpsk).
  unfold ProcessClientHello. rw st_bind_get. unfold in_state. rw (hr_initial _ _ _ _ R) bool_decide_true //.
  rw (st_bind_lift _ _ _ _ Hdec) (hs_version _ _ _ _ _ S).
  change (IsCompatible Current Current) with true. cbv iota.
  rw (hs_suite _ _ _ _ _ S) Hu Hg. unfold set_session, write_transcript. rw !st_bind_mod.
  rw (hs_sid _ _ _ _ _ S). set (ga := _ <| h_clientRandom := _ |>).
  destruct (try_resume_ok frs now h ga) as (cs & id & r & k & E1 & Hr & Hk1);
    [exact (hr_ticket _ _ _ _ R)|exact Hres|].
  rw (st_bind_ok _ _ _ _ _ E1) (st_bind_lift _ _ _ _ Hparse) st_bind_mod.
  rw (static_required _ _ _ _ _ (hr_static _ _ _ _ R) (hs_static _ _ _ _ _ S)).
  set (gb := _ <| h_session := _ |>). cbn [negb].
  pose proof (static_decapsulate_ok _ _ _ _ _ (hr_static _ _ _ _ R) (hs_static _ _ _ _ _ S) gb
    eq_refl Hst) as E2.
  rw (st_bind_ok _ _ _ _ _ E2). set (gc := _ <| h_staticSecret := _ |>).
  destruct (psk_select_ok prnd _ _ h1 _ (hr_psk _ _ _ _ R) (hs_psk _ _ _ _ _ S) gc)
    as (fb & fk & E3 & Hf); [by apply responderPSK_ext|reflexivity|exact Hpsk|].
  rw (st_bind_ok _ _ _ _ _ E3) st_bind_mod (hs_css _ _ _ _ _ S) selected_suite.
  change (CipherSuite_IsSupported CipherSuiteAES256GCM) with true. cbv iota. rw st_bind_mod.
  eexists. split; [reflexivity|]. split; try reflexivity.
  - by exists kp.
  - exact Hf.
  - rw (hs_transcript _ _ _ _ _ S) -(hr_transcript _ _ _ _ R). reflexivity.
  - exact Hr.
  - exact Hk1.
Qed.
End Hellos.

(** * The server hello *)

Section ServerHello.
Context {P : Primitives} {PL : PrimitivesLaws P} {K : KEMPrimitives} {KL : KEMLaws K}.

(** The KEM secret after the resumption step. *)
Definition mixed (resumed : bool) (ticketSecret fresh : list Z) : outcome error (list Z) :=
  if resumed then DeriveResumptionSecret ticketSecret fresh else Ok fresh.

Lemma resumption_mix_eq h fresh s0 : mixed (h_resumed h) (h_ticketSecret h) fresh = Ok s0 ->
  resumption_mix fresh h = (h <| h_sharedSecret := Some s0 |>, Ok tt).
Proof.
  unfold mixed, resumption_mix. rw st_bind_get. destruct (h_resumed h).
  - rw st_bind_mod. intros H. by rw (st_bind_lift _ _ _ _ H).
  - by intros <-%Ok_inj.
Qed.

Lemma resumption_mix_inv h fresh h' : resumption_mix fresh h = (h', Ok tt) ->
  exists s0, mixed (h_resumed h) (h_ticketSecret h) fresh = Ok s0 /\
    h' = h <| h_sharedSecret := Some s0 |>.
Proof.
  intros H. assert (exists s0, mixed (h_resumed h) (h_ticketSecret h) fresh = Ok s0) as [s0 H0].
  { unfold mixed. unfold resumption_mix in H. rw st_bind_get in H.
    destruct (h_resumed h); [|by eauto]. rw st_bind_mod in H.
    apply st_bind_inv in H as (? & s0 & [-> H]%st_lift_inv & _). by eauto. }
  exists s0. split; [done|]. rw (resumption_mix_eq _ _ _ H0) in H. by injection H.
Qed.

(** A handshake whose keys are in place: suite, secret, the two keys and the transcript. *)
Record keyed_hs (h : Handshake) (cs : CipherSuite) (ms ik rk tr : list Z) : Prop := {
  kh_secret : h_sharedSecret h = Some ms;
  kh_transcript : h_transcript h = tr;
  kh_suite : s_CipherSuite (h_session h) = cs;
  kh_send : h_sendCipher h = Some (fresh_cipher cs (by_role (s_Role (h_session h)) (ik, rk)).1);
  kh_recv : h_recvCipher h = Some (fresh_cipher cs (by_role (s_Role (h_session h)) (ik, rk)).2);
  kh_open : s_state (h_session h) = SessionStateHandshaking }.

(** What the responder put into its hello and derived. *)
Record hello_answered (frs : bool) (krnd : Draws) (g1 g2 : Handshake) (sh : list Z)
    (msg : ServerHello) (ms ik rk : list Z) : Prop := {
  ha_enc : EncodeServerHello msg = Ok sh;
  ha_version : sh_Version msg = Current;
  ha_sid : sh_SessionID msg = s_SessionID (h_session g1);
  ha_kem : sh_KEMSuite msg = u16 (s_ID (s_kemSuite (h_session g1)));
  ha_cs : sh_CipherSuite msg = s_CipherSuite (h_session g1);
  ha_exchange : exists remote ct fresh s0, s_RemotePublicKey (h_session g1) = Some remote /\
    s_Encapsulate (s_kemSuite (h_session g1)) krnd remote RoleResponder = Ok (ct, fresh) /\
    Ciphertext_Bytes ct = Ok (sh_CHKEMCiphertext msg) /\
    mixed (h_resumed g1) (h_ticketSecret g1) fresh = Ok s0 /\
    folds s0 (h_staticSecret g1) (psk_of g1) = Ok ms;
  ha_len : len ms = 32 /\ len ik = 32 /\ len rk = 32;
  ha_keys : exists x y, DeriveHandshakeKeys ms = Ok (ik, rk, x, y);
  ha_usable : suite_usable frs (s_CipherSuite (h_session g1));
  ha_same : h_session g2 = h_session g1 /\ h_datagram g2 = h_datagram g1;
  ha_state : h_state g2 = HandshakeStateServerHelloSent;
  ha_keyed : s_state (h_session g1) = SessionStateHandshaking ->
    keyed_hs g2 (s_CipherSuite (h_session g1)) ms ik rk (h_transcript g1 ++ sh) }.

Lemma CreateServerHello_inv frs rnd krnd g1 g2 sh : CreateServerHello frs rnd krnd g1 = (g2, Ok sh) ->
  exists msg ms ik rk, hello_answered frs krnd g1 g2 sh msg ms ik rk.
Proof.
  unfold CreateServerHello. rw st_bind_get.
  destruct (s_RemotePublicKey (h_session g1)) as [remote|] eqn:Hrem; [|done]. intros H.
  apply st_bind_inv in H as (? & sr & [-> _]%st_lift_inv & H). rw st_bind_mod in H.
  apply st_bind_inv in H as (? & [ct fresh] & [-> He]%st_lift_inv & H).
  apply st_bind_inv in H as (? & ctb & [-> Hb]%st_lift_inv & H).
  apply st_bind_inv in H as (? & [] & (s0 & Hm & ->)%resumption_mix_inv & H).
  apply st_bind_inv in H as (? & data & [-> Hd]%st_lift_inv & H).
  unfold write_transcript in H. rw st_bind_mod in H. set (ga := _ <| h_transcript := _ |>) in H.
  apply st_bind_inv in H as (gb & [] & Hf & H). rw st_bind_mod in H. injection H as <- <-.
  destruct (fold_and_derive_inv frs ga gb s0 eq_refl Hf) as (ms & Hms & Hlen & Hu).
  destruct (DeriveHandshakeKeys_ok ms Hlen) as (ik & rk & x & y & Hk & Hik & Hrk).
  destruct (fold_and_derive_ok frs ga s0 ms ik rk x y eq_refl Hms Hk Hik Hrk Hu) as (gb' & Hf' & [A1 A2 A3 A4 A5 A6]).
  rw Hf in Hf'. injection Hf' as <-.
  eexists _, ms, ik, rk. split; [exact Hd|reflexivity..| | | | | | |].
  - exists remote, ct, fresh, s0. by repeat (split; [eassumption|]).
  - done.
  - by eauto.
  - exact Hu.
  - split; [exact A2|exact A4].
  - reflexivity.
  - intros Ho. split; cbn; by rw ?A1 ?A2 ?A3.
Qed.

Lemma hello_answered_form frs krnd g1 g2 sh msg ms ik rk kp :
  registered_key (s_kemSuite (h_session g1)) kp -> hello_answered frs krnd g1 g2 sh msg ms ik rk ->
  ServerHello_ok msg /\ ServerHello_fits msg /\ sh = wire_ServerHello msg /\
  len (sh_CHKEMCiphertext msg) <= 1600.
Proof.
  intros Hreg A. destruct (registered_cases _ _ Hreg) as (Hl & _ & _ & _ & Hct).
  destruct (ha_exchange _ _ _ _ _ _ _ _ _ A) as (remote & ct & fresh & s0 & _ & He & Hb & _).
  destruct (suite_ct_wire _ _ _ _ _ He) as (b & Hb' & Hlen & _). rw Hb in Hb'. apply Ok_inj in Hb' as <-.
  pose proof (ha_enc _ _ _ _ _ _ _ _ _ A) as Hd.
  assert (ServerHello_ok msg) as Hok.
  { apply ServerHello_Validate_ok. unfold EncodeServerHello in Hd. okinv Hd. by destruct x. }
  assert (ServerHello_fits msg) as Hfit.
  { split; [|lia]. rw (ha_kem _ _ _ _ _ _ _ _ _ A). unfold u16, is_u16. apply Z.mod_pos_bound. lia. }
  rw (EncodeServerHello_wire _ Hok Hfit) in Hd. apply Ok_inj in Hd as <-.
  repeat (split; [done|]). lia.
Qed.

Lemma hello_answered_wire frs krnd g1 g2 sh msg ms ik rk kp :
  registered_key (s_kemSuite (h_session g1)) kp -> hello_answered frs krnd g1 g2 sh msg ms ik rk ->
  DecodeServerHello sh = Ok msg /\ framed MessageTypeServerHello sh.
Proof.
  intros Hreg A. destruct (hello_answered_form _ _ _ _ _ _ _ _ _ _ Hreg A) as (Hok & Hfit & -> & Hct).
  split; [rw -(app_nil_r (wire_ServerHello msg)); by apply DecodeServerHello_wire|].
  destruct Hok as [_ Hr Hsid _ _]. eexists. split; [reflexivity|]. golia.
Qed.

Lemma AES_usable fi : suite_usable fi CipherSuiteAES256GCM.
Proof. intros key Hl. unfold NewAEAD. by destruct fi; cbn; gd. Qed.

(** The initiator decapsulates what the responder encapsulated. *)
Lemma exchange_agrees frs now krnd2 h g h1 g1 g2 sh msg ms ik rk :
  hs_ready frs now h g -> hello_received h h1 g g1 -> hello_answered frs krnd2 g1 g2 sh msg ms ik rk ->
  DecodeServerHello sh = Ok msg /\ framed MessageTypeServerHello sh /\ exists kp ct fresh s0, s_LocalKeyPair (h_session h) = Some kp /\
    s_ParseCiphertext (s_kemSuite (h_session h)) (sh_CHKEMCiphertext msg) = Ok ct /\
    s_Decapsulate (s_kemSuite (h_session h)) ct kp RoleInitiator = Ok fresh /\
    mixed (h_resumed g1) (h_ticketSecret g1) fresh = Ok s0 /\
    folds s0 (h_staticSecret g1) (psk_of g1) = Ok ms.
Proof.
  intros R V A. destruct (hr_key _ _ _ _ R) as (kp & Hkp & Hreg).
  pose proof Hreg as Hreg'. rw -(hv_kem _ _ _ _ V) in Hreg'.
  destruct (hello_answered_wire _ _ _ _ _ _ _ _ _ _ Hreg' A) as [Hdec Hlen].
  split; [exact Hdec|]. split; [exact Hlen|].
  destruct (registered_cases _ _ Hreg) as (Hl & _ & _). destruct Hreg as [_ Hk].
  destruct (ha_exchange _ _ _ _ _ _ _ _ _ A) as (remote & ct & fresh & s0 & Hrem & He & Hb & Hmix & Hfold).
  destruct (hv_remote _ _ _ _ V) as (kp' & Hkp' & Hrem'). rw Hkp in Hkp'. injection Hkp' as <-.
  rw Hrem in Hrem'. injection Hrem' as ->. rw (hv_kem _ _ _ _ V) in He.
  destruct (suite_ct_wire _ _ _ _ _ He) as (b & Hb' & _ & Hp). rw Hb in Hb'. apply Ok_inj in Hb' as <-.
  exists kp, ct, fresh, s0. by rw (suite_agree _ _ _ _ _ Hk He).
Qed.

(** The initiator derives what the responder derived. *)
Lemma ProcessServerHello_ok fi frs now krnd krnd2 h g h1 ch m g1 g2 sh msg ms ik rk :
  hs_ready frs now h g -> hello_sent fi krnd h h1 ch m -> hello_received h h1 g g1 ->
  hello_answered frs krnd2 g1 g2 sh msg ms ik rk ->
  exists h2, ProcessServerHello fi sh h1 = (h2, Ok tt) /\
    keyed_hs h2 CipherSuiteAES256GCM ms ik rk (h_transcript h1 ++ sh) /\
    h_state h2 = HandshakeStateServerHelloReceived /\
    s_Role (h_session h2) = RoleInitiator /\ h_datagram h2 = h_datagram h.
Proof.
  intros R S V A.
  destruct (exchange_agrees _ _ _ _ _ _ _ _ _ _ _ _ _ R V A)
    as (Hdec & _ & kp & ct & fresh & s0 & Hkp & Hp & Hd & Hmix & Hfold).
  unfold ProcessServerHello. rw st_bind_get. unfold in_state.
  rw (hs_state _ _ _ _ _ _ S) bool_decide_true // (st_bind_lift _ _ _ _ Hdec).
  rw (ha_version _ _ _ _ _ _ _ _ _ A). change (IsCompatible Current Current) with true. cbv iota.
  assert (s_kemSuite (h_session h1) = s_kemSuite (h_session h)) as Hks by (by rw (hs_session _ _ _ _ _ _ S)).
  assert (decapsulate_local ct (h_session h1) = Ok fresh) as Hdc
    by (rw (hs_session _ _ _ _ _ _ S); unfold decapsulate_local; cbn; rw Hkp; exact Hd).
  rw (ha_kem _ _ _ _ _ _ _ _ _ A) (hv_kem _ _ _ _ V) Hks Z.eqb_refl !st_bind_mod.
  rw (st_bind_lift _ _ _ _ Hp) (st_bind_lift _ _ _ _ Hdc). set (ha := _ <| h_serverRandom := _ |>).
  destruct (hr_fresh _ _ _ _ R) as (Hres & _).
  assert (h_resumed ha = h_resumed g1 /\ h_ticketSecret ha = h_ticketSecret h /\
    h_session ha = h_session h1 /\ h_transcript ha = h_transcript h1 /\ h_datagram ha = h_datagram h /\
    h_staticSecret ha = h_staticSecret h1 /\ psk_of ha = psk_of h1) as (B1 & B2 & B3 & B4 & B5 & B6 & B7).
  { subst ha. rw (hv_resumed _ _ _ _ V) -(ha_sid _ _ _ _ _ _ _ _ _ A).
    unfold resumption_accepted. rw (hs_ticket _ _ _ _ _ _ S).
    pose proof (hs_ticketSecret _ _ _ _ _ _ S) as Ht. pose proof (hs_datagram _ _ _ _ _ _ S) as Hdg.
    pose proof (hs_resumed _ _ _ _ _ _ S) as Hr. rw Hres in Hr.
    by destruct (_ && _). }
  assert (mixed (h_resumed ha) (h_ticketSecret ha) fresh = Ok s0) as Hmix'.
  { rw -Hmix B1 B2. unfold mixed. destruct (h_resumed g1) eqn:Hr1; [|done].
    by rw (hv_ticket _ _ _ _ V Hr1). }
  rw (st_bind_ok _ _ _ _ _ (resumption_mix_eq _ _ _ Hmix')). unfold write_transcript, set_session.
  rw !st_bind_mod. set (hb := _ <| h_session := _ |>).
  assert (s_CipherSuite (h_session hb) = CipherSuiteAES256GCM) as Hcs
    by (rw -(hv_suite _ _ _ _ V) -(ha_cs _ _ _ _ _ _ _ _ _ A); reflexivity).
  destruct (ha_keys _ _ _ _ _ _ _ _ _ A) as (x & y & Hkeys).
  destruct (ha_len _ _ _ _ _ _ _ _ _ A) as (_ & Hik & Hrk).
  destruct (fold_and_derive_ok fi hb s0 ms ik rk x y) as (hc & Hf & [A1 A2 A3 A4 A5 A6]); try done.
  { rw -Hfold (hv_static _ _ _ _ V) (hv_psk _ _ _ _ V) -B6 -B7. reflexivity. }
  { rw Hcs. apply AES_usable. }
  assert (s_Role (h_session hb) = RoleInitiator /\ s_state (h_session hb) = SessionStateHandshaking) as [Hro Hop].
  { rw -(proj1 (hr_role _ _ _ _ R)). subst hb. cbn. by rw B3 (hs_session _ _ _ _ _ _ S). }
  rw (st_bind_ok _ _ _ _ _ Hf). eexists. split; [reflexivity|]. rw Hcs in A5 A6.
  split; [split|]; cbn; rw ?A2 ?A3 ?A4; try done.
  by rw -B4.
Qed.
End ServerHello.
