(* ===== verification/Agreement.v ===== *)
(** What the handshake achieves.

    Two peers that follow [Handshake] with matching configuration end with the same master
    secret and matching traffic keys; and a Finished message that verifies pins down the whole
    transcript and the secret of the peer that made it. *)

From Corelib Require Import ssreflect.
From stdpp Require Import base tactics list numbers strings.
From Stdlib Require Import ZArith Lia.
From S2P Require Import Prelude Base Messages Codec Replay Crypto Chkem Ticket Session DgramSession.
From S2P Require Import Handshake Hellos.

Local Open Scope Z_scope.
Local Open Scope go_scope.

(** * The Finished messages *)

Section Finished.
Context {P : Primitives} {PL : PrimitivesLaws P} {K : KEMPrimitives}.

(** The first record a fresh cipher seals. *)
Definition first_sealed (cs : CipherSuite) (key pt : list Z) : list Z :=
  counter_nonce 0 ++ aead_seal cs key (counter_nonce 0) pt [].

Lemma len_first_sealed cs key pt : len (first_sealed cs key pt) = 28 + len pt.
Proof. unfold first_sealed. rw len_app len_counter_nonce aead_seal_len. lia. Qed.

Lemma seal_finished_ok h cs key pt : h_sendCipher h = Some (fresh_cipher cs key) ->
  exists c, seal_finished pt h = (h <| h_sendCipher := Some c |>, Ok (first_sealed cs key pt)).
Proof.
  intros Hs. unfold seal_finished. rw st_bind_get Hs Seal_eq.
  change (ae_counter (fresh_cipher cs key) <? ae_maxSeq (fresh_cipher cs key)) with true. cbv beta iota.
  eexists. by rw st_bind_mod.
Qed.

Definition finished_type (mt : Z) : Prop :=
  mt = MessageTypeClientFinished \/ mt = MessageTypeServerFinished.

Lemma verify_finished_ok h cs key label mt vd : h_recvCipher h = Some (fresh_cipher cs key) ->
  finished_type mt -> len vd = 32 -> verify_data label h = Ok vd ->
  verify_finished label (first_sealed cs key (wire_payload mt vd)) h = (h, Ok (wire_payload mt vd)).
Proof.
  intros Hc Hmt Hl Hv. unfold verify_finished, first_sealed. rw st_bind_get Hc.
  pose proof (Open_Seal (fresh_cipher cs key) (counter_nonce 0) (wire_payload mt vd) []) as Ho.
  cbn [ae_suite ae_key fresh_cipher] in Ho. rw Ho; [apply len_counter_nonce|].
  rw len_wire_payload. replace (5 + len vd =? 0) with false by lia. cbv beta iota.
  pose proof (DecodeFinished_wire mt vd [] Hl Hmt) as Hd. rw app_nil_r in Hd.
  rw (st_bind_lift _ _ _ _ Hd) (st_bind_lift _ _ _ _ Hv). unfold ConstantTimeCompare.
  by rw bool_decide_true.
Qed.

Lemma verify_data_ok label h ms : fits32 label -> h_sharedSecret h = Some ms -> len ms = 32 ->
  fits32 (h_transcript h) ->
  exists vd, len vd = 32 /\ verify_data label h = Ok vd /\
    forall h', h_sharedSecret h' = Some ms -> h_transcript h' = h_transcript h ->
    verify_data label h' = Ok vd.
Proof.
  intros Hl Hs Hm Ht. exists (shake256 (multi_absorb label [ms; h_transcript h]) 32).
  split; [by apply shake256_len|].
  assert (DeriveKeyMultiple label [ms; h_transcript h] 32 =
    Ok (shake256 (multi_absorb label [ms; h_transcript h]) 32)) as Hd.
  { apply DeriveKeyMultiple_absorbs; [done| |done]. split; [done|].
    repeat constructor; [unfold fits32; lia|done]. }
  unfold verify_data, secret_of. rw Hs. split; [exact Hd|]. by intros h' -> ->.
Qed.
End Finished.

(** * Finishing *)

Section Finish.
Context {P : Primitives} {PL : PrimitivesLaws P} {K : KEMPrimitives}.

(** A session keyed from a master secret, for either transport. *)
Definition keyed_session (dg : bool) (role : Role) (cs : CipherSuite) (ms : list Z) (s : Session) : Prop :=
  exists ik rk ip rp, DeriveTrafficKeys ms = Ok (ik, rk) /\
    (if dg then DeriveDatagramNoncePrefixes ms else DeriveStreamNoncePrefixes ms) = Ok (ip, rp) /\
    keyed_from s role cs ms ik rk ip rp /\
    if dg then exists t, s_dgramEpochs s = Some (mkEpochState
                 (Some (mkEpoch 0 (s_sendCipher s) (s_recvCipher s) 0 t None)) None)
    else True.

(** Each side can open what the other seals. *)
Definition linked (dg : bool) (s r : Session) : Prop :=
  if dg then forall now, dgram_linked now s r else stream_linked s r.

Lemma keyed_session_linked dg role cs ms s r :
  keyed_session dg role cs ms s -> keyed_session dg (Role_peer role) cs ms r -> linked dg s r.
Proof.
  intros (ik & rk & ip & rp & Ht & Hp & Hs & Hes) (ik' & rk' & ip' & rp' & Ht' & Hp' & Hr & Her).
  rw Ht in Ht'. apply Ok_inj in Ht' as [= <- <-]. rw Hp in Hp'. apply Ok_inj in Hp' as [= <- <-].
  destruct dg; cbn.
  - destruct Hes as [t Hes], Her as [t' Her]. intros now. by eapply epoch0_linked.
  - by eapply keyed_from_linked.
Qed.

Lemma initializeSessionKeys_ok fips now h cs ms : h_sharedSecret h = Some ms -> len ms = 32 ->
  s_CipherSuite (h_session h) = cs -> suite_usable fips cs ->
  s_state (h_session h) <> SessionStateClosed ->
  exists s', initializeSessionKeys fips now h = (h <| h_session := s' |>, Ok tt) /\
    keyed_session (h_datagram h) (s_Role (h_session h)) cs ms s'.
Proof.
  intros Hs Hl <- Hu Ho. unfold initializeSessionKeys, on_session, secret_of. rw st_bind_get Hs.
  destruct (DeriveTrafficKeys_ok ms Hl) as (ik & rk & Hik & Hrk & _ & Ht).
  assert (forall key, len key = 32 -> exists c, NewAEAD fips (s_CipherSuite (h_session h)) key = Ok c) as Hn
    by (intros key Hk; eexists; by apply Hu).
  change (default [] (Some ms)) with ms. destruct (h_datagram h).
  - destruct (DeriveDatagramNoncePrefixes_ok ms Hl) as (ip & rp & _ & _ & _ & Hp).
    destruct (InitializeDatagramKeys_ok fips now ms _ _ ik rk ip rp Ho Hl Ht Hp (Hn _ Hik) (Hn _ Hrk))
      as (s' & -> & Hk & He).
    exists s'. split; [done|]. exists ik, rk, ip, rp. by eauto.
  - destruct (DeriveStreamNoncePrefixes_ok ms Hl) as (ip & rp & _ & _ & _ & Hp).
    destruct (InitializeKeys_ok fips now ms _ _ ik rk ip rp Ho Hl Ht Hp (Hn _ Hik) (Hn _ Hrk))
      as (s' & -> & Hk).
    exists s'. split; [done|]. by exists ik, rk, ip, rp.
Qed.

(** ** The four steps, for the record a verify value gives *)

Definition server_record (vd : list Z) : list Z := wire_payload MessageTypeServerFinished vd.
Definition client_record (vd : list Z) : list Z := wire_payload MessageTypeClientFinished vd.

Lemma CreateServerFinished_ok g cs ms ik rk tr vd :
  keyed_hs g cs ms ik rk tr -> h_state g = HandshakeStateServerHelloSent ->
  s_Role (h_session g) = RoleResponder -> len vd = 32 -> verify_data ServerFinishedLabel g = Ok vd ->
  exists c, CreateServerFinished g =
    (g <| h_sendCipher := Some c |> <| h_transcript := tr ++ server_record vd |>
       <| h_state := HandshakeStateServerFinishedSent |>, Ok (first_sealed cs rk (server_record vd))).
Proof.
  intros [Hs <- Hcs Hse _ _] Hst Hro Hl Hv. rw Hro in Hse. cbn [by_role fst snd] in Hse.
  unfold CreateServerFinished. rw st_bind_get. unfold in_state. rw Hst bool_decide_true // Hse.
  rw bool_decide_true; [by eexists|]. cbn [andb].
  rw (st_bind_lift _ _ _ _ Hv) (st_bind_lift _ _ _ _ (EncodeFinished_wire _ _ Hl)).
  destruct (seal_finished_ok g cs rk (server_record vd) Hse) as [c Hc].
  exists c. rw (st_bind_ok _ _ _ _ _ Hc). unfold write_transcript. by rw !st_bind_mod.
Qed.

Lemma ProcessServerFinished_ok h cs ms ik rk tr vd :
  keyed_hs h cs ms ik rk tr -> h_state h = HandshakeStateServerHelloReceived ->
  s_Role (h_session h) = RoleInitiator -> len vd = 32 -> verify_data ServerFinishedLabel h = Ok vd ->
  ProcessServerFinished (first_sealed cs rk (server_record vd)) h =
    (h <| h_transcript := tr ++ server_record vd |>
       <| h_state := HandshakeStateServerFinishedReceived |>, Ok tt).
Proof.
  intros [Hs <- Hcs _ Hre _] Hst Hro Hl Hv. rw Hro in Hre. cbn [by_role fst snd] in Hre.
  unfold ProcessServerFinished. rw st_bind_get. unfold in_state. rw Hst bool_decide_true //.
  rw bool_decide_true; [rw Hre; by eexists|]. cbn [andb].
  pose proof (verify_finished_ok h cs rk ServerFinishedLabel MessageTypeServerFinished vd Hre
    (or_intror eq_refl) Hl Hv) as Hok.
  rw (st_bind_ok _ _ _ _ _ Hok). unfold write_transcript. by rw st_bind_mod.
Qed.

Lemma CreateClientFinished_ok fips now h cs ms ik rk tr vd :
  keyed_hs h cs ms ik rk tr -> h_state h = HandshakeStateServerFinishedReceived ->
  s_Role (h_session h) = RoleInitiator -> len ms = 32 -> suite_usable fips cs ->
  len vd = 32 -> verify_data ClientFinishedLabel h = Ok vd ->
  exists h', CreateClientFinished fips now h = (h', Ok (first_sealed cs ik (client_record vd))) /\
    h_state h' = HandshakeStateComplete /\
    keyed_session (h_datagram h) RoleInitiator cs ms (h_session h').
Proof.
  intros [Hs _ Hcs Hse _ Ho] Hst Hro Hm Hu Hl Hv. rw Hro in Hse. cbn [by_role fst snd] in Hse.
  unfold CreateClientFinished. rw st_bind_get. unfold in_state. rw Hst bool_decide_true // Hse.
  rw bool_decide_true; [by eexists|]. cbn [andb].
  rw (st_bind_lift _ _ _ _ Hv) (st_bind_lift _ _ _ _ (EncodeFinished_wire _ _ Hl)).
  destruct (seal_finished_ok h cs ik (client_record vd) Hse) as [c Hc]. rw (st_bind_ok _ _ _ _ _ Hc).
  set (h1 := h <| h_sendCipher := Some c |>).
  destruct (initializeSessionKeys_ok fips now h1 cs ms) as (s' & Hi & Hk); try done; [by cbn; rw Ho|].
  rw (st_bind_ok _ _ _ _ _ Hi) st_bind_mod. unfold cleanup. rw st_bind_mod.
  eexists. split; [reflexivity|]. split; [reflexivity|]. rw -Hro. exact Hk.
Qed.

Lemma ProcessClientFinished_ok fips now g cs ms ik vd :
  h_recvCipher g = Some (fresh_cipher cs ik) -> h_sharedSecret g = Some ms ->
  s_CipherSuite (h_session g) = cs -> s_state (h_session g) = SessionStateHandshaking ->
  h_state g = HandshakeStateServerFinishedSent ->
  s_Role (h_session g) = RoleResponder -> len ms = 32 -> suite_usable fips cs ->
  len vd = 32 -> verify_data ClientFinishedLabel g = Ok vd ->
  exists g', ProcessClientFinished fips now (first_sealed cs ik (client_record vd)) g = (g', Ok tt) /\
    h_state g' = HandshakeStateComplete /\
    keyed_session (h_datagram g) RoleResponder cs ms (h_session g').
Proof.
  intros Hre Hs Hcs Ho Hst Hro Hm Hu Hl Hv.
  unfold ProcessClientFinished. rw st_bind_get. unfold in_state. rw Hst bool_decide_true //.
  pose proof (verify_finished_ok g cs ik ClientFinishedLabel MessageTypeClientFinished vd Hre
    (or_introl eq_refl) Hl Hv) as Hok.
  rw (st_bind_ok _ _ _ _ _ Hok).
  destruct (initializeSessionKeys_ok fips now g cs ms) as (s' & Hi & Hk); try done; [by rw Ho|].
  rw (st_bind_ok _ _ _ _ _ Hi) st_bind_mod. unfold cleanup, st_mod.
  eexists. split; [reflexivity|]. split; [reflexivity|]. rw -Hro. exact Hk.
Qed.
End Finish.

(** * Agreement *)

Section Agreement.
Context {P : Primitives} {PL : PrimitivesLaws P} {K : KEMPrimitives} {KL : KEMLaws K}.

(** Both handshakes are complete, and the sessions agree on the secret and the suite, hold the
    keys derived from that secret and can talk to each other in both directions. *)
Record agreed (dg : bool) (ms : list Z) (h g : Handshake) : Prop := {
  ag_complete : h_state h = HandshakeStateComplete /\ h_state g = HandshakeStateComplete;
  ag_established : s_state (h_session h) = SessionStateEstablished /\
    s_state (h_session g) = SessionStateEstablished;
  ag_secret : s_masterSecret (h_session h) = Some ms /\ s_masterSecret (h_session g) = Some ms;
  ag_suite : s_CipherSuite (h_session h) = CipherSuiteAES256GCM /\
    s_CipherSuite (h_session g) = CipherSuiteAES256GCM;
  ag_keyed : keyed_session dg RoleInitiator CipherSuiteAES256GCM ms (h_session h) /\
    keyed_session dg RoleResponder CipherSuiteAES256GCM ms (h_session g);
  ag_linked : linked dg (h_session h) (h_session g) /\ linked dg (h_session g) (h_session h) }.

Lemma keyed_agreed dg ms h g : h_state h = HandshakeStateComplete -> h_state g = HandshakeStateComplete ->
  keyed_session dg RoleInitiator CipherSuiteAES256GCM ms (h_session h) ->
  keyed_session dg RoleResponder CipherSuiteAES256GCM ms (h_session g) -> agreed dg ms h g.
Proof.
  intros Hh Hg Kh Kg. pose proof (keyed_session_linked _ _ _ _ _ _ Kh Kg) as L1.
  pose proof (keyed_session_linked _ _ _ _ _ _ Kg Kh) as L2.
  pose proof Kh as (? & ? & ? & ? & _ & _ & [? ? ? _ _ _ _] & _).
  pose proof Kg as (? & ? & ? & ? & _ & _ & [? ? ? _ _ _ _] & _). by split.
Qed.

(** The two Finished messages, from the state after the hellos. *)
Lemma finished_exchange fi frs now1 now2 h g ms ik rk tr :
  keyed_hs h CipherSuiteAES256GCM ms ik rk tr -> keyed_hs g CipherSuiteAES256GCM ms ik rk tr ->
  h_state h = HandshakeStateServerHelloReceived -> h_state g = HandshakeStateServerHelloSent ->
  s_Role (h_session h) = RoleInitiator -> s_Role (h_session g) = RoleResponder ->
  h_datagram g = h_datagram h -> len ms = 32 -> len tr < 2 ^ 31 ->
  exists g1 sf h1 h2 cf g2, CreateServerFinished g = (g1, Ok sf) /\
    ProcessServerFinished sf h = (h1, Ok tt) /\ CreateClientFinished fi now1 h1 = (h2, Ok cf) /\
    ProcessClientFinished frs now2 cf g1 = (g2, Ok tt) /\ agreed (h_datagram h) ms h2 g2 /\
    len sf = 65 /\ len cf = 65.
Proof.
  intros Kh Kg Sh Sg Rh Rg Hdg Hm Ht. pose proof (kh_secret _ _ _ _ _ _ Kh) as Mh.
  pose proof (kh_secret _ _ _ _ _ _ Kg) as Mg. pose proof (kh_transcript _ _ _ _ _ _ Kh) as Th.
  pose proof (kh_transcript _ _ _ _ _ _ Kg) as Tg.
  destruct (verify_data_ok ServerFinishedLabel g ms) as (vd & Hvl & Hvg & Hv); [by vm_compute|done..| |].
  { rw Tg. unfold fits32. lia. }
  destruct (CreateServerFinished_ok g _ ms ik rk tr vd Kg Sg Rg Hvl Hvg) as [c Hc].
  set (g1 := _ <| h_state := HandshakeStateServerFinishedSent |>) in Hc.
  pose proof (ProcessServerFinished_ok h _ ms ik rk tr vd Kh Sh Rh Hvl (Hv h Mh ltac:(by rw Th Tg))) as Hp.
  set (h1 := _ <| h_state := HandshakeStateServerFinishedReceived |>) in Hp.
  destruct (verify_data_ok ClientFinishedLabel h1 ms) as (vc & Hcl & Hch & Hvc); [by vm_compute|done..| |].
  { unfold fits32. cbn. unfold server_record. rw len_app len_wire_payload. lia. }
  assert (keyed_hs h1 CipherSuiteAES256GCM ms ik rk (tr ++ server_record vd)) as Kh1
    by (destruct Kh; by split).
  destruct (CreateClientFinished_ok fi now1 h1 _ ms ik rk _ vc Kh1 eq_refl Rh Hm (AES_usable fi) Hcl Hch)
    as (h2 & Hf & S2 & K2).
  pose proof (kh_recv _ _ _ _ _ _ Kg) as Rc. rw Rg in Rc.
  destruct (ProcessClientFinished_ok frs now2 g1 CipherSuiteAES256GCM ms ik vc Rc Mg
    (kh_suite _ _ _ _ _ _ Kg) (kh_open _ _ _ _ _ _ Kg) eq_refl Rg Hm (AES_usable frs) Hcl
    (Hvc g1 Mg eq_refl)) as (g2 & Hq & S3 & K3).
  eexists g1, _, h1, h2, _, g2. repeat (split; [eassumption|]).
  change (h_datagram g1) with (h_datagram g) in K3. rw Hdg in K3.
  split; [by apply keyed_agreed|]. unfold server_record, client_record.
  by rw !len_first_sealed !len_wire_payload Hvl Hcl.
Qed.

(** The handlers from the client hello on. *)
Lemma handlers_agree fi frs rnd krnd prnd srnd skrnd now now1 now2 h g h1 ch :
  hs_ready frs now h g -> CreateClientHello fi rnd krnd h = (h1, Ok ch) ->
  framed MessageTypeClientHello ch /\
  exists g1, ProcessClientHello frs prnd now ch g = (g1, Ok tt) /\ h_sendHRR g1 = h_sendHRR g /\
  forall g2 sh, CreateServerHello frs srnd skrnd g1 = (g2, Ok sh) ->
  exists h2 g3 sf h3 h4 cf g4 ms, ProcessServerHello fi sh h1 = (h2, Ok tt) /\
    CreateServerFinished g2 = (g3, Ok sf) /\
    ProcessServerFinished sf h2 = (h3, Ok tt) /\ CreateClientFinished fi now1 h3 = (h4, Ok cf) /\
    ProcessClientFinished frs now2 cf g3 = (g4, Ok tt) /\ agreed (h_datagram h) ms h4 g4 /\
    framed MessageTypeServerHello sh /\ len sf = 65 /\ len cf = 65.
Proof.
  intros R [m S]%CreateClientHello_inv.
  destruct (ProcessClientHello_ok _ frs _ prnd _ _ _ _ _ _ R S) as (g1 & Hp & V).
  pose proof (hello_sent_frame _ _ _ _ _ _ _ (hr_static _ _ _ _ R) S (hello_sent_pk _ _ _ _ _ _ _ _ _ R S)) as Fch. split; [exact Fch|].
  exists g1. split; [done|]. split; [exact (hv_hrr _ _ _ _ V)|].
  intros g2 sh (msg & ms & ik & rk & A)%CreateServerHello_inv.
  destruct (ProcessServerHello_ok _ _ _ _ _ _ _ _ _ _ _ _ _ _ _ _ _ R S V A) as (h2 & Hs & K2 & St & Ro & Dg).
  pose proof (ha_keyed _ _ _ _ _ _ _ _ _ A (hv_open _ _ _ _ V)) as Kg.
  rw (hv_suite _ _ _ _ V) (hv_transcript _ _ _ _ V) in Kg.
  destruct (ha_same _ _ _ _ _ _ _ _ _ A) as [Es Ed].
  destruct (exchange_agrees _ _ _ _ _ _ _ _ _ _ _ _ _ R V A) as (_ & Fsh & _).
  destruct (finished_exchange fi frs now1 now2 h2 g2 ms ik rk (h_transcript h1 ++ sh) K2 Kg St
    (ha_state _ _ _ _ _ _ _ _ _ A) Ro) as (g3 & sf & h3 & h4 & cf & g4 & F1 & F2 & F3 & F4 & F5 & F6 & F7).
  - rw Es (hv_role _ _ _ _ V). exact (proj2 (hr_role _ _ _ _ R)).
  - rw Ed (hv_datagram _ _ _ _ V) Dg. exact (hr_datagram _ _ _ _ R).
  - exact (proj1 (ha_len _ _ _ _ _ _ _ _ _ A)).
  - rw len_app (hs_transcript _ _ _ _ _ _ S) len_app.
    pose proof (framed_len _ _ Fch). pose proof (framed_len _ _ Fsh). pose proof (hr_short _ _ _ _ R). lia.
  - rw Dg in F5. exists h2, g3, sf, h3, h4, cf, g4, ms. by repeat (split; [eassumption|]).
Qed.
End Agreement.

(** * The drivers *)

Section Drivers.
Context {P : Primitives} {PL : PrimitivesLaws P} {K : KEMPrimitives} {KL : KEMLaws K}.

Lemma on_handshake_ok {A} (m : ST Handshake error A) h h' c a : m h = (h', Ok a) ->
  on_handshake m (h, c) = ((h', c), Ok a).
Proof. unfold on_handshake. by intros ->. Qed.

Lemma or_alert_ok {A} (m : Driver A) f s s' a : m s = (s', Ok a) -> or_alert m f s = (s', Ok a).
Proof. unfold or_alert. by intros ->. Qed.

Lemma rw_Read_ok {A} (m : ST (list Z) error A) h i i' out wf a : m i = (i', Ok a) ->
  rw_Read m (h, mkConn i out wf) = ((h, mkConn i' out wf), Ok a).
Proof. unfold rw_Read. cbn [cn_in]. by intros ->. Qed.

Lemma rw_Write_ok h i out b : rw_Write b (h, mkConn i out []) = ((h, mkConn i (out ++ [b]) []), Ok tt).
Proof. done. Qed.

Lemma ReadMessage_framed mt b rest : framed mt b -> ReadMessage (b ++ rest) = (rest, Ok b).
Proof. intros (p & -> & Hp). apply ReadMessage_wire. unfold MaxMessageSize. lia. Qed.

Lemma readEncryptedRecord_ok b rest : len b <= MaxMessageSize ->
  readEncryptedRecord (encryptedRecord b ++ rest) = (rest, Ok b).
Proof.
  intros Hb. pose proof (len_nonneg b) as Hn. unfold MaxMessageSize in Hb. unfold readEncryptedRecord, encryptedRecord.
  rw u32_small; [lia|]. rw -app_assoc.
  rw (st_bind_ok _ _ _ _ _ (ReadFull_app 4 (be_put 4 (len b)) (b ++ rest) (len_be_put 4 _))).
  rw (st_bind_lift (len b)); [apply get_be_self; lia|].
  unfold MaxMessageSize. replace (65536 <? len b) with false by lia. by apply ReadFull_app.
Qed.

Lemma framed_type mt b : framed mt b -> idx (E := error) b 0 = Ok mt.
Proof. by intros (p & -> & _). Qed.

Lemma initiator_run fi rnd krnd hrnd krnd2 now h h1 ch h2 sh h3 sf h4 cf :
  CreateClientHello fi rnd krnd h = (h1, Ok ch) -> framed MessageTypeServerHello sh ->
  ProcessServerHello fi sh h1 = (h2, Ok tt) -> len sf = 65 ->
  ProcessServerFinished sf h2 = (h3, Ok tt) -> CreateClientFinished fi now h3 = (h4, Ok cf) ->
  (do! _ := initiatorExchangeHellos fi rnd krnd hrnd krnd2 in initiatorFinish fi now)
    (h, mkConn (sh ++ encryptedRecord sf) [] []) =
    ((h4, mkConn [] [ch; encryptedRecord cf] []), Ok tt).
Proof.
  intros Hch Fsh Hsh Hsf Hps Hcf. set (rec := encryptedRecord sf).
  assert (initiatorExchangeHellos fi rnd krnd hrnd krnd2 (h, mkConn (sh ++ rec) [] []) =
    ((h2, mkConn rec [ch] []), Ok tt)) as Hx.
  { unfold initiatorExchangeHellos. rw (st_bind_ok _ _ _ _ _ (on_handshake_ok _ _ _ _ _ Hch)).
    rw (st_bind_ok _ _ _ _ _ (rw_Write_ok _ _ _ _)).
    rw (st_bind_ok _ _ _ _ _ (rw_Read_ok _ _ _ _ _ _ _ (ReadMessage_framed _ _ rec Fsh))).
    rw (st_bind_lift _ _ _ _ (framed_type _ _ Fsh)).
    change (MessageTypeServerHello =? MessageTypeHelloRetryRequest) with false. cbv iota.
    apply or_alert_ok, on_handshake_ok, Hsh. }
  rw (st_bind_ok _ _ _ _ _ Hx). unfold initiatorFinish. rw st_bind_get. cbv beta iota.
  pose proof (readEncryptedRecord_ok sf []) as Hr. rw app_nil_r Hsf in Hr.
  erewrite st_bind_ok; [|by rw (rw_Read_ok _ _ _ _ _ _ _ (Hr ltac:(done)))].
  erewrite st_bind_ok; [|apply or_alert_ok, on_handshake_ok, Hps].
  by rw (st_bind_ok _ _ _ _ _ (on_handshake_ok _ _ _ _ _ Hcf)).
Qed.

Lemma responder_run frs prnd prnd2 srnd skrnd now g g1 ch g2 sh g3 sf g4 cf :
  framed MessageTypeClientHello ch -> ProcessClientHello frs prnd now ch g = (g1, Ok tt) ->
  h_sendHRR g1 = false -> CreateServerHello frs srnd skrnd g1 = (g2, Ok sh) ->
  CreateServerFinished g2 = (g3, Ok sf) -> len cf = 65 ->
  ProcessClientFinished frs now cf g3 = (g4, Ok tt) ->
  (do! _ := responderExchangeHellos frs now prnd prnd2 srnd skrnd in responderFinish frs now)
    (g, mkConn (ch ++ encryptedRecord cf) [] []) =
    ((g4, mkConn [] [sh ++ encryptedRecord sf] []), Ok tt).
Proof.
  intros Fch Hch Hrr Hsh Hsf Hl Hcf. set (rec := encryptedRecord cf).
  assert (responderExchangeHellos frs now prnd prnd2 srnd skrnd (g, mkConn (ch ++ rec) [] []) =
    ((g3, mkConn rec [sh ++ encryptedRecord sf] []), Ok tt)) as Hx.
  { unfold responderExchangeHellos.
    rw (st_bind_ok _ _ _ _ _ (rw_Read_ok _ _ _ _ _ _ _ (ReadMessage_framed _ _ rec Fch))).
    erewrite st_bind_ok; [|apply or_alert_ok, on_handshake_ok, Hch].
    rw st_bind_get. cbv beta iota. rw Hrr.
    erewrite st_bind_ok; [|reflexivity].
    rw (st_bind_ok _ _ _ _ _ (on_handshake_ok _ _ _ _ _ Hsh)).
    by rw (st_bind_ok _ _ _ _ _ (on_handshake_ok _ _ _ _ _ Hsf)). }
  rw (st_bind_ok _ _ _ _ _ Hx). unfold responderFinish.
  pose proof (readEncryptedRecord_ok cf []) as Hr. rw app_nil_r Hl in Hr.
  rw (st_bind_ok _ _ _ _ _ (rw_Read_ok _ _ _ _ _ _ _ (Hr ltac:(done)))).
  apply or_alert_ok, on_handshake_ok, Hcf.
Qed.
End Drivers.

(** * Binding *)

Section Binding.
Context {P : Primitives} {PL : PrimitivesLaws P} {K : KEMPrimitives}.

(** The record [ct] that [g] made opens at [h], whose receive key is not the key of [g]. *)
Definition key_confusion (g h : Handshake) (ct : list Z) : Prop :=
  exists c c' p, h_sendCipher g = Some c /\ h_recvCipher h = Some c' /\
    (ae_suite c, ae_key c) <> (ae_suite c', ae_key c') /\ Open c' ct [] = Ok p.

(** What the MAC of a Finished is computed from. *)
Definition finished_absorb (label : list Z) (h : Handshake) : list Z :=
  multi_absorb label [secret_of h; h_transcript h].

Lemma seal_finished_inv pt h h' ct : seal_finished pt h = (h', Ok ct) ->
  exists c n, h_sendCipher h = Some c /\ len n = 12 /\
    ct = n ++ aead_seal (ae_suite c) (ae_key c) n pt [].
Proof.
  unfold seal_finished. rw st_bind_get. destruct (h_sendCipher h) as [c|]; [|done]. rw Seal_eq.
  destruct (ae_counter c <? ae_maxSeq c); rw st_bind_mod; [|done].
  intros [_ <-%Ok_inj]%pair_equal_spec. exists c, (counter_nonce (ae_counter c)).
  by rw len_counter_nonce.
Qed.

Lemma verify_finished_inv label data h h' pt : verify_finished label data h = (h', Ok pt) ->
  exists c vd, h' = h /\ h_recvCipher h = Some c /\ Open c data [] = Ok pt /\
    DecodeFinished pt = Ok vd /\ verify_data label h = Ok vd.
Proof.
  unfold verify_finished. rw st_bind_get. destruct (h_recvCipher h) as [c|]; [|done].
  destruct (Open c data []) as [p| |] eqn:Ho; [|done..]. intros H.
  apply st_bind_inv in H as (? & vd & [-> Hd]%st_lift_inv & H).
  apply st_bind_inv in H as (? & ev & [-> He]%st_lift_inv & H).
  unfold ConstantTimeCompare in H. destruct (bool_decide_reflect (vd = ev)) as [<-|]; [|done].
  injection H as <- <-. by exists c, vd.
Qed.

Lemma Open_at c n ct ad p : len n = 12 -> Open c (n ++ ct) ad = Ok p ->
  aead_open (ae_suite c) (ae_key c) n ct ad = Some p.
Proof.
  intros Hn. unfold Open. destruct (negb _); [|done].
  pose proof (at_off_0 (n ++ ct)) as H.
  rw (slice_at_eq _ _ _ _ _ _ H) ?obind_Ok_l; [golia|golia|].
  eapply at_off_app in H. rw (slice_from_at_eq _ _ _ _ H) ?obind_Ok_l; [golia|].
  by destruct (aead_open _ _ _ _ _); [intros ->%Ok_inj|].
Qed.

(** A sealed record opens to its plaintext, or the two keys differ. *)
Lemma Open_sealed c c' n pt pt' : len n = 12 ->
  Open c' (n ++ aead_seal (ae_suite c) (ae_key c) n pt []) [] = Ok pt' ->
  pt' = pt \/ (ae_suite c, ae_key c) <> (ae_suite c', ae_key c').
Proof.
  intros Hn Ho%Open_at; [|done].
  destruct (decide ((ae_suite c, ae_key c) = (ae_suite c', ae_key c'))) as [[= Es Ek]|Hne]; [left|by right].
  rw Es Ek aead_open_seal in Ho. by injection Ho.
Qed.

(** Equal verify values come from equal secrets and transcripts. *)
Lemma verify_data_binds label h g vd : fits32 label ->
  fits32 (secret_of h) -> fits32 (secret_of g) -> fits32 (h_transcript h) -> fits32 (h_transcript g) ->
  verify_data label h = Ok vd -> verify_data label g = Ok vd ->
  (secret_of h = secret_of g /\ h_transcript h = h_transcript g) \/
  shake_collision (finished_absorb label h) (finished_absorb label g).
Proof.
  intros Hl Hsh Hsg Hth Htg Hh Hg.
  destruct (DeriveKeyMultiple_eq label [secret_of h; h_transcript h] [secret_of g; h_transcript g] vd Hl)
    as [[= E1 E2]|]; [| |exact Hh|exact Hg|by left|by right].
  all: split; [done|]; by repeat constructor.
Qed.

(** A Finished that one side sealed and the other verified. *)
Lemma finished_binds label mt vd g g' ct h h' pt : fits32 label -> finished_type mt ->
  fits32 (secret_of h) -> fits32 (secret_of g) -> fits32 (h_transcript h) -> fits32 (h_transcript g) ->
  len vd = 32 -> verify_data label g = Ok vd ->
  seal_finished (wire_payload mt vd) g = (g', Ok ct) -> verify_finished label ct h = (h', Ok pt) ->
  (secret_of h = secret_of g /\ h_transcript h = h_transcript g) \/
  shake_collision (finished_absorb label h) (finished_absorb label g) \/ key_confusion g h ct.
Proof.
  intros Hl Hmt Lh Lg Th Tg Hvl Hv (c & n & Hc & Hn & ->)%seal_finished_inv
    (c' & vd' & _ & Hc' & Ho & Hd & Hv')%verify_finished_inv.
  destruct (Open_sealed _ _ _ _ _ Hn Ho) as [->|]; [|right; right; by exists c, c', pt].
  pose proof (DecodeFinished_wire mt vd [] Hvl Hmt) as Hw. rw app_nil_r Hd in Hw. apply Ok_inj in Hw as ->.
  destruct (verify_data_binds label h g vd) as [|]; auto.
Qed.

Lemma encoded_finished label mt h vd pt : verify_data label h = Ok vd -> EncodeFinished mt vd = Ok pt ->
  len vd = 32 /\ pt = wire_payload mt vd.
Proof.
  intros Hv%DeriveKeyMultiple_len He. split; [exact Hv|].
  rw EncodeFinished_wire // in He. by apply Ok_inj in He.
Qed.

Lemma CreateServerFinished_inv g g' sf : CreateServerFinished g = (g', Ok sf) ->
  exists vd s, verify_data ServerFinishedLabel g = Ok vd /\ len vd = 32 /\
    seal_finished (server_record vd) g = (s, Ok sf).
Proof.
  unfold CreateServerFinished. intros H. stinv H.
  destruct (encoded_finished _ _ _ _ _ Hm Hm0) as [Hl ->]. injection H as _ <-. by eauto.
Qed.

Lemma CreateClientFinished_inv fi now h h' cf : CreateClientFinished fi now h = (h', Ok cf) ->
  exists vd s, verify_data ClientFinishedLabel h = Ok vd /\ len vd = 32 /\
    seal_finished (client_record vd) h = (s, Ok cf).
Proof.
  unfold CreateClientFinished. intros H. stinv H.
  destruct (encoded_finished _ _ _ _ _ Hm Hm0) as [Hl ->]. injection H as _ <-. by eauto.
Qed.
End Binding.

(** * Theorems *)

(** C2: the handshake agrees. Whenever two peers have matching configuration (roles, transport,
    pinned static key or none, PSK or none, resumption ticket or none, at the start or after a
    retry request), the responder accepts the client hello the initiator made, and once it has
    made its answer every remaining step of both sides succeeds; at the end both sessions are
    established with the same master secret and cipher suite, and each can open what the other
    seals, on the stream or in the datagram epoch 0. *)
Theorem handshake_agreement (P : Primitives) (PL : PrimitivesLaws P) (K : KEMPrimitives)
    (KL : KEMLaws K) fi frs rnd krnd prnd srnd skrnd now now1 now2 h g h1 ch :
  hs_ready frs now h g -> CreateClientHello fi rnd krnd h = (h1, Ok ch) ->
  exists g1, ProcessClientHello frs prnd now ch g = (g1, Ok tt) /\ h_sendHRR g1 = h_sendHRR g /\
  forall g2 sh, CreateServerHello frs srnd skrnd g1 = (g2, Ok sh) ->
  exists h2 g3 sf h3 h4 cf g4 ms, ProcessServerHello fi sh h1 = (h2, Ok tt) /\
    CreateServerFinished g2 = (g3, Ok sf) /\
    ProcessServerFinished sf h2 = (h3, Ok tt) /\ CreateClientFinished fi now1 h3 = (h4, Ok cf) /\
    ProcessClientFinished frs now2 cf g3 = (g4, Ok tt) /\ agreed (h_datagram h) ms h4 g4.
Proof.
  intros R Hc. destruct (handlers_agree fi frs rnd krnd prnd srnd skrnd now now1 now2 h g h1 ch R Hc)
    as (_ & g1 & Hp & Hr & H).
  exists g1. split; [done|]. split; [done|]. intros g2 sh Hs.
  destruct (H g2 sh Hs) as (h2 & g3 & sf & h3 & h4 & cf & g4 & ms & ? & ? & ? & ? & ? & ? & _).
  exists h2, g3, sf, h3, h4, cf, g4, ms. by repeat (split; [eassumption|]).
Qed.

(** The starting points of the four drivers. *)
Definition initiator_start (tk : option (list Z * list Z)) (a : Session) : Handshake :=
  match tk with
  | Some (ticket, secret) => SetTicket ticket secret (NewHandshake a)
  | None => NewHandshake a
  end.

Definition responder_start (tm : option TicketManager) (b : Session) : Handshake :=
  match tm with
  | Some tm => SetTicketManager tm (NewHandshake b)
  | None => NewHandshake b
  end.

Definition run_initiator `{Primitives, KEMPrimitives} fi rnd krnd hrnd krnd2 now a tk c :=
  match tk with
  | Some (ticket, secret) => InitiatorResumptionHandshake fi rnd krnd hrnd krnd2 now a ticket secret c
  | None => InitiatorHandshake fi rnd krnd hrnd krnd2 now a c
  end.

Definition run_responder `{Primitives, KEMPrimitives} frs prnd prnd2 srnd skrnd now b tm c :=
  match tm with
  | Some tm => ResponderResumptionHandshake frs prnd prnd2 srnd skrnd now b tm c
  | None => ResponderHandshake frs prnd prnd2 srnd skrnd now b c
  end.

(** The stream drivers complete. Run the initiator's and the responder's driver, fresh or with
    resumption, each reading exactly what the other writes: if the configurations match and the
    two hellos can be made at all, both drivers return without error, have read everything, and
    end in agreement after one flight from the responder and two messages from the initiator. *)
Theorem stream_drivers_agree (P : Primitives) (PL : PrimitivesLaws P) (K : KEMPrimitives)
    (KL : KEMLaws K) fi frs rnd krnd hrnd krnd2 prnd prnd2 srnd skrnd now1 now a b tk tm h1 ch :
  hs_ready frs now (initiator_start tk a) (responder_start tm b) ->
  CreateClientHello fi rnd krnd (initiator_start tk a) = (h1, Ok ch) ->
  (forall g1, ProcessClientHello frs prnd now ch (responder_start tm b) = (g1, Ok tt) ->
   exists g2 sh, CreateServerHello frs srnd skrnd g1 = (g2, Ok sh)) ->
  exists h g ms outi outr, length outi = 2%nat /\ length outr = 1%nat /\
    run_initiator fi rnd krnd hrnd krnd2 now1 a tk (mkConn (concat outr) [] []) =
      ((h, mkConn [] outi []), Ok tt) /\
    run_responder frs prnd prnd2 srnd skrnd now b tm (mkConn (concat outi) [] []) =
      ((g, mkConn [] outr []), Ok tt) /\
    agreed false ms h g.
Proof.
  intros R Hc Hex.
  destruct (handlers_agree fi frs rnd krnd prnd srnd skrnd now now1 now _ _ h1 ch R Hc)
    as (Fch & g1 & Hp & Hr & H).
  destruct (Hex g1 Hp) as (g2 & sh & Hs).
  destruct (H g2 sh Hs) as (h2 & g3 & sf & h3 & h4 & cf & g4 & ms & H1 & H2 & H3 & H4 & H5 & H6 & Fsh & Lsf & Lcf).
  exists h4, g4, ms, [ch; encryptedRecord cf], [sh ++ encryptedRecord sf].
  split; [done|]. split; [done|]. cbn [concat]. rw !app_nil_r.
  pose proof (initiator_run fi rnd krnd hrnd krnd2 now1 _ h1 ch h2 sh h3 sf h4 cf Hc Fsh H1 Lsf H3 H4) as Ri.
  pose proof (responder_run frs prnd prnd2 srnd skrnd now _ g1 ch g2 sh g3 sf g4 cf Fch Hp) as Rr.
  split; [destruct tk as [[]|]; exact Ri|]. split.
  - destruct tm; apply Rr; done.
  - destruct tk as [[]|]; exact H6.
Qed.

(** C3: a Finished message authenticates the whole exchange. If one side verifies a Finished the
    other side made, in either direction, then both hold the same shared secret and have seen
    the same transcript (so the same hellos, and with them the same negotiated parameters),
    unless the two MAC inputs collide under SHAKE-256 or the record opens under a key it was not
    sealed with. *)
Theorem finished_authenticates (P : Primitives) (PL : PrimitivesLaws P) (K : KEMPrimitives)
    fi frs now now' h g :
  len (secret_of h) < 2 ^ 32 -> len (secret_of g) < 2 ^ 32 ->
  len (h_transcript h) < 2 ^ 32 -> len (h_transcript g) < 2 ^ 32 ->
  (forall g' sf h', CreateServerFinished g = (g', Ok sf) -> ProcessServerFinished sf h = (h', Ok tt) ->
   (secret_of h = secret_of g /\ h_transcript h = h_transcript g) \/
   shake_collision (finished_absorb ServerFinishedLabel h) (finished_absorb ServerFinishedLabel g) \/
   key_confusion g h sf) /\
  (forall h' cf g', CreateClientFinished fi now h = (h', Ok cf) ->
   ProcessClientFinished frs now' cf g = (g', Ok tt) ->
   (secret_of h = secret_of g /\ h_transcript h = h_transcript g) \/
   shake_collision (finished_absorb ClientFinishedLabel g) (finished_absorb ClientFinishedLabel h) \/
   key_confusion h g cf).
Proof.
  intros Lh Lg Th Tg. split.
  - intros g' sf h' (vd & s & Hv & Hl & Hs)%CreateServerFinished_inv Hp.
    unfold ProcessServerFinished in Hp. stinv Hp.
    eapply (finished_binds ServerFinishedLabel MessageTypeServerFinished vd g s sf h); try done.
    by right.
  - intros h' cf g' (vd & s & Hv & Hl & Hs)%CreateClientFinished_inv Hp.
    unfold ProcessClientFinished in Hp. stinv Hp.
    destruct (finished_binds ClientFinishedLabel MessageTypeClientFinished vd h s cf g s0 a)
      as [[-> ->]|]; try done; [by left|by left|by right].
Qed.

(** ** Witnesses *)

(** Peers that use everything: a pinned static key, a PSK, and both required. *)
Definition example_initiator : Session :=
  (fresh_session 0 RoleInitiator (replicate 16 1) (@chkemV1 toy toyKEM) (Some example_v1_key))
  <| s_PinnedServerKey := Some (KeyPair_PublicKey example_v1_key) |>
  <| s_PSK := Some (replicate 32 5) |> <| s_PSKIdentity := [1; 2] |>.

Definition example_responder : Session :=
  (fresh_session 0 RoleResponder (replicate 16 2) (@chkemV1 toy toyKEM) None)
  <| s_StaticKeyPair := Some example_v1_key |> <| s_RequireStaticAuth := true |>
  <| s_PSK := Some (replicate 32 5) |> <| s_PSKIdentity := [1; 2] |> <| s_RequirePSK := true |>.

Definition hello_rnd : Draws := example_draws [32%nat].
Definition kem_rnd : Draws := example_draws [32; 32]%nat.

Lemma example_registered : @registered_key toy toyKEM (@chkemV1 toy toyKEM) example_v1_key.
Proof.
  split; [reflexivity|]. right. exists (replicate 32 1 ++ replicate 64 2). vm_compute. reflexivity.
Qed.

Lemma example_ready :
  @hs_ready toy toyKEM false 0 (NewHandshake example_initiator) (NewHandshake example_responder).
Proof.
  split; try done.
  - exists example_v1_key. split; [reflexivity|exact example_registered].
  - exists (@chkemV1 toy toyKEM), example_v1_key. split; [reflexivity|]. split; [reflexivity|exact example_registered].
Qed.

Local Abbreviation example_ch := (@CreateClientHello toy toyKEM false hello_rnd kem_rnd (NewHandshake example_initiator)).
Definition example_ch_bytes : list Z := match example_ch.2 with Ok b => b | _ => [] end.
Local Abbreviation example_pch := (@ProcessClientHello toy toyKEM false (example_draws []) 0 example_ch_bytes
  (NewHandshake example_responder)).
Local Abbreviation example_sh := (@CreateServerHello toy false hello_rnd kem_rnd example_pch.1).
Definition example_sh_bytes : list Z := match example_sh.2 with Ok b => b | _ => [] end.

Lemma run_state {A B} (r : A * B) a b : r = (a, b) -> a = r.1.
Proof. by intros ->. Qed.

Lemma example_ch_ok : example_ch = (example_ch.1, Ok example_ch_bytes).
Proof. refine (run_pair example_ch _ _). vm_compute. reflexivity. Qed.

Lemma example_sh_ok : example_sh = (example_sh.1, Ok example_sh_bytes).
Proof. refine (run_pair example_sh _ _). vm_compute. reflexivity. Qed.

Lemma handshake_agreement_witness :
  exists h g ms, @agreed toy false ms h g.
Proof.
  destruct (handshake_agreement toy toy_laws toyKEM toyKEM_laws false false hello_rnd kem_rnd
    (example_draws []) hello_rnd kem_rnd 0 1 2 (NewHandshake example_initiator)
    (NewHandshake example_responder) example_ch.1 example_ch_bytes example_ready example_ch_ok)
    as (g1 & Hp & _ & H).
  pose proof (run_state example_pch _ _ Hp) as Hg. subst g1.
  destruct (H _ _ example_sh_ok) as (_ & _ & _ & _ & h4 & _ & g4 & ms & _ & _ & _ & _ & _ & Ha).
  exists h4, g4, ms. exact Ha.
Defined.

Lemma stream_drivers_agree_witness :
  exists h g ms, @agreed toy false ms h g.
Proof.
  destruct (stream_drivers_agree toy toy_laws toyKEM toyKEM_laws false false hello_rnd kem_rnd
    (example_draws []) (example_draws []) (example_draws []) (example_draws []) hello_rnd kem_rnd 1 0
    example_initiator example_responder None None example_ch.1 example_ch_bytes example_ready example_ch_ok)
    as (h & g & ms & _ & _ & _ & _ & _ & _ & Ha).
  - intros g1 Hp. pose proof (run_state example_pch _ _ Hp) as Hg. subst g1.
    exists example_sh.1, example_sh_bytes. exact example_sh_ok.
  - exists h, g, ms. exact Ha.
Defined.

Local Abbreviation example_sf := (CreateServerFinished (P := toy) example_sh.1).
Definition example_sf_bytes : list Z := match example_sf.2 with Ok b => b | _ => [] end.
Local Abbreviation example_psh := (@ProcessServerHello toy false example_sh_bytes example_ch.1).
Local Abbreviation example_psf := (@ProcessServerFinished toy example_sf_bytes example_psh.1).

Lemma finished_authenticates_witness :
  (secret_of example_psh.1 = secret_of example_sh.1 /\
   h_transcript example_psh.1 = h_transcript example_sh.1) \/
  @shake_collision toy (finished_absorb ServerFinishedLabel example_psh.1)
    (finished_absorb ServerFinishedLabel example_sh.1) \/
  @key_confusion toy example_sh.1 example_psh.1 example_sf_bytes.
Proof.
  refine (proj1 (finished_authenticates toy toy_laws toyKEM false false 1 2 example_psh.1 example_sh.1
    _ _ _ _) example_sf.1 example_sf_bytes example_psf.1 _ _).
  - vm_compute. reflexivity.
  - vm_compute. reflexivity.
  - vm_compute. reflexivity.
  - vm_compute. reflexivity.
  - refine (run_pair example_sf _ _). vm_compute. reflexivity.
  - refine (run_pair example_psf _ _). vm_compute. reflexivity.
Defined.
