(* ===== verification/Retry.v ===== *)
(** The hello retry.

    When the client hello names a KEM suite the responder does not have, the responder asks for
    one both have, and the initiator starts again with a key pair of that suite.  After the
    retry both sides are in a state from which [Agreement] shows the handshake completes, with
    the first hello bound into the transcript through its hash. *)

From Corelib Require Import ssreflect.
From stdpp Require Import base tactics list numbers strings.
From Stdlib Require Import ZArith Lia.
From S2P Require Import Prelude Base Messages Codec Replay Crypto Chkem Ticket Session DgramSession.
From S2P Require Import Handshake Hellos Agreement.

Local Open Scope Z_scope.
Local Open Scope go_scope.

Section Retry.
Context {P : Primitives} {PL : PrimitivesLaws P} {K : KEMPrimitives} {KL : KEMLaws K} (fi frs : bool).

(** Peers that are configured for each other but for the KEM suite, which the responder does not
    know.  Both are at the start. *)
Record hs_mismatch (now : Z) (h g : Handshake) : Prop := {
  hm_role : s_Role (h_session h) = RoleInitiator /\ s_Role (h_session g) = RoleResponder;
  hm_datagram : h_datagram g = h_datagram h;
  hm_unknown : GetSuite (u16 (s_ID (s_kemSuite (h_session h)))) = None;
  hm_key : forall kp b, s_LocalKeyPair (h_session h) = Some kp ->
    PublicKey_Bytes (KeyPair_PublicKey kp) = Ok b -> len b <= 4000;
  hm_initial : h_state g = HandshakeStateInitial;
  hm_first : h_firstClientHello h = None /\ h_hrrDone h = false /\ h_hrrDone g = false;
  hm_fresh : h_resumed h = false /\ h_resumed g = false /\ h_staticSecret g = None /\ psk_of g = None;
  hm_static : static_ready h g;
  hm_psk : psk_ready h g;
  hm_ticket : ticket_ready frs now h g }.

(** The retry request, for the suite the responder prefers among those offered. *)
Definition retry_request : list Z := wire_HelloRetryRequest (mkHelloRetryRequest Current SuiteCHKEMv1).

(** The responder notices and remembers the hello. *)
Lemma ProcessClientHello_unknown prnd now krnd h g h1 ch m :
  hs_mismatch now h g -> hello_sent fi krnd h h1 ch m ->
  ProcessClientHello frs prnd now ch g =
    (g <| h_firstClientHello := Some ch |> <| h_hrrSuite := SuiteCHKEMv1 |> <| h_sendHRR := true |>, Ok tt).
Proof.
  intros M S. destruct (hs_pk _ _ _ _ _ _ S) as (kp & Hkp & Hb).
  pose proof (hello_sent_decodes _ _ _ _ _ _ _ (hm_static _ _ _ M) S (hm_key _ _ _ M _ _ Hkp Hb)) as Hd.
  unfold ProcessClientHello. rw st_bind_get. unfold in_state. rw (hm_initial _ _ _ M) bool_decide_true //.
  rw (st_bind_lift _ _ _ _ Hd) (hs_version _ _ _ _ _ _ S).
  change (IsCompatible Current Current) with true. cbv iota.
  rw (hs_suite _ _ _ _ _ _ S) (hm_unknown _ _ _ M) (hs_suites _ _ _ _ _ _ S).
  by rw (proj2 (proj2 (hm_first _ _ _ M))).
Qed.

Lemma replaceFirstHello_ok h first d : h_firstClientHello h = Some first -> len first < 2 ^ 32 ->
  replaceFirstHelloWithHash d h =
    (h <| h_transcript := sha3_256 (list_absorb [first]) ++ d |>, Ok tt).
Proof.
  intros Hf Hl. unfold replaceFirstHelloWithHash. rw st_bind_get Hf.
  change (default [] (Some first)) with first.
  assert (TranscriptHash [first] = Ok (sha3_256 (list_absorb [first]))) as Ht.
  { apply TranscriptHash_absorbs. split; [done|]. by repeat constructor. }
  by rw (st_bind_lift _ _ _ _ Ht).
Qed.

(** The initiator accepts the request and is at the start again with a key of that suite. *)
Lemma ProcessHelloRetryRequest_ok hrnd krnd now h g h1 h2 ch m :
  hs_mismatch now h g -> hello_sent fi krnd h h1 ch m -> len ch < 2 ^ 32 ->
  ProcessHelloRetryRequest hrnd retry_request h1 = (h2, Ok tt) ->
  exists kp, s_GenerateKeyPair chkemV1 hrnd = Ok kp /\
    h2 = h1 <| h_session := (h_session h1) <| s_kemSuite := chkemV1 |> <| s_LocalKeyPair := Some kp |> |>
            <| h_transcript := sha3_256 (list_absorb [ch]) ++ retry_request |>
            <| h_hrrDone := true |> <| h_state := HandshakeStateInitial |>.
Proof.
  intros M S Hl. unfold ProcessHelloRetryRequest. rw st_bind_get. unfold in_state.
  rw (hs_state _ _ _ _ _ _ S) bool_decide_true // (hs_hrr _ _ _ _ _ _ S).
  destruct (hm_first _ _ _ M) as (Hf & -> & _). cbn [negb].
  pose proof (DecodeHelloRetryRequest_wire (mkHelloRetryRequest Current SuiteCHKEMv1) [] ltac:(done)) as Hd.
  rw app_nil_r in Hd. rw (st_bind_lift _ _ _ _ Hd).
  change (IsCompatible _ _) with true. cbv iota. change (resolveKEMSuite _) with (Ok (E := error) chkemV1).
  erewrite (st_bind_lift chkemV1) by reflexivity.
  change (offeredKEMSuite _) with true. cbv iota. intros H.
  apply st_bind_inv in H as (? & kp & [-> Hk]%st_lift_inv & H).
  unfold set_session in H. rw st_bind_mod in H. set (ha := _ <| h_session := _ |>) in H.
  assert (h_firstClientHello ha = Some ch) as Hfa by (cbn; rw (hs_first _ _ _ _ _ _ S) Hf; reflexivity).
  rw (st_bind_ok _ _ _ _ _ (replaceFirstHello_ok ha ch retry_request Hfa Hl)) in H.
  injection H as <-. by exists kp.
Qed.

Lemma CreateHelloRetryRequest_ok g ch : len ch < 2 ^ 32 ->
  CreateHelloRetryRequest
    (g <| h_firstClientHello := Some ch |> <| h_hrrSuite := SuiteCHKEMv1 |> <| h_sendHRR := true |>) =
    (g <| h_firstClientHello := Some ch |> <| h_hrrSuite := SuiteCHKEMv1 |>
       <| h_transcript := sha3_256 (list_absorb [ch]) ++ retry_request |>
       <| h_sendHRR := false |> <| h_hrrDone := true |>, Ok retry_request).
Proof.
  intros Hl. set (g1 := _ <| h_sendHRR := true |>). unfold CreateHelloRetryRequest. rw st_bind_get.
  change (h_sendHRR g1) with true. cbv iota.
  rw (st_bind_lift _ _ _ _ (EncodeHelloRetryRequest_wire _)).
  rw (st_bind_ok _ _ _ _ _ (replaceFirstHello_ok g1 ch retry_request eq_refl Hl)). by rw st_bind_mod.
Qed.

(** After the retry the two sides match. *)
Lemma retry_ready now krnd h g h1 ch m kp g2 h2 :
  hs_mismatch now h g -> hello_sent fi krnd h h1 ch m -> (exists hrnd, s_GenerateKeyPair chkemV1 hrnd = Ok kp) ->
  h2 = h1 <| h_session := (h_session h1) <| s_kemSuite := chkemV1 |> <| s_LocalKeyPair := Some kp |> |>
          <| h_transcript := sha3_256 (list_absorb [ch]) ++ retry_request |>
          <| h_hrrDone := true |> <| h_state := HandshakeStateInitial |> ->
  g2 = g <| h_firstClientHello := Some ch |> <| h_hrrSuite := SuiteCHKEMv1 |>
         <| h_transcript := sha3_256 (list_absorb [ch]) ++ retry_request |>
         <| h_sendHRR := false |> <| h_hrrDone := true |> ->
  hs_ready frs now h2 g2.
Proof.
  intros M S Hk -> ->. pose proof (hs_session _ _ _ _ _ _ S) as Es. destruct (hm_fresh _ _ _ M) as (F1 & F2 & F3 & F4).
  split; unfold static_ready, psk_ready, ticket_ready; cbn; rw ?Es; cbn.
  - exact (hm_role _ _ _ M).
  - rw (hs_datagram _ _ _ _ _ _ S). exact (hm_datagram _ _ _ M).
  - reflexivity.
  - rw len_app sha3_256_len. by vm_compute.
  - exists kp. split; [reflexivity|]. split; [reflexivity|by left].
  - exact (hm_initial _ _ _ M).
  - rw (hs_resumed _ _ _ _ _ _ S). by repeat split.
  - pose proof (hm_static _ _ _ M) as R. pose proof (hs_static _ _ _ _ _ _ S) as St.
    unfold static_ready, static_sent in R, St. destruct (s_PinnedServerKey (h_session h)); [exact R|].
    destruct R as [R1 R2], St as [_ St]. split; [congruence|done].
  - pose proof (hm_psk _ _ _ M) as R. pose proof (hs_psk _ _ _ _ _ _ S) as St.
    unfold psk_ready in R. destruct (s_PSK (h_session h)); [exact R|].
    destruct R as [R1 R2], St as [_ St]. split; [|done]. rw -R1 -St. reflexivity.
  - rw (hs_ticket _ _ _ _ _ _ S) (hs_ticketSecret _ _ _ _ _ _ S). exact (hm_ticket _ _ _ M).
Qed.
End Retry.

(** * Theorem *)

(** C10: the hello retry. A client hello for an unknown KEM suite is answered with a request for
    the suite both have; the initiator that generated a key for it is ready to start again, both
    sides have replaced the first hello by its hash in the transcript, the configurations match
    again (so the handshake completes), and a second retry request is refused. *)
Theorem hello_retry (P : Primitives) (PL : PrimitivesLaws P) (K : KEMPrimitives) (KL : KEMLaws K)
    fi frs rnd krnd prnd now h g h1 ch :
  hs_mismatch frs now h g -> CreateClientHello fi rnd krnd h = (h1, Ok ch) ->
  exists g1 g2, ProcessClientHello frs prnd now ch g = (g1, Ok tt) /\ h_sendHRR g1 = true /\
    CreateHelloRetryRequest g1 = (g2, Ok retry_request) /\ h_sendHRR g2 = false /\
    forall hrnd h2, ProcessHelloRetryRequest hrnd retry_request h1 = (h2, Ok tt) ->
      hs_ready frs now h2 g2 /\ h_state h2 = HandshakeStateInitial /\
      h_transcript h2 = sha3_256 (list_absorb [ch]) ++ retry_request /\
      forall rnd' krnd' h3 ch', CreateClientHello fi rnd' krnd' h2 = (h3, Ok ch') ->
      forall hrnd' data, ProcessHelloRetryRequest hrnd' data h3 = (h3, Err ErrUnsupportedKEMSuite).
Proof.
  intros M [m S]%CreateClientHello_inv. destruct (hs_pk _ _ _ _ _ _ S) as (kp & Hkp & Hb).
  pose proof (hello_sent_frame _ _ _ _ _ _ _ (hm_static _ _ _ _ M) S (hm_key _ _ _ _ M _ _ Hkp Hb)) as Fch.
  assert (len ch < 2 ^ 32) as Hl by (apply framed_len in Fch; lia).
  eexists _, _. split; [exact (ProcessClientHello_unknown fi frs prnd now krnd h g h1 ch m M S)|].
  split; [reflexivity|]. split; [exact (CreateHelloRetryRequest_ok g ch Hl)|]. split; [reflexivity|].
  intros hrnd h2 Hp. destruct (ProcessHelloRetryRequest_ok fi frs hrnd krnd now h g h1 h2 ch m M S Hl Hp)
    as (kp' & Hk & E2).
  split; [by eapply retry_ready; eauto|]. rw E2. split; [reflexivity|]. split; [reflexivity|].
  intros rnd' krnd' h3 ch' [m' S']%CreateClientHello_inv hrnd' data.
  unfold ProcessHelloRetryRequest. rw st_bind_get. unfold in_state.
  by rw (hs_state _ _ _ _ _ _ S') bool_decide_true // (hs_hrr _ _ _ _ _ _ S').
Qed.

(** A suite the responder does not have. *)
Definition example_new_suite : Suite :=
  let v1 := @chkemV1 toy toyKEM in
  mkSuite 9 (s_GenerateKeyPair v1) (s_GenerateStaticKeyPair v1) (s_ParseKeyPair v1) (s_Encapsulate v1)
    (s_Decapsulate v1) (s_ParsePublicKey v1) (s_ParseCiphertext v1) (s_PublicKeySize v1)
    (s_CiphertextSize v1) (s_SeedSize v1) true.

Definition example_newer : Session := example_initiator <| s_kemSuite := example_new_suite |>.

Local Abbreviation newer_ch := (@CreateClientHello toy toyKEM false hello_rnd kem_rnd (NewHandshake example_newer)).
Definition newer_ch_bytes : list Z := match newer_ch.2 with Ok b => b | _ => [] end.

Lemma newer_ch_ok : newer_ch = (newer_ch.1, Ok newer_ch_bytes).
Proof. refine (run_pair newer_ch _ _). vm_compute. reflexivity. Qed.

Lemma example_mismatch :
  @hs_mismatch toy toyKEM false 0 (NewHandshake example_newer) (NewHandshake example_responder).
Proof.
  split; try done.
  - intros kp b [= <-]. vm_compute. intros <-%Ok_inj. discriminate.
  - exists (@chkemV1 toy toyKEM), example_v1_key. split; [reflexivity|]. split; [reflexivity|exact example_registered].
Qed.

Local Abbreviation newer_retry :=
  (@ProcessHelloRetryRequest toy toyKEM (example_draws [32; 64]%nat) retry_request newer_ch.1).

Lemma hello_retry_witness :
  exists g2, @hs_ready toy toyKEM false 0 newer_retry.1 g2.
Proof.
  destruct (hello_retry toy toy_laws toyKEM toyKEM_laws false false hello_rnd kem_rnd (example_draws []) 0
    (NewHandshake example_newer) (NewHandshake example_responder) newer_ch.1 newer_ch_bytes
    example_mismatch newer_ch_ok) as (g1 & g2 & _ & _ & _ & _ & H).
  exists g2. apply (H (example_draws [32; 64]%nat) newer_retry.1).
  refine (run_pair newer_retry _ _). vm_compute. reflexivity.
Defined.
