(* ===== verification/Order.v ===== *)
(** Orders of handshake calls.

    The methods of [Handshake] guard themselves with the state of the handshake, because the
    stream drivers and the datagram state machine call them on whatever a peer sends.  Here a
    caller may make any calls, in any order, with any inputs, and go on after errors.  A session
    is established only if a Finished of the peer has verified. *)

From Corelib Require Import ssreflect.
From stdpp Require Import base tactics list numbers strings.
From Stdlib Require Import ZArith Lia.
From S2P Require Import Prelude Base Messages Codec Replay Crypto Chkem Ticket Session DgramSession.
From S2P Require Import Handshake Hellos Agreement.

Local Open Scope Z_scope.
Local Open Scope go_scope.

(** * Calls *)

Inductive Call :=
  | CallCreateClientHello (rnd krnd : Draws)
  | CallProcessHelloRetryRequest (krnd : Draws) (data : list Z)
  | CallProcessServerHello (data : list Z)
  | CallProcessServerFinished (data : list Z)
  | CallCreateClientFinished (now : Z)
  | CallProcessClientHello (krnd : Draws) (now : Z) (data : list Z)
  | CallCreateHelloRetryRequest
  | CallCreateServerHello (rnd krnd : Draws)
  | CallCreateServerFinished
  | CallProcessClientFinished (now : Z) (data : list Z).

Create HintDb trust.

(** A method is split into its assignments and the methods it calls. *)
Ltac trust_steps tac := keeps_auto; first [solve [eauto with trust] | tac].

Section Order.
Context {P : Primitives} {K : KEMPrimitives} (fips : bool).

(** The state a call leaves, whatever it returns. *)
Definition run_call (c : Call) (h : Handshake) : Handshake :=
  match c with
  | CallCreateClientHello rnd krnd => (CreateClientHello fips rnd krnd h).1
  | CallProcessHelloRetryRequest krnd data => (ProcessHelloRetryRequest krnd data h).1
  | CallProcessServerHello data => (ProcessServerHello fips data h).1
  | CallProcessServerFinished data => (ProcessServerFinished data h).1
  | CallCreateClientFinished now => (CreateClientFinished fips now h).1
  | CallProcessClientHello krnd now data => (ProcessClientHello fips krnd now data h).1
  | CallCreateHelloRetryRequest => (CreateHelloRetryRequest h).1
  | CallCreateServerHello rnd krnd => (CreateServerHello fips rnd krnd h).1
  | CallCreateServerFinished => (CreateServerFinished h).1
  | CallProcessClientFinished now data => (ProcessClientFinished fips now data h).1
  end.

Definition run_calls (cs : list Call) (h : Handshake) : Handshake := fold_left (fun h c => run_call c h) cs h.

(** The record [data] is a Finished of the peer: it opens under the receive key, and what it
    carries is the MAC under [label] of the secret and of everything exchanged so far. *)
Definition verifies (label data : list Z) (h : Handshake) : Prop :=
  exists c pt vd, h_recvCipher h = Some c /\ Open c data [] = Ok pt /\
    DecodeFinished pt = Ok vd /\ verify_data label h = Ok vd.

(** A call that checks a Finished that is good. *)
Definition checks_finished (c : Call) (h : Handshake) : Prop :=
  match c with
  | CallProcessServerFinished data => verifies ServerFinishedLabel data h
  | CallProcessClientFinished _ data => verifies ClientFinishedLabel data h
  | _ => False
  end.

(** The peer counts as authenticated. *)
Definition trusting (h : Handshake) : Prop :=
  s_state (h_session h) = SessionStateEstablished \/ h_state h = HandshakeStateServerFinishedReceived.

#[export] Instance trusting_dec h : Decision (trusting h).
Proof. unfold trusting. apply _. Defined.

(** * No call but a good Finished makes a handshake trusting *)

Definition no_trust (h h' : Handshake) : Prop := trusting h' -> trusting h.

#[export] Instance no_trust_preorder : PreOrder no_trust.
Proof. split; unfold no_trust; intros ?; auto. Qed.

Lemma on_session_keeps {A} (m : ST Session error A) :
  keeps (fun s s' => s_state s' = SessionStateEstablished -> s_state s = SessionStateEstablished) m ->
  keeps no_trust (on_session m).
Proof.
  intros Hm h. specialize (Hm (h_session h)). unfold on_session.
  destruct (m (h_session h)) as [s o]. cbn in *. unfold no_trust, trusting. cbn. tauto.
Qed.

(** An assignment does not make a handshake trusting. *)
Ltac trust_mod :=
  repeat match goal with
  | |- no_trust _ (match ?x with _ => _ end) => destruct x
  end;
  unfold no_trust, trusting; cbn; intros [Hx|Hx]; first [discriminate Hx | by left | by right].

Lemma foldStaticSecret_trust : keeps no_trust foldStaticSecret.
Proof. unfold foldStaticSecret. trust_steps trust_mod. Qed.
Lemma foldPSKSecret_trust : keeps no_trust foldPSKSecret.
Proof. unfold foldPSKSecret. trust_steps trust_mod. Qed.
Lemma deriveHandshakeKeys_trust : keeps no_trust (deriveHandshakeKeys fips).
Proof. unfold deriveHandshakeKeys. trust_steps trust_mod. Qed.
Lemma fold_and_derive_trust : keeps no_trust (fold_and_derive fips).
Proof.
  unfold fold_and_derive. keeps_auto;
    [apply foldStaticSecret_trust|apply foldPSKSecret_trust|apply deriveHandshakeKeys_trust].
Qed.
Lemma resumption_mix_trust fresh : keeps no_trust (resumption_mix fresh).
Proof. unfold resumption_mix. trust_steps trust_mod. Qed.
Lemma replaceFirstHello_trust d : keeps no_trust (replaceFirstHelloWithHash d).
Proof. unfold replaceFirstHelloWithHash. trust_steps trust_mod. Qed.
Lemma write_transcript_trust d : keeps no_trust (write_transcript d).
Proof. unfold write_transcript. trust_steps trust_mod. Qed.
Lemma seal_finished_trust d : keeps no_trust (seal_finished d).
Proof. unfold seal_finished. trust_steps trust_mod. Qed.
Lemma client_random_trust rnd : keeps no_trust (client_random rnd).
Proof. unfold client_random. trust_steps trust_mod. Qed.
Lemma static_encapsulate_trust krnd : keeps no_trust (static_encapsulate krnd).
Proof. unfold static_encapsulate. trust_steps trust_mod. Qed.
Lemma psk_advertise_trust : keeps no_trust psk_advertise.
Proof. unfold psk_advertise. trust_steps trust_mod. Qed.
Lemma static_decapsulate_trust ct : keeps no_trust (static_decapsulate ct).
Proof. unfold static_decapsulate. trust_steps trust_mod. Qed.
Lemma psk_select_trust krnd id : keeps no_trust (psk_select krnd id).
Proof. unfold psk_select. trust_steps trust_mod. Qed.

#[local] Hint Resolve foldStaticSecret_trust foldPSKSecret_trust deriveHandshakeKeys_trust
  fold_and_derive_trust resumption_mix_trust replaceFirstHello_trust write_transcript_trust
  seal_finished_trust client_random_trust static_encapsulate_trust psk_advertise_trust
  static_decapsulate_trust psk_select_trust : trust.

Lemma try_resume_trust now sid : keeps no_trust (try_resume fips now sid).
Proof.
  intros h. unfold try_resume. rw st_bind_get. destruct (h_ticketManager h) as [tm|]; [|reflexivity].
  destruct (0 <? len sid); [|reflexivity].
  assert (s_state (Resume fips now sid tm (h_session h)).1 = s_state (h_session h)) as Hs.
  { unfold Resume, st_bind, st_lift. by destruct (DecryptTicket fips now tm sid). }
  destruct (Resume fips now sid tm (h_session h)) as [s' [secret|e|]]; cbn in Hs; [| |reflexivity].
  all: unfold no_trust, trusting; cbn; rw Hs; tauto.
Qed.
#[local] Hint Resolve try_resume_trust : trust.

Lemma ProcessServerHello_trust d : keeps no_trust (ProcessServerHello fips d).
Proof.
  unfold ProcessServerHello, set_session. trust_steps trust_mod.
Qed.

(** Checking a Finished changes nothing; what follows runs only if it is good. *)
Lemma verify_finished_state label data h : (verify_finished label data h).1 = h.
Proof.
  unfold verify_finished. rw st_bind_get. destruct (h_recvCipher h) as [c|]; [|done].
  destruct (Open c data []) as [p| |]; [|done..]. unfold st_bind, st_lift, st_ret, st_err.
  destruct (DecodeFinished p); [|done..]. destruct (verify_data label h); [|done..].
  by destruct (ConstantTimeCompare _ _).
Qed.

Lemma verify_finished_then {A} label data (k : list Z -> ST Handshake error A) h :
  verifies label data h \/ ((do! pt := verify_finished label data in k pt) h).1 = h.
Proof.
  pose proof (verify_finished_state label data h) as Hs. unfold st_bind.
  destruct (verify_finished label data h) as [h' [pt|e|]] eqn:Hv; [left|by right..].
  apply verify_finished_inv in Hv as (c & vd & _ & Hc & Ho & Hd & He). by exists c, pt, vd.
Qed.

Lemma ProcessServerFinished_trust data h : trusting (ProcessServerFinished data h).1 ->
  trusting h \/ verifies ServerFinishedLabel data h.
Proof.
  unfold ProcessServerFinished. rw st_bind_get. destruct (_ && _); [|by left].
  match goal with |- context [st_bind (verify_finished ?l ?d) ?k] =>
    destruct (verify_finished_then l d k h) as [| ->] end; auto.
Qed.

Lemma ProcessClientFinished_trust now data h : trusting (ProcessClientFinished fips now data h).1 ->
  trusting h \/ verifies ClientFinishedLabel data h.
Proof.
  unfold ProcessClientFinished. rw st_bind_get. destruct (in_state h _); [|by left].
  match goal with |- context [st_bind (verify_finished ?l ?d) ?k] =>
    destruct (verify_finished_then l d k h) as [| ->] end; auto.
Qed.

Lemma CreateClientFinished_trust now h : trusting (CreateClientFinished fips now h).1 -> trusting h.
Proof.
  unfold CreateClientFinished. rw st_bind_get. unfold in_state.
  destruct (bool_decide_reflect (h_state h = HandshakeStateServerFinishedReceived)) as [He|]; [by right|done].
Qed.

Lemma call_trust c h : trusting (run_call c h) -> trusting h \/ checks_finished c h.
Proof.
  destruct c; cbn [run_call checks_finished];
    [| | |apply ProcessServerFinished_trust|left; by eapply CreateClientFinished_trust| | | |
     |apply ProcessClientFinished_trust]; intros H; left; revert h H;
    match goal with |- forall h, trusting (?m h).1 -> _ => change (keeps no_trust m) end.
  - unfold CreateClientHello, set_session. trust_steps trust_mod.
  - unfold ProcessHelloRetryRequest, set_session. trust_steps trust_mod.
  - apply ProcessServerHello_trust.
  - unfold ProcessClientHello, set_session. trust_steps trust_mod.
  - unfold CreateHelloRetryRequest. trust_steps trust_mod.
  - unfold CreateServerHello. trust_steps trust_mod.
  - unfold CreateServerFinished. trust_steps trust_mod.
Qed.

Lemma calls_trust cs h : trusting (run_calls cs h) -> ~ trusting h ->
  exists pre c post, cs = pre ++ c :: post /\ checks_finished c (run_calls pre h).
Proof.
  revert h. induction cs as [|c cs IH]; intros h; cbn; [done|]. intros Ht Hn.
  destruct (decide (trusting (run_call c h))) as [Hc|Hc].
  - apply call_trust in Hc as [|Hc]; [done|]. by exists [], c, cs.
  - destruct (IH _ Ht Hc) as (pre & c' & post & -> & Hf). by exists (c :: pre), c', post.
Qed.
End Order.

(** * Theorem *)

(** C4: no session is established without a good Finished. Start with a session that is not
    established and make any calls in any order with any inputs, going on after errors: if the
    session ends up established, then one of the calls was given a record that opens under the
    receive key of that moment and carries the MAC of the shared secret and of the transcript,
    under the label of the peer. *)
Theorem established_needs_finished (P : Primitives) (K : KEMPrimitives) fips s cs :
  s_state s <> SessionStateEstablished ->
  s_state (h_session (run_calls fips cs (NewHandshake s))) = SessionStateEstablished ->
  exists pre c post, cs = pre ++ c :: post /\ checks_finished c (run_calls fips pre (NewHandshake s)).
Proof.
  intros Hs He. apply calls_trust; [by left|]. by intros [|].
Qed.

Definition example_calls : list Call :=
  [CallCreateClientHello hello_rnd kem_rnd; CallProcessServerFinished [7]; CallProcessServerHello example_sh_bytes;
   CallProcessServerFinished example_sf_bytes; CallCreateClientFinished 1].

Lemma established_needs_finished_witness :
  exists pre c post, example_calls = pre ++ c :: post /\
    @checks_finished toy c (@run_calls toy toyKEM false pre (NewHandshake example_initiator)).
Proof.
  apply (established_needs_finished toy toyKEM false example_initiator example_calls).
  - vm_compute. discriminate.
  - vm_compute. reflexivity.
Defined.
