(* ===== verification/Sha256.v ===== *)
(** The parts of the Go standard library the retry cookie rests on: [crypto/sha256] (FIPS 180-4)
    and [crypto/hmac] (RFC 2104), written out as functions on byte lists, with the published test
    vectors as a check of the transcription and the lengths of their results. *)

From Corelib Require Import ssreflect.
From stdpp Require Import base tactics list numbers.
From Stdlib Require Import ZArith Lia.
From S2P Require Import Prelude.

Local Open Scope Z_scope.
Local Open Scope go_scope.

(** * Words *)

Definition rotr (n x : Z) : Z := Z.lor (Z.shiftr x n) (u32 (Z.shiftl x (32 - n))).
Definition xor3 (a b c : Z) : Z := Z.lxor (Z.lxor a b) c.
Definition Ch (x y z : Z) : Z := Z.lxor (Z.land x y) (Z.land (Z.lxor x (2 ^ 32 - 1)) z).
Definition Maj (x y z : Z) : Z := xor3 (Z.land x y) (Z.land x z) (Z.land y z).
Definition Sigma0 (x : Z) : Z := xor3 (rotr 2 x) (rotr 13 x) (rotr 22 x).
Definition Sigma1 (x : Z) : Z := xor3 (rotr 6 x) (rotr 11 x) (rotr 25 x).
Definition sigma0 (x : Z) : Z := xor3 (rotr 7 x) (rotr 18 x) (Z.shiftr x 3).
Definition sigma1 (x : Z) : Z := xor3 (rotr 17 x) (rotr 19 x) (Z.shiftr x 10).

(** ** Constants *)

(** FIPS 180-4 takes them from the primes: the first 32 bits of the fractional parts of the square
    roots of the first 8, and of the cube roots of the first 64. *)
Definition is_prime (n : Z) : bool :=
  forallb (fun d => negb (n mod d =? 0)) (seqZ 2 (n - 2)).

Definition primes : list Z := Eval vm_compute in List.filter is_prime (seqZ 2 310).

(** The integer cube root, from bit [n - 1] down. *)
Fixpoint cbrt (n : nat) (r x : Z) : Z :=
  match n with
  | O => r
  | S n => let r' := r + 2 ^ Z.of_nat n in cbrt n (if r' ^ 3 <=? x then r' else r) x
  end.

Definition round_constants : list Z := Eval vm_compute in
  map (fun p => u32 (cbrt 36 0 (p * 2 ^ 96))) primes.

Record hash_state := mkHash { ha : Z; hb : Z; hc : Z; hd : Z; he : Z; hf : Z; hg : Z; hh : Z }.

Definition initial_hash : hash_state := Eval vm_compute in
  let h i := u32 (Z.sqrt (nth i primes 0 * 2 ^ 64)) in
  mkHash (h 0%nat) (h 1%nat) (h 2%nat) (h 3%nat) (h 4%nat) (h 5%nat) (h 6%nat) (h 7%nat).

(** * One block *)

(** The message schedule, newest word first: each word comes from the 2nd, 7th, 15th and 16th
    before it. *)
Fixpoint schedule (n : nat) (w : list Z) : list Z :=
  match n with
  | O => w
  | S n =>
      let at_ i := nth i w 0 in
      schedule n (u32 (sigma1 (at_ 1%nat) + at_ 6%nat + sigma0 (at_ 14%nat) + at_ 15%nat) :: w)
  end.

Definition round (s : hash_state) (kw : Z * Z) : hash_state :=
  let '(mkHash a b c d e f g h) := s in
  let t1 := h + Sigma1 e + Ch e f g + kw.1 + kw.2 in
  let t2 := Sigma0 a + Maj a b c in
  mkHash (u32 (t1 + t2)) a b c (u32 (d + t1)) e f g.

Fixpoint block_words (n : nat) (p : list Z) : list Z :=
  match n with
  | O => []
  | S n => be_val (take 4 p) :: block_words n (drop 4 p)
  end.

Definition compress (s : hash_state) (block : list Z) : hash_state :=
  let w := rev (schedule 48 (rev (block_words 16 block))) in
  let s' := foldl round s (zip round_constants w) in
  mkHash (u32 (ha s + ha s')) (u32 (hb s + hb s')) (u32 (hc s + hc s')) (u32 (hd s + hd s'))
    (u32 (he s + he s')) (u32 (hf s + hf s')) (u32 (hg s + hg s')) (u32 (hh s + hh s')).

(** * The hash and the MAC *)

Definition padding (n : Z) : list Z :=
  0x80 :: replicate (Z.to_nat ((55 - n) mod 64)) 0 ++ be_put 8 (u64 (n * 8)).

Fixpoint compress_blocks (n : nat) (s : hash_state) (p : list Z) : hash_state :=
  match n with
  | O => s
  | S n => compress_blocks n (compress s (take 64 p)) (drop 64 p)
  end.

Definition digest (s : hash_state) : list Z :=
  be_put 4 (ha s) ++ be_put 4 (hb s) ++ be_put 4 (hc s) ++ be_put 4 (hd s) ++
  be_put 4 (he s) ++ be_put 4 (hf s) ++ be_put 4 (hg s) ++ be_put 4 (hh s).

Definition sha256 (p : list Z) : list Z :=
  let p := p ++ padding (len p) in
  digest (compress_blocks (length p / 64) initial_hash p).

Definition hmac_key (key : list Z) : list Z :=
  let key := if 64 <? len key then sha256 key else key in
  key ++ replicate (64 - length key) 0.

(** [hmac.New(sha256.New, key)], the message written, [Sum(nil)]. *)
Definition hmac_sha256 (key msg : list Z) : list Z :=
  let k := hmac_key key in
  sha256 (map (Z.lxor 0x5c) k ++ sha256 (map (Z.lxor 0x36) k ++ msg)).

Lemma sha256_len p : len (sha256 p) = 32.
Proof. unfold sha256, digest, len. by rw !length_app !length_be_put. Qed.

Lemma sha256_bytes p : is_bytes (sha256 p).
Proof. unfold sha256, digest. repeat (apply Forall_app; split); apply be_put_bytes. Qed.

Lemma hmac_sha256_len key msg : len (hmac_sha256 key msg) = 32.
Proof. exact: sha256_len. Qed.

(** FIPS 180-4: the digest of [abc]. *)
Example sha256_abc :
  be_val (sha256 [97; 98; 99]) =
  0xba7816bf8f01cfea414140de5dae2223b00361a396177a9cb410ff61f20015ad.
Proof. by vm_compute. Qed.

(** FIPS 180-4: a message of 56 bytes, which takes two blocks. *)
Example sha256_two_blocks :
  be_val (sha256 (concat (map (fun i => [i; i + 1; i + 2; i + 3]) (seqZ 97 14)))) =
  0x248d6a61d20638b8e5c026930c3e6039a33ce45964ff2167f6ecedd419db06c1.
Proof. by vm_compute. Qed.

(** RFC 4231, test case 1. *)
Example hmac_sha256_rfc4231 :
  be_val (hmac_sha256 (replicate 20 0x0b) [72; 105; 32; 84; 104; 101; 114; 101]) =
  0xb0344c61d8db38535ca8afceaf0bf12b881dc200c9833da726e9376c2e32cff7.
Proof. by vm_compute. Qed.
