(* ===== verification/Admission.v ===== *)
(** Admission control: the retry cookie of [pkg/tunnel/dgram_cookie.go], the per-IP connection
    limiter and the handshake token bucket of [pkg/tunnel/limiter.go], and the places of
    [pkg/tunnel/transport.go] that consult them ([checkIPRateLimit], [rateLimitedConn.Close],
    [SetConfig]).

    A [net.Addr] is its [String()], the only thing the code asks of it; the clock is an argument;
    a [float64] is a [spec_float] at precision 53 and maximal exponent 1024. *)

From Corelib Require Import ssreflect.
From stdpp Require Import base tactics list numbers strings gmap.
From Stdlib Require Import ZArith Lia Ascii SpecFloat.
From S2P Require Import Prelude Base Crypto Chkem Sha256 Ticket.

Local Open Scope Z_scope.
Local Open Scope go_scope.

(** * The cookie signer *)

Module Cookie.

Definition cookieSecretSize : Z := 32.
Definition cookieTimestampSize : Z := 8.
Definition cookieMACSize : Z := 32.
Definition cookieSize : Z := cookieTimestampSize + cookieMACSize.
Definition cookieLifetime : Z := 10 * Second.

Record cookieSigner := mkCookieSigner { secret : list Z }.

(** [[]byte(s)]. *)
Definition string_bytes (s : string) : list Z :=
  map (fun a => Z.of_nat (nat_of_ascii a)) (String.list_ascii_of_string s).

Definition newCookieSigner (rnd : Draws) : outcome error cookieSigner :=
  let! secret := SecureRandomBytes rnd 0 cookieSecretSize in
  Ok (mkCookieSigner secret).

Definition mac (cs : cookieSigner) (addr : string) (tsBytes : list Z) : list Z :=
  hmac_sha256 (secret cs) (string_bytes addr ++ tsBytes).

Definition issue (cs : cookieSigner) (now : Z) (addr : string) : list Z :=
  let ts := be_put 8 (u64 now) in
  ts ++ mac cs addr ts.

Definition verify (cs : cookieSigner) (now : Z) (addr : string) (cookie : list Z) : bool :=
  if negb (len cookie =? cookieSize) then false else
  let ts := take 8 cookie in
  if negb (bool_decide (drop 8 cookie = mac cs addr ts)) then false else
  let issued := i64 (be_val ts) in
  let age := time_Since now issued in (* [now().Sub(issued)] *)
  (0 <=? age) && (age <=? cookieLifetime).

End Cookie.

(** * Connections per address *)

Module IPLimit.

Record IPRateLimiter := mkIPRateLimiter {
  connections : gmap string Z;
  maxPerIP : Z }.

Definition NewIPRateLimiter (maxPerIP : Z) : IPRateLimiter := mkIPRateLimiter ∅ maxPerIP.

(** [m[k]] on a Go map: zero for an absent key. *)
Definition count (m : gmap string Z) (ip : string) : Z := default 0 (m !! ip).

Definition AllowConnection (l : IPRateLimiter) (ip : string) : IPRateLimiter * bool :=
  if maxPerIP l <=? 0 then (l, true)
  else if maxPerIP l <=? count (connections l) ip then (l, false)
  else (mkIPRateLimiter (<[ip := count (connections l) ip + 1]> (connections l)) (maxPerIP l), true).

Definition ReleaseConnection (l : IPRateLimiter) (ip : string) : IPRateLimiter :=
  if maxPerIP l <=? 0 then l
  else if 0 <? count (connections l) ip then
    let m := <[ip := count (connections l) ip - 1]> (connections l) in
    let m := if count m ip =? 0 then delete ip m else m in
    mkIPRateLimiter m (maxPerIP l)
  else l.

(** The connection wrapper: [closed] is its [closeOnce] having run. *)
Record rateLimitedConn := mkConn { conn_ip : string; conn_closed : bool }.

(** [rateLimitedConn.Close]: the slot goes back once. *)
Definition Close (l : IPRateLimiter) (c : rateLimitedConn) : IPRateLimiter * rateLimitedConn :=
  if conn_closed c then (l, c)
  else (ReleaseConnection l (conn_ip c), mkConn (conn_ip c) true).

(** [Listener.checkIPRateLimit] with a limiter configured: the wrapped connection, or none. *)
Definition checkIPRateLimit (l : IPRateLimiter) (ip : string)
    : IPRateLimiter * option rateLimitedConn :=
  let '(l, ok) := AllowConnection l ip in
  if ok then (l, Some (mkConn ip false)) else (l, None).

(** A listener at work: connections arrive, and each is closed any number of times. *)
Record listener := mkListener { limiter : IPRateLimiter; conns : list rateLimitedConn }.

Inductive event := Arrive (ip : string) | CloseConn (i : nat).

Definition step (s : listener) (e : event) : listener :=
  match e with
  | Arrive ip =>
      match checkIPRateLimit (limiter s) ip with
      | (l, Some c) => mkListener l (conns s ++ [c])
      | (l, None) => mkListener l (conns s)
      end
  | CloseConn i =>
      match conns s !! i with
      | Some c => let '(l, c) := Close (limiter s) c in mkListener l (<[i := c]> (conns s))
      | None => s
      end
  end.

Definition run (max : Z) (es : list event) : listener :=
  foldl step (mkListener (NewIPRateLimiter max) []) es.

(** The connections from [ip] that are open. *)
Definition live (ip : string) (cs : list rateLimitedConn) : Z :=
  len (filter (fun c => conn_ip c = ip /\ conn_closed c = false) cs).

End IPLimit.

(** * Handshakes per second *)

Module TokenBucket.

Definition f64 := spec_float.
Definition f64_of_Z (z : Z) : f64 := binary_normalize 53 1024 z 0 false.
Definition f64_add : f64 -> f64 -> f64 := SFadd 53 1024.
Definition f64_sub : f64 -> f64 -> f64 := SFsub 53 1024.
Definition f64_mul : f64 -> f64 -> f64 := SFmul 53 1024.
Definition f64_div : f64 -> f64 -> f64 := SFdiv 53 1024.

(** [Duration.Seconds]: whole seconds plus the rest over 1e9. *)
Definition Seconds (d : Z) : f64 :=
  f64_add (f64_of_Z (Z.quot d Second)) (f64_div (f64_of_Z (Z.rem d Second)) (f64_of_Z 1000000000)).

Record HandshakeLimiter := mkHandshakeLimiter {
  rate : f64;
  burst : Z;
  tokens : f64;
  lastRefill : Z }.

Definition NewHandshakeLimiter (rate : f64) (burst now : Z) : HandshakeLimiter :=
  mkHandshakeLimiter rate burst (f64_of_Z burst) now.

Definition AllowHandshake (l : HandshakeLimiter) (now : Z) : HandshakeLimiter * bool :=
  if SFleb (rate l) (f64_of_Z 0) then (l, true) else
  let elapsed := Seconds (time_Since now (lastRefill l)) in
  let t := f64_add (tokens l) (f64_mul elapsed (rate l)) in
  let t := if SFltb (f64_of_Z (burst l)) t then f64_of_Z (burst l) else t in
  if SFleb (f64_of_Z 1) t
  then (mkHandshakeLimiter (rate l) (burst l) (f64_sub t (f64_of_Z 1)) now, true)
  else (mkHandshakeLimiter (rate l) (burst l) t now, false).

(** The verdicts on handshakes arriving at the times [nows]. *)
Fixpoint verdicts (l : HandshakeLimiter) (nows : list Z) : list bool :=
  match nows with
  | [] => []
  | now :: nows => let '(l, ok) := AllowHandshake l now in ok :: verdicts l nows
  end.

End TokenBucket.

(** [Listener.SetConfig]: the limiters the rate limits of a configuration stand for. *)
Record RateLimitConfig := mkRateLimitConfig {
  MaxConnectionsPerIP : Z;
  HandshakeRateLimit : TokenBucket.f64;
  HandshakeBurst : Z }.

Definition SetConfig_limiters (c : RateLimitConfig) (now : Z)
    : option IPLimit.IPRateLimiter * option TokenBucket.HandshakeLimiter :=
  (if 0 <? MaxConnectionsPerIP c then Some (IPLimit.NewIPRateLimiter (MaxConnectionsPerIP c))
   else None,
   if SFltb (TokenBucket.f64_of_Z 0) (HandshakeRateLimit c)
   then Some (TokenBucket.NewHandshakeLimiter (HandshakeRateLimit c) (HandshakeBurst c) now)
   else None).

(** * The cookie signer is correct *)

Module CookieProofs.
Import Cookie.

Lemma string_bytes_inj s s' : string_bytes s = string_bytes s' -> s = s'.
Proof.
  unfold string_bytes. intros H.
  rw -(String.string_of_list_ascii_of_string s) -(String.string_of_list_ascii_of_string s').
  f_equal. revert H. generalize (String.list_ascii_of_string s').
  induction (String.list_ascii_of_string s) as [|a l IH]; intros [|b l']; cbn; try done.
  intros [= Hab Hl]. f_equal; [|by apply IH].
  rw -(ascii_nat_embedding a) -(ascii_nat_embedding b). by apply f_equal, Nat2Z.inj.
Qed.

Lemma i64_u64 t : - 2 ^ 63 <= t < 2 ^ 63 -> i64 (u64 t) = t.
Proof.
  intros Ht. unfold i64, u64.
  rw -Zplus_mod_idemp_l Zmod_mod Zplus_mod_idemp_l Z.mod_small; lia.
Qed.

Lemma u64_i64 z : is_u64 z -> u64 (i64 z) = z.
Proof.
  intros Hz. unfold is_u64 in Hz. unfold i64, u64.
  destruct (decide (z < 2 ^ 63)).
  - rw (Z.mod_small (z + 2 ^ 63)); [lia|]. rw Z.mod_small; lia.
  - rw -(Zmod_unique (z + 2 ^ 63) (2 ^ 64) 1 (z - 2 ^ 63)); [lia|lia|].
    rw -(Zmod_unique (z - 2 ^ 63 - 2 ^ 63) (2 ^ 64) (-1) z); lia.
Qed.

Lemma i64_range z : - 2 ^ 63 <= i64 z < 2 ^ 63.
Proof. unfold i64. pose proof (Z.mod_pos_bound (z + 2 ^ 63) (2 ^ 64)). lia. Qed.

(** Two different inputs with the same MAC under the signer's secret. *)
Definition mac_collision (cs : cookieSigner) (m m' : list Z) : Prop :=
  m <> m' /\ hmac_sha256 (secret cs) m = hmac_sha256 (secret cs) m'.

Lemma mac_len cs addr ts : len (mac cs addr ts) = 32.
Proof. exact: hmac_sha256_len. Qed.

Lemma issue_bytes cs now addr : is_bytes (issue cs now addr).
Proof. apply Forall_app. split; [apply be_put_bytes|exact: sha256_bytes]. Qed.

(** The timestamp has a fixed width, so address and timestamp are told apart. *)
Lemma mac_collide cs addr addr' ts : mac cs addr ts = mac cs addr' ts ->
  addr = addr' \/ mac_collision cs (string_bytes addr ++ ts) (string_bytes addr' ++ ts).
Proof.
  intros H. destruct (decide (addr = addr')) as [|Hne]; [by left|right; split; [|done]].
  intros Heq. by apply app_inv_tail, string_bytes_inj in Heq.
Qed.

(** Age and lifetime, through the saturated subtraction. *)
Lemma within_lifetime now t :
  ((0 <=? time_Since now t) && (time_Since now t <=? cookieLifetime)) = true <->
  0 <= now - t <= cookieLifetime.
Proof. unfold time_Since, minDuration, maxDuration, cookieLifetime, Second. lia. Qed.

Lemma verify_split cs now addr ts m : len ts = 8 -> len m = 32 ->
  verify cs now addr (ts ++ m) =
  bool_decide (m = mac cs addr ts) &&
  ((0 <=? time_Since now (i64 (be_val ts))) && (time_Since now (i64 (be_val ts)) <=? cookieLifetime)).
Proof.
  intros Hts Hm. assert (Hl : length ts = 8%nat) by (unfold len in Hts; lia).
  unfold verify. rw len_app Hts Hm take_app_length' // drop_app_length' //.
  cbn. by case_bool_decide.
Qed.

(** C26: The retry cookie is sound and complete up to its MAC: a cookie issued for one address at one
    time is accepted for an address at a later time exactly when it is at most ten seconds old and
    the address is the same or the two addresses collide under HMAC-SHA256; and every cookie
    accepted for an address is, byte for byte, the one the signer issues for that address at some
    time in the last ten seconds. *)
Theorem cookie_verify_exact cs now addr t addr0 cookie :
  - 2 ^ 63 <= t < 2 ^ 63 -> is_bytes cookie ->
  (verify cs now addr (issue cs t addr0) = true <->
   0 <= now - t <= cookieLifetime /\
   (addr = addr0 \/
    mac_collision cs (string_bytes addr0 ++ be_put 8 (u64 t)) (string_bytes addr ++ be_put 8 (u64 t))))
  /\
  (verify cs now addr cookie = true ->
   exists t', 0 <= now - t' <= cookieLifetime /\ cookie = issue cs t' addr).
Proof.
  intros Ht Hb. split.
  - unfold issue. rw verify_split; [by rw len_be_put|exact: mac_len|].
    rw be_val_put Z.mod_small; [apply Z.mod_pos_bound; lia|]. rw i64_u64 //.
    rw andb_true_iff within_lifetime bool_decide_eq_true. split.
    + intros [Hm Hw]. split; [done|]. apply mac_collide in Hm as [->|]; by auto.
    + intros [Hw [->|[_ Hm]]]; by auto.
  - unfold verify. destruct (len cookie =? cookieSize) eqn:Hl; [|done]. cbn [negb].
    case_bool_decide as Hm; [|done]. cbn [negb]. rw within_lifetime => Hw.
    exists (i64 (be_val (take 8 cookie))). split; [done|].
    assert (H8 : length (take 8 cookie) = 8%nat).
    { rw length_take. unfold cookieSize, cookieTimestampSize, cookieMACSize, len in Hl. lia. }
    assert (Hts : is_bytes (take 8 cookie)) by exact: Forall_take.
    assert (Hu : is_u64 (be_val (take 8 cookie))).
    { pose proof (be_val_bound _ Hts) as Hv. unfold len in Hv. by rw H8 in Hv. }
    unfold issue. rw u64_i64 //. pose proof (be_put_val _ Hts) as Hp. rw H8 in Hp.
    by rw Hp -Hm take_drop.
Qed.

Lemma cookie_verify_exact_witness :
  let cs := mkCookieSigner (replicate 32 7) in
  let addr := "192.0.2.1:4433"%string in
  verify cs (1000 + 10 * Second) addr (issue cs 1000 addr) = true /\
  exists t', 0 <= 1000 + 10 * Second - t' <= cookieLifetime /\ issue cs 1000 addr = issue cs t' addr.
Proof.
  intros cs addr.
  destruct (cookie_verify_exact cs (1000 + 10 * Second) addr 1000 addr (issue cs 1000 addr))
    as [[_ Hi] Ha]; [lia| |].
  - exact: issue_bytes.
  - assert (Hv : verify cs (1000 + 10 * Second) addr (issue cs 1000 addr) = true).
    { apply Hi. split; [unfold cookieLifetime, Second; lia|by left]. }
    exact (conj Hv (Ha Hv)).
Defined.

End CookieProofs.

(** * The connection limiter counts live connections *)

Module IPLimitProofs.
Import IPLimit.

Definition is_live (ip : string) (c : rateLimitedConn) : Prop :=
  conn_ip c = ip /\ conn_closed c = false.

#[local] Instance is_live_dec ip c : Decision (is_live ip c).
Proof. unfold is_live. solve_decision. Defined.

Lemma live_nonneg ip cs : 0 <= live ip cs.
Proof. unfold live, len. lia. Qed.

Lemma live_snoc ip cs c :
  live ip (cs ++ [c]) = live ip cs + Z.b2z (bool_decide (is_live ip c)).
Proof.
  unfold live, len, is_live. rw filter_app length_app filter_cons filter_nil.
  case_bool_decide; case_decide; cbn; by [lia|tauto].
Qed.

(** Closing one open connection takes one away from its address, and nothing from the others. *)
Lemma live_close ip cs i c : cs !! i = Some c -> conn_closed c = false ->
  live ip (<[i := mkConn (conn_ip c) true]> cs) =
  live ip cs - Z.b2z (bool_decide (conn_ip c = ip)).
Proof.
  intros Hi Hc. rw -{2}(take_drop_middle cs i c Hi) insert_take_drop.
  { by apply lookup_lt_Some in Hi. }
  unfold live, len. rw !filter_app !filter_cons !length_app. cbn.
  case_bool_decide; repeat case_decide; cbn; by [lia|tauto|naive_solver].
Qed.

(** The map holds, for each address with an open connection, how many there are. *)
Definition counts (s : listener) : Prop :=
  forall ip, connections (limiter s) !! ip =
    (if live ip (conns s) =? 0 then None else Some (live ip (conns s))).

Definition bounded (s : listener) : Prop :=
  forall ip, live ip (conns s) <= maxPerIP (limiter s).

Lemma counts_count s ip : counts s -> count (connections (limiter s)) ip = live ip (conns s).
Proof. intros H. unfold count. rw H. case_eq (live ip (conns s) =? 0); cbn; lia. Qed.

Lemma step_arrive s ip : counts s -> 0 < maxPerIP (limiter s) ->
  step s (Arrive ip) =
  if live ip (conns s) <? maxPerIP (limiter s)
  then mkListener (mkIPRateLimiter (<[ip := live ip (conns s) + 1]> (connections (limiter s)))
                     (maxPerIP (limiter s))) (conns s ++ [mkConn ip false])
  else s.
Proof.
  intros Hc Hm. unfold step, checkIPRateLimit, AllowConnection. rw counts_count //.
  rw (proj2 (Z.leb_gt _ _) Hm). destruct (Z.ltb_spec (live ip (conns s)) (maxPerIP (limiter s))).
  - by rw (proj2 (Z.leb_gt _ _)).
  - rw (proj2 (Z.leb_le _ _)) //. by destruct s.
Qed.

Lemma step_close s i c : counts s -> 0 < maxPerIP (limiter s) ->
  conns s !! i = Some c -> conn_closed c = false ->
  let n := live (conn_ip c) (conns s) in
  step s (CloseConn i) =
  mkListener (mkIPRateLimiter
     (if n =? 1 then delete (conn_ip c) (connections (limiter s))
      else <[conn_ip c := n - 1]> (connections (limiter s)))
     (maxPerIP (limiter s))) (<[i := mkConn (conn_ip c) true]> (conns s)).
Proof.
  intros Hc Hm Hi Ho n. unfold step. rw Hi. unfold Close, ReleaseConnection. rw Ho.
  rw (proj2 (Z.leb_gt _ _) Hm) counts_count //. fold n.
  assert (Hn : 0 < n).
  { pose proof (live_close (conn_ip c) _ _ _ Hi Ho) as H. rw bool_decide_true in H; [done|]. change (Z.b2z true) with 1 in H.
    pose proof (live_nonneg (conn_ip c) (<[i:=mkConn (conn_ip c) true]> (conns s))).
    unfold n. lia. }
  rw (proj2 (Z.ltb_lt _ _) Hn). cbn. unfold count. rw lookup_insert_eq. cbn.
  destruct (Z.eqb_spec n 1), (Z.eqb_spec (n - 1) 0); try lia; [by rw delete_insert_eq|done].
Qed.

Lemma step_counts s e : 0 < maxPerIP (limiter s) -> counts s -> bounded s ->
  maxPerIP (limiter (step s e)) = maxPerIP (limiter s) /\ counts (step s e) /\ bounded (step s e).
Proof.
  intros Hm Hc Hb. destruct e as [ip|i].
  - rw step_arrive //. destruct (Z.ltb_spec (live ip (conns s)) (maxPerIP (limiter s))); [|done].
    split_and!; [done| |]; intros ip'; cbn; rw live_snoc; unfold is_live; cbn;
      pose proof (live_nonneg ip' (conns s)); pose proof (Hb ip').
    + destruct (decide (ip = ip')) as [-> |Hne].
      * rw lookup_insert_eq bool_decide_true //. change (Z.b2z true) with 1. destruct (Z.eqb_spec (live ip' (conns s) + 1) 0); (done || lia).
      * rw lookup_insert_ne // bool_decide_false; [tauto|]. change (Z.b2z false) with 0. by rw Z.add_0_r.
    + case_bool_decide as Hip; cbn; [destruct Hip as [<- _]|]; lia.
  - destruct (conns s !! i) as [c|] eqn:Hi; [|by cbn; rw Hi].
    destruct (conn_closed c) eqn:Ho.
    + cbn. rw Hi. unfold Close. rw Ho. by rw list_insert_id; destruct s.
    + rw (step_close s i c) //. split_and!; [done| |]; intros ip'; cbn; rw live_close //;
        pose proof (live_nonneg ip' (conns s)); pose proof (Hb ip').
      * destruct (decide (conn_ip c = ip')) as [<- |Hne].
        -- rw bool_decide_true //. change (Z.b2z true) with 1. destruct (Z.eqb_spec (live (conn_ip c) (conns s)) 1) as [->|]; [by rw lookup_delete_eq|].
           rw lookup_insert_eq. destruct (Z.eqb_spec (live (conn_ip c) (conns s) - 1) 0); (done || lia).
        -- rw bool_decide_false //. change (Z.b2z false) with 0. rw Z.sub_0_r -Hc. case_match; by [rw lookup_delete_ne|rw lookup_insert_ne].
      * case_bool_decide; cbn; lia.
Qed.

Lemma run_counts max es : 0 < max ->
  maxPerIP (limiter (run max es)) = max /\ counts (run max es) /\ bounded (run max es).
Proof.
  intros Hm. unfold run. induction es as [|e es IH] using rev_ind.
  - split_and!; [done| |]; intros ip; change (live ip _) with 0; [done|cbn; lia].
  - rw foldl_app. destruct IH as (H1 & H2 & H3). cbn.
    destruct (step_counts (foldl step (mkListener (NewIPRateLimiter max) []) es) e)
      as (-> & ? & ?); by rw ?H1.
Qed.

(** Through any sequence of arrivals and closes (a connection may be closed any number of times)
    the limiter's map holds exactly the number of open connections of each address, keeps no entry
    for an address without any, never lets an address have more than the limit, and admits the
    next connection from an address exactly when it has fewer than the limit open. *)
Theorem limiter_counts_live max es ip : 0 < max ->
  let s := run max es in
  live ip (conns s) <= max /\
  connections (limiter s) !! ip =
    (if live ip (conns s) =? 0 then None else Some (live ip (conns s))) /\
  (is_Some (checkIPRateLimit (limiter s) ip).2 <-> live ip (conns s) < max).
Proof.
  intros Hm s. destruct (run_counts max es Hm) as (H1 & H2 & H3). fold s in H1, H2, H3.
  split_and!; [by rw -H1|exact: H2|].
  unfold checkIPRateLimit, AllowConnection. rw counts_count // H1 (proj2 (Z.leb_gt _ _) Hm).
  destruct (Z.leb_spec max (live ip (conns s))); cbn; split; try lia; by [intros [? ?]|eauto].
Qed.

Lemma limiter_counts_live_witness :
  let es := [Arrive "a"; Arrive "a"; CloseConn 0; CloseConn 0; Arrive "b"]%string in
  live "a" (conns (run 2 es)) <= 2 /\
  connections (limiter (run 2 es)) !! "a"%string = Some 1 /\
  is_Some (checkIPRateLimit (limiter (run 2 es)) "a").2.
Proof.
  intros es. destruct (limiter_counts_live 2 es "a") as (H1 & H2 & H3); [lia|].
  split; [exact H1|split; [exact H2|apply H3; by vm_compute]].
Defined.

End IPLimitProofs.

(** * The token bucket *)

Module TokenBucketProofs.
Import TokenBucket.

(** A bucket without room for one token: whatever the clock says, the refilled count is clamped
    below one. *)
Lemma AllowHandshake_empty l now : burst l = 0 -> SFleb (rate l) (f64_of_Z 0) = false ->
  (AllowHandshake l now).2 = false /\ burst (AllowHandshake l now).1 = 0 /\
  rate (AllowHandshake l now).1 = rate l.
Proof.
  intros Hb Hr. unfold AllowHandshake. rw Hr Hb.
  set (t := f64_add _ _). change (f64_of_Z 0) with (S754_zero false).
  change (f64_of_Z 1) with (S754_finite false 4503599627370496 (-52)).
  by destruct t as [[]|[]| |[] m e]; cbn.
Qed.

(** With a rate limit set and a burst of zero no handshake is ever admitted. *)
Lemma zero_burst_never_allows r nows now0 : SFltb (f64_of_Z 0) r = true ->
  Forall (fun ok => ok = false) (verdicts (NewHandshakeLimiter r 0 now0) nows).
Proof.
  intros Hr. assert (Hle : SFleb r (f64_of_Z 0) = false).
  { revert Hr. by destruct r as [[]|[]| |[] m e]. }
  assert (H : forall l, burst l = 0 -> rate l = r -> Forall (fun ok => ok = false) (verdicts l nows));
    [|by apply H].
  induction nows as [|now nows IH]; intros l Hb Hl; cbn; [constructor|].
  destruct (AllowHandshake_empty l now Hb) as (H1 & H2 & H3); [by rw Hl|].
  destruct (AllowHandshake l now) as [l' ok]. cbn in H1, H2, H3. subst ok.
  constructor; [done|]. apply IH; [done|by rw H3].
Qed.

(** A burst of three admits three at one instant, and a fourth a second later at one per second. *)
Example bucket_example :
  verdicts (NewHandshakeLimiter (f64_of_Z 1) 3 0) [0; 0; 0; 0; Second; Second] =
  [true; true; true; false; true; false].
Proof. by vm_compute. Qed.

End TokenBucketProofs.
