(* ===== verification/DgramFSM.v ===== *)
(** The datagram handshake: the state machine of [pkg/tunnel/dgram_handshake_fsm.go] and the
    retransmitting driver around it, [pkg/tunnel/dgram_handshake_driver.go].

    What a builder reads from outside (randomness, the clock) comes in an [Env] with each event.
    The zero [time.Time] is [None]; a nil flight is the empty one (a stored flight never is). *)

From Corelib Require Import ssreflect.
From stdpp Require Import base tactics list numbers strings.
From Stdlib Require Import ZArith Lia.
From S2P Require Import Prelude Base Messages Codec Replay Crypto Chkem Ticket Session DgramSession.
From S2P Require Import Handshake Hellos Agreement Order.

Local Open Scope Z_scope.
Local Open Scope go_scope.

(** * The state machine *)

Record hsMessage := mkMsg { m_typ : Z; m_body : list Z }.

#[export] Instance hsMessage_eq_dec : EqDecision hsMessage.
Proof. solve_decision. Defined.

(** The randomness the builders of one event may draw, and the time. *)
Record Env := mkEnv {
  e_rnd : Draws;    (* the random of a hello *)
  e_krnd : Draws;   (* encapsulation *)
  e_prnd : Draws;   (* the dummy PSK, or the key pair after a retry request *)
  e_now : Z }.

Record dgramHandshake := mkDH {
  d_hs : Handshake;
  d_role : Role;
  d_expecting : Z;
  d_prev : Z;
  d_cached : list hsMessage;
  d_earlyFinished : option (list Z) }.

#[export] Instance dgramHandshake_eta : Eta dgramHandshake := {| eta := fun d =>
  mkDH (d_hs d) (d_role d) (d_expecting d) (d_prev d) (d_cached d) (d_earlyFinished d) |}.

Definition newDgramHandshake (session : Session) : dgramHandshake :=
  mkDH ((NewHandshake session) <| h_datagram := true |>) (s_Role session)
    (if bool_decide (s_Role session = RoleResponder) then MessageTypeClientHello else 0) 0 [] None.

Definition Machine (A : Type) : Type := ST dgramHandshake error A.

(** A builder call: its error drops the message, a panic is a panic. *)
Definition attempt {A} (m : ST Handshake error A) (k : A -> Machine (list hsMessage * bool))
    : Machine (list hsMessage * bool) :=
  fun d => match m (d_hs d) with
           | (h, Ok a) => k a (d <| d_hs := h |>)
           | (h, Err _) => (d <| d_hs := h |>, Ok ([], false))
           | (h, Panic) => (d <| d_hs := h |>, Panic)
           end.

Definition commit (processed : Z) (out : list hsMessage) (next : Z) : Machine unit :=
  st_mod (fun d => d <| d_prev := processed |> <| d_cached := out |> <| d_expecting := next |>).

(** [append(d.earlyFinished[:0], body...)]: appending nothing to nil stays nil. *)
Definition hold_early (early : option (list Z)) (body : list Z) : option (list Z) :=
  match early, body with
  | None, [] => None
  | _, _ => Some body
  end.

Definition msg_is (typ : Z) (ms : list hsMessage) : bool :=
  match ms with
  | [m] => m_typ m =? typ
  | _ => false
  end.

Section Machine.
Context {P : Primitives} {K : KEMPrimitives} (fips : bool).

Definition start (e : Env) : Machine (list hsMessage) :=
  fun d => match CreateClientHello fips (e_rnd e) (e_krnd e) (d_hs d) with
           | (h, Ok body) =>
               let d := d <| d_hs := h |> <| d_cached := [mkMsg MessageTypeClientHello body] |>
                          <| d_expecting := MessageTypeServerHello |> in
               (d, Ok (d_cached d))
           | (h, Err err) => (d <| d_hs := h |>, Err err)
           | (h, Panic) => (d <| d_hs := h |>, Panic)
           end.

(** [advance] on a ServerFinished. *)
Definition advance_finished (e : Env) (body : list Z) : Machine (list hsMessage * bool) :=
  attempt (ProcessServerFinished body) (fun _ =>
  attempt (CreateClientFinished fips (e_now e)) (fun reply =>
  let out := [mkMsg MessageTypeClientFinished reply] in
  do! _ := commit MessageTypeServerFinished out 0 in
  st_ret (out, true))).

Definition advance_retry (e : Env) (body : list Z) : Machine (list hsMessage * bool) :=
  attempt (ProcessHelloRetryRequest (e_prnd e) body) (fun _ =>
  attempt (CreateClientHello fips (e_rnd e) (e_krnd e)) (fun reply =>
  let out := [mkMsg MessageTypeClientHello reply] in
  do! _ := commit MessageTypeHelloRetryRequest out MessageTypeServerHello in
  st_ret (out, false))).

Definition advance_server_hello (e : Env) (body : list Z) : Machine (list hsMessage * bool) :=
  attempt (ProcessServerHello fips body) (fun _ =>
  do! _ := st_mod (fun d => d <| d_prev := MessageTypeServerHello |>
                              <| d_expecting := MessageTypeServerFinished |>) in
  do! d := st_get in
  match d_earlyFinished d with
  | Some early =>
      do! _ := st_mod (fun d => d <| d_earlyFinished := None |>) in
      advance_finished e early
  | None => st_ret ([], false)
  end).

Definition advance_client_hello (e : Env) (body : list Z) : Machine (list hsMessage * bool) :=
  do! d := st_get in
  if h_hrrDone (d_hs d) && msg_is MessageTypeHelloRetryRequest (d_cached d) &&
     bool_decide (body = default [] (h_firstClientHello (d_hs d)))
  then st_ret (d_cached d, false)
  else
    attempt (ProcessClientHello fips (e_prnd e) (e_now e) body) (fun _ =>
    do! d := st_get in
    if h_sendHRR (d_hs d) then
      attempt CreateHelloRetryRequest (fun hrr =>
      let out := [mkMsg MessageTypeHelloRetryRequest hrr] in
      do! _ := commit MessageTypeClientHello out MessageTypeClientHello in
      st_ret (out, false))
    else
      attempt (CreateServerHello fips (e_rnd e) (e_krnd e)) (fun hello =>
      attempt CreateServerFinished (fun finished =>
      let out := [mkMsg MessageTypeServerHello hello; mkMsg MessageTypeServerFinished finished] in
      do! _ := commit MessageTypeClientHello out MessageTypeClientFinished in
      st_ret (out, false)))).

Definition advance_client_finished (e : Env) (body : list Z) : Machine (list hsMessage * bool) :=
  attempt (ProcessClientFinished fips (e_now e) body) (fun _ =>
  do! _ := st_mod (fun d => d <| d_prev := MessageTypeClientFinished |> <| d_expecting := 0 |>) in
  st_ret ([], true)).

Definition advance (e : Env) (typ : Z) (body : list Z) : Machine (list hsMessage * bool) :=
  do! d := st_get in
  match d_role d with
  | RoleInitiator =>
      if typ =? MessageTypeServerHello then advance_server_hello e body
      else if typ =? MessageTypeServerFinished then advance_finished e body
      else if typ =? MessageTypeHelloRetryRequest then advance_retry e body
      else st_ret ([], false)
  | RoleResponder =>
      if typ =? MessageTypeClientHello then advance_client_hello e body
      else if typ =? MessageTypeClientFinished then advance_client_finished e body
      else st_ret ([], false)
  end.

Definition onMessage (e : Env) (typ : Z) (body : list Z) : Machine (list hsMessage * bool) :=
  do! d := st_get in
  let initiator := bool_decide (d_role d = RoleInitiator) in
  if negb (typ =? 0) && (typ =? d_expecting d) then advance e typ body
  else if initiator && (typ =? MessageTypeHelloRetryRequest) &&
          (d_expecting d =? MessageTypeServerHello) && negb (h_hrrDone (d_hs d))
  then advance e typ body
  else if initiator && (typ =? MessageTypeServerFinished) &&
          (d_expecting d =? MessageTypeServerHello)
  then
    do! _ := st_mod (fun d => d <| d_earlyFinished := hold_early (d_earlyFinished d) body |>) in
    st_ret ([], false)
  else if initiator && (typ =? MessageTypeServerHello) && (typ =? d_prev d)
  then st_ret ([], false)
  else if negb (typ =? 0) && (typ =? d_prev d) && negb (bool_decide (d_cached d = []))
  then st_ret (d_cached d, false)
  else st_ret ([], false).

End Machine.

Definition state (d : dgramHandshake) : HandshakeState := h_state (d_hs d).

(** * The driver *)

Inductive driverStatus := driverRunning | driverEstablished | driverFailed.

#[export] Instance driverStatus_eq_dec : EqDecision driverStatus.
Proof. solve_decision. Defined.

Record dgramDriver := mkDriver {
  v_fsm : dgramHandshake;
  v_rtoInitial : Z;
  v_rtoMax : Z;
  v_rto : Z;
  v_retries : Z;
  v_maxRetries : Z;
  v_retransmitAt : option Z;
  v_lingerAt : option Z;
  v_replaysLeft : Z;
  v_status : driverStatus }.

#[export] Instance dgramDriver_eta : Eta dgramDriver := {| eta := fun d =>
  mkDriver (v_fsm d) (v_rtoInitial d) (v_rtoMax d) (v_rto d) (v_retries d) (v_maxRetries d)
    (v_retransmitAt d) (v_lingerAt d) (v_replaysLeft d) (v_status d) |}.

Definition Millisecond : Z := 1000000.
Definition initialRTO : Z := DatagramHandshakeInitialTimeoutMillis * Millisecond.
Definition maxRTO : Z := DatagramHandshakeMaxTimeoutMillis * Millisecond.

Definition newDgramDriverWithRTO (session : Session) (rtoInitial rtoMax : Z) : dgramDriver :=
  mkDriver (newDgramHandshake session) rtoInitial rtoMax rtoInitial 0 DatagramHandshakeMaxRetries
    None None 0 driverRunning.

Definition newDgramDriver (session : Session) : dgramDriver :=
  newDgramDriverWithRTO session initialRTO maxRTO.

Definition armRetransmit (now : Z) (d : dgramDriver) : dgramDriver :=
  d <| v_retransmitAt := Some (now + v_rto d) |>.

Definition lingering (d : dgramDriver) : bool :=
  bool_decide (v_status d = driverEstablished) && bool_decide (d_role (v_fsm d) = RoleInitiator) &&
  bool_decide (is_Some (v_lingerAt d)).

Definition established (d : dgramDriver) : bool := bool_decide (v_status d = driverEstablished).
Definition failed (d : dgramDriver) : bool := bool_decide (v_status d = driverFailed).
Definition done (d : dgramDriver) : bool := failed d || (established d && negb (lingering d)).

Definition nextWake (d : dgramDriver) : option Z :=
  match v_status d with
  | driverRunning => v_retransmitAt d
  | _ => if lingering d then v_lingerAt d else None
  end.

Definition cachedFlight (d : dgramDriver) : list hsMessage :=
  match v_status d with
  | driverRunning => d_cached (v_fsm d)
  | _ => []
  end.

Definition Driven (A : Type) : Type := ST dgramDriver error A.

Definition on_fsm {A} (m : Machine A) : Driven A :=
  fun d => let '(f, o) := m (v_fsm d) in (d <| v_fsm := f |>, o).

Definition onComplete (now : Z) (final : list hsMessage) : Driven (list hsMessage) :=
  do! _ := st_mod (fun d => d <| v_status := driverEstablished |> <| v_retransmitAt := None |>) in
  do! d := st_get in
  do! _ := (if bool_decide (d_role (v_fsm d) = RoleInitiator) then
              st_mod (fun d => d <| v_lingerAt := Some (now + i64 (v_maxRetries d * v_rtoMax d)) |>
                                 <| v_replaysLeft := DatagramHandshakeLingerReplays |>)
            else st_ret tt) in
  st_ret final.

(** [!now.Before(t)] for an armed timer. *)
Definition due (now : Z) (t : option Z) : bool :=
  match t with
  | Some t => t <=? now
  | None => false
  end.

Definition onTimeout (now : Z) (d : dgramDriver) : dgramDriver * list hsMessage :=
  if lingering d && due now (v_lingerAt d) then (d <| v_lingerAt := None |>, [])
  else if bool_decide (v_status d = driverRunning) && due now (v_retransmitAt d) then
    let d := d <| v_retries := v_retries d + 1 |> in
    if v_maxRetries d <? v_retries d
    then (d <| v_status := driverFailed |> <| v_retransmitAt := None |>, [])
    else
      let d := armRetransmit now (d <| v_rto := Z.min (i64 (v_rto d * 2)) (v_rtoMax d) |>) in
      (d, d_cached (v_fsm d))
  else (d, []).

Section Driver.
Context {P : Primitives} {K : KEMPrimitives} (fips : bool).

Definition driver_start (e : Env) : Driven (list hsMessage) :=
  do! msg := on_fsm (start fips e) in
  do! _ := st_mod (armRetransmit (e_now e)) in
  st_ret msg.

Definition onInbound (e : Env) (typ : Z) (body : list Z) : Driven (list hsMessage) :=
  do! d := st_get in
  if bool_decide (v_status d = driverFailed) then st_ret []
  else if established d && negb (lingering d) then st_ret []
  else
    let before := state (v_fsm d) in
    do! '(out, complete) := on_fsm (onMessage fips e typ body) in
    do! d := st_get in
    let advanced := negb (bool_decide (state (v_fsm d) = before)) in
    if bool_decide (out = []) && negb complete && negb advanced then st_ret []
    else if (complete : bool) then onComplete (e_now e) out
    else if advanced then
      do! _ := st_mod (fun d => armRetransmit (e_now e)
                                  (d <| v_rto := v_rtoInitial d |> <| v_retries := 0 |>)) in
      st_ret out
    else if lingering d then
      if v_replaysLeft d <=? 0 then st_ret []
      else
        do! _ := st_mod (fun d => d <| v_replaysLeft := v_replaysLeft d - 1 |>) in
        st_ret out
    else st_ret out.

End Driver.

(** * A handshake only moves forward *)

(** How far a handshake is.  A retry request starts it over, once. *)
Definition rank (h : Handshake) : Z :=
  match h_state h with
  | HandshakeStateInitial => if h_hrrDone h then 2 else 0
  | HandshakeStateClientHelloSent => if h_hrrDone h then 3 else 1
  | HandshakeStateServerHelloSent | HandshakeStateServerHelloReceived => 4
  | HandshakeStateServerFinishedSent | HandshakeStateServerFinishedReceived => 5
  | HandshakeStateComplete => 6
  | HandshakeStateFailed => 7
  end.

Lemma rank_bounds h : 0 <= rank h <= 7.
Proof. unfold rank. destruct (h_state h), (h_hrrDone h); lia. Qed.

Definition climbs (h h' : Handshake) : Prop :=
  rank h <= rank h' /\ (h_state h' <> h_state h -> rank h < rank h').

#[export] Instance climbs_preorder : PreOrder climbs.
Proof.
  split; unfold climbs; [by intros h|]. intros h1 h2 h3 [H1 H2] [H3 H4]. split; [lia|].
  intros Hne. destruct (decide (h_state h2 = h_state h1)) as [He|]; [|specialize (H2 ltac:(done)); lia].
  rw -He in Hne. specialize (H4 Hne). lia.
Qed.

Definition same_phase (h h' : Handshake) : Prop :=
  h_state h' = h_state h /\ h_hrrDone h' = h_hrrDone h.

#[export] Instance same_phase_preorder : PreOrder same_phase.
Proof. split; unfold same_phase; [done|]. intros ??? [-> ->] [-> ->]. done. Qed.

Lemma same_phase_climbs h h' : same_phase h h' -> climbs h h'.
Proof. intros [Hs Hh]. unfold climbs, rank. by rw Hs Hh. Qed.

Create HintDb phase.
Ltac phase_mod :=
  repeat match goal with |- same_phase _ (match ?x with _ => _ end) => destruct x end; by split.
Ltac phase_steps := keeps_auto; first [solve [eauto with phase] | phase_mod].

Section Phase.
Context {P : Primitives} {K : KEMPrimitives} (fips : bool).

Lemma on_session_phase {A} (m : ST Session error A) : keeps same_phase (on_session m).
Proof. intros h. unfold on_session. by destruct (m (h_session h)). Qed.
Lemma set_session_phase f : keeps same_phase (set_session f).
Proof. unfold set_session. phase_steps. Qed.
Lemma foldStaticSecret_phase : keeps same_phase foldStaticSecret.
Proof. unfold foldStaticSecret. phase_steps. Qed.
Lemma foldPSKSecret_phase : keeps same_phase foldPSKSecret.
Proof. unfold foldPSKSecret. phase_steps. Qed.
Lemma deriveHandshakeKeys_phase : keeps same_phase (deriveHandshakeKeys fips).
Proof. unfold deriveHandshakeKeys. phase_steps. Qed.
Lemma fold_and_derive_phase : keeps same_phase (fold_and_derive fips).
Proof.
  unfold fold_and_derive. keeps_auto;
    [apply foldStaticSecret_phase|apply foldPSKSecret_phase|apply deriveHandshakeKeys_phase].
Qed.
Lemma resumption_mix_phase fresh : keeps same_phase (resumption_mix fresh).
Proof. unfold resumption_mix. phase_steps. Qed.
Lemma replaceFirstHello_phase d : keeps same_phase (replaceFirstHelloWithHash d).
Proof. unfold replaceFirstHelloWithHash. phase_steps. Qed.
Lemma write_transcript_phase d : keeps same_phase (write_transcript d).
Proof. unfold write_transcript. phase_steps. Qed.
Lemma seal_finished_phase d : keeps same_phase (seal_finished d).
Proof. unfold seal_finished. phase_steps. Qed.
Lemma client_random_phase rnd : keeps same_phase (client_random rnd).
Proof. unfold client_random. phase_steps. Qed.
Lemma static_encapsulate_phase krnd : keeps same_phase (static_encapsulate krnd).
Proof. unfold static_encapsulate. phase_steps. Qed.
Lemma psk_advertise_phase : keeps same_phase psk_advertise.
Proof. unfold psk_advertise. phase_steps. Qed.
Lemma static_decapsulate_phase ct : keeps same_phase (static_decapsulate ct).
Proof. unfold static_decapsulate. phase_steps. Qed.
Lemma psk_select_phase krnd id : keeps same_phase (psk_select krnd id).
Proof. unfold psk_select. phase_steps. Qed.
Lemma verify_finished_phase label d : keeps same_phase (verify_finished label d).
Proof. intros h. by rw verify_finished_state. Qed.
Lemma initializeSessionKeys_phase now : keeps same_phase (initializeSessionKeys fips now).
Proof. unfold initializeSessionKeys. keeps_auto; apply on_session_phase. Qed.
Lemma try_resume_phase now sid : keeps same_phase (try_resume fips now sid).
Proof.
  intros h. unfold try_resume. rw st_bind_get. destruct (h_ticketManager h) as [tm|]; [|reflexivity].
  destruct (0 <? len sid); [|reflexivity].
  by destruct (Resume fips now sid tm (h_session h)) as [s' [secret|e|]].
Qed.

#[local] Hint Resolve set_session_phase foldStaticSecret_phase foldPSKSecret_phase
  deriveHandshakeKeys_phase fold_and_derive_phase resumption_mix_phase replaceFirstHello_phase
  write_transcript_phase seal_finished_phase client_random_phase static_encapsulate_phase
  psk_advertise_phase static_decapsulate_phase psk_select_phase verify_finished_phase
  initializeSessionKeys_phase try_resume_phase : phase.

Lemma ProcessClientHello_phase krnd now d : keeps same_phase (ProcessClientHello fips krnd now d).
Proof. unfold ProcessClientHello. phase_steps. Qed.

(** A method that keeps its phase up to the assignment of the next state. *)
Lemma climb_bind {A B} (m : ST Handshake error A) (k : A -> ST Handshake error B) h0 h :
  same_phase h0 h -> keeps same_phase m ->
  (forall a h', same_phase h0 h' -> climbs h0 (k a h').1) -> climbs h0 (st_bind m k h).1.
Proof.
  intros H0 Hm Hk. specialize (Hm h). unfold st_bind. destruct (m h) as [h' [a|e|]]; cbn in Hm.
  - apply Hk. by transitivity h.
  - apply same_phase_climbs. by transitivity h.
  - apply same_phase_climbs. by transitivity h.
Qed.

(** Passes over the calls that keep the phase. *)
Ltac climb_step :=
  match goal with
  | |- climbs _ (st_bind _ _ _).1 =>
      apply climb_bind; [eassumption|solve [phase_steps]|intros ? ? ?]
  | |- climbs _ ((match ?x with _ => _ end) _).1 =>
      let E := fresh "E" in destruct x eqn:E; try by apply same_phase_climbs
  end.
Ltac climb_end :=
  match goal with
  | Hp : same_phase ?h0 ?h |- climbs ?h0 _ =>
      destruct Hp as [Hs Hh]; unfold climbs, rank; cbn; rw ?Hs ?Hh
  end.

(** From the state a guard has checked to the one the method assigns last. *)
Ltac climb_from h Hi :=
  assert (same_phase h h) by done; rw st_bind_get; unfold in_state;
  case_bool_decide as Hi; [|by apply same_phase_climbs]; cbn [andb]; repeat climb_step;
  rw ?st_bind_mod; climb_end; rw Hi; by [|destruct (h_hrrDone h)].

Lemma CreateClientHello_climbs rnd krnd h : climbs h (CreateClientHello fips rnd krnd h).1.
Proof. unfold CreateClientHello. climb_from h Hi. Qed.

Lemma ProcessHelloRetryRequest_climbs krnd d h : climbs h (ProcessHelloRetryRequest krnd d h).1.
Proof.
  unfold ProcessHelloRetryRequest. assert (same_phase h h) by done. rw st_bind_get. unfold in_state.
  case_bool_decide as Hi; [|by apply same_phase_climbs]. repeat climb_step.
  climb_end. rw Hi. apply negb_true_iff in E. by rw E.
Qed.

Lemma ProcessServerHello_climbs d h : climbs h (ProcessServerHello fips d h).1.
Proof. unfold ProcessServerHello. climb_from h Hi. Qed.

Lemma ProcessServerFinished_climbs d h : climbs h (ProcessServerFinished d h).1.
Proof. unfold ProcessServerFinished. climb_from h Hi. Qed.

Lemma CreateClientFinished_climbs now h : climbs h (CreateClientFinished fips now h).1.
Proof. unfold CreateClientFinished. climb_from h Hi. Qed.

Lemma CreateServerFinished_climbs h : climbs h (CreateServerFinished h).1.
Proof. unfold CreateServerFinished. climb_from h Hi. Qed.

Lemma ProcessClientFinished_climbs now d h : climbs h (ProcessClientFinished fips now d h).1.
Proof. unfold ProcessClientFinished. climb_from h Hi. Qed.

Lemma CreateHelloRetryRequest_climbs h : climbs h (CreateHelloRetryRequest h).1.
Proof.
  assert (same_phase h h) by done. unfold CreateHelloRetryRequest. rw st_bind_get.
  repeat climb_step. rw st_bind_mod. climb_end. by destruct (h_state h), (h_hrrDone h).
Qed.

(** [CreateServerHello] has no guard of its own; the machine calls it in the initial state. *)
Lemma CreateServerHello_climbs rnd krnd h : h_state h = HandshakeStateInitial ->
  climbs h (CreateServerHello fips rnd krnd h).1.
Proof.
  intros Hi. assert (same_phase h h) by done. unfold CreateServerHello. rw st_bind_get.
  repeat climb_step. climb_end. rw Hi. by destruct (h_hrrDone h).
Qed.

(** ** The machine *)

Definition hs_climbs (d d' : dgramHandshake) : Prop :=
  climbs (d_hs d) (d_hs d') /\ d_role d' = d_role d.

#[local] Instance hs_climbs_preorder : PreOrder hs_climbs.
Proof. split; unfold hs_climbs; [done|]. intros ??? [H1 ->] [H2 ->]. split; [by etransitivity|done]. Qed.

Lemma attempt_climbs {A} (m : ST Handshake error A) k :
  (forall h, climbs h (m h).1) -> (forall a, keeps hs_climbs (k a)) -> keeps hs_climbs (attempt m k).
Proof.
  intros Hm Hk d. specialize (Hm (d_hs d)). unfold attempt.
  destruct (m (d_hs d)) as [h [a|e|]]; cbn in Hm; [|by split..].
  specialize (Hk a (d <| d_hs := h |>)). etransitivity; [|exact Hk]. by split.
Qed.

Ltac machine_mod := keeps_auto; by split.

Lemma advance_finished_climbs e body : keeps hs_climbs (advance_finished fips e body).
Proof.
  apply attempt_climbs; [apply ProcessServerFinished_climbs|intros _].
  apply attempt_climbs; [apply CreateClientFinished_climbs|intros reply]. unfold commit. machine_mod.
Qed.

Lemma advance_client_hello_climbs e body : keeps hs_climbs (advance_client_hello fips e body).
Proof.
  intros d. unfold advance_client_hello. rw st_bind_get. destruct (_ && _); [done|].
  unfold attempt at 1. pose proof (ProcessClientHello_phase (e_prnd e) (e_now e) body (d_hs d)) as Hp.
  destruct (ProcessClientHello _ _ _ _ _) as [h [u|err|]] eqn:Hok; cbn in Hp;
    [|split; [by apply same_phase_climbs|done]..].
  assert (Hi : h_state h = HandshakeStateInitial).
  { destruct Hp as [-> _]. unfold ProcessClientHello in Hok. rw st_bind_get in Hok. unfold in_state in Hok.
    by case_bool_decide. }
  transitivity (d <| d_hs := h |>); [split; [by apply same_phase_climbs|done]|].
  rw st_bind_get. destruct (h_sendHRR _).
  - apply attempt_climbs; [apply CreateHelloRetryRequest_climbs|intros hrr]. unfold commit. machine_mod.
  - unfold attempt at 1. pose proof (CreateServerHello_climbs (e_rnd e) (e_krnd e) h Hi) as Hc.
    cbn [d_hs upd]. change (d_hs (d <| d_hs := h |>)) with h.
    destruct (CreateServerHello _ _ _ h) as [h2 [sh|err|]]; cbn in Hc; [|by split..].
    transitivity (d <| d_hs := h2 |>); [by split|].
    apply attempt_climbs; [apply CreateServerFinished_climbs|intros sf]. unfold commit. machine_mod.
Qed.

Lemma advance_climbs e typ body : keeps hs_climbs (advance fips e typ body).
Proof.
  unfold advance. keeps_auto.
  - apply attempt_climbs; [apply ProcessServerHello_climbs|intros _]. keeps_auto; try by split.
    apply advance_finished_climbs.
  - apply advance_finished_climbs.
  - apply attempt_climbs; [apply ProcessHelloRetryRequest_climbs|intros _].
    apply attempt_climbs; [apply CreateClientHello_climbs|intros reply]. unfold commit. machine_mod.
  - apply advance_client_hello_climbs.
  - apply attempt_climbs; [apply ProcessClientFinished_climbs|intros _]. machine_mod.
Qed.

Lemma onMessage_climbs e typ body : keeps hs_climbs (onMessage fips e typ body).
Proof. unfold onMessage. keeps_auto; by [apply advance_climbs|split]. Qed.
End Phase.

(** * The driver under any input *)

(** What can happen to a driver: a message, with whatever the peer or a forger put in it, or a
    wake-up.  A panic of a builder sends nothing. *)
Inductive event :=
  | EvInbound (e : Env) (typ : Z) (body : list Z)
  | EvTimeout (now : Z).

Section Driving.
Context {P : Primitives} {K : KEMPrimitives} (fips : bool).

Definition driver_step (d : dgramDriver) (ev : event) : dgramDriver * list hsMessage :=
  match ev with
  | EvInbound e typ body =>
      match onInbound fips e typ body d with
      | (d, Ok out) => (d, out)
      | (d, _) => (d, [])
      end
  | EvTimeout now => onTimeout now d
  end.

Fixpoint drive (d : dgramDriver) (evs : list event) : dgramDriver * list (list hsMessage) :=
  match evs with
  | [] => (d, [])
  | ev :: evs => let '(d, out) := driver_step d ev in
                 let '(d, outs) := drive d evs in (d, out :: outs)
  end.

(** The wake-ups that found their timer elapsed. *)
Fixpoint wakeups (d : dgramDriver) (evs : list event) : Z :=
  match evs with
  | [] => 0
  | ev :: evs =>
      Z.b2z (match ev with EvTimeout now => due now (nextWake d) | _ => false end) +
      wakeups (driver_step d ev).1 evs
  end.

(** The answers that were sent. *)
Definition answers (outs : list (list hsMessage)) : Z :=
  len (filter (fun o => o <> []) outs).

(** A running driver has its timer armed, and its retries within the ceiling. *)
Record driver_ok (d : dgramDriver) : Prop := {
  ok_ceiling : 0 <= v_maxRetries d;
  ok_retries : 0 <= v_retries d;
  ok_within : v_status d = driverRunning -> v_retries d <= v_maxRetries d;
  ok_armed : v_status d = driverRunning -> is_Some (v_retransmitAt d) }.

(** How many wake-ups a driver can still use. *)
Definition budget (d : dgramDriver) : Z :=
  match v_status d with
  | driverRunning => (7 - rank (d_hs (v_fsm d))) * (v_maxRetries d + 1) +
                     (v_maxRetries d - v_retries d) + 2
  | driverEstablished => Z.b2z (lingering d)
  | driverFailed => 0
  end.

(** ** What a message does to the fields of a driver *)

Record quiet (d d' : dgramDriver) : Prop := {
  q_hs : climbs (d_hs (v_fsm d)) (d_hs (v_fsm d'));
  q_role : d_role (v_fsm d') = d_role (v_fsm d);
  q_fields : v_retries d' = v_retries d /\ v_maxRetries d' = v_maxRetries d /\
    v_retransmitAt d' = v_retransmitAt d /\ v_lingerAt d' = v_lingerAt d /\ v_status d' = v_status d }.

Lemma on_fsm_quiet e typ body d : quiet d (on_fsm (onMessage fips e typ body) d).1.
Proof.
  destruct (onMessage_climbs fips e typ body (v_fsm d)) as [Hc Hr]. unfold on_fsm.
  by destruct (onMessage fips e typ body (v_fsm d)).
Qed.

Lemma rank_of_advance h h' : climbs h h' -> h_state h' <> h_state h -> rank h < rank h'.
Proof. intros [_ H]. exact H. Qed.

(** The four ways [onInbound] can go. *)
Inductive inbound_case (d d' : dgramDriver) : Prop :=
  | inbound_quiet : quiet d d' -> inbound_case d d'
  | inbound_advanced d1 now : quiet d d1 -> state (v_fsm d1) <> state (v_fsm d) ->
      d' = armRetransmit now (d1 <| v_rto := v_rtoInitial d1 |> <| v_retries := 0 |>) -> inbound_case d d'
  | inbound_complete d1 now out : quiet d d1 -> v_status d = driverRunning \/ lingering d = true -> d' = (onComplete now out d1).1 -> inbound_case d d'.

Lemma onInbound_cases e typ body d :
  inbound_case d (onInbound fips e typ body d).1.
Proof.
  assert (Hq : quiet d d) by by constructor.
  unfold onInbound. rw st_bind_get. case_bool_decide as Hf; [by apply inbound_quiet|].
  destruct (established d && negb (lingering d)) eqn:Hd; [by apply inbound_quiet|].
  assert (Hact : v_status d = driverRunning \/ lingering d = true).
  { unfold established in Hd. destruct (v_status d), (lingering d); cbn in Hd; by auto. }
  pose proof (on_fsm_quiet e typ body d) as H1. unfold st_bind at 1.
  destruct (on_fsm _ d) as [d1 [[out complete]|err|]]; cbn in H1; [|by apply inbound_quiet..].
  rw st_bind_get. cbv beta zeta. destruct (_ && _ && _); [by apply inbound_quiet|].
  destruct complete; [by eapply inbound_complete|].
  case_bool_decide as Hadv; cbn [negb].
  - destruct (lingering d1); [|by apply inbound_quiet].
    destruct (_ <=? 0); [by apply inbound_quiet|]. apply inbound_quiet. by destruct H1.
  - by eapply inbound_advanced.
Qed.

Lemma onComplete_fields now out d : exists la rl,
  (onComplete now out d).1 =
  d <| v_status := driverEstablished |> <| v_retransmitAt := None |> <| v_lingerAt := la |>
    <| v_replaysLeft := rl |>.
Proof.
  unfold onComplete. rw st_bind_mod st_bind_get. case_bool_decide.
  - by eexists _, _.
  - by exists (v_lingerAt d), (v_replaysLeft d).
Qed.

Lemma driver_step_inbound e typ body d :
  (driver_step d (EvInbound e typ body)).1 = (onInbound fips e typ body d).1.
Proof. unfold driver_step. by destruct (onInbound fips e typ body d) as [d' [out|err|]]. Qed.

Lemma lingering_bound d : 0 <= Z.b2z (lingering d) <= 1.
Proof. by destruct (lingering d). Qed.


Lemma running_budget d : driver_ok d -> v_status d = driverRunning -> 2 <= budget d.
Proof.
  intros [H1 H2 H3 H4] Hs. unfold budget. rw Hs. specialize (H3 Hs).
  pose proof (rank_bounds (d_hs (v_fsm d))). nia.
Qed.

Lemma lingering_budget d : lingering d = true -> budget d = 1.
Proof.
  intros Hl. pose proof Hl as Hs. unfold lingering in Hs. unfold budget.
  destruct (v_status d); [done|by rw Hl|done].
Qed.

Lemma quiet_ok d d' : quiet d d' -> driver_ok d -> driver_ok d' /\ budget d' <= budget d.
Proof.
  intros [[Hk _] Hr (E1 & E2 & E3 & E4 & E5)] [H1 H2 H3 H4].
  split; [constructor; by rw ?E1 ?E2 ?E3 ?E5|].
  unfold budget, lingering. rw E1 E2 E4 E5 Hr. destruct (v_status d); [nia|lia|lia].
Qed.

(** A message keeps the driver in order, and never adds to its budget. *)
Lemma inbound_budget d d' : inbound_case d d' -> driver_ok d ->
  driver_ok d' /\ budget d' <= budget d /\ v_maxRetries d' = v_maxRetries d.
Proof.
  intros [Hq|d1 now Hq Ha ->|d1 now out Hq Hact ->] Hok.
  - destruct (quiet_ok _ _ Hq Hok) as [H1 H2]. destruct Hq as [_ _ (_ & ? & _)]. by split_and!.
  - pose proof (rank_of_advance _ _ (q_hs _ _ Hq) Ha) as Hlt. pose proof (lingering_bound d).
    destruct Hq as [_ Hr (E1 & E2 & E3 & E4 & E5)], Hok as [H1 H2 H3 H4]. split_and!; [| |exact E2].
    + constructor; cbn; rw ?E2; [done|done|done|by eexists].
    + unfold budget, lingering in *. cbn. rw E2 E4 E5 Hr. destruct (v_status d) eqn:Hs; [|lia|lia].
      specialize (H3 eq_refl). nia.
  - destruct (onComplete_fields now out d1) as (la & rl & ->).
    pose proof (q_fields _ _ Hq) as (E1 & E2 & _ & _ & _).
    split_and!; [destruct Hok; by constructor; cbn; rw ?E1 ?E2| |exact E2].
    unfold budget at 1. cbn. match goal with |- Z.b2z (lingering ?x) <= _ => pose proof (lingering_bound x) end.
    destruct Hact as [Hs|Hl]; [pose proof (running_budget d Hok Hs); lia|].
    rw (lingering_budget d Hl). lia.
Qed.

Lemma timeout_budget d now : driver_ok d ->
  let d' := (onTimeout now d).1 in
  driver_ok d' /\ Z.b2z (due now (nextWake d)) + budget d' <= budget d /\
  v_maxRetries d' = v_maxRetries d.
Proof.
  intros Hok d'. unfold d', onTimeout. clear d'.
  destruct (lingering d && due now (v_lingerAt d)) eqn:Hl.
  - apply andb_prop in Hl as [Hl Hdue]. pose proof Hl as Hl'. unfold lingering in Hl'.
    destruct (v_status d) eqn:Hs; [done| |done]. split_and!; [|..|done].
    + destruct Hok. constructor; cbn; by rw ?Hs.
    + unfold budget, nextWake. cbn. rw Hs Hl Hdue. unfold lingering. cbn. by rw andb_false_r.
  - case_bool_decide as Hs; cbn [andb].
    + unfold nextWake. rw Hs. destruct (due now (v_retransmitAt d)) eqn:Hdue; [|by split_and!].
      cbn [v_maxRetries v_retries upd]. destruct Hok as [H1 H2 H3 H4]. specialize (H3 Hs).
      pose proof (rank_bounds (d_hs (v_fsm d))). unfold budget. rw Hs. cbn.
      destruct (Z.ltb_spec (v_maxRetries d) (v_retries d + 1)); cbn; split_and!.
      all: try (constructor; cbn; by [|lia|eexists]).
      all: try nia. all: done.
    + split_and!; [done| |done].
      assert (due now (nextWake d) = false) as ->; [|cbn; lia].
      unfold nextWake. destruct (v_status d); [done|..]; destruct (lingering d); by [|cbn in Hl].
Qed.

Lemma step_budget d ev : driver_ok d ->
  let d' := (driver_step d ev).1 in
  driver_ok d' /\ v_maxRetries d' = v_maxRetries d /\
  Z.b2z (match ev with EvTimeout now => due now (nextWake d) | _ => false end) + budget d' <= budget d.
Proof.
  intros Hok. destruct ev as [e typ body|now].
  - rw driver_step_inbound. destruct (inbound_budget _ _ (onInbound_cases e typ body d) Hok) as (? & ? & ?).
    by split_and!.
  - destruct (timeout_budget d now Hok) as (? & ? & ?). by split_and!.
Qed.

Lemma drive_fst d ev evs : (drive d (ev :: evs)).1 = (drive (driver_step d ev).1 evs).1.
Proof. cbn [drive]. destruct (driver_step d ev) as [d' out]. cbn. by destruct (drive d' evs). Qed.

Lemma drive_budget evs d : driver_ok d ->
  driver_ok (drive d evs).1 /\ v_maxRetries (drive d evs).1 = v_maxRetries d /\
  wakeups d evs + budget (drive d evs).1 <= budget d.
Proof.
  revert d. induction evs as [|ev evs IH]; intros d Hok; [by split_and!|].
  destruct (step_budget d ev Hok) as (H1 & H2 & H3). destruct (IH _ H1) as (H4 & H5 & H6).
  rw drive_fst. split_and!; [done|by rw H5 H2|]. cbn [wakeups]. lia.
Qed.

Lemma budget_bounds d : driver_ok d -> 0 <= budget d <= 8 * (v_maxRetries d + 1) + 1.
Proof.
  intros [H1 H2 H3 H4]. unfold budget. pose proof (rank_bounds (d_hs (v_fsm d))).
  pose proof (lingering_bound d). destruct (v_status d); [specialize (H3 eq_refl); nia|lia|lia].
Qed.

(** A driver that is not done waits for a timer. *)
Lemma not_done_armed d : driver_ok d -> done d = false -> is_Some (nextWake d).
Proof.
  intros [_ _ _ Ha] Hd. unfold done, failed, established in Hd. unfold nextWake.
  destruct (v_status d) eqn:Hs; [by apply Ha| |done]. cbn in Hd.
  destruct (lingering d) eqn:Hl; [|done]. unfold lingering in Hl.
  apply andb_prop in Hl as [_ Hl]. by apply bool_decide_eq_true in Hl.
Qed.

End Driving.

(** * Theorems on the driver *)

(** C18: A handshake driver comes to an end whatever it is sent. From any driver whose timer is armed,
    through any messages (well-formed, forged or garbage) at any times, it always either is done or
    has a timer armed, and at most 8 * (maxRetries + 1) + 1 wake-ups (73 with the protocol's ceiling
    of 8 retransmissions) find that timer elapsed before it is done. *)
Theorem driver_terminates (P : Primitives) (K : KEMPrimitives) fips d evs :
  driver_ok d ->
  let d' := (drive fips d evs).1 in
  (done d' = true \/ is_Some (nextWake d')) /\
  wakeups fips d evs <= 8 * (v_maxRetries d + 1) + 1 /\
  (wakeups fips d evs = 8 * (v_maxRetries d + 1) + 1 -> done d' = true).
Proof.
  intros Hok d'. destruct (drive_budget fips evs d Hok) as (H1 & H2 & H3). fold d' in H1, H2, H3.
  pose proof (budget_bounds d Hok). pose proof (budget_bounds d' H1). split_and!; [|lia|].
  - destruct (done d') eqn:Hd; [by left|right]. by apply not_done_armed.
  - intros Hw. assert (Hb : budget d' = 0) by lia.
    destruct (v_status d') eqn:Hs; [pose proof (running_budget d' H1 Hs); lia| |];
      unfold done, failed, established; rw Hs; [|done].
    unfold budget in Hb. rw Hs in Hb. by destruct (lingering d').
Qed.

Local Abbreviation example_env := (mkEnv hello_rnd kem_rnd (example_draws []) 0).
Local Abbreviation example_driver :=
  (@driver_start toy toyKEM false example_env (newDgramDriver example_initiator)).1.

Lemma example_driver_ok : driver_ok example_driver.
Proof.
  constructor; [by vm_compute|by vm_compute|by vm_compute|].
  intros _. exists initialRTO. by vm_compute.
Qed.

Lemma driver_terminates_witness :
  let evs := replicate 9 (EvTimeout (100 * Second)) in
  wakeups (P := toy) (K := toyKEM) false example_driver evs <= 73 /\
  (done (drive (P := toy) (K := toyKEM) false example_driver evs).1 = true \/
   is_Some (nextWake (drive (P := toy) (K := toyKEM) false example_driver evs).1)).
Proof.
  intros evs.
  destruct (driver_terminates toy toyKEM false example_driver evs example_driver_ok) as (H1 & H2 & _).
  exact (conj H2 H1).
Defined.

(** ** Silence *)

Section Silence.

(** One wake-up at the time the driver asked for. *)
Definition wake (d : dgramDriver) : dgramDriver * list hsMessage :=
  match nextWake d with
  | Some t => onTimeout t d
  | None => (d, [])
  end.

Fixpoint silence (n : nat) (d : dgramDriver) : dgramDriver * list (list hsMessage) :=
  match n with
  | O => (d, [])
  | S n => let '(d, outs) := silence n d in let '(d, out) := wake d in (d, outs ++ [out])
  end.

(** The time from one wake-up to the [n]-th after it, for a first timeout [rto]. *)
Fixpoint backoff (rto rtoMax : Z) (n : nat) : Z :=
  match n with
  | O => 0
  | S n => backoff rto rtoMax n + Z.min (rto * 2 ^ Z.of_nat (S n)) rtoMax
  end.

Lemma backoff_bound rto rtoMax n : 0 < rto -> 0 < rtoMax ->
  0 <= backoff rto rtoMax n <= Z.of_nat n * rtoMax.
Proof. intros. induction n; cbn [backoff]; [lia|]. assert (0 < 2 ^ Z.of_nat (S n)) by lia. nia. Qed.

(** The state after [n] wake-ups within the ceiling. *)
Lemma silence_within n d t : v_status d = driverRunning -> v_retransmitAt d = Some t ->
  v_retries d = 0 -> 0 < v_rto d <= v_rtoMax d -> v_rtoMax d < 2 ^ 62 ->
  Z.of_nat n <= v_maxRetries d ->
  silence n d =
    (d <| v_retries := Z.of_nat n |>
       <| v_rto := Z.min (v_rto d * 2 ^ Z.of_nat n) (v_rtoMax d) |>
       <| v_retransmitAt := Some (t + backoff (v_rto d) (v_rtoMax d) n) |>,
     replicate n (d_cached (v_fsm d))).
Proof.
  intros Hs Ht Hr Hrto Hmax. induction n as [|n IH]; intros Hn.
  - cbn. rw Z.mul_1_r Z.min_l; [lia|]. destruct d; cbn in *. by rw Z.add_0_r Hr Ht.
  - cbn [silence]. rw IH; [lia|]. unfold wake, nextWake. cbn. rw Hs.
    unfold onTimeout, lingering. cbn. rw Z.leb_refl.
    rw (proj2 (Z.ltb_ge _ _)); [lia|]. unfold armRetransmit. cbn.
    rw (bool_decide_false (driverRunning = driverEstablished)) // (bool_decide_true (driverRunning = _)) //. cbn.
    assert (0 < 2 ^ Z.of_nat n) by lia.
    assert (Hm : Z.min (i64 (Z.min (v_rto d * 2 ^ Z.of_nat n) (v_rtoMax d) * 2)) (v_rtoMax d) =
      Z.min (v_rto d * 2 ^ Z.of_nat (S n)) (v_rtoMax d)).
    { rw i64_small; [nia|]. rw Nat2Z.inj_succ Z.pow_succ_r; nia. }
    rw Hm -replicate_cons_app -Z.add_assoc. replace (Z.of_nat n + 1) with (Z.of_nat (S n)) by lia. done.
Qed.

(** One more wake-up fails the handshake. *)
Lemma silence_over d t : v_status d = driverRunning -> v_retransmitAt d = Some t ->
  v_retries d = v_maxRetries d ->
  v_status (wake d).1 = driverFailed /\ (wake d).2 = [].
Proof.
  intros Hs Ht Hr. unfold wake, nextWake, onTimeout, lingering. rw Hs Ht. cbn.
  rw Z.leb_refl Hr (proj2 (Z.ltb_lt _ _)); [lia|].
  by rw (bool_decide_false (driverRunning = driverEstablished)) // (bool_decide_true (driverRunning = _)).
Qed.

Lemma silence_end n d t : v_status d = driverRunning -> v_retransmitAt d = Some t ->
  v_retries d = 0 -> 0 < v_rto d <= v_rtoMax d -> v_rtoMax d < 2 ^ 62 ->
  Z.of_nat n = v_maxRetries d ->
  v_status (silence (S n) d).1 = driverFailed /\
  (silence (S n) d).2 = replicate n (d_cached (v_fsm d)) ++ [[]].
Proof.
  intros Hs Ht Hr Hrto Hmax Hn. cbn [silence]. rw (silence_within n d t) //; [lia|].
  set (d1 := d <| v_retries := _ |> <| v_rto := _ |> <| v_retransmitAt := _ |>).
  destruct (silence_over d1 (t + backoff (v_rto d) (v_rtoMax d) n) Hs eq_refl Hn) as [H1 H2].
  destruct (wake d1) as [d2 out]. cbn in H1, H2 |- *. by rw H2.
Qed.

End Silence.

(** Against a silent peer a driver retransmits its last flight exactly maxRetries times, the n-th
    time after waiting the initial timeout doubled n times and cut off at the maximum, and at the
    wake-up after the last of them it fails; its lifetime from the first timeout on is the sum of
    those waits, at most maxRetries times the maximum. *)
Theorem silent_peer d t n : v_status d = driverRunning -> v_retransmitAt d = Some t ->
  v_retries d = 0 -> 0 < v_rto d <= v_rtoMax d -> v_rtoMax d < 2 ^ 62 ->
  Z.of_nat n = v_maxRetries d ->
  (forall k, (k <= n)%nat ->
    (silence k d).2 = replicate k (d_cached (v_fsm d)) /\ done (silence k d).1 = false /\
    nextWake (silence k d).1 = Some (t + backoff (v_rto d) (v_rtoMax d) k)) /\
  failed (silence (S n) d).1 = true /\
  (silence (S n) d).2 = replicate n (d_cached (v_fsm d)) ++ [[]] /\
  0 <= backoff (v_rto d) (v_rtoMax d) n <= v_maxRetries d * v_rtoMax d.
Proof.
  intros Hs Ht Hr Hrto Hmax Hn. split_and!.
  - intros k Hk. rw (silence_within k d t) //; [lia|]. split; [done|].
    unfold done, failed, established, nextWake. cbn. by rw Hs.
  - unfold failed. by rw (proj1 (silence_end n d t Hs Ht Hr Hrto Hmax Hn)).
  - exact (proj2 (silence_end n d t Hs Ht Hr Hrto Hmax Hn)).
  - pose proof (backoff_bound (v_rto d) (v_rtoMax d) n). lia.
  - pose proof (backoff_bound (v_rto d) (v_rtoMax d) n). lia.
Qed.

Lemma silent_peer_witness :
  failed (silence 9 example_driver).1 = true /\
  nextWake (silence 8 example_driver).1 = Some (initialRTO + backoff initialRTO maxRTO 8) /\
  initialRTO + backoff initialRTO maxRTO 8 = 47500 * Millisecond.
Proof.
  destruct (silent_peer example_driver initialRTO 8) as (H1 & H2 & _); [by vm_compute..|].
  split; [exact H2|split; [|by vm_compute]].
  destruct (H1 8%nat ltac:(lia)) as (_ & _ & H3). exact H3.
Defined.

(** ** After completion *)

Section Linger.
Context {P : Primitives} {K : KEMPrimitives} (fips : bool).

(** A run of the machine that reports completion expects nothing more. *)
Definition ends (m : Machine (list hsMessage * bool)) : Prop :=
  forall d d' out, m d = (d', Ok (out, true)) -> d_expecting d' = 0.

Lemma attempt_ends {A} (m : ST Handshake error A) k : (forall a, ends (k a)) -> ends (attempt m k).
Proof.
  intros Hk d d' out. unfold attempt. destruct (m (d_hs d)) as [h [a|e|]]; [exact: Hk|done|done].
Qed.

Lemma advance_finished_ends e body : ends (advance_finished fips e body).
Proof. apply attempt_ends => _. apply attempt_ends => reply d d' out [= <- _]. done. Qed.

Lemma advance_ends e typ body : ends (advance fips e typ body).
Proof.
  intros d. unfold advance. rw st_bind_get. destruct (d_role d).
  - destruct (_ =? _).
    { apply attempt_ends => _ d1 d' out. rw st_bind_mod st_bind_get. cbn.
      destruct (d_earlyFinished d1); [rw st_bind_mod; exact: advance_finished_ends|done]. }
    destruct (_ =? _); [exact: advance_finished_ends|]. destruct (_ =? _); [|done].
    apply attempt_ends => _. by apply attempt_ends => reply.
  - destruct (_ =? _).
    { intros d' out. unfold advance_client_hello. rw st_bind_get. destruct (_ && _); [done|].
      apply attempt_ends => _ d1 d2 out2. rw st_bind_get.
      destruct (h_sendHRR _); [by apply attempt_ends => hrr|].
      apply attempt_ends => sh. by apply attempt_ends => sf. }
    destruct (_ =? _); [|done]. by apply attempt_ends => _ d1 d' out [= <- _].
Qed.

Lemma onMessage_ends e typ body : ends (onMessage fips e typ body).
Proof.
  intros d d' out. unfold onMessage. rw st_bind_get.
  repeat (match goal with |- context [if ?b then _ else _] => destruct b end);
    by [apply advance_ends|].
Qed.

(** A machine that expects nothing does not move; a repeat of the last message is answered. *)
Lemma onMessage_over e typ body d : d_expecting d = 0 ->
  exists out, onMessage fips e typ body d = (d, Ok (out, false)) /\
    (out = [] \/ out = d_cached d).
Proof.
  intros He. unfold onMessage. rw st_bind_get He. cbn.
  replace (negb (typ =? 0) && (typ =? 0)) with false by (by destruct (typ =? 0)).
  rw !andb_false_r. cbn. destruct (_ && _ && _); [by eauto|]. destruct (_ && _); by eauto.
Qed.

(** The replays are within the cap, and the machine of an established driver is over. *)
Definition settled (d : dgramDriver) : Prop :=
  0 <= v_replaysLeft d <= DatagramHandshakeLingerReplays /\
  (v_status d = driverEstablished -> d_expecting (v_fsm d) = 0).

(** One message to an established driver: no answer, or the cached flight, paid for with a
    replay. *)
Lemma onInbound_settled e typ body d : v_status d = driverEstablished -> d_expecting (v_fsm d) = 0 ->
  onInbound fips e typ body d = (d, Ok []) \/
  0 < v_replaysLeft d /\
  onInbound fips e typ body d = (d <| v_replaysLeft := v_replaysLeft d - 1 |>, Ok (d_cached (v_fsm d))).
Proof.
  intros Hs He. unfold onInbound. rw st_bind_get Hs bool_decide_false //. unfold established.
  rw Hs bool_decide_true //. cbn [andb].
  destruct (lingering d) eqn:Hl; cbn [negb]; [|by left].
  destruct (onMessage_over e typ body (v_fsm d) He) as (out & Ho & Hout).
  assert (Hf : on_fsm (onMessage fips e typ body) d = (d, Ok (out, false))).
  { unfold on_fsm. rw Ho. by destruct d. }
  rw (st_bind_ok _ _ _ _ _ Hf) st_bind_get. cbv beta zeta.
  rw (bool_decide_true (state _ = _)) //. cbn [negb andb]. rw !andb_true_r.
  case_bool_decide as Hne; cbv iota; [by left|]. rw Hl.
  destruct (Z.leb_spec (v_replaysLeft d) 0); [by left|]. right. split; [done|].
  by destruct Hout as [-> | ->].
Qed.

Lemma step_settled d ev : settled d -> settled (driver_step fips d ev).1.
Proof.
  intros [Hr He]. destruct ev as [e typ body|now].
  - rw driver_step_inbound. destruct (decide (v_status d = driverEstablished)) as [Hs|Hs].
    { destruct (onInbound_settled e typ body d Hs (He Hs)) as [-> |[H0 ->]]; [by split|].
      split; [cbn; lia|exact He]. }
    unfold onInbound. rw st_bind_get. case_bool_decide; [done|]. unfold established.
    rw (bool_decide_false (v_status d = driverEstablished)) //. cbn [andb].
    pose proof (onMessage_ends e typ body (v_fsm d)) as Hend. unfold on_fsm at 1, st_bind at 1.
    destruct (onMessage fips e typ body (v_fsm d)) as [f [[out complete]|err|]]; [|by split..].
    rw st_bind_get. cbv beta zeta. destruct (_ && _ && _); [by split|].
    destruct complete; [|].
    + specialize (Hend f out eq_refl). unfold onComplete. rw st_bind_mod st_bind_get.
      by case_bool_decide; split.
    + destruct (negb _); [by split|]. unfold lingering. cbn [v_status upd].
      by rw (bool_decide_false (v_status d = driverEstablished)).
  - cbn. unfold onTimeout. destruct (_ && _); [by split|]. destruct (_ && _); [|by split].
    cbn. by destruct (_ <? _); split.
Qed.

Lemma drive_settled evs d : settled d -> settled (drive fips d evs).1.
Proof.
  revert d. induction evs as [|ev evs IH]; intros d H; [done|].
  rw drive_fst. by apply IH, step_settled.
Qed.

Lemma answers_cons out outs : answers (out :: outs) = Z.b2z (negb (bool_decide (out = []))) + answers outs.
Proof. unfold answers, len. rw filter_cons. case_decide; case_bool_decide; cbn; by [lia|]. Qed.

(** Every answer of an established driver is paid for with a replay. *)
Lemma step_answers d ev : settled d -> v_status d = driverEstablished ->
  v_status (driver_step fips d ev).1 = driverEstablished /\
  v_replaysLeft (driver_step fips d ev).1 +
    Z.b2z (negb (bool_decide ((driver_step fips d ev).2 = []))) <= v_replaysLeft d.
Proof.
  intros [Hr He] Hs. destruct ev as [e typ body|now]; unfold driver_step.
  - destruct (onInbound_settled e typ body d Hs (He Hs)) as [-> |[H0 ->]]; [split; [done|cbn; lia]|].
    split; [done|]. case_bool_decide; cbn; lia.
  - unfold onTimeout. destruct (_ && _); [split; [done|cbn; lia]|].
    rw (bool_decide_false (v_status d = driverRunning)); [by rw Hs|]. split; [done|cbn; lia].
Qed.

Lemma settled_answers evs d : settled d -> v_status d = driverEstablished ->
  answers (drive fips d evs).2 <= v_replaysLeft d.
Proof.
  revert d. induction evs as [|ev evs IH]; intros d Hd Hs; [cbn; by destruct Hd as [[]]|].
  pose proof (step_settled d ev Hd) as Hd'. destruct (step_answers d ev Hd Hs) as [Hs' Hn].
  cbn [drive]. destruct (driver_step fips d ev) as [d' out]. cbn in Hd', Hs', Hn.
  specialize (IH d' Hd' Hs'). destruct (drive fips d' evs) as [d2 outs]. cbn in IH |- *.
  rw answers_cons. lia.
Qed.

End Linger.

(** A completed initiator answers a bounded number of retransmissions. Take a driver as it is
    created, through any events until it is established: whatever comes after, it sends at most 16
    more flights, so a peer or a forger cannot use it to reflect traffic without end. *)
Theorem linger_bounded (P : Primitives) (K : KEMPrimitives) fips d pre post :
  v_status d = driverRunning -> v_replaysLeft d = 0 ->
  let d1 := (drive fips d pre).1 in
  established d1 = true -> answers (drive fips d1 post).2 <= DatagramHandshakeLingerReplays.
Proof.
  intros Hs Hr d1 He.
  assert (settled d1) as Hd by (apply drive_settled; split; [rw Hr; by vm_compute|by rw Hs]).
  unfold established in He. apply bool_decide_eq_true in He.
  etransitivity; [by apply settled_answers|]. by destruct Hd as [[]].
Qed.

(** ** What the machine does with a message *)

Section Classify.
Context {P : Primitives} {K : KEMPrimitives} (fips : bool).

Lemma onMessage_expected e typ body d : typ <> 0 -> d_expecting d = typ ->
  onMessage fips e typ body d = advance fips e typ body d.
Proof.
  intros H0 Hx. unfold onMessage. rw st_bind_get Hx Z.eqb_refl.
  by rw (proj2 (Z.eqb_neq typ 0) H0).
Qed.

Lemma advance_responder e body d : d_role d = RoleResponder ->
  advance fips e MessageTypeClientHello body d = advance_client_hello fips e body d /\
  advance fips e MessageTypeClientFinished body d = advance_client_finished fips e body d.
Proof. intros Hr. unfold advance. by rw !st_bind_get Hr. Qed.

Lemma advance_initiator e body d : d_role d = RoleInitiator ->
  advance fips e MessageTypeServerHello body d = advance_server_hello fips e body d /\
  advance fips e MessageTypeServerFinished body d = advance_finished fips e body d.
Proof. intros Hr. unfold advance. by rw !st_bind_get Hr. Qed.

Lemma attempt_ok {A} (m : ST Handshake error A) k d h0 h a : m h0 = (h, Ok a) -> d_hs d = h0 ->
  attempt m k d = k a (d <| d_hs := h |>).
Proof. intros Hm Hd. unfold attempt. by rw Hd Hm. Qed.

Lemma attempt_err {A} (m : ST Handshake error A) k d h err : m (d_hs d) = (h, Err err) ->
  attempt m k d = (d <| d_hs := h |>, Ok ([], false)).
Proof. intros Hm. unfold attempt. by rw Hm. Qed.

(** A message to a running driver, by what the machine makes of it. *)
Lemma onInbound_running e typ body d f out complete : v_status d = driverRunning ->
  onMessage fips e typ body (v_fsm d) = (f, Ok (out, complete)) ->
  onInbound fips e typ body d =
    let d1 := d <| v_fsm := f |> in
    if (complete : bool) then onComplete (e_now e) out d1
    else if bool_decide (state f = state (v_fsm d)) then (d1, Ok out)
    else (armRetransmit (e_now e) (d1 <| v_rto := v_rtoInitial d |> <| v_retries := 0 |>), Ok out).
Proof.
  intros Hs Hm. unfold onInbound, established. rw st_bind_get Hs.
  rw (bool_decide_false (driverRunning = driverFailed)) // (bool_decide_false (driverRunning = _)) //.
  cbn [andb].
  assert (Hf : on_fsm (onMessage fips e typ body) d = (d <| v_fsm := f |>, Ok (out, complete))).
  { unfold on_fsm. by rw Hm. }
  rw (st_bind_ok _ _ _ _ _ Hf) st_bind_get. cbv beta zeta.
  destruct complete; [by rw andb_false_r|]. cbn [negb]. rw andb_true_r.
  change (v_fsm (d <| v_fsm := f |>)) with f.
  destruct (bool_decide (state f = _)); cbn [negb andb]; [|by rw andb_false_r].
  rw andb_true_r. case_bool_decide as Ho; [by rw Ho|]. unfold lingering. cbn. rw Hs.
  by rw (bool_decide_false (driverRunning = _)).
Qed.
End Classify.

(** ** A responder without a timer *)

Section Unarmed.
Context {P : Primitives} {K : KEMPrimitives} (fips : bool).

Lemma onTimeout_unarmed now d : v_status d = driverRunning -> v_retransmitAt d = None ->
  onTimeout now d = (d, []).
Proof.
  intros Hs Ht. unfold onTimeout, lingering. rw Hs Ht. cbn [due].
  by rw (bool_decide_false (driverRunning = driverEstablished)) // andb_false_r.
Qed.

(** Wake-ups at any times. *)
Definition timeouts (nows : list Z) : list event := map EvTimeout nows.

Lemma timeouts_unarmed nows d : v_status d = driverRunning -> v_retransmitAt d = None ->
  (drive fips d (timeouts nows)).1 = d.
Proof.
  intros Hs Ht. induction nows as [|now nows IH]; [done|]. cbn [timeouts map]. rw drive_fst.
  cbn [driver_step]. by rw onTimeout_unarmed.
Qed.

Lemma bad_hello_dropped e body err s rto rtoMax : s_Role s = RoleResponder ->
  DecodeClientHello body = Err err ->
  onInbound fips e MessageTypeClientHello body (newDgramDriverWithRTO s rto rtoMax) =
  (newDgramDriverWithRTO s rto rtoMax, Ok []).
Proof.
  intros Hs Hd. set (d := newDgramDriverWithRTO s rto rtoMax).
  assert (Hx : d_expecting (v_fsm d) = MessageTypeClientHello) by (cbn; by rw Hs).
  assert (Hr : d_role (v_fsm d) = RoleResponder) by exact Hs.
  assert (Hp : ProcessClientHello fips (e_prnd e) (e_now e) body (d_hs (v_fsm d)) = (d_hs (v_fsm d), Err err)).
  { unfold ProcessClientHello. rw st_bind_get. unfold st_bind at 1, st_lift. by rw Hd. }
  assert (Hm : onMessage fips e MessageTypeClientHello body (v_fsm d) = (v_fsm d, Ok ([], false))).
  { rw onMessage_expected // (proj1 (advance_responder fips e body _ Hr)).
    unfold advance_client_hello. rw st_bind_get.
    change (h_hrrDone (d_hs (v_fsm d))) with false. cbn [andb]. by rw (attempt_err _ _ _ _ _ Hp). }
  rw (onInbound_running fips e _ body d _ _ _ eq_refl Hm) bool_decide_true //.
Qed.
End Unarmed.

(** A responder started by a ClientHello that does not decode never ends (a defect). The hello
    is dropped, but no timer was ever armed: through any number of wake-ups at any times the
    driver stays exactly as it was created, running, with nothing sent and no wake-up time, so
    neither failing nor releasing what it holds. *)
Theorem bad_hello_never_ends (P : Primitives) (K : KEMPrimitives) fips e body err s rto rtoMax nows :
  s_Role s = RoleResponder -> DecodeClientHello body = Err err ->
  let d := newDgramDriverWithRTO s rto rtoMax in
  let d' := (drive fips d (EvInbound e MessageTypeClientHello body :: timeouts nows)).1 in
  d' = d /\ done d' = false /\ nextWake d' = None.
Proof.
  intros Hs Hd d d'. assert (Hd' : d' = d); [|by rw Hd'].
  unfold d'. rw drive_fst driver_step_inbound (bad_hello_dropped fips e body err) //.
  by rw timeouts_unarmed.
Qed.

Lemma bad_hello_never_ends_witness :
  let d := newDgramDriver example_responder in
  let d' := (drive (P := toy) (K := toyKEM) false d
    (EvInbound example_env MessageTypeClientHello [0] :: timeouts [Hour; 2 * Hour])).1 in
  d' = d /\ done d' = false /\ nextWake d' = None.
Proof.
  exact (bad_hello_never_ends toy toyKEM false example_env [0] ErrInvalidMessage example_responder
    initialRTO maxRTO [Hour; 2 * Hour] eq_refl eq_refl).
Defined.

(** ** A ServerHello that is not the server's *)

(** A hello is not authenticated when it is processed.  Once the machine has taken one that parses
    and decapsulates, every later ServerHello counts as a repeat of it and is dropped, the genuine
    one included, so only a ServerFinished made with the keys of the first can still complete it. *)
Lemma wedged_message `{Primitives, KEMPrimitives} fips e typ body d : d_role d = RoleInitiator ->
  d_expecting d = MessageTypeServerFinished -> d_prev d = MessageTypeServerHello ->
  (typ = MessageTypeServerFinished -> exists err, (ProcessServerFinished body (d_hs d)).2 = Err err) ->
  onMessage fips e typ body d = (d, Ok ([], false)).
Proof.
  intros Hr Hx Hp Hbad. destruct (decide (typ = MessageTypeServerFinished)) as [->|Hne].
  - destruct (Hbad eq_refl) as [err He]. rw onMessage_expected // (proj2 (advance_initiator _ _ _ _ Hr)).
    assert (Hst : (ProcessServerFinished body (d_hs d)).1 = d_hs d).
    { revert He. unfold ProcessServerFinished. rw st_bind_get. destruct (_ && _); [|done].
      unfold st_bind. pose proof (verify_finished_state ServerFinishedLabel body (d_hs d)) as Hv.
      destruct (verify_finished _ _ _) as [h [pt|e'|]]; by [|cbn in *]. }
    unfold advance_finished. destruct (ProcessServerFinished body (d_hs d)) as [h o] eqn:Ho. cbn in He, Hst.
    subst o h. rw (attempt_err _ _ _ _ _ Ho). by destruct d.
  - unfold onMessage. rw st_bind_get Hr Hx Hp. cbn [negb].
    rw (proj2 (Z.eqb_neq typ MessageTypeServerFinished) Hne) !andb_false_r. cbn.
    by destruct (typ =? MessageTypeServerHello); rw ?andb_false_r.
Qed.

Local Abbreviation example_received :=
  [EvInbound example_env MessageTypeServerHello example_sh_bytes;
   EvInbound example_env MessageTypeServerFinished example_sf_bytes].

Lemma linger_bounded_witness :
  let d := (drive (P := toy) (K := toyKEM) false example_driver example_received).1 in
  established d = true /\
  answers (drive (P := toy) (K := toyKEM) false d
    (replicate 20 (EvInbound example_env MessageTypeServerFinished example_sf_bytes))).2 <= 16.
Proof.
  intros d. assert (He : established d = true) by (vm_compute; reflexivity). split; [exact He|].
  exact (linger_bounded toy toyKEM false example_driver example_received _ eq_refl eq_refl He).
Defined.
