(* ===== verification/DgramNet.v ===== *)
(** The datagram handshake over a network that loses, duplicates and reorders.

    Two drivers of [DgramFSM] exchange flights; a message once sent may be delivered any number of
    times, in any order, at any time, or never, and either driver may be woken at any time.  The
    network does not forge. *)

From Corelib Require Import ssreflect.
From stdpp Require Import base tactics list sets numbers strings.
From Stdlib Require Import ZArith Lia.
From S2P Require Import Prelude Base Messages Codec Replay Crypto Chkem Ticket Session DgramSession.
From S2P Require Import Handshake Hellos Agreement Order DgramFSM.

Local Open Scope Z_scope.
Local Open Scope go_scope.

(** * The network *)

Record world := mkWorld {
  w_i : dgramDriver;             (* the initiator *)
  w_r : dgramDriver;             (* the responder *)
  w_to_r : list hsMessage;       (* everything sent to the responder *)
  w_to_i : list hsMessage }.     (* everything sent to the initiator *)

Inductive net_event :=
  | DeliverToResponder (m : hsMessage) (e : Env)
  | DeliverToInitiator (m : hsMessage) (e : Env)
  | WakeInitiator (now : Z)
  | WakeResponder (now : Z).

Section Net.
Context {P : Primitives} {K : KEMPrimitives} (fi frs : bool).

Definition net_step (w : world) (ev : net_event) : outcome error world :=
  match ev with
  | DeliverToResponder m e =>
      let '(r, o) := onInbound frs e (m_typ m) (m_body m) (w_r w) in
      let! out := o in Ok (mkWorld (w_i w) r (w_to_r w) (w_to_i w ++ out))
  | DeliverToInitiator m e =>
      let '(i, o) := onInbound fi e (m_typ m) (m_body m) (w_i w) in
      let! out := o in Ok (mkWorld i (w_r w) (w_to_r w ++ out) (w_to_i w))
  | WakeInitiator now =>
      let '(i, out) := onTimeout now (w_i w) in
      Ok (mkWorld i (w_r w) (w_to_r w ++ out) (w_to_i w))
  | WakeResponder now =>
      let '(r, out) := onTimeout now (w_r w) in
      Ok (mkWorld (w_i w) r (w_to_r w) (w_to_i w ++ out))
  end.

(** Delivering the messages of a flight in order, collecting the answers. *)
Fixpoint feed (fips : bool) (e : Env) (ms : list hsMessage) : Driven (list hsMessage) :=
  match ms with
  | [] => st_ret []
  | m :: ms => do! out := onInbound fips e (m_typ m) (m_body m) in
               do! outs := feed fips e ms in
               st_ret (out ++ outs)
  end.

(** A flight reaches the initiator, and its answer the responder. *)
Definition server_trip (ei er : Env) (i r : dgramDriver) (ms : list hsMessage)
    : outcome error (dgramDriver * dgramDriver) :=
  let '(i, o) := feed fi ei ms i in
  let! out := o in
  let '(r, o) := feed frs er out r in
  let! _ := o in Ok (i, r).

(** A flight reaches the responder, its answer the initiator, and the answer to that the
    responder. *)
Definition client_trip (ei er : Env) (i r : dgramDriver) (ms : list hsMessage)
    : outcome error (dgramDriver * dgramDriver) :=
  let '(r, o) := feed frs er ms r in
  let! out := o in
  server_trip ei er i r out.

(** ** The messages of one handshake *)

(** From the initiator's [h1] that sent [ch] and the responder's fresh [g0]: what every builder
    does from there on, whenever the Finished messages are made and checked. *)
Record script (h1 : Handshake) (ch : list Z) (g0 : Handshake) (e : Env)
    (sh sf : list Z) (g3 h2 h3 : Handshake) : Prop := {
  sc_responder : exists g1 g2, ProcessClientHello frs (e_prnd e) (e_now e) ch g0 = (g1, Ok tt) /\
    h_sendHRR g1 = false /\ CreateServerHello frs (e_rnd e) (e_krnd e) g1 = (g2, Ok sh) /\
    CreateServerFinished g2 = (g3, Ok sf);
  sc_hello : ProcessServerHello fi sh h1 = (h2, Ok tt);
  sc_finished : ProcessServerFinished sf h2 = (h3, Ok tt);
  sc_len : len sf = 65;
  sc_end : forall now1, exists h4 cf, CreateClientFinished fi now1 h3 = (h4, Ok cf) /\
    forall now2, exists g4 ms, ProcessClientFinished frs now2 cf g3 = (g4, Ok tt) /\ agreed true ms h4 g4 }.

(** The responder's randomness suffices for its answer. *)
Definition can_answer (ch : list Z) (g0 : Handshake) (e : Env) : Prop :=
  forall g1, ProcessClientHello frs (e_prnd e) (e_now e) ch g0 = (g1, Ok tt) ->
  exists g2 sh, CreateServerHello frs (e_rnd e) (e_krnd e) g1 = (g2, Ok sh).

(** Matching configurations have a script. *)
Lemma script_exists {PL : PrimitivesLaws P} {KL : KEMLaws K} rnd krnd h0 h1 ch g0 e :
  (forall now, hs_ready frs now h0 g0) -> h_datagram h0 = true -> h_sendHRR g0 = false ->
  CreateClientHello fi rnd krnd h0 = (h1, Ok ch) -> can_answer ch g0 e ->
  exists sh sf g3 h2 h3, script h1 ch g0 e sh sf g3 h2 h3.
Proof.
  intros R Hdg Hhrr Hc Hans.
  assert (H := fun now1 now2 => handlers_agree fi frs rnd krnd (e_prnd e) (e_rnd e) (e_krnd e) (e_now e)
    now1 now2 h0 g0 h1 ch (R (e_now e)) Hc).
  destruct (H 0 0) as (_ & g1 & Hp & Hr & Hrest). destruct (Hans g1 Hp) as (g2 & sh & Hs).
  destruct (Hrest g2 sh Hs) as (h2 & g3 & sf & h3 & _ & _ & _ & _ & H1 & H2 & H3 & _ & _ & _ & _ & Hl & _).
  exists sh, sf, g3, h2, h3. constructor; [|done|done|done|].
  - exists g1, g2. by rw Hr.
  - intros now1.
    destruct (H now1 0) as (_ & g1' & Hp' & _ & Hrest'). rw Hp in Hp'. injection Hp' as <-.
    destruct (Hrest' g2 sh Hs) as (h2' & g3' & sf' & h3' & h4 & cf & g4 & ms & H1' & H2' & H3' & H4 & _).
    rw H1 in H1'. injection H1' as <-. rw H2 in H2'. injection H2' as <- <-. rw H3 in H3'. injection H3' as <-.
    exists h4, cf. split; [done|]. intros now2.
    destruct (H now1 now2) as (_ & g1' & Hp'' & _ & Hrest''). rw Hp in Hp''. injection Hp'' as <-.
    destruct (Hrest'' g2 sh Hs) as (h2' & g3' & sf' & h3' & h4' & cf' & g4' & ms' & J1 & J2 & J3 & J4 & J5 & J6 & _).
    rw H1 in J1. injection J1 as <-. rw H2 in J2. injection J2 as <- <-. rw H3 in J3. injection J3 as <-.
    rw H4 in J4. injection J4 as <- <-. exists g4', ms'. by rw -Hdg.
Qed.

(** ** The states of the two machines *)

Definition msg_ch (ch : list Z) := mkMsg MessageTypeClientHello ch.
Definition msg_sh (sh : list Z) := mkMsg MessageTypeServerHello sh.
Definition msg_sf (sf : list Z) := mkMsg MessageTypeServerFinished sf.
Definition msg_cf (cf : list Z) := mkMsg MessageTypeClientFinished cf.

(** Awaiting the ServerHello, perhaps with a ServerFinished held back; awaiting the
    ServerFinished; complete. *)
Definition i_hello h1 ch early := mkDH h1 RoleInitiator MessageTypeServerHello 0 [msg_ch ch] early.
Definition i_finished h2 ch :=
  mkDH h2 RoleInitiator MessageTypeServerFinished MessageTypeServerHello [msg_ch ch] None.
Definition i_complete h4 cf := mkDH h4 RoleInitiator 0 MessageTypeServerFinished [msg_cf cf] None.

(** Fresh; awaiting the ClientFinished; complete. *)
Definition r_fresh g0 := mkDH g0 RoleResponder MessageTypeClientHello 0 [] None.
Definition r_finished g3 sh sf :=
  mkDH g3 RoleResponder MessageTypeClientFinished MessageTypeClientHello [msg_sh sh; msg_sf sf] None.
Definition r_complete g4 sh sf :=
  mkDH g4 RoleResponder 0 MessageTypeClientFinished [msg_sh sh; msg_sf sf] None.

Section Script.
Context {h1 : Handshake} {ch : list Z} {g0 : Handshake} {e0 : Env} {sh sf : list Z} {g3 h2 h3 : Handshake}.
Context (S : script h1 ch g0 e0 sh sf g3 h2 h3).

Lemma r_fresh_hello : h_hrrDone g0 = false ->
  onMessage frs e0 MessageTypeClientHello ch (r_fresh g0) =
  (r_finished g3 sh sf, Ok ([msg_sh sh; msg_sf sf], false)).
Proof.
  intros Hh. destruct (sc_responder _ _ _ _ _ _ _ _ _ S) as (g1 & g2 & H1 & H2 & H3 & H4).
  rw onMessage_expected // (proj1 (advance_responder _ _ _ _ _)) //. unfold advance_client_hello.
  rw st_bind_get. cbn [d_hs r_fresh]. rw Hh. cbn [andb].
  rw (attempt_ok _ _ _ _ _ _ H1) // st_bind_get.
  change (h_sendHRR _) with (h_sendHRR g1). rw H2.
  rw (attempt_ok _ _ _ _ _ _ H3) //.
  by rw (attempt_ok _ _ _ _ _ _ H4).
Qed.

Lemma r_finished_hello e : onMessage frs e MessageTypeClientHello ch (r_finished g3 sh sf) =
  (r_finished g3 sh sf, Ok ([msg_sh sh; msg_sf sf], false)).
Proof. done. Qed.

Lemma i_hello_early e early : early = None \/ early = Some sf ->
  onMessage fi e MessageTypeServerFinished sf (i_hello h1 ch early) =
  (i_hello h1 ch (Some sf), Ok ([], false)).
Proof.
  intros He. pose proof (sc_len _ _ _ _ _ _ _ _ _ S) as Hl.
  unfold onMessage. rw st_bind_get. destruct sf as [|b l]; [done|]. by destruct He as [-> | ->].
Qed.

Lemma i_hello_hello e : onMessage fi e MessageTypeServerHello sh (i_hello h1 ch None) =
  (i_finished h2 ch, Ok ([], false)).
Proof.
  rw onMessage_expected // (proj1 (advance_initiator _ _ _ _ _)) //. unfold advance_server_hello.
  by rw (attempt_ok _ _ _ _ _ _ (sc_hello _ _ _ _ _ _ _ _ _ S)).
Qed.

(** The step that completes the initiator, from either waiting state. *)
Lemma finish_initiator e prev : exists h4 cf,
  (forall now2, exists g4 ms, ProcessClientFinished frs now2 cf g3 = (g4, Ok tt) /\ agreed true ms h4 g4) /\
  advance_finished fi e sf (mkDH h2 RoleInitiator MessageTypeServerFinished prev [msg_ch ch] None) =
  (i_complete h4 cf, Ok ([msg_cf cf], true)).
Proof.
  destruct (sc_end _ _ _ _ _ _ _ _ _ S (e_now e)) as (h4 & cf & H4 & Hend).
  exists h4, cf. split; [exact Hend|]. unfold advance_finished.
  rw (attempt_ok _ _ _ _ _ _ (sc_finished _ _ _ _ _ _ _ _ _ S)) //.
  by rw (attempt_ok _ _ _ _ _ _ H4).
Qed.

Lemma i_finished_finished e : exists h4 cf,
  (forall now2, exists g4 ms, ProcessClientFinished frs now2 cf g3 = (g4, Ok tt) /\ agreed true ms h4 g4) /\
  onMessage fi e MessageTypeServerFinished sf (i_finished h2 ch) = (i_complete h4 cf, Ok ([msg_cf cf], true)).
Proof.
  destruct (finish_initiator e MessageTypeServerHello) as (h4 & cf & Hend & Hf). exists h4, cf.
  split; [exact Hend|]. by rw onMessage_expected // (proj2 (advance_initiator _ _ _ _ _)).
Qed.

Lemma i_held_hello e : exists h4 cf,
  (forall now2, exists g4 ms, ProcessClientFinished frs now2 cf g3 = (g4, Ok tt) /\ agreed true ms h4 g4) /\
  onMessage fi e MessageTypeServerHello sh (i_hello h1 ch (Some sf)) = (i_complete h4 cf, Ok ([msg_cf cf], true)).
Proof.
  destruct (finish_initiator e MessageTypeServerHello) as (h4 & cf & Hend & Hf). exists h4, cf.
  split; [exact Hend|]. rw onMessage_expected // (proj1 (advance_initiator _ _ _ _ _)) //.
  unfold advance_server_hello.
  by rw (attempt_ok _ _ _ _ _ _ (sc_hello _ _ _ _ _ _ _ _ _ S)).
Qed.

Lemma i_finished_hello e : onMessage fi e MessageTypeServerHello sh (i_finished h2 ch) =
  (i_finished h2 ch, Ok ([], false)).
Proof. done. Qed.

Lemma r_finished_finished e h4 cf :
  (forall now2, exists g4 ms, ProcessClientFinished frs now2 cf g3 = (g4, Ok tt) /\ agreed true ms h4 g4) ->
  exists g4 ms, agreed true ms h4 g4 /\
  onMessage frs e MessageTypeClientFinished cf (r_finished g3 sh sf) = (r_complete g4 sh sf, Ok ([], true)).
Proof.
  intros Hend. destruct (Hend (e_now e)) as (g4 & ms & Hp & Ha). exists g4, ms. split; [exact Ha|].
  rw onMessage_expected // (proj2 (advance_responder _ _ _ _ _)) //. unfold advance_client_finished.
  by rw (attempt_ok _ _ _ _ _ _ Hp).
Qed.
End Script.

(** ** The drivers around them *)

Definition active (d : dgramDriver) : Prop := v_status d = driverRunning \/ v_status d = driverFailed.

Lemma inbound_failed fips e typ body d : v_status d = driverFailed -> onInbound fips e typ body d = (d, Ok []).
Proof. intros Hs. unfold onInbound. by rw st_bind_get Hs. Qed.

Lemma inbound_moves fips e typ body d f out : v_status d = driverRunning ->
  onMessage fips e typ body (v_fsm d) = (f, Ok (out, false)) ->
  exists d', onInbound fips e typ body d = (d', Ok out) /\ v_fsm d' = f /\ v_status d' = driverRunning.
Proof.
  intros Hs Hm. rw (onInbound_running _ _ _ _ _ _ _ _ Hs Hm). cbv zeta.
  case_bool_decide; by eexists.
Qed.

Lemma inbound_completes fips e typ body d f out : v_status d = driverRunning ->
  onMessage fips e typ body (v_fsm d) = (f, Ok (out, true)) ->
  exists d', onInbound fips e typ body d = (d', Ok out) /\ v_fsm d' = f /\
    v_status d' = driverEstablished /\
    (d_role f = RoleInitiator -> lingering d' = true /\ v_replaysLeft d' = DatagramHandshakeLingerReplays).
Proof.
  intros Hs Hm. rw (onInbound_running _ _ _ _ _ _ _ _ Hs Hm). cbv zeta.
  unfold onComplete. rw st_bind_mod st_bind_get.
  match goal with |- context [d_role (v_fsm ?x)] => change (v_fsm x) with f end.
  case_bool_decide as Hr; rw ?st_bind_mod; eexists; (split; [reflexivity|]);
    split_and!; try done.
  intros _. unfold lingering. cbn. rw Hr. by split.
Qed.

(** A message that leaves the machine where it is or moves it on without completing it. *)
Lemma inbound_active fips e typ body d f out : active d ->
  onMessage fips e typ body (v_fsm d) = (f, Ok (out, false)) ->
  exists d' out', onInbound fips e typ body d = (d', Ok out') /\ active d' /\ out' ⊆ out /\
    (v_fsm d' = f \/ v_fsm d' = v_fsm d /\ out' = []).
Proof.
  intros [Hs|Hs] Hm.
  - destruct (inbound_moves _ _ _ _ _ _ _ Hs Hm) as (d' & H1 & H2 & H3).
    exists d', out. split_and!; [done|by left|done|by left].
  - exists d, []. rw inbound_failed //. split_and!; [done|by right|set_solver|by right].
Qed.

Lemma timeout_fsm now d : exists d' out, onTimeout now d = (d', out) /\ v_fsm d' = v_fsm d /\
  out ⊆ d_cached (v_fsm d) /\ (active d -> active d') /\
  (v_status d = driverEstablished -> v_status d' = driverEstablished).
Proof.
  unfold onTimeout. destruct (_ && _).
  - eexists _, _. split; [reflexivity|]. split_and!; try done. set_solver.
  - case_bool_decide as Hs; cbn [andb]; [destruct (due now (v_retransmitAt d))|].
    + destruct (_ <? _); eexists _, _; (split; [reflexivity|]); split_and!; try done; try set_solver;
        by [intros _; right|rw Hs|intros _; left].
    + eexists _, _. split; [reflexivity|]. split_and!; try done. set_solver.
    + eexists _, _. split; [reflexivity|]. split_and!; try done. set_solver.
Qed.


(** ** Where two honest drivers can be *)

Definition ends_with (g3 h4 : Handshake) (cf : list Z) : Prop :=
  forall now2, exists g4 ms, ProcessClientFinished frs now2 cf g3 = (g4, Ok tt) /\ agreed true ms h4 g4.

Inductive phase (h1 : Handshake) (ch : list Z) (g0 : Handshake) (w : world) : Prop :=
  | phase_hello :
      v_fsm (w_i w) = i_hello h1 ch None -> v_fsm (w_r w) = r_fresh g0 ->
      active (w_i w) -> active (w_r w) ->
      w_to_r w ⊆ [msg_ch ch] -> w_to_i w ⊆ [] -> phase h1 ch g0 w
  | phase_answered e sh sf g3 h2 h3 :
      script h1 ch g0 e sh sf g3 h2 h3 ->
      (v_fsm (w_i w) = i_hello h1 ch None \/ v_fsm (w_i w) = i_hello h1 ch (Some sf) \/
       v_fsm (w_i w) = i_finished h2 ch) ->
      v_fsm (w_r w) = r_finished g3 sh sf ->
      active (w_i w) -> active (w_r w) ->
      w_to_r w ⊆ [msg_ch ch] -> w_to_i w ⊆ [msg_sh sh; msg_sf sf] -> phase h1 ch g0 w
  | phase_finished sh sf g3 h4 cf :
      ends_with g3 h4 cf ->
      v_fsm (w_i w) = i_complete h4 cf -> v_fsm (w_r w) = r_finished g3 sh sf ->
      v_status (w_i w) = driverEstablished -> active (w_r w) ->
      w_to_r w ⊆ [msg_ch ch; msg_cf cf] -> w_to_i w ⊆ [msg_sh sh; msg_sf sf] -> phase h1 ch g0 w
  | phase_done sh sf h4 cf g4 ms :
      agreed true ms h4 g4 ->
      v_fsm (w_i w) = i_complete h4 cf -> v_fsm (w_r w) = r_complete g4 sh sf ->
      v_status (w_i w) = driverEstablished -> v_status (w_r w) = driverEstablished ->
      w_to_r w ⊆ [msg_ch ch; msg_cf cf] -> w_to_i w ⊆ [msg_sh sh; msg_sf sf] -> phase h1 ch g0 w.

(** Only what was sent is delivered, and the responder has randomness when it needs it. *)
Definition allowed (ch : list Z) (g0 : Handshake) (w : world) (ev : net_event) : Prop :=
  match ev with
  | DeliverToResponder m e => m ∈ w_to_r w /\ can_answer ch g0 e
  | DeliverToInitiator m e => m ∈ w_to_i w
  | _ => True
  end.

Lemma sub_app {A} (l k m : list A) : l ⊆ m -> k ⊆ m -> l ++ k ⊆ m.
Proof. intros Hl Hk x [|]%elem_of_app; by auto. Qed.

(** A wake-up changes nothing but timers, status and resent messages. *)
Lemma phase_wake_initiator h1 ch g0 w now : phase h1 ch g0 w ->
  exists w', net_step w (WakeInitiator now) = Ok w' /\ phase h1 ch g0 w'.
Proof.
  intros Hp. unfold net_step. destruct (timeout_fsm now (w_i w)) as (d & out & -> & Hf & Ho & Ha & He).
  eexists. split; [reflexivity|].
  destruct Hp as [F1 F2|e sh sf g3 h2 h3 S F1 F2|sh sf g3 h4 cf S F1 F2|sh sf h4 cf g4 ms S F1 F2].
  - apply phase_hello; cbn; rw ?Hf; auto. rw F1 in Ho. by apply sub_app.
  - eapply phase_answered; cbn; rw ?Hf; eauto. apply sub_app; [done|].
    by destruct F1 as [F1|[F1|F1]]; rw F1 in Ho.
  - eapply phase_finished; cbn; rw ?Hf; eauto. rw F1 in Ho. apply sub_app; [done|]. by apply list_subseteq_cons.
  - eapply phase_done; cbn; rw ?Hf; eauto. rw F1 in Ho. apply sub_app; [done|]. by apply list_subseteq_cons.
Qed.

Lemma phase_wake_responder h1 ch g0 w now : phase h1 ch g0 w ->
  exists w', net_step w (WakeResponder now) = Ok w' /\ phase h1 ch g0 w'.
Proof.
  intros Hp. unfold net_step. destruct (timeout_fsm now (w_r w)) as (d & out & -> & Hf & Ho & Ha & He).
  eexists. split; [reflexivity|].
  destruct Hp as [F1 F2|e sh sf g3 h2 h3 S F1 F2|sh sf g3 h4 cf S F1 F2|sh sf h4 cf g4 ms S F1 F2]; rw F2 in Ho.
  - apply phase_hello; cbn; rw ?Hf; auto. by apply sub_app.
  - eapply phase_answered; cbn; rw ?Hf; eauto. by apply sub_app.
  - eapply phase_finished; cbn; rw ?Hf; eauto. by apply sub_app.
  - eapply phase_done; cbn; rw ?Hf; eauto. by apply sub_app.
Qed.

(** ** Deliveries *)

(** An established driver may repeat its last flight, nothing else. *)
Lemma inbound_established fips e typ body d : v_status d = driverEstablished -> d_expecting (v_fsm d) = 0 ->
  exists d' out, onInbound fips e typ body d = (d', Ok out) /\ v_fsm d' = v_fsm d /\
    v_status d' = driverEstablished /\ out ⊆ d_cached (v_fsm d).
Proof.
  intros Hs He. destruct (onInbound_settled fips e typ body d Hs He) as [-> |[_ ->]].
  - exists d, []. split_and!; try done. apply list_subseteq_nil.
  - eexists _, _. by split.
Qed.

Lemma r_deliver_hello e ch d g3 sh sf : active d -> v_fsm d = r_finished g3 sh sf ->
  exists d' out, onInbound frs e MessageTypeClientHello ch d = (d', Ok out) /\ active d' /\
    v_fsm d' = r_finished g3 sh sf /\ out ⊆ [msg_sh sh; msg_sf sf].
Proof.
  intros Ha Hf. destruct (inbound_active frs e MessageTypeClientHello ch d (r_finished g3 sh sf)
    [msg_sh sh; msg_sf sf] Ha) as (d' & out & H1 & H2 & H3 & H4); [by rw Hf|].
  exists d', out. split_and!; try done. destruct H4 as [|[-> _]]; done.
Qed.

Section Deliver.
Context {h1 : Handshake} {ch : list Z} {g0 : Handshake}.
Context (Hscript : forall e, can_answer ch g0 e -> exists sh sf g3 h2 h3, script h1 ch g0 e sh sf g3 h2 h3).
Context (Hhrr : h_hrrDone g0 = false).

Lemma phase_deliver_responder w m e : phase h1 ch g0 w -> m ∈ w_to_r w -> can_answer ch g0 e ->
  exists w', net_step w (DeliverToResponder m e) = Ok w' /\ phase h1 ch g0 w'.
Proof.
  intros Hp Hm Hc. unfold net_step.
  destruct Hp as [F1 F2 A1 A2 T1 T2|e1 sh sf g3 h2 h3 S F1 F2 A1 A2 T1 T2|sh sf g3 h4 cf S F1 F2 A1 A2 T1 T2|
                  sh sf h4 cf g4 ms S F1 F2 A1 A2 T1 T2]; apply T1 in Hm.
  - apply list_elem_of_singleton in Hm as ->. destruct A2 as [A2|A2].
    + destruct (Hscript e Hc) as (sh & sf & g3 & h2 & h3 & S).
      pose proof (r_fresh_hello S Hhrr) as Ho. rw -F2 in Ho.
      destruct (inbound_moves _ _ _ _ _ _ _ A2 Ho) as (d & Hi & Hf & Hs). rw Hi. eexists. split; [reflexivity|].
      eapply phase_answered; cbn; eauto; [by left|]. apply sub_app; [|done]. rw (list_nil_subseteq _ T2). apply list_subseteq_nil.
    + rw inbound_failed //. eexists. split; [reflexivity|]. apply phase_hello; cbn; rw ?app_nil_r; auto. by right.
  - apply list_elem_of_singleton in Hm as ->.
    destruct (r_deliver_hello e ch _ _ _ _ A2 F2) as (d & out & Hi & Ha & Hf & Ho). rw Hi.
    eexists. split; [reflexivity|]. eapply phase_answered; cbn; eauto. by apply sub_app.
  - apply elem_of_cons in Hm as [-> |Hm].
    { destruct (r_deliver_hello e ch _ _ _ _ A2 F2) as (d & out & Hi & Ha & Hf & Ho). rw Hi.
      eexists. split; [reflexivity|]. eapply phase_finished; cbn; eauto. by apply sub_app. }
    apply list_elem_of_singleton in Hm as ->. destruct A2 as [A2|A2].
    + destruct (r_finished_finished (sh := sh) (sf := sf) e h4 cf S) as (g4 & ms & Hag & Ho). rw -F2 in Ho.
      destruct (inbound_completes _ _ _ _ _ _ _ A2 Ho) as (d & Hi & Hf & Hs & _). rw Hi.
      eexists. split; [reflexivity|]. eapply phase_done; cbn; eauto. by rw app_nil_r.
    + rw inbound_failed //. eexists. split; [reflexivity|].
      eapply phase_finished; cbn; rw ?app_nil_r; eauto. by right.
  - destruct (inbound_established frs e (m_typ m) (m_body m) _ A2) as (d & out & Hi & Hf & Hs & Ho); [by rw F2|].
    rw Hi. eexists. split; [reflexivity|]. rw F2 in Hf, Ho. eapply phase_done; cbn; eauto. by apply sub_app.
Qed.

(** The message that completes the initiator. *)
Lemma phase_complete_initiator w typ body e e1 sh sf g3 h2 h3 h4 cf :
  script h1 ch g0 e1 sh sf g3 h2 h3 -> ends_with g3 h4 cf ->
  onMessage fi e typ body (v_fsm (w_i w)) = (i_complete h4 cf, Ok ([msg_cf cf], true)) ->
  v_fsm (w_r w) = r_finished g3 sh sf -> v_status (w_i w) = driverRunning -> active (w_r w) ->
  w_to_r w ⊆ [msg_ch ch] -> w_to_i w ⊆ [msg_sh sh; msg_sf sf] ->
  exists w', net_step w (DeliverToInitiator (mkMsg typ body) e) = Ok w' /\ phase h1 ch g0 w'.
Proof.
  intros S He Hm F2 A1 A2 T1 T2. unfold net_step. cbn [m_typ m_body].
  destruct (inbound_completes _ _ _ _ _ _ _ A1 Hm) as (d & Hi & Hf & Hs & _). rw Hi.
  eexists. split; [reflexivity|]. eapply phase_finished; cbn; eauto.
  apply sub_app; [|by apply list_subseteq_cons].
  intros x Hx. apply T1, list_elem_of_singleton in Hx as ->. by left.
Qed.

Lemma phase_deliver_initiator w m e : phase h1 ch g0 w -> m ∈ w_to_i w ->
  exists w', net_step w (DeliverToInitiator m e) = Ok w' /\ phase h1 ch g0 w'.
Proof.
  intros Hp Hm.
  destruct Hp as [F1 F2 A1 A2 T1 T2|e1 sh sf g3 h2 h3 S F1 F2 A1 A2 T1 T2|sh sf g3 h4 cf S F1 F2 A1 A2 T1 T2|
                  sh sf h4 cf g4 ms S F1 F2 A1 A2 T1 T2]; apply T2 in Hm.
  - by apply elem_of_nil in Hm.
  - destruct A1 as [A1|A1].
    2:{ unfold net_step. rw inbound_failed //. eexists. split; [reflexivity|].
        eapply phase_answered; cbn; rw ?app_nil_r; eauto. by right. }
    assert (Hmove : forall f, (f = i_hello h1 ch (Some sf) \/ f = i_finished h2 ch) ->
      onMessage fi e (m_typ m) (m_body m) (v_fsm (w_i w)) = (f, Ok ([], false)) ->
      exists w', net_step w (DeliverToInitiator m e) = Ok w' /\ phase h1 ch g0 w').
    { intros f Hff Ho. destruct (inbound_moves _ _ _ _ _ _ _ A1 Ho) as (d & Hi & Hf & Hs).
      unfold net_step. rw Hi. eexists. split; [reflexivity|].
      eapply phase_answered; cbn; rw ?app_nil_r; eauto; [by rw Hf; right|by left]. }
    apply elem_of_cons in Hm as [-> |Hm%list_elem_of_singleton]; [|subst m]; destruct F1 as [F1|[F1|F1]].
    + eapply Hmove; [by right|]. rw F1. apply (i_hello_hello S).
    + destruct (i_held_hello S e) as (h4 & cf & He & Ho). rw -F1 in Ho. by eapply phase_complete_initiator.
    + eapply Hmove; [by right|]. by rw F1.
    + eapply Hmove; [by left|]. rw F1. apply (i_hello_early S). by left.
    + eapply Hmove; [by left|]. rw F1. apply (i_hello_early S). by right.
    + destruct (i_finished_finished S e) as (h4 & cf & He & Ho). rw -F1 in Ho. by eapply phase_complete_initiator.
  - destruct (inbound_established fi e (m_typ m) (m_body m) _ A1) as (d & out & Hi & Hf & Hs & Ho); [by rw F1|].
    unfold net_step. rw Hi. eexists. split; [reflexivity|]. rw F1 in Hf, Ho.
    eapply phase_finished; cbn; eauto. apply sub_app; [done|]. by apply list_subseteq_cons.
  - destruct (inbound_established fi e (m_typ m) (m_body m) _ A1) as (d & out & Hi & Hf & Hs & Ho); [by rw F1|].
    unfold net_step. rw Hi. eexists. split; [reflexivity|]. rw F1 in Hf, Ho.
    eapply phase_done; cbn; eauto. apply sub_app; [done|]. by apply list_subseteq_cons.
Qed.

Lemma phase_step w ev : phase h1 ch g0 w -> allowed ch g0 w ev ->
  exists w', net_step w ev = Ok w' /\ phase h1 ch g0 w'.
Proof.
  intros Hp. destruct ev as [m e|m e|now|now]; cbn [allowed].
  - intros [Hm Hc]. by apply phase_deliver_responder.
  - intros Hm. by apply phase_deliver_initiator.
  - intros _. by apply phase_wake_initiator.
  - intros _. by apply phase_wake_responder.
Qed.
End Deliver.

(** ** One round trip *)

Lemma feed_cons fips e m ms d d' out d'' outs :
  onInbound fips e (m_typ m) (m_body m) d = (d', Ok out) -> feed fips e ms d' = (d'', Ok outs) ->
  feed fips e (m :: ms) d = (d'', Ok (out ++ outs)).
Proof. intros H1 H2. cbn [feed]. by rw (st_bind_ok _ _ _ _ _ H1) (st_bind_ok _ _ _ _ _ H2). Qed.

Lemma feed_established fips e ms d : v_status d = driverEstablished -> d_expecting (v_fsm d) = 0 ->
  exists d' outs, feed fips e ms d = (d', Ok outs) /\ v_fsm d' = v_fsm d /\ v_status d' = driverEstablished.
Proof.
  revert d. induction ms as [|m ms IH]; intros d Hs He; [by exists d, []|].
  destruct (inbound_established fips e (m_typ m) (m_body m) d Hs He) as (d1 & out & H1 & H2 & H3 & _).
  destruct (IH d1 H3) as (d2 & outs & H4 & H5 & H6); [by rw H2|].
  exists d2, (out ++ outs). split; [by eapply feed_cons|]. by rw H5.
Qed.

Lemma inbound_lingering fips e typ body d out : lingering d = true ->
  onMessage fips e typ body (v_fsm d) = (v_fsm d, Ok (out, false)) -> out = [] \/ 0 < v_replaysLeft d ->
  exists d', onInbound fips e typ body d = (d', Ok out) /\ v_fsm d' = v_fsm d /\
    v_status d' = driverEstablished /\ (out = [] -> d' = d).
Proof.
  intros Hl Hm Hr. assert (Hs : v_status d = driverEstablished).
  { unfold lingering in Hl. by destruct (v_status d). }
  unfold onInbound, established. rw st_bind_get Hs Hl bool_decide_false // bool_decide_true //. cbn [andb negb].
  assert (Hf : on_fsm (onMessage fips e typ body) d = (d, Ok (out, false))).
  { unfold on_fsm. rw Hm. by destruct d. }
  rw (st_bind_ok _ _ _ _ _ Hf) st_bind_get. cbv beta zeta.
  rw (bool_decide_true (state _ = _)) //. cbn [negb andb]. rw !andb_true_r.
  case_bool_decide as Hne; cbv iota; [exists d; by rw Hne|]. rw Hl.
  destruct Hr as [|Hr]; [done|]. rw (proj2 (Z.leb_gt _ _) Hr). by eexists.
Qed.

(** Due for a retransmission, with one left. *)
Definition resends (now : Z) (d : dgramDriver) : Prop :=
  v_status d = driverRunning /\ due now (v_retransmitAt d) = true /\ v_retries d < v_maxRetries d.

Lemma timeout_resends now d : resends now d ->
  exists d', onTimeout now d = (d', d_cached (v_fsm d)) /\ v_fsm d' = v_fsm d /\ v_status d' = driverRunning.
Proof.
  intros (Hs & Hd & Hr). unfold onTimeout, lingering. rw Hs Hd.
  rw (bool_decide_false (driverRunning = driverEstablished)) // (bool_decide_true (driverRunning = _)) //.
  cbn [andb]. cbv zeta. cbn [v_maxRetries v_retries upd].
  match goal with |- context [?a <? ?b] => replace (a <? b) with false by (cbn; lia) end.
  eexists. split; [reflexivity|]. by cbn.
Qed.

(** Both ends are established, on the same secret. *)
Definition both_established (i r : dgramDriver) : Prop :=
  established i = true /\ established r = true /\
  exists ms, agreed true ms (d_hs (v_fsm i)) (d_hs (v_fsm r)).

(** The ClientFinished reaches the responder, once or more. *)
Lemma finish_responder e r i g3 sh sf h4 cf more : v_status r = driverRunning ->
  v_fsm r = r_finished g3 sh sf -> ends_with g3 h4 cf ->
  v_status i = driverEstablished -> v_fsm i = i_complete h4 cf ->
  exists r' outs, feed frs e (msg_cf cf :: more) r = (r', Ok outs) /\ both_established i r'.
Proof.
  intros Hs Hf He Hi Hfi.
  destruct (r_finished_finished (sh := sh) (sf := sf) e h4 cf He) as (g4 & ms & Hag & Ho). rw -Hf in Ho.
  destruct (inbound_completes _ _ _ _ _ _ _ Hs Ho) as (d & Hin & Hfd & Hsd & _).
  destruct (feed_established frs e more d Hsd) as (d2 & outs & H1 & H2 & H3); [by rw Hfd|].
  exists d2, ([] ++ outs). split; [by eapply feed_cons|]. unfold both_established, established.
  rw Hi H3 H2 Hfd Hfi. split_and!; [done|done|]. by exists ms.
Qed.

Section Trip.
Context {h1 : Handshake} {ch : list Z} {g0 : Handshake} {e1 : Env} {sh sf : list Z} {g3 h2 h3 : Handshake}.
Context (S : script h1 ch g0 e1 sh sf g3 h2 h3).

(** The initiator completes on the server's flight. *)
Lemma flight_completes e i : v_status i = driverRunning ->
  (v_fsm i = i_hello h1 ch None \/ v_fsm i = i_hello h1 ch (Some sf) \/ v_fsm i = i_finished h2 ch) ->
  exists i' h4 cf more, feed fi e [msg_sh sh; msg_sf sf] i = (i', Ok (msg_cf cf :: more)) /\
    ends_with g3 h4 cf /\ v_status i' = driverEstablished /\ v_fsm i' = i_complete h4 cf.
Proof.
  intros Hs Hf.
  assert (Hlast : forall d, v_status d = driverRunning -> v_fsm d = i_finished h2 ch ->
    exists i' h4 cf, feed fi e [msg_sf sf] d = (i', Ok [msg_cf cf]) /\
      ends_with g3 h4 cf /\ v_status i' = driverEstablished /\ v_fsm i' = i_complete h4 cf).
  { intros d Hd Hfd. destruct (i_finished_finished S e) as (h4 & cf & He & Ho). rw -Hfd in Ho.
    destruct (inbound_completes _ _ _ _ _ _ _ Hd Ho) as (d' & H1 & H2 & H3 & _).
    exists d', h4, cf. split; [by eapply (feed_cons fi e (msg_sf sf) [] d d' [msg_cf cf] d' [])|done]. }
  assert (Hfirst : forall f, f = i_finished h2 ch ->
    onMessage fi e MessageTypeServerHello sh (v_fsm i) = (f, Ok ([], false)) ->
    exists i' h4 cf more, feed fi e [msg_sh sh; msg_sf sf] i = (i', Ok (msg_cf cf :: more)) /\
      ends_with g3 h4 cf /\ v_status i' = driverEstablished /\ v_fsm i' = i_complete h4 cf).
  { intros f -> Ho. destruct (inbound_moves _ _ _ _ _ _ _ Hs Ho) as (d & H1 & H2 & H3).
    destruct (Hlast d H3 H2) as (i' & h4 & cf & H4 & H5). exists i', h4, cf, [].
    split; [by eapply (feed_cons fi e (msg_sh sh) [msg_sf sf] i d [] i' [msg_cf cf])|done]. }
  destruct Hf as [Hf|[Hf|Hf]].
  - apply (Hfirst _ eq_refl). rw Hf. apply (i_hello_hello S).
  - destruct (i_held_hello S e) as (h4 & cf & He & Ho). rw -Hf in Ho.
    destruct (inbound_completes _ _ _ _ _ _ _ Hs Ho) as (d & H1 & H2 & H3 & _).
    destruct (feed_established fi e [msg_sf sf] d H3) as (d2 & outs & H4 & H5 & H6); [by rw H2|].
    exists d2, h4, cf, outs. split; [|by rw H5].
    by eapply (feed_cons fi e (msg_sh sh) [msg_sf sf] i d [msg_cf cf] d2 outs).
  - apply (Hfirst _ eq_refl). by rw Hf.
Qed.

Lemma server_trip_completes ei er i r : v_status i = driverRunning -> v_status r = driverRunning ->
  (v_fsm i = i_hello h1 ch None \/ v_fsm i = i_hello h1 ch (Some sf) \/ v_fsm i = i_finished h2 ch) ->
  v_fsm r = r_finished g3 sh sf ->
  exists i' r', server_trip ei er i r [msg_sh sh; msg_sf sf] = Ok (i', r') /\ both_established i' r'.
Proof.
  intros Hi Hr Fi Fr. destruct (flight_completes ei i Hi Fi) as (i' & h4 & cf & more & H1 & H2 & H3 & H4).
  destruct (finish_responder er r i' g3 sh sf h4 cf more Hr Fr H2 H3 H4) as (r' & outs & H5 & H6).
  exists i', r'. split; [|done]. unfold server_trip. by rw H1 obind_Ok_l H5.
Qed.
End Trip.

(** ** Runs *)

(** The handshake a session starts with on a datagram endpoint. *)
Definition dgram_hs (s : Session) : Handshake := d_hs (newDgramHandshake s).

Inductive reachable (ch : list Z) (g0 : Handshake) (w0 : world) : world -> Prop :=
  | reach_start : reachable ch g0 w0 w0
  | reach_step w ev w' : reachable ch g0 w0 w -> allowed ch g0 w ev -> net_step w ev = Ok w' ->
      reachable ch g0 w0 w'.

Lemma driver_start_inv e a rto rtoMax i1 ch :
  s_Role a = RoleInitiator ->
  driver_start fi e (newDgramDriverWithRTO a rto rtoMax) = (i1, Ok [msg_ch ch]) ->
  exists h1, CreateClientHello fi (e_rnd e) (e_krnd e) (dgram_hs a) = (h1, Ok ch) /\
    v_fsm i1 = i_hello h1 ch None /\ v_status i1 = driverRunning.
Proof.
  intros Hr. unfold driver_start, on_fsm, start, dgram_hs, st_bind at 1. cbn [v_fsm newDgramDriverWithRTO].
  destruct (CreateClientHello _ _ _ _) as [h1 [body|err|]] eqn:Hc; [|done|done].
  cbn. rw Hr. intros [= <- <-]. by exists h1.
Qed.

Lemma hs_ready_any_time now now' h g : h_ticket h = None -> hs_ready frs now h g -> hs_ready frs now' h g.
Proof. intros Ht []. constructor; try done. unfold ticket_ready. by rw Ht. Qed.

Section Run.
Context {PL : PrimitivesLaws P} {KL : KEMLaws K}.
Context {a b : Session} {e : Env} {rto rtoMax rto' rtoMax' : Z} {i1 : dgramDriver} {ch : list Z}.
Context (Hready : hs_ready frs 0 (dgram_hs a) (dgram_hs b)).
Context (Hstart : driver_start fi e (newDgramDriverWithRTO a rto rtoMax) = (i1, Ok [msg_ch ch])).

Definition start_world : world :=
  mkWorld i1 (newDgramDriverWithRTO b rto' rtoMax') [msg_ch ch] [].

Lemma run_phase : exists h1,
  (forall e', can_answer ch (dgram_hs b) e' ->
     exists sh sf g3 h2 h3, script h1 ch (dgram_hs b) e' sh sf g3 h2 h3) /\
  forall w, reachable ch (dgram_hs b) start_world w -> phase h1 ch (dgram_hs b) w.
Proof.
  destruct (hr_role _ _ _ _ Hready) as [Ra Rb].
  destruct (driver_start_inv e a rto rtoMax i1 ch Ra Hstart) as (h1 & Hc & Hf & Hs). exists h1.
  assert (Hscript : forall e', can_answer ch (dgram_hs b) e' ->
     exists sh sf g3 h2 h3, script h1 ch (dgram_hs b) e' sh sf g3 h2 h3).
  { intros e' He'. apply (script_exists (e_rnd e) (e_krnd e) (dgram_hs a)); [|done|done|exact Hc|done].
    intros now. by eapply hs_ready_any_time. }
  split; [exact Hscript|]. induction 1 as [|w ev w' Hw IH Hal Hst].
  - apply phase_hello; cbn; [done| |by left|by left|done|done]. cbn in Rb. unfold newDgramHandshake, r_fresh. by rw Rb.
  - destruct (phase_step Hscript eq_refl w ev IH Hal) as (w2 & Hst2 & Hp). rw Hst in Hst2.
    by apply Ok_inj in Hst2 as ->.
Qed.
End Run.

End Net.

Arguments start_world : clear implicits.

(** * Theorems *)

(** C6: The datagram handshake is safe over a network that loses, duplicates and reorders. From two
    drivers with matching configuration, after any deliveries of messages that were sent (each any
    number of times, in any order) and any wake-ups, no handler panics or fails; the responder is
    established only if the initiator is; and when both are, their sessions hold the same master
    secret and cipher suite and each opens what the other seals. *)
Theorem dgram_handshake_safe (P : Primitives) (PL : PrimitivesLaws P) (K : KEMPrimitives) (KL : KEMLaws K)
    fi frs a b e rto rtoMax rto' rtoMax' i1 ch w :
  hs_ready frs 0 (dgram_hs a) (dgram_hs b) ->
  driver_start fi e (newDgramDriverWithRTO a rto rtoMax) = (i1, Ok [msg_ch ch]) ->
  reachable fi frs ch (dgram_hs b) (start_world b rto' rtoMax' i1 ch) w ->
  (forall ev, allowed frs ch (dgram_hs b) w ev -> exists w', net_step fi frs w ev = Ok w') /\
  (established (w_r w) = true -> both_established (w_i w) (w_r w)).
Proof.
  intros Hr Hs Hw. destruct (run_phase (rto' := rto') (rtoMax' := rtoMax') fi frs Hr Hs) as (h1 & Hsc & Hph).
  specialize (Hph w Hw). split.
  - intros ev Hal. destruct (phase_step fi frs Hsc eq_refl w ev Hph Hal) as (w' & H & _). by exists w'.
  - unfold established. rw bool_decide_eq_true. intros He.
    destruct Hph as [_ _ _ [A|A]|????????? _ [A|A]|????? _ _ _ _ [A|A]|?????? Hag F1 F2 A1 A2];
      try (by rw He in A).
    unfold both_established, established. rw A1 A2 F1 F2. split_and!; [done|done|]. by eexists.
Qed.

(** C5: The datagram handshake recovers from any losses. From every state two honest drivers can be
    in: if the initiator is still running and due to retransmit, and the responder has not given
    up, then once its resent flight, the answer to it and the answer to that get through, both ends
    are established with the same keys; and if the initiator is already established (and still
    lingering, with a replay left) it is the responder's resent flight that does so. *)
Theorem dgram_handshake_completes (P : Primitives) (PL : PrimitivesLaws P) (K : KEMPrimitives)
    (KL : KEMLaws K) fi frs a b e rto rtoMax rto' rtoMax' i1 ch w :
  hs_ready frs 0 (dgram_hs a) (dgram_hs b) ->
  driver_start fi e (newDgramDriverWithRTO a rto rtoMax) = (i1, Ok [msg_ch ch]) ->
  reachable fi frs ch (dgram_hs b) (start_world b rto' rtoMax' i1 ch) w ->
  forall now ei er, can_answer frs ch (dgram_hs b) er ->
  (resends now (w_i w) -> v_status (w_r w) = driverRunning ->
   let '(i, flight) := onTimeout now (w_i w) in
   exists i' r', client_trip fi frs ei er i (w_r w) flight = Ok (i', r') /\ both_established i' r') /\
  (lingering (w_i w) = true -> 0 < v_replaysLeft (w_i w) -> resends now (w_r w) ->
   let '(r, flight) := onTimeout now (w_r w) in
   exists i' r', server_trip fi frs ei er (w_i w) r flight = Ok (i', r') /\ both_established i' r').
Proof.
  intros Hr Hs Hw now ei er Hans.
  destruct (run_phase (rto' := rto') (rtoMax' := rtoMax') fi frs Hr Hs) as (h1 & Hsc & Hph).
  specialize (Hph w Hw). split.
  - intros Hi Ar. pose proof (proj1 Hi) as Ai. destruct (timeout_resends now _ Hi) as (i & -> & Fi & Si).
    destruct Hph as [F1 F2|e1 sh sf g3 h2 h3 S F1 F2|????? _ F1 _ A|?????? _ F1 _ A]; try (by rw A in Ai).
    + destruct (Hsc er Hans) as (sh & sf & g3 & h2 & h3 & S).
      pose proof (r_fresh_hello fi frs S eq_refl) as Ho. rw -F2 in Ho.
      destruct (inbound_moves _ _ _ _ _ _ _ Ar Ho) as (r & J1 & J2 & J3).
      destruct (server_trip_completes fi frs S ei er i r Si J3) as (i' & r' & J4 & J5); [left; by rw Fi|done|].
      exists i', r'. split; [|done]. unfold client_trip. rw F1. cbn [d_cached i_hello].
      by rw (feed_cons frs er (msg_ch ch) [] (w_r w) r _ r [] J1) // app_nil_r obind_Ok_l.
    + pose proof (eq_refl : onMessage frs er MessageTypeClientHello ch (r_finished g3 sh sf) =
        (r_finished g3 sh sf, Ok ([msg_sh sh; msg_sf sf], false))) as Ho. rw -{1}F2 in Ho.
      destruct (inbound_moves _ _ _ _ _ _ _ Ar Ho) as (r & J1 & J2 & J3).
      destruct (server_trip_completes fi frs S ei er i r Si J3) as (i' & r' & J4 & J5); [by rw Fi|done|].
      exists i', r'. split; [|done]. unfold client_trip.
      assert (d_cached (v_fsm (w_i w)) = [msg_ch ch]) as -> by (by destruct F1 as [F1|[F1|F1]]; rw F1).
      by rw (feed_cons frs er (msg_ch ch) [] (w_r w) r _ r [] J1) // app_nil_r obind_Ok_l.
  - intros Hl Hn Hi. pose proof (proj1 Hi) as Ar. destruct (timeout_resends now _ Hi) as (r & -> & Fr & Sr).
    assert (Ai : v_status (w_i w) = driverEstablished).
    { unfold lingering in Hl. by destruct (v_status (w_i w)). }
    destruct Hph as [_ _ [A|A]|???????? _ [A|A]|sh sf g3 h4 cf Hend F1 F2|?????? _ _ _ _ A];
      try (by rw A in Ai); try (by rw A in Ar).
    rw F2. cbn [d_cached r_finished].
    destruct (inbound_lingering fi ei MessageTypeServerHello sh (w_i w) [] Hl) as (i2 & J1 & _ & _ & Heq);
      [by rw F1|by left|]. specialize (Heq eq_refl). subst i2.
    destruct (inbound_lingering fi ei MessageTypeServerFinished sf (w_i w) [msg_cf cf] Hl)
      as (i & J2 & J3 & J4 & _); [by rw F1|by right|].
    destruct (finish_responder frs er r i g3 sh sf h4 cf []) as (r' & outs & J5 & J6); [done|by rw Fr|done|done|by rw J3|].
    exists i, r'. split; [|done]. unfold server_trip.
    rw (feed_cons fi ei (msg_sh sh) [msg_sf sf] (w_i w) (w_i w) [] i [msg_cf cf] J1).
    { by apply (feed_cons fi ei (msg_sf sf) [] (w_i w) i [msg_cf cf] i []). }
    by rw obind_Ok_l J5.
Qed.

(** ** Witnesses *)

Local Abbreviation net_env := (mkEnv hello_rnd kem_rnd (example_draws []) 0).
Local Abbreviation net_start :=
  (@driver_start toy toyKEM false net_env (newDgramDriver example_initiator)).

Lemma net_ready : @hs_ready toy toyKEM false 0 (dgram_hs example_initiator) (dgram_hs example_responder).
Proof. destruct example_ready. by constructor. Qed.

Lemma net_start_ok : net_start = (net_start.1, Ok [msg_ch example_ch_bytes]).
Proof. refine (run_pair net_start _ _). vm_compute. reflexivity. Qed.

Local Abbreviation net_pch := (@ProcessClientHello toy toyKEM false (example_draws []) 0 example_ch_bytes
  (dgram_hs example_responder)).
Local Abbreviation net_csh := (@CreateServerHello toy false hello_rnd kem_rnd net_pch.1).

Lemma net_answers : @can_answer toy toyKEM false example_ch_bytes (dgram_hs example_responder) net_env.
Proof.
  intros g1 Hp. pose proof (run_state net_pch _ _ Hp) as Hg. subst g1.
  exists net_csh.1, example_sh_bytes. refine (run_pair net_csh _ _). vm_compute. reflexivity.
Qed.

(** The world after the first flight has been delivered. *)
Local Abbreviation net_world0 :=
  (start_world example_responder initialRTO maxRTO net_start.1 example_ch_bytes).
Local Abbreviation net_step1 :=
  (@net_step toy toyKEM false false net_world0 (DeliverToResponder (msg_ch example_ch_bytes) net_env)).

Definition ok_or {E A} (d : A) (o : outcome E A) : A := match o with Ok a => a | _ => d end.
Definition is_ok {E A} (o : outcome E A) : bool := match o with Ok _ => true | _ => false end.

Lemma ok_or_eq {E A} (d : A) (o : outcome E A) : is_ok o = true -> o = Ok (ok_or d o).
Proof. by destruct o. Qed.

Local Abbreviation net_world1 := (ok_or net_world0 net_step1).

Lemma net_reaches :
  @reachable toy toyKEM false false example_ch_bytes (dgram_hs example_responder) net_world0 net_world1.
Proof.
  refine (reach_step _ _ _ _ _ net_world0 (DeliverToResponder (msg_ch example_ch_bytes) net_env) net_world1 (reach_start _ _ _ _ _) _ (ok_or_eq net_world0 net_step1 _)).
  - split; [by left|exact net_answers].
  - vm_compute. reflexivity.
Qed.

Lemma dgram_handshake_safe_witness :
  length (w_to_i net_world1) = 2%nat /\
  (established (w_r net_world1) = true -> @both_established toy (w_i net_world1) (w_r net_world1)).
Proof.
  split; [vm_compute; reflexivity|].
  exact (proj2 (dgram_handshake_safe toy toy_laws toyKEM toyKEM_laws false false example_initiator
    example_responder net_env initialRTO maxRTO initialRTO maxRTO net_start.1 example_ch_bytes net_world1
    net_ready net_start_ok net_reaches)).
Defined.

Lemma dgram_handshake_completes_witness :
  let '(i, flight) := onTimeout Second (w_i net_world1) in
  exists i' r', @client_trip toy toyKEM false false net_env net_env i (w_r net_world1) flight = Ok (i', r') /\
    @both_established toy i' r'.
Proof.
  refine (proj1 (dgram_handshake_completes toy toy_laws toyKEM toyKEM_laws false false example_initiator
    example_responder net_env initialRTO maxRTO initialRTO maxRTO net_start.1 example_ch_bytes net_world1
    net_ready net_start_ok net_reaches Second net_env net_env net_answers) _ _).
  - split; [vm_compute; reflexivity|]. split; vm_compute; reflexivity.
  - vm_compute. reflexivity.
Defined.
