(* ===== verification/Registry.v ===== *)
(** The connection registry of a datagram endpoint: [connRegistry] of [pkg/tunnel/datagram.go].

    A [*datagramSession] is a reference into the endpoint's store; the registry only maps to
    references and never follows them.  Each operation runs under the registry's lock, so it is
    one step.  [h[:0]] of a source string is its bytes. *)

From Corelib Require Import ssreflect.
From stdpp Require Import base tactics list numbers strings gmap.
From Stdlib Require Import ZArith Lia.
From S2P Require Import Prelude Base Crypto Chkem Sha256 Ticket Reassembly Admission.

Local Open Scope Z_scope.
Local Open Scope go_scope.

Definition ref : Type := nat.

Record connRegistry := mkRegistry {
  byIndex : gmap Z ref;
  bySource : gmap string ref;
  halfOpen : gmap string Z;
  halfOpenTotal : Z;
  maxHalfOpen : Z;
  recentHellos : gmap (list Z) Z }.

#[export] Instance connRegistry_eta : Eta connRegistry := {| eta := fun r =>
  mkRegistry (byIndex r) (bySource r) (halfOpen r) (halfOpenTotal r) (maxHalfOpen r)
    (recentHellos r) |}.

Definition errConnIndexExhausted : error :=
  ErrExternal "tunnel: could not allocate a free connection index".
Definition maxIndexAllocAttempts : nat := 100.

Definition recentHelloTTL : Z :=
  DatagramHandshakeMaxRetries * DatagramHandshakeMaxTimeoutMillis * 1000000.
Definition maxRecentHellos : Z := 4096.

Definition newConnRegistry (maxHalfOpen : Z) : connRegistry := mkRegistry ∅ ∅ ∅ 0 maxHalfOpen ∅.

Definition helloKey (source : string) (body : list Z) : list Z :=
  sha256 (Cookie.string_bytes source ++ [0] ++ body).

(** [now.After(exp)]. *)
Definition expired (now exp : Z) : bool := exp <? now.

(** A full cache first drops what has expired: the loop over the map, in any order. *)
Definition expire_hellos (now : Z) (r : connRegistry) : connRegistry :=
  if maxRecentHellos <=? map_len (recentHellos r)
  then r <| recentHellos := filter (fun ke => expired now ke.2 = false) (recentHellos r) |>
  else r.

Definition noteEstablished (source : string) (hello : list Z) (now : Z) (r : connRegistry) : connRegistry :=
  let r := expire_hellos now r in
  if maxRecentHellos <=? map_len (recentHellos r) then r
  else r <| recentHellos := <[helloKey source hello := now + recentHelloTTL]> (recentHellos r) |>.

Definition wasEstablished (source : string) (hello : list Z) (now : Z) (r : connRegistry)
    : connRegistry * bool :=
  let k := helloKey source hello in
  match recentHellos r !! k with
  | Some exp => if expired now exp then (r <| recentHellos := delete k (recentHellos r) |>, false)
                else (r, true)
  | None => (r, false)
  end.

(** The [i]-th index drawn. *)
Definition randIndex (rnd : Draws) (i : nat) : outcome error Z :=
  let! b := SecureRandomBytes rnd i 4 in
  Ok (be_val b).

(** [for i := 0; i < maxIndexAllocAttempts; i++], [n] rounds left. *)
Fixpoint add_loop (rnd : Draws) (s : ref) (n i : nat) (r : connRegistry)
    : connRegistry * outcome error Z :=
  match n with
  | O => (r, Err errConnIndexExhausted)
  | S n =>
      match randIndex rnd i with
      | Ok idx =>
          if idx =? 0 then add_loop rnd s n (S i) r
          else match byIndex r !! idx with
               | Some _ => add_loop rnd s n (S i) r
               | None => (r <| byIndex := <[idx := s]> (byIndex r) |>, Ok idx)
               end
      | Err e => (r, Err e)
      | Panic => (r, Panic)
      end
  end.

Definition add (rnd : Draws) (s : ref) : ST connRegistry error Z :=
  add_loop rnd s maxIndexAllocAttempts 0.

Definition lookup_index (index : Z) (r : connRegistry) : option ref := byIndex r !! index.

Definition remove (index : Z) (r : connRegistry) : connRegistry :=
  r <| byIndex := delete index (byIndex r) |>.

Definition addHalfOpenLocked (source : string) (r : connRegistry) : connRegistry * bool :=
  if maxHalfOpen r <=? halfOpenTotal r then (r, false)
  else (r <| halfOpen := <[source := default 0 (halfOpen r !! source) + 1]> (halfOpen r) |>
          <| halfOpenTotal := halfOpenTotal r + 1 |>, true).

Definition tryAddHalfOpen : string -> connRegistry -> connRegistry * bool := addHalfOpenLocked.

Definition releaseHalfOpen (source : string) (r : connRegistry) : connRegistry :=
  let n := default 0 (halfOpen r !! source) in
  if n =? 0 then r
  else (r <| halfOpen := if 1 <? n then <[source := n - 1]> (halfOpen r)
                         else delete source (halfOpen r) |>
          <| halfOpenTotal := halfOpenTotal r - 1 |>).

Definition halfOpenLoad (r : connRegistry) : Z := halfOpenTotal r.

Definition knownSource (index : Z) (src : string) (r : connRegistry) : bool :=
  (negb (index =? 0) && bool_decide (is_Some (byIndex r !! index))) ||
  bool_decide (is_Some (bySource r !! src)).

(** What [reserveSource] decided: the source is new and [fresh] is installed for it; it has a
    responder; or the ceiling is reached. *)
Inductive reservation := Reserved | Existing (s : ref) | AtCeiling.

Definition reserveSource (source : string) (fresh : ref) (r : connRegistry)
    : connRegistry * reservation :=
  match bySource r !! source with
  | Some existing => (r, Existing existing)
  | None =>
      match addHalfOpenLocked source r with
      | (r, false) => (r, AtCeiling)
      | (r, true) => (r <| bySource := <[source := fresh]> (bySource r) |>, Reserved)
      end
  end.

Definition sourceOwner (source : string) (s : ref) (r : connRegistry) : bool :=
  bool_decide (bySource r !! source = Some s).

Definition removeSource (source : string) (r : connRegistry) : connRegistry :=
  r <| bySource := delete source (bySource r) |>.

(** The autoscaled ceiling. *)
Definition clampMaxHalfOpen (cores : Z) : Z :=
  let n := cores * DatagramMaxHalfOpenPerCore in
  if n <? DatagramMaxHalfOpenFloor then DatagramMaxHalfOpenFloor
  else if DatagramMaxHalfOpenCeiling <? n then DatagramMaxHalfOpenCeiling
  else n.

Create HintDb registry.

(** * The invariant *)

(** The total is the sum of the counts and within the ceiling, no count is kept at zero, no
    index is zero, and the cache of finished hellos is bounded. *)
Record registry_ok (r : connRegistry) : Prop := {
  rg_sum : halfOpenTotal r = map_sum (fun n => n) (halfOpen r);
  rg_ceiling : halfOpenTotal r <= maxHalfOpen r \/ halfOpenTotal r = 0;
  rg_positive : map_Forall (fun _ n => 0 < n) (halfOpen r);
  rg_index : byIndex r !! 0 = None;
  rg_recent : map_len (recentHellos r) <= maxRecentHellos }.

Lemma map_sum_insert {A} `{Countable A} (m : gmap A Z) k v :
  map_sum (fun n => n) (<[k := v]> m) = map_sum (fun n => n) m - default 0 (m !! k) + v.
Proof.
  unfold map_sum. rw -insert_delete_eq map_fold_insert_L; [intros; lia|apply lookup_delete_eq|].
  destruct (m !! k) as [v0|] eqn:Hk; cbn.
  - rw -{2}(insert_id m k v0 Hk) -insert_delete_eq map_fold_insert_L; [intros; lia|apply lookup_delete_eq|]. lia.
  - rw delete_id //. lia.
Qed.

Lemma map_sum_delete {A} `{Countable A} (m : gmap A Z) k :
  map_sum (fun n => n) (delete k m) = map_sum (fun n => n) m - default 0 (m !! k).
Proof.
  destruct (m !! k) as [v|] eqn:Hk; cbn; [|rw delete_id //; lia].
  rw -{2}(insert_id m k v Hk) -insert_delete_eq.
  pose proof (map_sum_insert (delete k m) k v) as Hs. rw lookup_delete_eq in Hs. cbn in Hs. lia.
Qed.

Lemma map_sum_nonneg {A} `{Countable A} (m : gmap A Z) :
  map_Forall (fun _ n => 0 < n) m -> 0 <= map_sum (fun n => n) m.
Proof.
  unfold map_sum. induction m as [|k v m Hk IH] using map_ind; intros Hf; [by rw map_fold_empty|].
  rw map_fold_insert_L //; [intros; lia|]. apply map_Forall_insert_1_1 in Hf as Hv.
  apply map_Forall_insert_1_2 in Hf; [|done]. specialize (IH Hf). lia.
Qed.

Lemma registry_new n : registry_ok (newConnRegistry n).
Proof.
  constructor; cbn; [by unfold map_sum; rw map_fold_empty|by right|apply map_Forall_empty|done|].
  unfold map_len. by rw map_size_empty.
Qed.

Lemma expire_hellos_ok now r : registry_ok r -> registry_ok (expire_hellos now r).
Proof.
  intros [H1 H2 H3 H4 H5]. unfold expire_hellos. destruct (_ <=? _); constructor; cbn; try done.
  etransitivity; [|exact H5]. unfold map_len. apply inj_le, map_subseteq_size, map_filter_subseteq.
Qed.

Lemma noteEstablished_ok source hello now r : registry_ok r -> registry_ok (noteEstablished source hello now r).
Proof.
  intros H%(expire_hellos_ok now). unfold noteEstablished. destruct (Z.leb_spec maxRecentHellos (map_len (recentHellos (expire_hellos now r)))); [done|].
  destruct H. constructor; cbn; try done. etransitivity; [apply map_len_insert|]. lia.
Qed.

Lemma wasEstablished_ok source hello now r : registry_ok r -> registry_ok (wasEstablished source hello now r).1.
Proof.
  intros [H1 H2 H3 H4 H5]. unfold wasEstablished.
  destruct (recentHellos r !! _); [|done]. destruct (expired _ _); [|done].
  constructor; cbn; try done. etransitivity; [apply map_len_delete|done].
Qed.

(** Allocation: a non-zero index that was free, or no change. *)
Lemma add_loop_spec rnd s n : forall i r,
  match add_loop rnd s n i r with
  | (r', Ok idx) => idx <> 0 /\ byIndex r !! idx = None /\ r' = r <| byIndex := <[idx := s]> (byIndex r) |>
  | (r', _) => r' = r
  end.
Proof.
  induction n as [|n IH]; intros i r; cbn [add_loop]; [done|].
  destruct (randIndex rnd i) as [idx|err|]; [|done|done].
  destruct (Z.eqb_spec idx 0); [apply IH|]. destruct (byIndex r !! idx) eqn:Hi; [apply IH|done].
Qed.

Lemma add_spec rnd s r :
  match add rnd s r with
  | (r', Ok idx) => idx <> 0 /\ byIndex r !! idx = None /\ r' = r <| byIndex := <[idx := s]> (byIndex r) |>
  | (r', _) => r' = r
  end.
Proof. apply add_loop_spec. Qed.

Lemma add_ok rnd s r : registry_ok r -> registry_ok (add rnd s r).1.
Proof.
  intros Hr. pose proof (add_spec rnd s r) as H.
  destruct (add rnd s r) as [r' [idx|err|]]; [|by subst r'..]. destruct H as (H0 & Hn & ->).
  destruct Hr. constructor; cbn; try done. by rw lookup_insert_ne.
Qed.

Lemma remove_ok index r : registry_ok r -> registry_ok (remove index r).
Proof. intros []. constructor; cbn; try done. apply lookup_delete_None. by right. Qed.

Lemma addHalfOpen_ok source r : registry_ok r -> registry_ok (addHalfOpenLocked source r).1.
Proof.
  intros [H1 H2 H3 H4 H5]. unfold addHalfOpenLocked. destruct (Z.leb_spec (maxHalfOpen r) (halfOpenTotal r)); [done|].
  constructor; cbn; try done.
  - rw map_sum_insert H1. lia.
  - left. lia.
  - apply map_Forall_insert_2; [|done]. destruct (halfOpen r !! source) as [n|] eqn:Hn; cbn; [|lia].
    specialize (H3 _ _ Hn). cbn in H3. lia.
Qed.

Lemma releaseHalfOpen_ok source r : registry_ok r -> registry_ok (releaseHalfOpen source r).
Proof.
  intros [H1 H2 H3 H4 H5]. unfold releaseHalfOpen. destruct (halfOpen r !! source) as [n|] eqn:Hn; [|by constructor].
  cbn. pose proof (H3 _ _ Hn) as Hp. cbn in Hp. replace (n =? 0) with false by lia.
  assert (Hs : map_sum (fun n => n) (delete source (halfOpen r)) = halfOpenTotal r - n) by (rw map_sum_delete Hn H1; done).
  pose proof (map_sum_nonneg _ (map_Forall_delete _ _ source H3)).
  destruct (Z.ltb_spec 1 n); constructor; cbn; try done.
  - rw map_sum_insert Hn H1. cbn. lia.
  - lia.
  - apply map_Forall_insert_2; [lia|done].
  - rw Hs; lia.
  - lia.
  - by apply map_Forall_delete.
Qed.

Lemma removeSource_ok source r : registry_ok r -> registry_ok (removeSource source r).
Proof. by intros []; constructor. Qed.

Lemma reserveSource_ok source fresh r : registry_ok r -> registry_ok (reserveSource source fresh r).1.
Proof.
  intros Hr. unfold reserveSource. destruct (bySource r !! source); [done|].
  pose proof (addHalfOpen_ok source r Hr) as Ha. destruct (addHalfOpenLocked source r) as [r' [|]]; [|done].
  cbn in *. destruct Ha. by constructor.
Qed.

#[export] Hint Resolve noteEstablished_ok wasEstablished_ok add_ok remove_ok addHalfOpen_ok
  releaseHalfOpen_ok removeSource_ok reserveSource_ok : registry.
