(* ===== verification/Endpoint.v ===== *)
(** The datagram endpoint: [DatagramEndpoint], [datagramSession], the receive path
    [routeDatagram] and the cookie gate of [pkg/tunnel/datagram.go], the handshake loops of
    [pkg/tunnel/dgram_handshake_wire.go], the receive side of [pkg/tunnel/dgram_rekey.go] and the
    application handle of [pkg/tunnel/dgram_conn.go].

    Sessions live in a store and are shared by reference between the registry, the handshake
    loops and the application, as the code shares pointers.  A channel is the list of what it
    buffers; a send that does not block drops at its capacity.  The goroutines of the code (the
    receive loop, one loop per handshake, the application) interleave as steps: each step below is
    one turn of one of them.  Packets written to the socket are logged with their destination; a
    write that fails is a packet lost. *)

From Corelib Require Import ssreflect.
From stdpp Require Import base tactics list numbers strings gmap.
From Stdlib Require Import ZArith Lia.
From S2P Require Import Prelude Base Messages Codec DatagramCodec Replay Reassembly Fragment Crypto Chkem.
From S2P Require Import Ticket Session DgramSession Handshake DgramFSM Sha256 Admission Registry.

Local Open Scope Z_scope.
Local Open Scope go_scope.

(** * State *)

Record inboundMsg := mkInbound { in_typ : Z; in_body : list Z; in_sender : Z }.

(** [datagramSession]; [x_retryCh] and [x_rekeyInbox] are nil for a responder. *)
Record dgSession := mkDS {
  x_index : Z;
  x_inbox : list inboundMsg;
  x_sess : option Session;
  x_peerIndex : Z;
  x_recvCh : list (list Z);
  x_closed : bool;
  x_peerAddr : option string;
  x_early : list (list Z * string);
  x_earlyDone : bool;
  x_rekeyInbox : option (list (list Z));
  x_rekeyActive : bool;
  x_rekeyRespFrom : Z;
  x_rekeyRespValid : bool;
  x_rekeyRespFrames : list (list Z);
  x_retryCh : option (list (list Z)) }.

#[export] Instance dgSession_eta : Eta dgSession := {| eta := fun d =>
  mkDS (x_index d) (x_inbox d) (x_sess d) (x_peerIndex d) (x_recvCh d) (x_closed d) (x_peerAddr d)
    (x_early d) (x_earlyDone d) (x_rekeyInbox d) (x_rekeyActive d) (x_rekeyRespFrom d)
    (x_rekeyRespValid d) (x_rekeyRespFrames d) (x_retryCh d) |}.

(** [handshakeLoop]; [l_first] is the hello a responder was started with, and its presence stands
    for the [established] callback. *)
Record handshakeLoop := mkLoop {
  l_src : string;
  l_driver : dgramDriver;
  l_localIndex : Z;
  l_peerIndex : Z;
  l_seq : Z;
  l_cookie : list Z;
  l_retriesHonored : Z;
  l_first : option (list Z);
  l_surfaced : bool }.

#[export] Instance handshakeLoop_eta : Eta handshakeLoop := {| eta := fun l =>
  mkLoop (l_src l) (l_driver l) (l_localIndex l) (l_peerIndex l) (l_seq l) (l_cookie l)
    (l_retriesHonored l) (l_first l) (l_surfaced l) |}.

(** What the options of [NewDatagramEndpoint] configure. *)
Record Config := mkConfig {
  c_rtoInitial : Z;
  c_rtoMax : Z;
  c_maxRetries : Z;
  c_idleTimeout : Z;
  c_padHandshake : bool;
  c_maxHalfOpen : Z;
  c_staticIdentity : option KeyPair;
  c_pinnedServerKey : option PublicKey;
  c_requireStaticAuth : bool;
  c_psk : option (list Z);
  c_pskIdentity : option (list Z);
  c_pskLookup : option (list Z -> option (list Z));
  c_requirePSK : bool }.

#[export] Instance Config_eta : Eta Config := {| eta := fun c =>
  mkConfig (c_rtoInitial c) (c_rtoMax c) (c_maxRetries c) (c_idleTimeout c) (c_padHandshake c)
    (c_maxHalfOpen c) (c_staticIdentity c) (c_pinnedServerKey c) (c_requireStaticAuth c) (c_psk c)
    (c_pskIdentity c) (c_pskLookup c) (c_requirePSK c) |}.

Record Endpoint := mkEndpoint {
  ep_registry : connRegistry;
  ep_reasm : Reassembler;
  ep_acceptCh : list ref;
  ep_cookie : Cookie.cookieSigner;
  ep_highWater : Z;
  ep_config : Config;
  ep_store : gmap ref dgSession;
  ep_next : ref;                       (* the next reference to allocate *)
  ep_loops : gmap ref handshakeLoop;   (* the handshake goroutines, by their session *)
  ep_sent : list (list Z * string) }.

#[export] Instance Endpoint_eta : Eta Endpoint := {| eta := fun e =>
  mkEndpoint (ep_registry e) (ep_reasm e) (ep_acceptCh e) (ep_cookie e) (ep_highWater e)
    (ep_config e) (ep_store e) (ep_next e) (ep_loops e) (ep_sent e) |}.

(** What a step reads from outside: the clocks, the randomness of a new session, of an index and
    of the builders, and the order in which Go ranges over the reassembler's map. *)
Record EEnv := mkEEnv {
  z_now : Z;
  z_coarse : Z;
  z_sessrnd : Draws;
  z_keyrnd : Draws;
  z_idxrnd : Draws;
  z_rekeyrnd : Draws;
  z_env : Env;
  z_range : gmap reasmKey fragmentBuffer -> list (reasmKey * fragmentBuffer) }.

Definition EP (A : Type) : Type := ST Endpoint error A.

(** * Channels and the store *)

Definition earlyDatagramCap : Z := 4.
Definition dataInboxCap : Z := 64.
Definition inboxCap : Z := 8.
Definition rekeyInboxCap : Z := 4.
Definition retryCap : Z := 1.
Definition acceptCap : Z := 16.

(** [select { case ch <- x: default: }] *)
Definition try_push {A} (cap : Z) (x : A) (ch : list A) : list A :=
  if len ch <? cap then ch ++ [x] else ch.

(** The same on a channel that may be nil: a send on nil never proceeds. *)
Definition try_push_opt {A} (cap : Z) (x : A) (ch : option (list A)) : option (list A) :=
  match ch with
  | Some l => Some (try_push cap x l)
  | None => None
  end.

Definition on_registry {A} (f : connRegistry -> connRegistry * A) : EP A :=
  fun e => let '(r, a) := f (ep_registry e) in (e <| ep_registry := r |>, Ok a).

Definition mod_registry (f : connRegistry -> connRegistry) : EP unit :=
  st_mod (fun e => e <| ep_registry := f (ep_registry e) |>).

Definition mod_ds (s : ref) (f : dgSession -> dgSession) : EP unit :=
  st_mod (fun e => e <| ep_store := alter f s (ep_store e) |>).

Definition mod_loop (s : ref) (f : handshakeLoop -> handshakeLoop) : EP unit :=
  st_mod (fun e => e <| ep_loops := alter f s (ep_loops e) |>).

(** [conn.WriteTo(b, dst)] and [writeAll]. *)
Definition writeAll (frames : list (list Z)) (dst : string) : EP unit :=
  st_mod (fun e => e <| ep_sent := ep_sent e ++ map (fun f => (f, dst)) frames |>).

(** A write to [currentPeerAddr()], which is set when a session is created. *)
Definition writePeer (frames : list (list Z)) (s : ref) : EP unit :=
  do! e := st_get in
  match ep_store e !! s with
  | Some ds => match x_peerAddr ds with Some dst => writeAll frames dst | None => st_ret tt end
  | None => st_ret tt
  end.

(** [&datagramSession{...}] *)
Definition new_ds (addr : string) (initiator : bool) : dgSession :=
  mkDS 0 [] None 0 [] false (Some addr) [] false (if initiator then Some [] else None) false 0 false []
    (if initiator then Some [] else None).

Definition alloc (ds : dgSession) : EP ref :=
  do! e := st_get in
  do! _ := st_mod (fun e => e <| ep_store := <[ep_next e := ds]> (ep_store e) |>
                              <| ep_next := S (ep_next e) |>) in
  st_ret (ep_next e).

Definition stashEarly (data : list Z) (src : string) (ds : dgSession) : dgSession * bool :=
  if x_earlyDone ds then (ds, false)
  else if (len (x_early ds) <? earlyDatagramCap) && (len data <=? DatagramMTU)
  then (ds <| x_early := x_early ds ++ [(data, src)] |>, true)
  else (ds, true).

Definition teardown (s : ref) : EP unit :=
  do! e := st_get in
  match ep_store e !! s with
  | Some ds => do! _ := mod_registry (remove (x_index ds)) in
               mod_ds s (fun ds => ds <| x_closed := true |>)
  | None => st_ret tt
  end.

Definition trySend (s : ref) (m : inboundMsg) : EP unit :=
  mod_ds s (fun ds => ds <| x_inbox := try_push inboxCap m (x_inbox ds) |>).

(** * Construction *)

Definition validatePSK (psk identity : option (list Z)) : outcome error unit :=
  match psk, identity with
  | None, None => Ok tt
  | _, _ =>
      let psk := default [] psk in let identity := default [] identity in
      guard! negb (negb (len psk =? PSKSize) || (len identity =? 0) ||
                   (MaxPSKIdentitySize <? len identity)) else ErrInvalidPSK in
      Ok tt
  end.

Definition validateRequirePSK (require : bool) (psk : option (list Z))
    (lookup : option (list Z -> option (list Z))) : outcome error unit :=
  match psk, lookup with
  | None, None => if require then Err ErrPSKMisconfigured else Ok tt
  | _, _ => Ok tt
  end.

(** The defaults, before options. *)
Definition default_config : Config :=
  mkConfig initialRTO maxRTO 0 (DatagramIdleTimeoutSeconds * Second) false 0 None None false None None
    None false.

(** The options. *)
Definition WithHandshakePadding (c : Config) : Config := c <| c_padHandshake := true |>.
Definition WithMaxHalfOpen (n : Z) (c : Config) : Config := c <| c_maxHalfOpen := n |>.
Definition WithStaticIdentity (kp : KeyPair) (c : Config) : Config := c <| c_staticIdentity := Some kp |>.
Definition WithRequireStaticAuth (c : Config) : Config := c <| c_requireStaticAuth := true |>.
Definition WithPSK (identity key : list Z) (c : Config) : Config :=
  c <| c_psk := Some key |> <| c_pskIdentity := Some identity |>.
Definition WithPSKLookup (lookup : list Z -> option (list Z)) (c : Config) : Config :=
  c <| c_pskLookup := Some lookup |>.
Definition WithRequirePSK (c : Config) : Config := c <| c_requirePSK := true |>.
Definition WithPinnedServerKey (pub : PublicKey) (c : Config) : Config := c <| c_pinnedServerKey := Some pub |>.

(** [newEndpoint]; [cores] is [runtime.GOMAXPROCS(0)] and [opts] the options, applied in order. *)
Definition newEndpoint (rnd : Draws) (cores : Z) (opts : list (Config -> Config))
    : outcome error Endpoint :=
  let! cookie := Cookie.newCookieSigner rnd in
  let c := fold_left (fun c opt => opt c) opts default_config in
  guard! negb (c_requireStaticAuth c && bool_decide (c_staticIdentity c = None)) else ErrStaticAuthMisconfigured in
  let! _ := validatePSK (c_psk c) (c_pskIdentity c) in
  let! _ := validateRequirePSK (c_requirePSK c) (c_psk c) (c_pskLookup c) in
  let c := if c_maxHalfOpen c <? 1 then c <| c_maxHalfOpen := clampMaxHalfOpen cores |> else c in
  let reasm := NewReassembler 0 0 0 in
  Ok (mkEndpoint (newConnRegistry (c_maxHalfOpen c))
        (mkReassembler (r_bySource reasm) (c_maxHalfOpen c) (r_maxConcurrentPerSource reasm)
           (r_maxMessageSize reasm) (r_timeout reasm))
        [] cookie (Z.quot (c_maxHalfOpen c) 2) c ∅ 0%nat ∅ []).

(** * The receive path *)

(** The outcome of a received DATA or CLOSE frame on its session: the peek, the open and the
    replay check, in that order.  [None] drops the frame. *)
Definition authenticate {P : Primitives} (z : EEnv) (hdr : DatagramHeader) (body data : list Z)
    : ST Session error (option (list Z)) :=
  do! s := st_get in
  do! w := st_lift (match s_dgramReplay s with Some w => Ok w | None => Panic end) in
  do! admissible := st_lift (Admissible w (dh_Seq hdr)) in
  if negb admissible then st_ret None
  else
    do! aad := st_lift (DatagramAAD data) in
    match DatagramOpen (z_now z) (z_coarse z) (dh_Epoch hdr) (dh_Seq hdr) body aad s with
    | (s, Panic) => fun _ => (s, Panic)
    | (s, Err _) => fun _ => (s, Ok None)
    | (s, Ok pt) => fun _ =>
        match s_dgramReplay s with
        | None => (s, Panic)
        | Some w =>
            match Check_seq w (dh_Seq hdr) with
            | (w, Ok fresh) => (s <| s_dgramReplay := Some w |>, Ok (if (fresh : bool) then Some pt else None))
            | (w, Err err) => (s <| s_dgramReplay := Some w |>, Err err)
            | (w, Panic) => (s <| s_dgramReplay := Some w |>, Panic)
            end
        end
    end.

(** Addresses are compared by what they print as. *)
Definition addrEqual (a b : option string) : bool := bool_decide (a = b).

(** A method on the session behind a reference. *)
Definition on_sess {A} (s : ref) (sess : Session) (m : ST Session error A) : EP A :=
  fun e => let '(sess, o) := m sess in
           (e <| ep_store := alter (fun ds => ds <| x_sess := Some sess |>) s (ep_store e) |>, o).

Section Route.
Context {P : Primitives} {K : KEMPrimitives} (fips : bool).

Definition route_data (z : EEnv) (src : string) (data : list Z) : EP unit :=
  do! '(hdr, body) := st_lift (ParseDatagramHeader data) in
  do! e := st_get in
  match lookup_index (dh_RecvIndex hdr) (ep_registry e) with
  | None => st_ret tt
  | Some s =>
      match ep_store e !! s with
      | None => st_ret tt
      | Some ds =>
          match x_sess ds with
          | None => mod_ds s (fun ds => (stashEarly data src ds).1)
          | Some sess =>
              do! pt := on_sess s sess (authenticate z hdr body data) in
              match pt with
              | None => st_ret tt
              | Some pt =>
                  (* authenticated roaming, the counters, and a delivery that does not block *)
                  mod_ds s (fun ds =>
                    ds <| x_peerAddr := if addrEqual (x_peerAddr ds) (Some src) then x_peerAddr ds else Some src |>
                       <| x_sess := match x_sess ds with
                                    | Some s => Some (s <| s_BytesReceived := i64 (s_BytesReceived s + len pt) |>
                                                        <| s_PacketsRecv := i64 (s_PacketsRecv s + 1) |>)
                                    | None => None
                                    end |>
                       <| x_recvCh := try_push dataInboxCap pt (x_recvCh ds) |>)
              end
          end
      end
  end.

Definition route_close (z : EEnv) (data : list Z) : EP unit :=
  do! '(hdr, body) := st_lift (ParseDatagramHeader data) in
  do! e := st_get in
  match lookup_index (dh_RecvIndex hdr) (ep_registry e) with
  | None => st_ret tt
  | Some s =>
      match ep_store e !! s with
      | None => st_ret tt
      | Some ds =>
          match x_sess ds with
          | None => st_ret tt
          | Some sess =>
              do! pt := on_sess s sess (authenticate z hdr body data) in
              match pt with
              | None => st_ret tt
              | Some _ =>
                  do! _ := mod_ds s (fun ds => ds <| x_sess := option_map (fun s => (Close s).1) (x_sess ds) |>) in
                  teardown s
              end
          end
      end
  end.

Definition route_retry (data : list Z) : EP unit :=
  do! '(recvIndex, cookie) := st_lift (ParseDatagramRetry data) in
  do! e := st_get in
  match lookup_index recvIndex (ep_registry e) with
  | None => st_ret tt
  | Some s => mod_ds s (fun ds => ds <| x_retryCh := try_push_opt retryCap cookie (x_retryCh ds) |>)
  end.

(** [handleRekey]: an init is answered, a response handed to the waiting initiator. *)
Definition handleRekey (z : EEnv) (h : DatagramHandshakeHeader) (body : list Z) : EP unit :=
  do! e := st_get in
  match lookup_index (dh_RecvIndex (hh_Header h)) (ep_registry e) with
  | None => st_ret tt
  | Some s =>
      match ep_store e !! s with
      | None => st_ret tt
      | Some ds =>
          match x_sess ds with
          | None => st_ret tt
          | Some sess =>
              if hh_MsgType h =? MessageTypeDatagramRekeyInit then
                match handleRekeyInit fips (z_rekeyrnd z) (z_now z) (c_padHandshake (ep_config e))
                        (dh_Epoch (hh_Header h)) body
                        (mkDgramSession (x_index ds) (x_peerIndex ds) sess (x_rekeyRespValid ds)
                           (x_rekeyRespFrom ds) (x_rekeyRespFrames ds)) with
                | (d, o) =>
                    do! _ := mod_ds s (fun ds =>
                      ds <| x_sess := Some (ds_sess d) |> <| x_rekeyRespValid := ds_rekeyRespValid d |>
                         <| x_rekeyRespFrom := ds_rekeyRespFrom d |>
                         <| x_rekeyRespFrames := ds_rekeyRespFrames d |>) in
                    do! frames := st_lift o in
                    writePeer frames s
                end
              else if hh_MsgType h =? MessageTypeDatagramRekeyResponse then
                mod_ds s (fun ds => ds <| x_rekeyInbox := try_push_opt rekeyInboxCap body (x_rekeyInbox ds) |>)
              else st_ret tt
          end
      end
  end.

(** [newDriver] *)
Definition newDriver (c : Config) (session : Session) : dgramDriver :=
  let d := newDgramDriverWithRTO session (c_rtoInitial c) (c_rtoMax c) in
  if 0 <? c_maxRetries c then d <| v_maxRetries := c_maxRetries c |> else d.

(** A setup error gives the source and its half-open slot back. *)
Definition unwind (src : string) : EP unit :=
  do! _ := mod_registry (removeSource src) in
  mod_registry (releaseHalfOpen src).

Definition responder_session (c : Config) (s : Session) : Session :=
  s <| s_StaticKeyPair := c_staticIdentity c |> <| s_RequireStaticAuth := c_requireStaticAuth c |>
    <| s_PSK := c_psk c |> <| s_PSKIdentity := default [] (c_pskIdentity c) |>
    <| s_PSKLookup := c_pskLookup c |> <| s_RequirePSK := c_requirePSK c |>.

Definition startResponder (z : EEnv) (src : string) (s : ref) (first : inboundMsg) : EP unit :=
  do! e := st_get in
  match NewSession (z_sessrnd z) (z_keyrnd z) (z_now z) RoleResponder with
  | Panic => st_lift Panic
  | Err _ => unwind src
  | Ok session =>
      do! o := on_registry (add (z_idxrnd z) s) in
      match o with
      | Panic => st_lift Panic
      | Err _ => unwind src
      | Ok idx =>
          do! _ := mod_ds s (fun ds => ds <| x_index := idx |>) in
          do! _ := st_mod (fun e => e <| ep_loops :=
            <[s := mkLoop src (newDriver (ep_config e) (responder_session (ep_config e) session)) idx
                     (in_sender first) 0 [] 0 (Some (in_body first)) false]> (ep_loops e) |>) in
          trySend s first
      end
  end.

(** [deliverHandshake]; the last dispatch is for an owner that finished in between, [fuel] bounds
    how often that can happen. *)
Fixpoint deliverHandshake (fuel : nat) (z : EEnv) (src : string) (h : DatagramHandshakeHeader)
    (msg : list Z) : EP unit :=
  match fuel with
  | O => st_ret tt
  | S fuel =>
      let inb := mkInbound (hh_MsgType h) msg (hh_SenderIndex h) in
      do! e := st_get in
      if negb (dh_RecvIndex (hh_Header h) =? 0) then
        match lookup_index (dh_RecvIndex (hh_Header h)) (ep_registry e) with
        | Some s => trySend s inb
        | None => st_ret tt
        end
      else if negb (hh_MsgType h =? MessageTypeClientHello) then st_ret tt
      else
        do! was := on_registry (wasEstablished src msg (z_now z)) in
        if (was : bool) then st_ret tt
        else
          do! e := st_get in
          do! res := on_registry (reserveSource src (ep_next e)) in
          match res with
          | AtCeiling => st_ret tt
          | Existing s =>
              do! _ := trySend s inb in
              do! e := st_get in
              if sourceOwner src s (ep_registry e) then st_ret tt
              else deliverHandshake fuel z src h msg
          | Reserved =>
              do! s := alloc (new_ds src false) in
              startResponder z src s inb
          end
  end.

Definition underCookiePressure (e : Endpoint) : bool :=
  (ep_highWater e <=? sourceCount (ep_reasm e)) || (ep_highWater e <=? halfOpenLoad (ep_registry e)).

(** [cookieGateRejects]: true drops the frame; a plausible first fragment is answered with a
    RETRY that is no larger. *)
Definition cookieGateRejects (z : EEnv) (src : string) (h : DatagramHandshakeHeader) (data : list Z)
    : EP bool :=
  do! e := st_get in
  if negb (underCookiePressure e) then st_ret false
  else if knownSource (dh_RecvIndex (hh_Header h)) src (ep_registry e) then st_ret false
  else if Cookie.verify (ep_cookie e) (z_now z) src (hh_Cookie h) then st_ret false
  else
    do! retry := st_lift (EncodeDatagramRetry (hh_SenderIndex h) (Cookie.issue (ep_cookie e) (z_now z) src)) in
    do! _ := (if (hh_MsgType h =? MessageTypeClientHello) && (hh_FragOffset h =? 0) && (len retry <=? len data)
              then writeAll [retry] src else st_ret tt) in
    st_ret true.

Definition on_reasm {A} (m : ST Reassembler error A) : EP A :=
  fun e => let '(r, o) := m (ep_reasm e) in (e <| ep_reasm := r |>, o).

Definition route_handshake (z : EEnv) (src : string) (data : list Z) : EP unit :=
  do! '(h, fragment) := st_lift (ParseDatagramHandshake data) in
  do! rejected := cookieGateRejects z src h data in
  if (rejected : bool) then st_ret tt
  else
    do! complete := on_reasm (Add (z_range z) (z_now z) (z_now z) src h fragment) in
    match complete with
    | None => st_ret tt
    | Some msg =>
        if (hh_MsgType h =? MessageTypeDatagramRekeyInit) || (hh_MsgType h =? MessageTypeDatagramRekeyResponse)
        then handleRekey z h msg
        else deliverHandshake 2 z src h msg
    end.

Definition routeDatagram (z : EEnv) (src : string) (data : list Z) : EP unit :=
  do! ft := st_lift (PeekDatagramType data) in
  if ft =? DatagramFrameHandshake then route_handshake z src data
  else if ft =? DatagramFrameData then route_data z src data
  else if ft =? DatagramFrameClose then route_close z data
  else if ft =? DatagramFrameRetry then route_retry data
  else st_ret tt.

(** [flushEarly]: the held datagrams go through the receive path, their errors ignored. *)
Fixpoint route_all (z : EEnv) (ps : list (list Z * string)) : EP unit :=
  match ps with
  | [] => st_ret tt
  | (data, src) :: ps =>
      fun e => match routeDatagram z src data e with
               | (e, Panic) => (e, Panic)
               | (e, _) => route_all z ps e
               end
  end.

Definition flushEarly (z : EEnv) (s : ref) : EP unit :=
  do! e := st_get in
  match ep_store e !! s with
  | None => st_ret tt
  | Some ds =>
      do! _ := mod_ds s (fun ds => ds <| x_early := [] |> <| x_earlyDone := true |>) in
      route_all z (x_early ds)
  end.

(** * The handshake loops *)

Definition maxHonoredRetries : Z := 3.

(** [handshakeLoop.send]: a message that cannot be fragmented ends the send. *)
Fixpoint loop_send (s : ref) (ms : list hsMessage) : EP unit :=
  match ms with
  | [] => st_ret tt
  | m :: ms =>
      do! e := st_get in
      match ep_loops e !! s with
      | None => st_ret tt
      | Some l =>
          let base := mkDatagramHandshakeHeader
            (mkDatagramHeader DatagramFrameHandshake 0 (l_peerIndex l) (l_seq l)) (l_localIndex l) (m_typ m)
            0 0 0 (if m_typ m =? MessageTypeClientHello then l_cookie l else []) in
          match fragmentHandshake base (m_body m) (c_padHandshake (ep_config e)) with
          | Panic => st_lift Panic
          | Err _ => st_ret tt
          | Ok frames =>
              do! _ := writeAll frames (l_src l) in
              do! _ := mod_loop s (fun l => l <| l_seq := u64_add (l_seq l) (len frames) |>) in
              loop_send s ms
          end
      end
  end.

(** [maybeSurface] *)
Definition maybeSurface (z : EEnv) (s : ref) : EP unit :=
  do! e := st_get in
  match ep_loops e !! s with
  | None => st_ret tt
  | Some l =>
      if l_surfaced l || negb (established (l_driver l)) then st_ret tt
      else
        do! _ := mod_loop s (fun l => l <| l_surfaced := true |>) in
        do! _ := mod_ds s (fun ds => ds <| x_sess := Some (h_session (d_hs (v_fsm (l_driver l)))) |>
                                        <| x_peerIndex := l_peerIndex l |>) in
        do! _ := unwind (l_src l) in
        do! _ := flushEarly z s in
        match l_first l with
        | None => st_ret tt
        | Some hello =>
            do! _ := mod_registry (noteEstablished (l_src l) hello (z_now z)) in
            st_mod (fun e => e <| ep_acceptCh := try_push acceptCap s (ep_acceptCh e) |>)
        end
  end.

(** The driver's turn: what it sends goes out, and an establishment is published. *)
Definition drive_loop (z : EEnv) (s : ref) (m : dgramDriver -> dgramDriver * outcome error (list hsMessage))
    : EP unit :=
  do! e := st_get in
  match ep_loops e !! s with
  | None => st_ret tt
  | Some l =>
      let '(d, o) := m (l_driver l) in
      do! _ := mod_loop s (fun l => l <| l_driver := d |>) in
      do! out := st_lift o in
      do! _ := loop_send s out in
      maybeSurface z s
  end.

(** The cases of the loop's [select]. *)
Definition loop_inbound (z : EEnv) (s : ref) : EP unit :=
  do! e := st_get in
  match ep_store e !! s with
  | Some ds =>
      match x_inbox ds with
      | m :: rest =>
          do! _ := mod_ds s (fun ds => ds <| x_inbox := rest |>) in
          do! _ := (if negb (in_sender m =? 0) then mod_loop s (fun l => l <| l_peerIndex := in_sender m |>)
                    else st_ret tt) in
          drive_loop z s (onInbound fips (z_env z) (in_typ m) (in_body m))
      | [] => st_ret tt
      end
  | None => st_ret tt
  end.

Definition loop_timer (z : EEnv) (s : ref) : EP unit :=
  drive_loop z s (fun d => let '(d, out) := onTimeout (z_now z) d in (d, Ok out)).

(** [onRetry] *)
Definition onRetry (s : ref) (cookie : list Z) : EP unit :=
  do! e := st_get in
  match ep_loops e !! s with
  | None => st_ret tt
  | Some l =>
      if maxHonoredRetries <=? l_retriesHonored l then st_ret tt
      else match cachedFlight (l_driver l) with
           | m :: _ as flight =>
               if negb (m_typ m =? MessageTypeClientHello) then st_ret tt
               else
                 do! _ := mod_loop s (fun l => l <| l_retriesHonored := l_retriesHonored l + 1 |>
                                                 <| l_cookie := cookie |>) in
                 loop_send s flight
           | [] => st_ret tt
           end
  end.

Definition loop_retry (z : EEnv) (s : ref) : EP unit :=
  do! e := st_get in
  match ep_store e !! s with
  | Some ds =>
      match x_retryCh ds with
      | Some (cookie :: rest) =>
          do! _ := mod_ds s (fun ds => ds <| x_retryCh := Some rest |>) in
          do! _ := onRetry s cookie in
          maybeSurface z s
      | _ => st_ret tt
      end
  | None => st_ret tt
  end.

(** [redeliverHellos]: the hellos a finished responder did not read. *)
Fixpoint redeliverHellos (z : EEnv) (src : string) (ms : list inboundMsg) : EP unit :=
  match ms with
  | [] => st_ret tt
  | m :: ms =>
      do! _ := (if in_typ m =? MessageTypeClientHello then
                  deliverHandshake 2 z src
                    (mkDatagramHandshakeHeader (mkDatagramHeader 0 0 0 0) (in_sender m) (in_typ m) 0 0 0 [])
                    (in_body m)
                else st_ret tt) in
      redeliverHellos z src ms
  end.

(** The end of [loop] once the driver is done: a failure gives everything back.  A responder then
    hands on the hellos left in its inbox. *)
Definition loop_end (z : EEnv) (s : ref) : EP unit :=
  do! e := st_get in
  match ep_loops e !! s with
  | None => st_ret tt
  | Some l =>
      if negb (DgramFSM.done (l_driver l)) then st_ret tt
      else
        do! _ := (if failed (l_driver l) then
                    do! _ := unwind (l_src l) in
                    mod_registry (remove (l_localIndex l))
                  else st_ret tt) in
        do! _ := st_mod (fun e => e <| ep_loops := delete s (ep_loops e) |>) in
        match l_first l, ep_store e !! s with
        | Some _, Some ds =>
            do! _ := mod_ds s (fun ds => ds <| x_inbox := [] |>) in
            redeliverHellos z (l_src l) (x_inbox ds)
        | _, _ => st_ret tt
        end
  end.

(** One turn of a loop that is not done. *)
Definition loop_turn (s : ref) (turn : EP unit) : EP unit :=
  do! e := st_get in
  match ep_loops e !! s with
  | Some l => if DgramFSM.done (l_driver l) then st_ret tt else turn
  | None => st_ret tt
  end.

(** [DialDatagram] up to the first turn of its loop; the session that will carry the handshake. *)
Definition DialDatagram (z : EEnv) (dst : string) : EP ref :=
  do! e := st_get in
  let c := ep_config e in
  do! session := st_lift (NewSession (z_sessrnd z) (z_keyrnd z) (z_now z) RoleInitiator) in
  let session := session <| s_PinnedServerKey := c_pinnedServerKey c |> <| s_PSK := c_psk c |>
                         <| s_PSKIdentity := default [] (c_pskIdentity c) |> in
  do! s := alloc (new_ds dst true) in
  do! o := on_registry (add (z_idxrnd z) s) in
  do! idx := st_lift o in
  do! _ := mod_ds s (fun ds => ds <| x_index := idx |>) in
  match driver_start fips (z_env z) (newDriver c session) with
  | (d, Ok msgs) =>
      do! _ := st_mod (fun e => e <| ep_loops := <[s := mkLoop dst d idx 0 0 [] 0 None false]> (ep_loops e) |>) in
      do! _ := loop_send s msgs in
      st_ret s
  | (_, Err err) =>
      do! _ := mod_registry (remove idx) in
      st_err (match c_pinnedServerKey c with Some _ => ErrServerKeyMismatch | None => err end)
  | (_, Panic) => st_lift Panic
  end.

(** * Idle sessions *)

(** [idleSince]: the established sessions without activity since the cutoff. *)
Definition is_idle (cutoff : Z) (e : Endpoint) (s : ref) : bool :=
  match ep_store e !! s with
  | Some ds => match x_sess ds with
               | Some sess => s_lastActivityNanos sess <? cutoff
               | None => false
               end
  | None => false
  end.

Definition idleSince (cutoff : Z) (e : Endpoint) : list ref :=
  List.filter (is_idle cutoff e) (map snd (map_to_list (byIndex (ep_registry e)))).

(** One tick of [reapIdle]. *)
Fixpoint reap (ss : list ref) : EP unit :=
  match ss with
  | [] => st_ret tt
  | s :: ss =>
      do! _ := mod_ds s (fun ds => ds <| x_sess := option_map (fun s => (Close s).1) (x_sess ds) |>) in
      do! _ := teardown s in
      reap ss
  end.

Definition reapIdle (z : EEnv) : EP unit :=
  do! e := st_get in
  reap (idleSince (z_now z - c_idleTimeout (ep_config e)) e).

End Route.
