(* ===== verification/Transport.v ===== *)
(** The stream transport: [pkg/tunnel/transport.go].

    A [Transport] is an established session and the connection it runs over.  The connection is
    that of the handshake drivers: the bytes still to be read, what was written, and which writes
    will fail.  Deadlines only make reads and writes fail and are left out, and so are observer
    callbacks.  Each call is one step of the transport; the write lock makes sealing and writing
    one data record a single step in the code as well.  What a call reads from outside, the clock
    and random draws, comes in a [TEnv]. *)

From Corelib Require Import ssreflect.
From stdpp Require Import base tactics list numbers strings pretty.
From Stdlib Require Import ZArith Lia Ascii.
From S2P Require Import Prelude Base Messages Codec Crypto Chkem Ticket Session Handshake Admission Endpoint.

Local Open Scope Z_scope.
Local Open Scope go_scope.

Record TEnv := mkTEnv {
  te_now : Z;
  te_rnd : Draws }.

Record Transport := mkTransport {
  t_session : Session;
  t_conn : Conn;
  t_readBuf : list Z;
  t_closed : bool;
  t_connClosed : bool }.

#[export] Instance Transport_eta : Eta Transport := {| eta := fun t =>
  mkTransport (t_session t) (t_conn t) (t_readBuf t) (t_closed t) (t_connClosed t) |}.

Definition Tr (A : Type) : Type := ST Transport error A.

Definition on_session {A} (m : ST Session error A) : Tr A :=
  fun t => let '(s, o) := m (t_session t) in (t <| t_session := s |>, o).

(** [conn.Write] *)
Definition writeLocked (msg : list Z) : Tr unit :=
  fun t =>
    let c := t_conn t in
    if default false (head (cn_wfail c))
    then (t <| t_conn := c <| cn_wfail := tail (cn_wfail c) |> |>, Err (ErrExternal "write"))
    else (t <| t_conn := c <| cn_out := cn_out c ++ [msg] |> <| cn_wfail := tail (cn_wfail c) |> |>, Ok tt).

Definition writeFrame : list Z -> Tr unit := writeLocked.

(** A reader of the connection. *)
Definition conn_read {A} (m : ST (list Z) error A) : Tr A :=
  fun t => let '(i, o) := m (cn_in (t_conn t)) in (t <| t_conn := (t_conn t) <| cn_in := i |> |>, o).

(** [_ = m()]: the error is dropped. *)
Definition ignoring (m : Tr unit) : Tr unit :=
  fun t => match m t with
           | (t, Panic) => (t, Panic)
           | (t, _) => (t, Ok tt)
           end.

Definition NewTransport (session : Session) (c : Conn) : outcome error Transport :=
  guard! is_state session SessionStateEstablished else ErrInvalidState in
  Ok (mkTransport session c [] false false).

(** * Alerts and keepalives *)

Definition string_of_bytes (b : list Z) : string :=
  fold_right (fun z s => String (ascii_of_N (Z.to_N z)) s) EmptyString b.

(** [alertError.Error] *)
Definition alertError (a : AlertMessage) : string :=
  let prefix := if al_Level a =? AlertLevelFatal then "alert (fatal): "%string else "alert (warning): "%string in
  if negb (len (al_Description a) =? 0) then (prefix +:+ string_of_bytes (al_Description a))%string
  else (prefix +:+ "code " +:+ pretty (al_Code a))%string.

Definition encodePing : list Z := [MessageTypePing] ++ be_put 4 0.
Definition encodePong : list Z := [MessageTypePong] ++ be_put 4 0.

Definition markClosed : Tr unit := st_mod (fun t => t <| t_closed := true |>).

Definition checkClosed : Tr unit :=
  do! t := st_get in
  check! negb (t_closed t) else ErrTunnelClosed in
  st_ret tt.

Definition SendPing : Tr unit :=
  do! _ := checkClosed in
  writeFrame encodePing.

Definition sendPong : Tr unit := writeFrame encodePong.

Definition sendAlert (level code : Z) (desc : list Z) : Tr unit :=
  do! msg := st_lift (EncodeAlert level code desc) in
  writeFrame msg.

(** [handleAlert]: the decoder's error is dropped, with zero values for what it did not return. *)
Definition handleAlert (msg : list Z) : Tr (option (list Z)) :=
  do! a := st_lift (match DecodeAlert msg with
                    | Ok a => Ok a
                    | Err _ => Ok (mkAlertMessage 0 0 [])
                    | Panic => Panic
                    end) in
  if al_Code a =? AlertCodeCloseNotify then
    do! _ := markClosed in
    st_err ErrTunnelClosed
  else st_err (NewProtocolError "alert" (ErrExternal (alertError a))).

Section Transport.
Context {P : Primitives} {K : KEMPrimitives} (fips : bool).

(** * Sending *)

Definition sealAndWrite (now : Z) (data : list Z) : Tr unit :=
  do! '(ciphertext, seq) := on_session (Encrypt now data) in
  do! msg := st_lift (EncodeData seq ciphertext) in
  writeLocked msg.

Definition IsRekeyInProgress (s : Session) : bool := s_rekeyInProgress s.

(** An encrypted rekey record: of a request, and of a response with the ciphertext in place of the
    key. *)
Definition sendRekeyResponse (now : Z) (responseCT : list Z) (activationSeq : Z) : Tr unit :=
  do! innerPayload := st_lift (EncodeRekeyPayload responseCT activationSeq) in
  do! '(ciphertext, seq) := on_session (Encrypt now innerPayload) in
  do! msg := st_lift (EncodeRekey seq ciphertext) in
  writeFrame msg.

Definition SendRekey (z : TEnv) : Tr unit :=
  do! _ := checkClosed in
  do! '(newPublicKey, activationSeq) := on_session (InitiateRekey (te_rnd z)) in
  do! innerPayload := st_lift (EncodeRekeyPayload newPublicKey activationSeq) in
  do! '(ciphertext, seq) := on_session (Encrypt (te_now z) innerPayload) in
  do! msg := st_lift (EncodeRekey seq ciphertext) in
  writeFrame msg.

Definition CheckAndRekey (z : TEnv) : Tr unit :=
  do! t := st_get in
  let s := t_session t in
  if negb (bool_decide (s_Role s = RoleInitiator)) then st_ret tt
  else if IsRekeyInProgress s then st_ret tt
  else if NeedsRekey (te_now z) s then SendRekey z
  else st_ret tt.

Definition Send (z : TEnv) (data : list Z) : Tr unit :=
  do! _ := checkClosed in
  check! negb (MaxPayloadSize <? len data) else ErrMessageTooLarge in
  do! _ := sealAndWrite (te_now z) data in
  ignoring (CheckAndRekey z).

(** * Receiving *)

(** [readMessage]: a clean end of the stream is a closed tunnel.  The buffer is kept for the next
    record. *)
Definition readMessage : Tr (list Z * MessageType) :=
  do! '(buf, n) := (fun t => match conn_read (ReadMessageInto (t_readBuf t)) t with
                             | (t, Err ErrEOF) => (t, Err ErrTunnelClosed)
                             | r => r
                             end) in
  do! _ := st_mod (fun t => t <| t_readBuf := buf |>) in
  do! msg := st_lift (slice buf 0 n) in
  do! msgType := st_lift (GetMessageType msg) in
  st_ret (msg, msgType).

Definition handleData (now : Z) (msg : list Z) : Tr (list Z) :=
  do! '(seq, ciphertext) := st_lift (DecodeData msg) in
  on_session (Decrypt now ciphertext seq).

Definition handleRekey (z : TEnv) (msg : list Z) : Tr unit :=
  do! '(seq, ciphertext) := st_lift (DecodeRekey msg) in
  do! plaintext := on_session (Decrypt (te_now z) ciphertext seq) in
  do! '(newPublicKey, activationSeq) := st_lift (DecodeRekeyPayload plaintext) in
  do! t := st_get in
  let s := t_session t in
  if bool_decide (s_Role s = RoleResponder) && negb (IsRekeyInProgress s) then
    do! responseCT := on_session (PrepareRekeyResponse fips (te_rnd z) newPublicKey activationSeq) in
    do! _ := sendRekeyResponse (te_now z) responseCT activationSeq in
    on_session (ActivateRekeySend (te_now z))
  else if bool_decide (s_Role s = RoleInitiator) && IsRekeyInProgress s then
    on_session (ProcessRekeyResponse fips (te_now z) newPublicKey)
  else st_ret tt.

(** One turn of the loop of [Receive]: data to return, or [None] to go on. *)
Definition receive_turn (z : TEnv) : Tr (option (list Z)) :=
  do! _ := checkClosed in
  do! '(msg, msgType) := readMessage in
  if msgType =? MessageTypeData then
    do! data := handleData (te_now z) msg in
    st_ret (Some data)
  else if msgType =? MessageTypePing then
    do! _ := sendPong in
    st_ret None
  else if msgType =? MessageTypePong then st_ret None
  else if msgType =? MessageTypeClose then
    do! _ := markClosed in
    st_err ErrTunnelClosed
  else if msgType =? MessageTypeRekey then
    do! _ := handleRekey z msg in
    st_ret None
  else if msgType =? MessageTypeAlert then handleAlert msg
  else st_err ErrInvalidMessage.

(** [Receive]; each turn takes at least a message header off the stream, so as many turns as there
    are bytes are enough. *)
Fixpoint Receive (fuel : nat) (zs : nat -> TEnv) : Tr (list Z) :=
  match fuel with
  | O => st_lift Panic
  | S fuel =>
      do! r := receive_turn (zs O) in
      match r with
      | Some data => st_ret data
      | None => Receive fuel (fun i => zs (S i))
      end
  end.

(** * Closing *)

Definition Close : Tr unit :=
  do! t := st_get in
  if t_closed t then st_ret tt
  else
    do! _ := markClosed in
    do! _ := (if is_state (t_session t) SessionStateEstablished
              then do! msg := st_lift (EncodeAlert AlertLevelWarning AlertCodeCloseNotify
                                         (bytes_of_string "connection closed")) in
                   ignoring (writeFrame msg)
              else st_ret tt) in
    do! _ := on_session Session.Close in
    st_mod (fun t => t <| t_connClosed := true |>).
End Transport.

(** * Receiving ends *)

(** What is left to read never grows. *)
Definition reads_on (t t' : Transport) : Prop :=
  (length (cn_in (t_conn t')) <= length (cn_in (t_conn t)))%nat.

#[export] Instance reads_on_preorder : PreOrder reads_on.
Proof. split; unfold reads_on; intros ?; lia. Qed.

Create HintDb reads.
Ltac reads_mod := unfold reads_on; cbn; lia.
Ltac reads := keeps_auto; first [solve [eauto with reads] | reads_mod].

Section Ends.
Context {P : Primitives} {K : KEMPrimitives} (fips : bool).

Lemma on_session_reads {A} (m : ST Session error A) : keeps reads_on (on_session m).
Proof. intros t. unfold on_session. destruct (m (t_session t)). reads_mod. Qed.
Lemma writeLocked_reads msg : keeps reads_on (writeLocked msg).
Proof. intros t. unfold writeLocked. destruct (default false _); reads_mod. Qed.
#[local] Hint Resolve on_session_reads writeLocked_reads : reads.

Lemma handleData_reads now msg : keeps reads_on (handleData now msg).
Proof. unfold handleData. reads. Qed.
Lemma sendPong_reads : keeps reads_on sendPong.
Proof. unfold sendPong, writeFrame. reads. Qed.
Lemma sendRekeyResponse_reads now ct act : keeps reads_on (sendRekeyResponse now ct act).
Proof. unfold sendRekeyResponse, writeFrame. reads. Qed.
#[local] Hint Resolve sendRekeyResponse_reads : reads.
Lemma handleRekey_reads z msg : keeps reads_on (handleRekey fips z msg).
Proof. unfold handleRekey. reads. Qed.
Lemma handleAlert_reads msg : keeps reads_on (handleAlert msg).
Proof. unfold handleAlert, markClosed. reads. Qed.
#[local] Hint Resolve handleData_reads sendPong_reads handleRekey_reads handleAlert_reads : reads.

(** Reading a message takes a header. *)
Lemma ReadFull_keeps n : keeps (fun i i' : list Z => length i' <= length i)%nat (ReadFull n).
Proof. intros i. unfold ReadFull. destruct (n <=? len i); cbn; [rw length_drop|]; lia. Qed.

Lemma ReadMessageInto_takes buf i i' r : ReadMessageInto buf i = (i', Ok r) -> (length i' < length i)%nat.
Proof.
  unfold ReadMessageInto. intros H. apply st_bind_inv in H as (i1 & h & HF & H).
  assert (length i1 < length i)%nat as H1.
  { unfold ReadFull in HF. destruct (HeaderSize <=? len i) eqn:Hl; [|done]. injection HF as <- _.
    rw length_drop. unfold HeaderSize, len in *. lia. }
  enough (length i' <= length i1)%nat by lia.
  replace i' with (((fun m => m i1) ltac:(match type of H with ?m _ = _ => exact m end)).1) by (cbv beta; by rw H).
  cbv beta.
  assert (PreOrder (fun i i' : list Z => (length i' <= length i)%nat)) as HP by (split; intros ?; lia).
  lazymatch goal with |- (length (?m i1).1 <= _)%nat => assert (keeps (fun i i' : list Z => (length i' <= length i)%nat) m) as HK; [|apply HK] end.
  keeps_auto; apply ReadFull_keeps.
Qed.

Lemma readMessage_takes t t' r : readMessage t = (t', Ok r) ->
  (length (cn_in (t_conn t')) < length (cn_in (t_conn t)))%nat.
Proof.
  unfold readMessage. intros H. apply st_bind_inv in H as (t1 & [buf n] & H1 & H). cbv beta iota in H.
  assert (length (cn_in (t_conn t1)) < length (cn_in (t_conn t)))%nat as Hlt.
  { unfold conn_read in H1. destruct (ReadMessageInto (t_readBuf t) (cn_in (t_conn t))) as [i o] eqn:HR.
    destruct o as [a|[]|]; try discriminate H1. injection H1 as <- ->. by eapply ReadMessageInto_takes. }
  stinv H. injection H as <- _. exact Hlt.
Qed.

Lemma receive_turn_takes z t t' : receive_turn fips z t = (t', Ok None) ->
  (length (cn_in (t_conn t')) < length (cn_in (t_conn t)))%nat.
Proof.
  unfold receive_turn. intros H. apply st_bind_inv in H as (t1 & [] & H1 & H).
  assert (t1 = t) as -> by (unfold checkClosed in H1; stinv H1; by injection H1).
  apply st_bind_inv in H as (t2 & [msg mt] & H2 & H). apply readMessage_takes in H2.
  enough (reads_on t2 t') by (unfold reads_on in *; lia). cbv beta iota in H.
  lazymatch type of H with ?m _ = _ => assert (keeps reads_on m) as HK end.
  { unfold markClosed. reads. }
  specialize (HK t2). by rw H in HK.
Qed.

(** The transport after [k] turns. *)
Fixpoint after_turns (k : nat) (zs : nat -> TEnv) (t : Transport) : Transport :=
  match k with
  | O => t
  | S k => after_turns k (fun i => zs (S i)) (receive_turn fips (zs O) t).1
  end.

Lemma Receive_turns n : forall zs t, (length (cn_in (t_conn t)) < n)%nat ->
  exists k, (k <= length (cn_in (t_conn t)))%nat /\
    (forall j, (j < k)%nat -> (receive_turn fips (zs j) (after_turns j zs t)).2 = Ok None) /\
    match receive_turn fips (zs k) (after_turns k zs t) with
    | (t', Ok (Some data)) => Receive fips n zs t = (t', Ok data)
    | (t', Err e) => Receive fips n zs t = (t', Err e)
    | (t', Panic) => Receive fips n zs t = (t', Panic)
    | (_, Ok None) => False
    end.
Proof.
  induction n as [|n IH]; intros zs t Hn; [lia|]. cbn [Receive]. unfold st_bind.
  destruct (receive_turn fips (zs O) t) as [t' [[data|]|e|]] eqn:Ht;
    try (exists O; split; [lia|]; split; [lia|]; cbn [after_turns]; by rw Ht).
  pose proof (receive_turn_takes _ _ _ Ht). destruct (IH (fun i => zs (S i)) t') as (k & Hk & Hj & Hend); [lia|].
  exists (S k). cbn [after_turns]. rw Ht. split; [lia|]. split; [|exact Hend].
  intros [|j] Hlt; cbn [after_turns]; rw Ht; [done|]. apply Hj. lia.
Qed.

(** A closed transport. *)
Lemma closed_calls t z data zs n : t_closed t = true ->
  Send z data t = (t, Err ErrTunnelClosed) /\ SendPing t = (t, Err ErrTunnelClosed) /\
  SendRekey z t = (t, Err ErrTunnelClosed) /\ Receive fips (S n) zs t = (t, Err ErrTunnelClosed) /\
  Close t = (t, Ok tt).
Proof.
  intros Hc. assert (checkClosed t = (t, Err ErrTunnelClosed)) as HC.
  { unfold checkClosed. by rw st_bind_get Hc. }
  split; [unfold Send, st_bind; by rw HC|]. split; [unfold SendPing, st_bind; by rw HC|].
  split; [unfold SendRekey, st_bind; by rw HC|].
  split; [cbn [Receive]; unfold receive_turn, st_bind; by rw HC|]. unfold Close. by rw st_bind_get Hc.
Qed.

End Ends.
