(* ===== verification/Link.v ===== *)
(** Two stream sessions and the records in flight between them: which key seals and which opens
    each record while sends, receives and rekeys interleave.  [link] is the invariant, with one
    lemma per operation of a session. *)

From Corelib Require Import ssreflect.
From stdpp Require Import base tactics list numbers strings sorting.
From Stdlib Require Import ZArith Lia.
From S2P Require Import Prelude Base Messages Codec Replay Crypto Chkem Session.

Local Open Scope Z_scope.
Local Open Scope go_scope.

Definition set_at {A} (x : Role) (v : A) (f : Role -> A) : Role -> A :=
  fun y => match x, y with
           | RoleInitiator, RoleInitiator | RoleResponder, RoleResponder => v
           | _, _ => f y
           end.

(** * Records in flight *)

Inductive item :=
| Rec (mt : MessageType) (key : list Z) (seq : Z) (p : list Z)
| Ctl (mt : MessageType).

Definition seqs (q : list item) : list Z :=
  omap (fun it => match it with Rec _ _ seq _ => Some seq | Ctl _ => None end) q.

Definition data_of (it : item) : option (list Z) :=
  match it with
  | Rec mt _ _ p => if mt =? MessageTypeData then Some p else None
  | Ctl _ => None
  end.

Definition is_rekey (it : item) : bool :=
  match it with
  | Rec mt _ _ _ => mt =? MessageTypeRekey
  | Ctl _ => false
  end.

Definition no_rekey (q : list item) : Prop := Forall (fun it => is_rekey it = false) q.

Definition under (k : list Z) (it : item) : Prop :=
  match it with Rec _ k' _ _ => k' = k | Ctl _ => True end.

Definition item_ok (it : item) : Prop :=
  match it with
  | Rec mt _ seq p => (mt = MessageTypeData \/ mt = MessageTypeRekey) /\ 0 <= seq /\
                      len p + 16 <= MaxPayloadSize
  | Ctl mt => mt = MessageTypePing \/ mt = MessageTypePong
  end.

Section Link.
Context {P : Primitives} {PL : PrimitivesLaws P} {K : KEMPrimitives} {KL : KEMLaws K}.
Context (fips : bool) (cs : CipherSuite).

Definition wire (pre : list Z) (it : item) : list Z :=
  match it with
  | Rec mt key seq p => wire_payload mt (be_put 8 seq ++ record_of cs key pre seq p)
  | Ctl mt => wire_payload mt []
  end.

(** ** Order: the sequence numbers accepted, in flight and next to be used ascend. *)
Record flow (s r : Session) (q : list item) : Prop := {
  fl_prefix : s_recvNoncePrefix r = s_sendNoncePrefix s;
  fl_window : exists acc, window_of (s_replayWindow r) acc /\
                StronglySorted Z.lt (reverse acc ++ seqs q ++ [s_sendSeq s]);
  fl_epoch : 0 <= s_sendEpochStartSeq s <= s_sendSeq s;
  fl_items : Forall item_ok q }.

(** ** Keys: the receiver's current key opens a first part of what is in flight, its pending key
    the rest, and [k] is the key of what follows. *)
Definition ladder (r : Session) (q : list item) (k : list Z) : Prop :=
  exists kr, keyed cs kr (s_recvCipher r) /\
    ((Forall (under kr) q /\ k = kr) \/
     (keyed cs k (s_pendingRecvCipher r) /\
      exists q0 q1, q = q0 ++ q1 /\ Forall (under kr) q0 /\ Forall (under k) q1)).

(** The record in front was sealed under the pending key, and the current key opens it too. *)
Definition confused (r : Session) (key : list Z) (seq : Z) (p : list Z) : Prop :=
  exists c p', s_recvCipher r = Some c /\ keyed cs key (s_pendingRecvCipher r) /\ ae_key c <> key /\
    aead_open (ae_suite c) (ae_key c) (stream_nonce (s_recvNoncePrefix r) seq)
      (record_of cs key (s_recvNoncePrefix r) seq p) (be_put 8 seq) = Some p'.

Lemma seqs_app q q' : seqs (q ++ q') = seqs q ++ seqs q'.
Proof. apply omap_app. Qed.

Lemma sorted_above l n : StronglySorted Z.lt (l ++ [n]) <->
  StronglySorted Z.lt l /\ forall a, a ∈ l -> a < n.
Proof.
  rw StronglySorted_app. split.
  - intros (H1 & H2 & _). split; [done|]. intros a Ha. apply H1; [done|]. by apply list_elem_of_singleton.
  - intros (H1 & H2). split; [|by split; [|repeat constructor]].
    intros a b Ha ->%list_elem_of_singleton. by apply H2.
Qed.

Lemma sorted_push l n : StronglySorted Z.lt (l ++ [n]) -> StronglySorted Z.lt ((l ++ [n]) ++ [n + 1]).
Proof.
  intros H. apply sorted_above. split; [done|]. apply sorted_above in H as [_ H].
  intros a [Ha%H| ->%list_elem_of_singleton]%elem_of_app; lia.
Qed.

Lemma sorted_skip l n : StronglySorted Z.lt (l ++ [n]) -> StronglySorted Z.lt (l ++ [n + 1]).
Proof. rw !sorted_above. intros [H1 H2]. split; [done|]. intros a Ha%H2. lia. Qed.

(** ** Encrypt and Decrypt on these *)

(** All that [Encrypt] changes. *)
Definition sent_from (s s' : Session) : Prop :=
  exists b n l, s' = s <| s_sendSeq := s_sendSeq s + 1 |> <| s_BytesSent := b |>
                       <| s_PacketsSent := n |> <| s_LastActivity := l |>.

Lemma Encrypt_cases now p s k : keyed cs k (s_sendCipher s) ->
  0 <= s_sendEpochStartSeq s <= s_sendSeq s -> s_sendSeq s < 2 ^ 64 - 1 ->
  exists s', sent_from s s' /\
    (Encrypt now p s = (s', Ok (record_of cs k (s_sendNoncePrefix s) (s_sendSeq s) p, s_sendSeq s)) \/
     Encrypt now p s = (s', Err ErrNonceExhausted)).
Proof.
  intros (c & Hc & <- & <-) H0 Hlt. unfold Encrypt.
  rw (st_bind_ok nextSendSeq _ s (s <| s_sendSeq := s_sendSeq s + 1 |>) (s_sendSeq s)).
  { unfold nextSendSeq. rw st_bind_get st_bind_mod. unfold u64_add. rw u64_small; [lia|done]. }
  rw st_bind_get.
  destruct (decide (s_sendSeq s < s_sendEpochStartSeq s + MaxPacketsBeforeRekey)) as [Hw|Hw].
  - eexists. split; [|left; erewrite st_bind_lift; [|by apply seal_view_eq; [exact Hc|cbn; lia..]];
      reflexivity]. by eexists _, _, _.
  - exists (s <| s_sendSeq := s_sendSeq s + 1 |>). split; [by exists (s_BytesSent s), (s_PacketsSent s), (s_LastActivity s); destruct s|].
    right. unfold seal_view, send_view. cbn [v_cipher v_startSeq]. cbn -[u64_sub MaxPacketsBeforeRekey Z.leb]. rw Hc.
    unfold u64_sub. rw u64_small; [lia|]. by replace (negb _) with false by blia.
Qed.

(** All that [Decrypt] changes. *)
Definition received_from (r r' : Session) : Prop :=
  exists w c pc b n l, r' = r <| s_replayWindow := w |> <| s_recvCipher := c |> <| s_pendingRecvCipher := pc |>
    <| s_BytesReceived := b |> <| s_PacketsRecv := n |> <| s_LastActivity := l |>.

Lemma open_trial_cases k r seq p c kr : s_recvCipher r = Some c -> ae_suite c = cs -> ae_key c = kr ->
  kr = k \/ keyed cs k (s_pendingRecvCipher r) ->
  let run := open_trial c (s_pendingRecvCipher r) (stream_nonce (s_recvNoncePrefix r) seq)
               (record_of cs k (s_recvNoncePrefix r) seq p) (be_put 8 seq) in
  confused r k seq p \/ (kr = k /\ forall r1, run r1 = (r1, Ok p)) \/
  (keyed cs k (s_pendingRecvCipher r) /\ kr <> k /\
   forall r1, s_pendingRecvCipher r1 = s_pendingRecvCipher r ->
     run r1 = (r1 <| s_recvCipher := s_pendingRecvCipher r |> <| s_pendingRecvCipher := None |>, Ok p)).
Proof.
  intros Hc Hs Hk Hor run. pose proof (len_stream_nonce (s_recvNoncePrefix r) seq) as Hl.
  destruct (decide (kr = k)) as [->|Hne].
  - right. left. split; [done|]. intros r1. subst run. unfold open_trial, record_of.
    rw -Hs -Hk OpenWithNonce_Seal //.
  - destruct Hor as [?|Hp]; [done|]. pose proof Hp as (pc & Hpc & Ps & Pk). subst run.
    destruct (aead_open (ae_suite c) (ae_key c) (stream_nonce (s_recvNoncePrefix r) seq)
      (record_of cs k (s_recvNoncePrefix r) seq p) (be_put 8 seq)) as [p'|] eqn:Ho.
    { left. exists c, p'. do 2 (split; [done|]). split; [by rw Hk|done]. }
    right. right. do 2 (split; [done|]). intros r1 Hr1. unfold open_trial. unfold OpenWithNonce at 1.
    pose proof (aead_seal_len cs k (stream_nonce (s_recvNoncePrefix r) seq) p (be_put 8 seq)).
    fold (record_of cs k (s_recvNoncePrefix r) seq p) in H.
    gd. gd. rw Ho Hpc. unfold record_of. rw -Ps -Pk OpenWithNonce_Seal //.
    unfold promotePendingRecvCipher. rw /st_bind /st_get Hr1 Hpc //.
Qed.

Lemma accepts_above size acc seq : 0 < size -> (forall a, a ∈ acc -> a < seq) -> Forall is_u64 acc ->
  spec_accepts size acc seq = true.
Proof.
  intros Hs Ha Hu. destruct acc as [|a acc]; [done|]. rw spec_accepts_cons //.
  rw bool_decide_false; [intros H%Ha; lia|]. cbn [negb andb].
  assert (highest (a :: acc) < seq); [by apply Ha, highest_in|blia].
Qed.

Lemma flow_next s r mt k seq p q : flow s r (Rec mt k seq p :: q) -> s_sendSeq s < 2 ^ 64 ->
  is_u64 seq /\ exists w, Check_seq (s_replayWindow r) seq = (w, Ok true) /\
    forall r', s_replayWindow r' = w -> s_recvNoncePrefix r' = s_recvNoncePrefix r -> flow s r' q.
Proof.
  intros [Hpre (acc & Hw & Hs) He [[_ [H0 _]] Hi]%Forall_cons_1] Hlt.
  cbn [seqs omap list_omap] in Hs. fold (seqs q) in Hs.
  change (StronglySorted Z.lt (reverse acc ++ [seq] ++ seqs q ++ [s_sendSeq s])) in Hs.
  pose proof Hs as Hs'. rw app_assoc in Hs'. apply StronglySorted_app in Hs' as (H1 & H2 & _).
  apply sorted_above in H2 as [_ H2].
  assert (seq < s_sendSeq s) as Hseq.
  { apply H1; apply elem_of_app; right; by apply list_elem_of_singleton. }
  split; [unfold is_u64; lia|].
  destruct (Check_refines _ _ seq Hw) as (w & HC & _ & Hw'); [unfold is_u64; lia|].
  rw accepts_above in HC Hw'; [apply Hw| |apply Hw|].
  { intros a Ha. apply H2. by apply elem_of_reverse. }
  exists w. split; [done|]. intros r' Hr1 Hr2. split; [by rw Hr2|exists (seq :: acc); rw Hr1|done|done].
  split; [done|]. by rw reverse_cons -app_assoc.
Qed.

Lemma Decrypt_run now c ct seq r r1 w p : s_recvCipher r = Some c ->
  Check_seq (s_replayWindow r) seq = (w, Ok true) ->
  open_trial c (s_pendingRecvCipher r) (stream_nonce (s_recvNoncePrefix r) seq) ct (be_put 8 seq)
    (r <| s_replayWindow := w |>) = (r1, Ok p) ->
  Decrypt now ct seq r = (r1 <| s_BytesReceived := i64 (s_BytesReceived r1 + len p) |>
    <| s_PacketsRecv := i64 (s_PacketsRecv r1 + 1) |> <| s_LastActivity := now |>, Ok p).
Proof.
  intros Hc HC Ho. unfold Decrypt, ReplayWindow_Check. rw st_bind_get Hc HC st_bind_mod.
  erewrite st_bind_lift; [|done]. rw buildAEADNonce_eq. erewrite st_bind_lift; [|done].
  by rw (st_bind_ok _ _ _ _ _ Ho) st_bind_mod.
Qed.

Lemma ladder_head r mt k seq p q kn kr : keyed cs kr (s_recvCipher r) ->
  (Forall (under kr) (Rec mt k seq p :: q) /\ kn = kr) \/
  (keyed cs kn (s_pendingRecvCipher r) /\
   exists q0 q1, Rec mt k seq p :: q = q0 ++ q1 /\ Forall (under kr) q0 /\ Forall (under kn) q1) ->
  (kr = k /\ ladder r q kn /\ (kn = k -> Forall (under kn) q)) \/
  (k = kn /\ keyed cs kn (s_pendingRecvCipher r) /\ Forall (under kn) q).
Proof.
  intros Hk [[[Hh Hq]%Forall_cons_1 ->]|(Hp & [|it q0] & q1 & Hq & H0 & H1)].
  - left. cbn in Hh. subst. split; [done|]. split; [|done]. exists kr. by split; [|left].
  - right. cbn in Hq. subst q1. apply Forall_cons_1 in H1 as [Hh H1]. cbn in Hh. by subst.
  - left. injection Hq as <- ->. apply Forall_cons_1 in H0 as [Hh H0]. cbn in Hh. subst kr.
    split; [done|]. split; [|intros ->; by apply Forall_app].
    exists k. split; [done|]. right. split; [done|]. by exists q0, q1.
Qed.

Lemma keyed_key k k' o : keyed cs k o -> keyed cs k' o -> k = k'.
Proof. intros (c & -> & _ & <-) (c' & [= <-] & _ & <-). done. Qed.

Lemma Decrypt_item now s r mt k seq p qf q kn :
  flow s r (Rec mt k seq p :: qf) -> ladder r (Rec mt k seq p :: q) kn -> s_sendSeq s < 2 ^ 64 ->
  confused r k seq p \/
  exists r', Decrypt now (record_of cs k (s_recvNoncePrefix r) seq p) seq r = (r', Ok p) /\
    received_from r r' /\ flow s r' qf /\ ladder r' q kn /\
    (kn = k -> keyed cs kn (s_recvCipher r') /\ Forall (under kn) q) /\
    (keyed cs k (s_recvCipher r) -> s_pendingRecvCipher r' = s_pendingRecvCipher r).
Proof.
  intros Hf (kr & Hkr & Hl) Hlt. destruct (flow_next _ _ _ _ _ _ _ Hf Hlt) as (Hu & w & HC & Hf').
  pose proof Hkr as (c & Hc & Hcs & Hk). apply ladder_head in Hl; [|done].
  destruct (open_trial_cases k r seq p c kr) as [?|[[-> Ho]|(Hp & Hne & Ho)]]; try done.
  { destruct Hl as [[-> _]|[-> [? _]]]; [by left|by right]. }
  - by left.
  - right. eexists. split; [by eapply Decrypt_run; [exact Hc|exact HC|apply Ho]|].
    split; [exists w, (s_recvCipher r), (s_pendingRecvCipher r); eexists _, _, _; destruct r; reflexivity|].
    split; [by apply Hf'|].
    destruct Hl as [(_ & Hlad & Hq)|(-> & _ & Hq)].
    + split; [exact Hlad|]. split; [|done]. intros H. split; [by rw H|by apply Hq].
    + split; [exists kn; by split; [|left]|]. by split.
  - right. destruct Hl as [(-> & _)|(-> & Hpk & Hq)]; [done|].
    eexists. split; [by eapply Decrypt_run; [exact Hc|exact HC|apply Ho]|].
    split; [eexists w, _, _, _, _, _; reflexivity|]. split; [by apply Hf'|].
    split; [exists kn; by split; [|left]|]. split; [by split|].
    intros Hk'. by destruct Hne; eapply keyed_key.
Qed.

(** ** The two sessions *)

Record paired (i r : Session) (qi qr : list item) (ki kr : list Z) : Prop := {
  pd_role_i : s_Role i = RoleInitiator;
  pd_role_r : s_Role r = RoleResponder;
  pd_kem : s_kemSuite r = s_kemSuite i;
  pd_suite_i : s_CipherSuite i = cs;
  pd_suite_r : s_CipherSuite r = cs;
  pd_idle_r : s_rekeyInProgress r = false;
  pd_state_r : s_state r = SessionStateEstablished;
  pd_key_i : keyed cs ki (s_sendCipher i);
  pd_key_r : keyed cs kr (s_sendCipher r);
  pd_ir : flow i r qi;
  pd_ri : flow r i qr }.

(** No rekey message is in flight. *)
Definition quiet (i r : Session) (qi qr : list item) (ki kr : list Z) : Prop :=
  no_rekey qi /\ no_rekey qr /\ ladder r qi ki /\ ladder i qr kr /\
  (s_rekeyInProgress i = false -> s_state i = SessionStateEstablished /\ ms_bytes i = ms_bytes r).

(** The initiator's request is in flight. *)
Definition asked (i r : Session) (qi qr : list item) (ki kr : list Z) : Prop :=
  exists kp pk act seq a b,
    qi = a ++ Rec MessageTypeRekey ki seq (wire_Rekey_payload pk act) :: b /\
    no_rekey a /\ no_rekey b /\ no_rekey qr /\ ladder r qi ki /\ ladder i qr kr /\
    s_rekeyInProgress i = true /\ s_pendingRekeyKeyPair i = Some kp /\ key_of (s_kemSuite i) kp /\
    PublicKey_Bytes (KeyPair_PublicKey kp) = Ok pk /\ is_u64 act /\ ms_bytes i = ms_bytes r.

(** The response is in flight; what the responder sent after it is under the new key. *)
Definition answered (i r : Session) (qi qr : list item) (ki kr : list Z) : Prop :=
  exists kp ct c fresh ns ik sc rc k0 act seq a b,
    qr = a ++ Rec MessageTypeRekey k0 seq (wire_Rekey_payload ct act) :: b /\
    no_rekey a /\ no_rekey b /\ no_rekey qi /\
    (Forall (under ki) qi /\ keyed cs ki (s_recvCipher r) /\ keyed cs ik (s_pendingRecvCipher r)) /\
    ladder i (a ++ [Rec MessageTypeRekey k0 seq (wire_Rekey_payload ct act)]) k0 /\
    Forall (under kr) b /\
    (s_rekeyInProgress i = true /\ s_pendingRekeyKeyPair i = Some kp) /\
    (0 < len ct < 2 ^ 16 /\ is_u64 act /\ s_ParseCiphertext (s_kemSuite i) ct = Ok c /\
     s_Decapsulate (s_kemSuite i) c kp RoleInitiator = Ok fresh) /\
    (DeriveRekeySecret (ms_bytes i) fresh = Ok ns /\ DeriveTrafficKeys ns = Ok (ik, kr) /\
     NewAEAD fips cs ik = Ok sc /\ NewAEAD fips cs kr = Ok rc) /\ s_masterSecret r = Some ns.

Definition phase (i r : Session) (qi qr : list item) (ki kr : list Z) : Prop :=
  quiet i r qi qr ki kr \/ asked i r qi qr ki kr \/ answered i r qi qr ki kr.

Definition link (S : Role -> Session) (Q : Role -> list item) (k : Role -> list Z) : Prop :=
  let i := S RoleInitiator in let r := S RoleResponder in
  let qi := Q RoleInitiator in let qr := Q RoleResponder in
  let ki := k RoleInitiator in let kr := k RoleResponder in
  paired i r qi qr ki kr /\ phase i r qi qr ki kr.

(** ** Sending *)

Lemma flow_sent s s' r q : flow s r q -> sent_from s s' -> flow s' r q.
Proof.
  intros [H1 (acc & Hw & Hs) H3 H4] (b & n & l & ->). split; [done| |cbn; lia|done].
  exists acc. split; [done|]. cbn. rw app_assoc. apply sorted_skip. by rw -app_assoc.
Qed.

Lemma flow_send s s' r q mt k p : flow s r q -> sent_from s s' ->
  item_ok (Rec mt k (s_sendSeq s) p) -> flow s' r (q ++ [Rec mt k (s_sendSeq s) p]).
Proof.
  intros [H1 (acc & Hw & Hs) H3 H4] (b & n & l & ->) Hok. split; [done| |cbn; lia|by apply Forall_app; auto].
  exists acc. split; [done|]. rw seqs_app. cbn. rw !app_assoc. apply sorted_push. by rw -app_assoc.
Qed.

Lemma flow_ctl s r q mt : flow s r q -> item_ok (Ctl mt) -> flow s r (q ++ [Ctl mt]).
Proof.
  intros [H1 (acc & Hw & Hs) H3 H4] Hok. split; [done| |done|by apply Forall_app; auto].
  exists acc. rw seqs_app. cbn. by rw app_nil_r.
Qed.

Lemma flow_ends s s' r r' q : flow s r q -> s_sendSeq s' = s_sendSeq s ->
  s_sendNoncePrefix s' = s_sendNoncePrefix s -> 0 <= s_sendEpochStartSeq s' <= s_sendSeq s' ->
  s_replayWindow r' = s_replayWindow r -> s_recvNoncePrefix r' = s_recvNoncePrefix r -> flow s' r' q.
Proof. intros [H1 H2 H3 H4] E1 E2 E3 E4 E5. split; [by rw E5 E2|by rw E1 E4|done|done]. Qed.

Lemma flow_receiver s r r' q : flow s r q -> s_replayWindow r' = s_replayWindow r ->
  s_recvNoncePrefix r' = s_recvNoncePrefix r -> flow s r' q.
Proof. intros Hf E1 E2. by apply (flow_ends s s r r'); [| | |apply Hf| |]. Qed.

Lemma ladder_push r q k it : ladder r q k -> under k it -> ladder r (q ++ [it]) k.
Proof.
  intros (kr & Hk & [[Hq ->]|(Hp & q0 & q1 & -> & H0 & H1)]) Hu; exists kr; (split; [done|]).
  - left. split; [|done]. by apply Forall_app; auto.
  - right. split; [done|]. exists q0, (q1 ++ [it]). rw app_assoc. by repeat split; [|apply Forall_app; auto].
Qed.

Lemma no_rekey_push q it : no_rekey q -> is_rekey it = false -> no_rekey (q ++ [it]).
Proof. intros. apply Forall_app; auto. Qed.

Lemma phase_push_i i r qi qr ki kr it : phase i r qi qr ki kr -> is_rekey it = false -> under ki it ->
  phase i r (qi ++ [it]) qr ki kr.
Proof.
  intros [(H1 & H2 & H3 & H)|[(kp & pk & act & seq & a & b & -> & Ha & Hb & Hr & Hl & H)
    |(kp & ct & c & fresh & ns & ik & sc & rc & k0 & act & seq & a & b & -> & Ha & Hb & Hi & (Hq & Hk) & H)]] Hit Hu.
  - left. split; [by apply no_rekey_push|]. split; [done|]. split; [by apply ladder_push|done].
  - right. left. exists kp, pk, act, seq, a, (b ++ [it]). split; [by rw -app_assoc|].
    split; [done|]. split; [by apply no_rekey_push|]. split; [done|]. split; [by apply ladder_push|done].
  - right. right. exists kp, ct, c, fresh, ns, ik, sc, rc, k0, act, seq, a, b.
    do 3 (split; [done|]). split; [by apply no_rekey_push|]. split; [|done].
    split; [by apply Forall_app; auto|done].
Qed.

Lemma phase_push_r i r qi qr ki kr it : phase i r qi qr ki kr -> is_rekey it = false -> under kr it ->
  phase i r qi (qr ++ [it]) ki kr.
Proof.
  intros [(H1 & H2 & H3 & H4 & H)|[(kp & pk & act & seq & a & b & -> & Ha & Hb & Hr & Hl & Hl' & H)
    |(kp & ct & c & fresh & ns & ik & sc & rc & k0 & act & seq & a & b & -> & Ha & Hb & Hi & Hk & Hl & Hub & H)]] Hit Hu.
  - left. split; [done|]. split; [by apply no_rekey_push|]. split; [done|]. split; [by apply ladder_push|done].
  - right. left. exists kp, pk, act, seq, a, b. do 3 (split; [done|]).
    split; [by apply no_rekey_push|]. split; [done|]. split; [by apply ladder_push|done].
  - right. right. exists kp, ct, c, fresh, ns, ik, sc, rc, k0, act, seq, a, (b ++ [it]).
    split; [by rw -app_assoc|]. split; [done|]. split; [by apply no_rekey_push|]. do 3 (split; [done|]).
    split; [by apply Forall_app; auto|done].
Qed.

Lemma link_skip S Q k x s' : link S Q k -> sent_from (S x) s' -> link (set_at x s' S) Q k.
Proof.
  intros [[] Hp] Hs. destruct x; (split; [split; cbn [set_at]; try done|]); try (by eapply flow_sent);
    destruct Hs as (b & n & l & ->); try done; by eapply flow_receiver.
Qed.

Lemma link_send S Q k x s' mt p : link S Q k -> sent_from (S x) s' ->
  item_ok (Rec mt (k x) (s_sendSeq (S x)) p) -> mt = MessageTypeData ->
  link (set_at x s' S) (set_at x (Q x ++ [Rec mt (k x) (s_sendSeq (S x)) p]) Q) k.
Proof.
  intros [[] Hp] Hs Hok ->.
  destruct x; (split; [split; cbn [set_at]; try done|]); try (by eapply flow_send);
    pose proof Hs as (b & n & l & ->); try done; try (by eapply flow_receiver).
  - by apply phase_push_i.
  - by apply phase_push_r.
Qed.

Lemma link_ctl S Q k x mt : link S Q k -> item_ok (Ctl mt) -> link S (set_at x (Q x ++ [Ctl mt]) Q) k.
Proof.
  intros [[] Hp] Hok. destruct x; (split; [split; cbn [set_at]; try done; by apply flow_ctl|]).
  - by apply phase_push_i.
  - by apply phase_push_r.
Qed.

(** ** Receiving *)

(** The receiver's other half is as it was. *)
Lemma received_sender r r' x q : received_from r r' -> flow r x q -> flow r' x q.
Proof. intros (w & c & pc & b & n & l & ->) Hf. by eapply flow_ends; [exact Hf| | |apply Hf| |]. Qed.

Lemma head_split it it' a b q : it :: q = a ++ it' :: b -> is_rekey it = false -> is_rekey it' = true ->
  exists a', a = it :: a' /\ q = a' ++ it' :: b.
Proof.
  intros H Hn Hr. destruct a as [|z a]; injection H as <- ->; [by rw Hn in Hr|]. by exists a.
Qed.

Lemma no_rekey_cons it q : no_rekey (it :: q) -> is_rekey it = false /\ no_rekey q.
Proof. by intros H%Forall_cons_1. Qed.

(** The responder takes a data record. *)
Lemma phase_pop_r now i r qi qr ki kr k seq p q : let it := Rec MessageTypeData k seq p in
  flow i r (it :: q) -> s_sendSeq i < 2 ^ 64 -> qi = it :: q -> phase i r qi qr ki kr ->
  confused r k seq p \/
  exists r', Decrypt now (record_of cs k (s_recvNoncePrefix r) seq p) seq r = (r', Ok p) /\
    received_from r r' /\ flow i r' q /\ phase i r' q qr ki kr.
Proof.
  intros it Hf Hlt -> [(H1 & H2 & H3 & H4 & H)|[(kp & pk & act & sq & a & b & Hq & Ha & Hb & Hr & Hl & Hl' & H)
    |(kp & ct & c & fresh & ns & ik & sc & rc & k0 & act & sq & a & b & -> & Ha & Hb & Hi & (Hq & Hk & Hk') & H)]].
  - apply no_rekey_cons in H1 as [_ H1].
    destruct (Decrypt_item now _ _ _ _ _ _ _ _ _ Hf H3 Hlt) as [?|(r' & HD & Hrf & Hf' & Hl & _)]; [by left|].
    right. exists r'. do 3 (split; [done|]). left. pose proof Hrf as (? & ? & ? & ? & ? & ? & ->). by do 4 (split; [done|]).
  - apply head_split in Hq as (a' & -> & ->); [|done..]. apply no_rekey_cons in Ha as [_ Ha].
    destruct (Decrypt_item now _ _ _ _ _ _ _ _ _ Hf Hl Hlt) as [?|(r' & HD & Hrf & Hf' & Hl2 & _)]; [by left|].
    right. exists r'. do 3 (split; [done|]). right. left. exists kp, pk, act, sq, a', b.
    pose proof Hrf as (? & ? & ? & ? & ? & ? & ->). by do 6 (split; [done|]).
  - apply no_rekey_cons in Hi as [_ Hi]. apply Forall_cons_1 in Hq as [Hh Hq]. cbn in Hh. subst k.
    assert (ladder r (it :: q) ki) as Hl by (exists ki; split; [done|left]; split; [by constructor|done]).
    destruct (Decrypt_item now _ _ _ _ _ _ _ _ _ Hf Hl Hlt) as [?|(r' & HD & Hrf & Hf' & _ & Hs & Hpn)]; [by left|].
    destruct (Hs eq_refl) as [Hs1 _]. specialize (Hpn Hk).
    right. exists r'. do 3 (split; [done|]). right. right.
    exists kp, ct, c, fresh, ns, ik, sc, rc, k0, act, sq, a, b. do 4 (split; [done|]).
    split; [by rw Hpn|]. by pose proof Hrf as (? & ? & ? & ? & ? & ? & ->).
Qed.

(** The initiator takes a data record. *)
Lemma phase_pop_i now i r qi qr ki kr k seq p q : let it := Rec MessageTypeData k seq p in
  flow r i (it :: q) -> s_sendSeq r < 2 ^ 64 -> qr = it :: q -> phase i r qi qr ki kr ->
  confused i k seq p \/
  exists i', Decrypt now (record_of cs k (s_recvNoncePrefix i) seq p) seq i = (i', Ok p) /\
    received_from i i' /\ flow r i' q /\ phase i' r qi q ki kr.
Proof.
  intros it Hf Hlt -> [(H1 & H2 & H3 & H4 & H)|[(kp & pk & act & sq & a & b & Hq & Ha & Hb & Hr & Hl & Hl' & H)
    |(kp & ct & c & fresh & ns & ik & sc & rc & k0 & act & sq & a & b & Hq & Ha & Hb & Hi & Hk & Hl & H)]].
  - apply no_rekey_cons in H2 as [_ H2].
    destruct (Decrypt_item now _ _ _ _ _ _ _ _ _ Hf H4 Hlt) as [?|(i' & HD & Hrf & Hf' & Hl & _)]; [by left|].
    right. exists i'. do 3 (split; [done|]). left. pose proof Hrf as (? & ? & ? & ? & ? & ? & ->). by do 4 (split; [done|]).
  - apply no_rekey_cons in Hr as [_ Hr].
    destruct (Decrypt_item now _ _ _ _ _ _ _ _ _ Hf Hl' Hlt) as [?|(i' & HD & Hrf & Hf' & Hl2 & _)]; [by left|].
    right. exists i'. do 3 (split; [done|]). right. left. exists kp, pk, act, sq, a, b.
    pose proof Hrf as (? & ? & ? & ? & ? & ? & ->). by do 6 (split; [done|]).
  - apply head_split in Hq as (a' & -> & ->); [|done..]. apply no_rekey_cons in Ha as [_ Ha].
    destruct (Decrypt_item now _ _ _ _ _ _ _ _ _ Hf Hl Hlt) as [?|(i' & HD & Hrf & Hf' & Hl2 & _)]; [by left|].
    right. exists i'. do 3 (split; [done|]). right. right.
    exists kp, ct, c, fresh, ns, ik, sc, rc, k0, act, sq, a', b.
    pose proof Hrf as (? & ? & ? & ? & ? & ? & ->). by do 6 (split; [done|]).
Qed.

Lemma link_recv now S Q k x key seq p q : link S Q k -> (forall y, s_sendSeq (S y) < 2 ^ 64) ->
  Q (Role_peer x) = Rec MessageTypeData key seq p :: q ->
  confused (S x) key seq p \/
  exists s', Decrypt now (record_of cs key (s_recvNoncePrefix (S x)) seq p) seq (S x) = (s', Ok p) /\
    received_from (S x) s' /\ link (set_at x s' S) (set_at (Role_peer x) q Q) k.
Proof.
  intros [[] Hp] Hlt HQ. destruct x; cbn [Role_peer set_at] in *.
  - pose proof pd_ri0 as Hf. rw HQ in Hf.
    destruct (phase_pop_i now _ _ _ _ _ _ _ _ _ _ Hf (Hlt _) HQ Hp) as [?|(s' & HD & Hr & Hf' & Hp')]; [by left|].
    right. exists s'. do 2 (split; [done|]). split; [|exact Hp']. pose proof Hr as (? & ? & ? & ? & ? & ? & E).
    split; cbn [set_at]; try done; [by rw E..|by eapply received_sender].
  - pose proof pd_ir0 as Hf. rw HQ in Hf.
    destruct (phase_pop_r now _ _ _ _ _ _ _ _ _ _ Hf (Hlt _) HQ Hp) as [?|(s' & HD & Hr & Hf' & Hp')]; [by left|].
    right. exists s'. do 2 (split; [done|]). split; [|exact Hp']. pose proof Hr as (? & ? & ? & ? & ? & ? & E).
    split; cbn [set_at]; try done; [by rw E..|by eapply received_sender].
Qed.

Lemma flow_tl_ctl s r mt q : flow s r (Ctl mt :: q) -> flow s r q.
Proof. intros [H1 H2 H3 [_ H4]%Forall_cons_1]. by split. Qed.

Lemma ladder_tl_ctl r mt q k : ladder r (Ctl mt :: q) k -> ladder r q k.
Proof.
  intros (kr & Hk & [[Hq%Forall_cons_1 ->]|(Hp & [|it q0] & q1 & Hq & H0 & H1)]); exists kr; (split; [done|]).
  - left. by destruct Hq.
  - right. split; [done|]. cbn in Hq. subst q1. exists [], q. by apply Forall_cons_1 in H1 as [_ H1].
  - right. split; [done|]. injection Hq as <- ->. exists q0, q1. by apply Forall_cons_1 in H0 as [_ H0].
Qed.

Lemma phase_ctl_r i r mt q qr ki kr : phase i r (Ctl mt :: q) qr ki kr -> phase i r q qr ki kr.
Proof.
  intros [(H1 & H2 & H3 & H)|[(kp & pk & act & sq & a & b & Hq & Ha & Hb & Hr & Hl & H)
    |(kp & ct & c & fresh & ns & ik & sc & rc & k0 & act & sq & a & b & -> & Ha & Hb & Hi & (Hq & Hk) & H)]].
  - left. apply no_rekey_cons in H1 as [_ H1]. apply ladder_tl_ctl in H3. by do 3 (split; [done|]).
  - apply head_split in Hq as (a' & -> & ->); [|done..]. apply no_rekey_cons in Ha as [_ Ha].
    apply ladder_tl_ctl in Hl. right. left. exists kp, pk, act, sq, a', b. by do 5 (split; [done|]).
  - apply no_rekey_cons in Hi as [_ Hi]. apply Forall_cons_1 in Hq as [_ Hq]. right. right.
    exists kp, ct, c, fresh, ns, ik, sc, rc, k0, act, sq, a, b. by do 4 (split; [done|]).
Qed.

Lemma phase_ctl_i i r qi mt q ki kr : phase i r qi (Ctl mt :: q) ki kr -> phase i r qi q ki kr.
Proof.
  intros [(H1 & H2 & H3 & H4 & H)|[(kp & pk & act & sq & a & b & -> & Ha & Hb & Hr & Hl & Hl' & H)
    |(kp & ct & c & fresh & ns & ik & sc & rc & k0 & act & sq & a & b & Hq & Ha & Hb & Hi & Hk & Hl & H)]].
  - left. apply no_rekey_cons in H2 as [_ H2]. apply ladder_tl_ctl in H4. by do 4 (split; [done|]).
  - apply no_rekey_cons in Hr as [_ Hr]. apply ladder_tl_ctl in Hl'.
    right. left. exists kp, pk, act, sq, a, b. by do 6 (split; [done|]).
  - apply head_split in Hq as (a' & -> & ->); [|done..]. apply no_rekey_cons in Ha as [_ Ha].
    apply ladder_tl_ctl in Hl. right. right.
    exists kp, ct, c, fresh, ns, ik, sc, rc, k0, act, sq, a', b. by do 6 (split; [done|]).
Qed.

Lemma link_recv_ctl S Q k x mt q : link S Q k -> Q (Role_peer x) = Ctl mt :: q ->
  link S (set_at (Role_peer x) q Q) k.
Proof.
  intros [[] Hp] HQ. destruct x; cbn [Role_peer set_at] in *; (split; [split; cbn [set_at]; try done|]).
  - rw HQ in pd_ri0. by eapply flow_tl_ctl.
  - rw HQ in Hp. by eapply phase_ctl_i.
  - rw HQ in pd_ir0. by eapply flow_tl_ctl.
  - rw HQ in Hp. by eapply phase_ctl_r.
Qed.

(** ** Rekeying *)

Ltac no_panic H :=
  repeat (cbn [obind wrap_err] in H; try discriminate H;
          match type of H with context [match ?d with _ => _ end] => destruct d end).

(** What the rekey relies on of a suite of the registry. *)
Record suite_good (u : Suite) : Prop := {
  sg_laws : SuiteLaws u;
  sg_pk : 0 < s_PublicKeySize u <= 65000;
  sg_ct : 0 < s_CiphertextSize u <= 65000;
  sg_gen : forall rnd, s_GenerateKeyPair u rnd <> Panic }.

Lemma GetSuite_good id u : GetSuite id = Some u -> suite_good u.
Proof.
  intros Hg. pose proof (GetSuite_laws _ _ Hg) as [HL _]. revert Hg. unfold GetSuite.
  destruct (id =? SuiteCHKEMv1); [|destruct (id =? SuiteXWing); [|done]]; intros [= <-].
  - split; [done|done|done|]. intros rnd. cbn [s_GenerateKeyPair chkemV1].
    unfold GenerateKeyPair, GenerateX25519KeyPair, GenerateMLKEMKeyPair, SecureRandomBytes,
      NewX25519KeyPairFromBytes, NewMLKEMKeyPairFromSeed, read_random.
    intros H. no_panic H.
  - split; [done|done|done|]. intros rnd. cbn [s_GenerateKeyPair xwingSuite].
    unfold xwing_GenerateKeyPair, GenerateXWingKeyPair, SecureRandomBytes, NewXWingKeyPairFromSeed, read_random.
    intros H. no_panic H.
Qed.

Definition initiated (s : Session) (kp : KeyPair) : Session :=
  s <| s_rekeyInProgress := true |> <| s_pendingRekeyKeyPair := Some kp |>
    <| s_rekeyActivationSeq := u64_add (s_sendSeq s) 16 |> <| s_state := SessionStateRekeying |>.

Lemma InitiateRekey_cases rnd s : suite_good (s_kemSuite s) ->
  (exists e, InitiateRekey rnd s = (s, Err e)) \/
  exists kp pk, InitiateRekey rnd s = (initiated s kp, Ok (pk, u64_add (s_sendSeq s) 16)) /\
    s_rekeyInProgress s = false /\ key_of (s_kemSuite s) kp /\
    PublicKey_Bytes (KeyPair_PublicKey kp) = Ok pk /\ 0 < len pk <= 65000.
Proof.
  intros [HL Hpk _ Hg]. unfold InitiateRekey. rw st_bind_get.
  destruct (s_rekeyInProgress s) eqn:Hr; [left; by eexists|]. cbn [negb].
  destruct (is_state s SessionStateEstablished); [|left; by eexists].
  destruct (s_GenerateKeyPair (s_kemSuite s) rnd) as [kp|e|] eqn:Hk;
    [|left; by exists e|by destruct (Hg rnd)].
  assert (key_of (s_kemSuite s) kp) as Hkey by (left; eauto).
  destruct (suite_pk_wire kp Hkey) as (pk & Hb & Hl & _). right. exists kp, pk.
  erewrite st_bind_lift; [|done]. rw st_bind_mod (st_bind_lift _ _ _ _ Hb). by rw Hl.
Qed.

(** A session that has begun a rekey, before its request is on the wire. *)
Lemma link_initiated S Q k kp : link S Q k -> s_rekeyInProgress (S RoleInitiator) = false ->
  link (set_at RoleInitiator (initiated (S RoleInitiator) kp) S) Q k.
Proof.
  intros [[] Hp] Hr. split; [split; cbn [set_at]; try done|].
  - by eapply flow_ends; [exact pd_ir0| | |apply pd_ir0| |].
  - by eapply flow_receiver.
  - destruct Hp as [(H1 & H2 & H3 & H4 & _)|[(? & ? & ? & ? & ? & ? & H)|(? & ? & ? & ? & ? & ? & ? & ? & ? & ? & ? & ? & ? & H)]].
    + left. by do 4 (split; [done|]).
    + destruct H as (_ & _ & _ & _ & _ & _ & H & _). by rw Hr in H.
    + destruct H as (_ & _ & _ & _ & _ & _ & _ & [H _] & _). by rw Hr in H.
Qed.

Lemma is_u64_add a b : is_u64 (u64_add a b).
Proof. unfold is_u64, u64_add, u64. pose proof (Z.mod_pos_bound (a + b) (2 ^ 64)). lia. Qed.

(** The request goes out. *)
Lemma link_ask S Q k kp pk i' : link S Q k -> let i := S RoleInitiator in
  s_rekeyInProgress i = false -> key_of (s_kemSuite i) kp ->
  PublicKey_Bytes (KeyPair_PublicKey kp) = Ok pk -> len pk <= 65000 -> sent_from (initiated i kp) i' ->
  link (set_at RoleInitiator i' S)
    (set_at RoleInitiator (Q RoleInitiator ++ [Rec MessageTypeRekey (k RoleInitiator) (s_sendSeq i)
       (wire_Rekey_payload pk (u64_add (s_sendSeq i) 16))]) Q) k.
Proof.
  intros Hlk i Hr Hkey Hpk Hl Hs. subst i. destruct (link_initiated _ _ _ kp Hlk Hr) as [[] _].
  destruct Hlk as [_ Hp]. cbn [set_at] in *.
  assert (item_ok (Rec MessageTypeRekey (k RoleInitiator) (s_sendSeq (S RoleInitiator))
    (wire_Rekey_payload pk (u64_add (s_sendSeq (S RoleInitiator)) 16)))) as Hok.
  { split; [by right|]. split; [pose proof (fl_epoch _ _ _ pd_ir0); cbn in *; lia|].
    unfold wire_Rekey_payload, MaxPayloadSize. golia. }
  pose proof (flow_send _ _ _ _ _ _ _ pd_ir0 Hs Hok) as Hf. pose proof Hs as (b & n & l & ->).
  split; [split; cbn [set_at]; [done..|exact Hf|eapply flow_receiver; [exact pd_ri0|by cbn|by cbn]]|].
  destruct Hp as [(H1 & H2 & H3 & H4 & H5)|[(? & ? & ? & ? & ? & ? & H)|(? & ? & ? & ? & ? & ? & ? & ? & ? & ? & ? & ? & ? & H)]].
  - right. left. eexists kp, pk, _, _, _, []. split; [reflexivity|]. split; [done|]. split; [by constructor|].
    split; [done|]. split; [by apply ladder_push|]. do 5 (split; [done|]).
    split; [apply is_u64_add|]. by destruct (H5 Hr).
  - destruct H as (_ & _ & _ & _ & _ & _ & H & _). by rw Hr in H.
  - destruct H as (_ & _ & _ & _ & _ & _ & _ & [H _] & _). by rw Hr in H.
Qed.

Definition prepared (s : Session) (act : Z) (rc sc : AEAD) (ns : list Z) : Session :=
  s <| s_rekeyInProgress := true |> <| s_rekeyActivationSeq := act |>
    <| s_pendingRecvCipher := Some rc |> <| s_pendingSendCipher := Some sc |>
    <| s_pendingRekeySecret := Some ns |> <| s_state := SessionStateRekeying |>.

Lemma PrepareRekeyResponse_exact rnd pkb act s s' ct :
  PrepareRekeyResponse fips rnd pkb act s = (s', Ok ct) ->
  exists pk c fresh ns ik rk rc sc, s' = prepared s act rc sc ns /\
    s_ParsePublicKey (s_kemSuite s) pkb = Ok pk /\
    s_Encapsulate (s_kemSuite s) rnd pk RoleResponder = Ok (c, fresh) /\
    DeriveRekeySecret (ms_bytes s) fresh = Ok ns /\ DeriveTrafficKeys ns = Ok (ik, rk) /\
    NewAEAD fips (s_CipherSuite s) ik = Ok rc /\ NewAEAD fips (s_CipherSuite s) rk = Ok sc /\
    Ciphertext_Bytes c = Ok ct.
Proof.
  unfold PrepareRekeyResponse. intros H. stinv H. apply st_lift_inv in H as [-> H].
  eexists _, _, _, _, _, _, _, _. split; [reflexivity|]. by repeat (split; [eassumption|]).
Qed.

(** The responder's session once it has answered. *)
Definition switched (now : Z) (s : Session) (sc : AEAD) (ns : list Z) : Session :=
  s <| s_sendCipher := Some sc |> <| s_pendingSendCipher := None |>
    <| s_sendEpochStartSeq := s_sendSeq s |> <| s_masterSecret := Some ns |>
    <| s_pendingRekeySecret := None |> <| s_rekeyInProgress := false |>
    <| s_rekeyActivationSeq := 0 |> <| s_EstablishedAt := now |>
    <| s_state := SessionStateEstablished |>.

Lemma ActivateRekeySend_exact now s sc ns :
  s_pendingSendCipher s = Some sc -> s_pendingRekeySecret s = Some ns ->
  ActivateRekeySend now s = (switched now s sc ns, Ok tt).
Proof.
  intros Hs Hn. unfold ActivateRekeySend, switch_send, finalizeRekeyStateLocked.
  set (s1 := s <| s_sendCipher := Some sc |> <| s_pendingSendCipher := None |>
               <| s_sendEpochStartSeq := s_sendSeq s |>).
  rw (st_bind_ok _ _ s s1 tt); [by rw st_bind_get Hs|]. rw st_bind_get.
  change (s_pendingRekeySecret s1) with (s_pendingRekeySecret s). by rw Hn st_bind_mod.
Qed.

Definition processed (now : Z) (s : Session) (sc rc : AEAD) (ns : list Z) : Session :=
  s <| s_sendCipher := Some sc |> <| s_sendEpochStartSeq := s_sendSeq s |>
    <| s_pendingRecvCipher := Some rc |> <| s_pendingRekeyKeyPair := None |>
    <| s_masterSecret := Some ns |> <| s_pendingRekeySecret := None |>
    <| s_rekeyInProgress := false |> <| s_rekeyActivationSeq := 0 |> <| s_EstablishedAt := now |>
    <| s_state := SessionStateEstablished |>.

Lemma ProcessRekeyResponse_exact now s kp ct c fresh ns ik rk sc rc :
  s_rekeyInProgress s = true -> s_pendingRekeyKeyPair s = Some kp ->
  s_ParseCiphertext (s_kemSuite s) ct = Ok c ->
  s_Decapsulate (s_kemSuite s) c kp RoleInitiator = Ok fresh ->
  DeriveRekeySecret (ms_bytes s) fresh = Ok ns -> DeriveTrafficKeys ns = Ok (ik, rk) ->
  NewAEAD fips (s_CipherSuite s) ik = Ok sc -> NewAEAD fips (s_CipherSuite s) rk = Ok rc ->
  ProcessRekeyResponse fips now ct s = (processed now s sc rc ns, Ok tt).
Proof.
  intros Hr Hkp Hp Hd Hn Ht Hs Hc. unfold ProcessRekeyResponse. rw st_bind_get Hr Hkp.
  rw (st_bind_lift _ _ _ _ Hp) (st_bind_lift _ _ _ _ Hd) (st_bind_lift _ _ _ _ Hn).
  by rw (st_bind_lift _ _ _ _ Ht) (st_bind_lift _ _ _ _ Hs) (st_bind_lift _ _ _ _ Hc) st_bind_mod.
Qed.

(** The only rekey record the responder can meet is the request. *)
Lemma asked_head i r key seq p q qr ki kr :
  phase i r (Rec MessageTypeRekey key seq p :: q) qr ki kr ->
  exists kp pk act, key = ki /\ p = wire_Rekey_payload pk act /\ no_rekey q /\ no_rekey qr /\
    ladder r (Rec MessageTypeRekey ki seq p :: q) ki /\ ladder i qr kr /\
    s_rekeyInProgress i = true /\ s_pendingRekeyKeyPair i = Some kp /\ key_of (s_kemSuite i) kp /\
    PublicKey_Bytes (KeyPair_PublicKey kp) = Ok pk /\ is_u64 act /\ ms_bytes i = ms_bytes r.
Proof.
  intros [(H1 & _)|[(kp & pk & act & sq & a & b & Hq & Ha & H)
    |(? & ? & ? & ? & ? & ? & ? & ? & ? & ? & ? & ? & ? & _ & _ & _ & Hi & _)]].
  - by apply no_rekey_cons in H1 as [H1 _].
  - destruct a as [|z a]; [|injection Hq as <- _; by apply no_rekey_cons in Ha as [? _]].
    injection Hq as -> -> -> ->. by exists kp, pk, act.
  - by apply no_rekey_cons in Hi as [? _].
Qed.

Lemma paired_answer now i r r1 r3 act rc sc ns ki kr rk qi q qr p :
  paired i r qi qr ki kr -> received_from r r1 -> flow i r1 q -> sent_from (prepared r1 act rc sc ns) r3 ->
  keyed cs rk (Some sc) -> len p + 16 <= MaxPayloadSize ->
  paired i (switched now r3 sc ns) q (qr ++ [Rec MessageTypeRekey kr (s_sendSeq r) p]) ki rk.
Proof.
  intros [] (w & c1 & c2 & b1 & n1 & l1 & ->) Hf Hs Hk Hl.
  assert (item_ok (Rec MessageTypeRekey kr (s_sendSeq r) p)) as Hok.
  { split; [by right|]. split; [pose proof (fl_epoch _ _ _ pd_ri0); lia|done]. }
  assert (flow (prepared (r <| s_replayWindow := w |> <| s_recvCipher := c1 |> <| s_pendingRecvCipher := c2 |>
    <| s_BytesReceived := b1 |> <| s_PacketsRecv := n1 |> <| s_LastActivity := l1 |>) act rc sc ns) i qr) as Hf1.
  { eapply flow_ends; [exact pd_ri0|by cbn|by cbn|apply pd_ri0|by cbn|by cbn]. }
  pose proof (flow_send _ _ _ _ _ _ _ Hf1 Hs Hok) as Hf2. destruct Hs as (b2 & n2 & l2 & ->).
  split; try done.
  - eapply flow_receiver; [exact Hf|by cbn|by cbn].
  - eapply flow_ends; [exact Hf2|by cbn|by cbn| |by cbn|by cbn]. pose proof (fl_epoch _ _ _ Hf2). cbn in *. lia.
Qed.

Lemma link_answer now S Q k key seq p q : link S Q k -> (forall y, s_sendSeq (S y) < 2 ^ 64) ->
  let i := S RoleInitiator in let r := S RoleResponder in
  suite_good (s_kemSuite i) -> Q RoleInitiator = Rec MessageTypeRekey key seq p :: q ->
  confused r key seq p \/
  exists pk act r1, p = wire_Rekey_payload pk act /\ 0 < len pk < 2 ^ 16 /\ is_u64 act /\
    Decrypt now (record_of cs key (s_recvNoncePrefix r) seq p) seq r = (r1, Ok p) /\ received_from r r1 /\
    forall rnd ct r2, PrepareRekeyResponse fips rnd pk act r1 = (r2, Ok ct) ->
      0 < len ct <= 65000 /\ exists rc sc ns kr, r2 = prepared r1 act rc sc ns /\
      forall r3, sent_from r2 r3 ->
        ActivateRekeySend now r3 = (switched now r3 sc ns, Ok tt) /\
        link (set_at RoleResponder (switched now r3 sc ns) S)
          (set_at RoleResponder (Q RoleResponder ++ [Rec MessageTypeRekey (k RoleResponder) (s_sendSeq r)
             (wire_Rekey_payload ct act)]) (set_at RoleInitiator q Q)) (set_at RoleResponder kr k).
Proof.
  intros [Hpd Hp] Hlt i r [HL Hpkl Hctl _] HQ. subst i r. pose proof Hpd as []. rw HQ in Hp pd_ir0.
  apply asked_head in Hp as (kp & pk & act & -> & -> & Hnq & Hnr & Hl & Hl' & Hr & Hkp & Hkey & Hpk & Ha & Hms).
  destruct (suite_pk_wire kp Hkey) as (b & Hb & Hbl & Hpar). rw Hpk in Hb. apply Ok_inj in Hb as <-.
  destruct (Decrypt_item now _ _ _ _ _ _ _ _ _ pd_ir0 Hl (Hlt _)) as [?|(r1 & HD & Hrf & Hf & _ & Hk & _)]; [by left|].
  right. exists pk, act, r1. destruct (Hk eq_refl) as [Hk1 Huq]. split; [done|]. split; [lia|].
  do 3 (split; [done|]). intros rnd ct r2 HP.
  apply PrepareRekeyResponse_exact in HP as (pk' & c & fresh & ns & ik & rk & rc & sc & -> & Hp & He & Hd & Ht & Hrc & Hsc & Hct).
  pose proof Hrf as (w & c1 & c2 & b1 & n1 & l1 & E). 
  assert (s_kemSuite r1 = s_kemSuite (S RoleInitiator) /\ s_CipherSuite r1 = cs /\ ms_bytes r1 = ms_bytes (S RoleInitiator))
    as (E1 & E2 & E3) by (by rw E). rw E1 in Hp He. rw E2 in Hrc Hsc. rw E3 in Hd.
  rw Hp in Hpar. apply Ok_inj in Hpar as ->.
  destruct (suite_ct_wire _ _ _ _ _ He) as (ctb & Hctb & Hctl' & Hparse). rw Hct in Hctb.
  apply Ok_inj in Hctb as <-. pose proof (suite_agree _ _ _ _ _ Hkey He) as Hdec.
  split; [lia|]. exists rc, sc, ns, rk. split; [done|]. intros r3 Hs.
  split; [apply ActivateRekeySend_exact; by destruct Hs as (? & ? & ? & ->)|]. split.
  - eapply paired_answer; [exact Hpd|exact Hrf|exact Hf|exact Hs|by eapply NewAEAD_keyed|].
    unfold wire_Rekey_payload, MaxPayloadSize. golia.
  - right. right. exists kp, ct, c, fresh, ns, ik, rc, sc, (k RoleResponder), act, (s_sendSeq (S RoleResponder)).
    exists (Q RoleResponder), []. destruct Hs as (b2 & n2 & l2 & ->). cbn [set_at].
    split; [done|]. split; [done|]. split; [by constructor|]. split; [done|].
    split; [split; [done|]; split; [exact Hk1|by eapply NewAEAD_keyed]|].
    split; [by apply ladder_push|]. split; [by constructor|]. split; [done|].
    split; [split; [lia|done]|]. by split.
Qed.

(** The only rekey record the initiator can meet is the response. *)
Lemma answered_head i r key seq p q qi ki kr :
  phase i r qi (Rec MessageTypeRekey key seq p :: q) ki kr ->
  exists kp ct c fresh ns ik sc rc act, p = wire_Rekey_payload ct act /\ no_rekey q /\ no_rekey qi /\
    (Forall (under ki) qi /\ keyed cs ki (s_recvCipher r) /\ keyed cs ik (s_pendingRecvCipher r)) /\
    ladder i [Rec MessageTypeRekey key seq p] key /\ Forall (under kr) q /\
    (s_rekeyInProgress i = true /\ s_pendingRekeyKeyPair i = Some kp) /\
    (0 < len ct < 2 ^ 16 /\ is_u64 act /\ s_ParseCiphertext (s_kemSuite i) ct = Ok c /\
     s_Decapsulate (s_kemSuite i) c kp RoleInitiator = Ok fresh) /\
    (DeriveRekeySecret (ms_bytes i) fresh = Ok ns /\ DeriveTrafficKeys ns = Ok (ik, kr) /\
     NewAEAD fips cs ik = Ok sc /\ NewAEAD fips cs kr = Ok rc) /\ s_masterSecret r = Some ns.
Proof.
  intros [(_ & H2 & _)|[(? & ? & ? & ? & ? & ? & _ & _ & _ & Hr & _)
    |(kp & ct & c & fresh & ns & ik & sc & rc & k0 & act & sq & a & b & Hq & Ha & H)]].
  - by apply no_rekey_cons in H2 as [? _].
  - by apply no_rekey_cons in Hr as [? _].
  - destruct a as [|z a]; [|injection Hq as <- _; by apply no_rekey_cons in Ha as [? _]].
    injection Hq as -> -> -> ->. by exists kp, ct, c, fresh, ns, ik, sc, rc, act.
Qed.

Lemma paired_finish now i i1 r qi qr q ki kr ik sc rc ns : paired i r qi qr ki kr -> received_from i i1 ->
  flow r i1 q -> keyed cs ik (Some sc) -> paired (processed now i1 sc rc ns) r qi q ik kr.
Proof.
  intros [] (w & c1 & c2 & b1 & n1 & l1 & ->) Hf Hk.
  split; [done..| |eapply flow_receiver; [exact Hf|by cbn|by cbn]].
  pose proof (fl_epoch _ _ _ pd_ir0). eapply flow_ends; [exact pd_ir0|by cbn|by cbn|cbn; lia|by cbn|by cbn].
Qed.

Lemma link_finish now S Q k key seq p q : link S Q k -> (forall y, s_sendSeq (S y) < 2 ^ 64) ->
  let i := S RoleInitiator in
  Q RoleResponder = Rec MessageTypeRekey key seq p :: q ->
  confused i key seq p \/
  exists ct act i1 sc rc ns ik, p = wire_Rekey_payload ct act /\ 0 < len ct < 2 ^ 16 /\ is_u64 act /\
    Decrypt now (record_of cs key (s_recvNoncePrefix i) seq p) seq i = (i1, Ok p) /\ received_from i i1 /\
    s_rekeyInProgress i1 = true /\
    ProcessRekeyResponse fips now ct i1 = (processed now i1 sc rc ns, Ok tt) /\
    link (set_at RoleInitiator (processed now i1 sc rc ns) S) (set_at RoleResponder q Q)
      (set_at RoleInitiator ik k).
Proof.
  intros [Hpd Hp] Hlt i HQ. subst i. pose proof Hpd as []. rw HQ in Hp pd_ri0.
  apply answered_head in Hp as (kp & ct & c & fresh & ns & ik & sc & rc & act & -> & Hnq & Hni
    & (Hu & Hk & Hki) & Hl & Hur & (Hr & Hkp) & (Hct & Ha & Hpar & Hdec) & (Hd & Ht & Hsc & Hrc) & Hns).
  destruct (Decrypt_item now _ _ _ _ _ _ _ _ _ pd_ri0 Hl (Hlt _)) as [?|(i1 & HD & Hrf & Hf & _ & Hk1 & _)]; [by left|].
  destruct (Hk1 eq_refl) as [Hk2 _].
  right. exists ct, act, i1, sc, rc, ns, ik. do 5 (split; [done|]).
  pose proof Hrf as (w & c1 & c2 & b1 & n1 & l1 & E). split; [by rw E|].
  assert (s_rekeyInProgress i1 = true /\ s_pendingRekeyKeyPair i1 = Some kp /\
    s_kemSuite i1 = s_kemSuite (S RoleInitiator) /\ ms_bytes i1 = ms_bytes (S RoleInitiator) /\ s_CipherSuite i1 = cs)
    as (E1 & E2 & E3 & E4 & E5) by (by rw E).
  split; [apply (ProcessRekeyResponse_exact now i1 kp ct c fresh ns ik (k RoleResponder)); by rw ?E3 ?E4 ?E5|].
  split; [by eapply paired_finish; [exact Hpd|exact Hrf|exact Hf|eapply NewAEAD_keyed]|].
  left. cbn [set_at]. split; [done|]. split; [done|]. split; [|split].
  - exists (k RoleInitiator). split; [done|]. right. split; [done|]. exists (Q RoleInitiator), [].
    rw app_nil_r. by repeat split.
  - exists key. split; [exact Hk2|]. right. split; [by eapply NewAEAD_keyed|]. by exists [], q.
  - intros _. split; [done|]. unfold ms_bytes. by rw Hns.
Qed.

Lemma phase_idle i r qi qr ki kr : phase i r qi qr ki kr -> s_rekeyInProgress i = false ->
  ms_bytes i = ms_bytes r.
Proof.
  intros [(_ & _ & _ & _ & H)|[(? & ? & ? & ? & ? & ? & _ & _ & _ & _ & _ & _ & H & _)
    |(? & ? & ? & ? & ? & ? & ? & ? & ? & ? & ? & ? & ? & _ & _ & _ & _ & _ & _ & _ & [H _] & _)]] Hr.
  - by apply H.
  - by rw Hr in H.
  - by rw Hr in H.
Qed.
End Link.
