(* ===== verification/Tunnel.v ===== *)
(** Two transports joined by a reliable byte stream in each direction: what [Send] was given is
    what [Receive] returns, in order and without loss, whatever the interleaving of sends, pings,
    receive turns and rekeys on the two sides. *)

From Corelib Require Import ssreflect.
From stdpp Require Import base tactics list numbers strings sorting.
From Stdlib Require Import ZArith Lia.
From S2P Require Import Prelude Base Messages Codec Replay Crypto Chkem Session Handshake Transport Link.

Local Open Scope Z_scope.
Local Open Scope go_scope.

(** * The system *)

Record Tunnel := mkTunnel {
  tn_end : Role -> Transport;
  tn_sent : Role -> list (list Z);
  tn_got : Role -> list (list Z) }.

(** What a side wrote arrives in the peer's stream. *)
Definition carry (x : Role) (e : Transport) (t : Tunnel) : Tunnel :=
  let y := Role_peer x in
  let peer := tn_end t y in
  let c := t_conn peer in
  mkTunnel
    (set_at x (e <| t_conn := (t_conn e) <| cn_out := [] |> |>)
      (set_at y (peer <| t_conn := c <| cn_in := cn_in c ++ concat (cn_out (t_conn e)) |> |>)
        (tn_end t)))
    (tn_sent t) (tn_got t).

(** A call of the application on one side.  A rekey is the initiator's to start. *)
Inductive TunnelEvent :=
| EvSend (x : Role) (z : TEnv) (data : list Z)
| EvPing (x : Role)
| EvRekey (z : TEnv)
| EvTurn (x : Role) (z : TEnv).

Section System.
Context {P : Primitives} {K : KEMPrimitives} (fips : bool).

(** The call, its result, and the books: data whose [Send] succeeded, data [Receive] returned.
    A receive turn on an empty stream blocks.  Errors of the sending calls are the caller's and
    do not end the run; an error of a receive turn, or a panic, does. *)
Definition tn_step (ev : TunnelEvent) (t : Tunnel) : Tunnel * outcome error unit :=
  match ev with
  | EvSend x z data =>
      let '(e, o) := Send z data (tn_end t x) in
      let t' := carry x e t in
      match o with
      | Ok _ => (mkTunnel (tn_end t') (set_at x (tn_sent t x ++ [data]) (tn_sent t)) (tn_got t), Ok tt)
      | Err _ => (t', Ok tt)
      | Panic => (t', Panic)
      end
  | EvPing x =>
      let '(e, o) := SendPing (tn_end t x) in
      (carry x e t, match o with Panic => Panic | _ => Ok tt end)
  | EvRekey z =>
      let '(e, o) := SendRekey z (tn_end t RoleInitiator) in
      (carry RoleInitiator e t, match o with Panic => Panic | _ => Ok tt end)
  | EvTurn x z =>
      match cn_in (t_conn (tn_end t x)) with
      | [] => (t, Ok tt)
      | _ =>
          let '(e, o) := receive_turn fips z (tn_end t x) in
          let t' := carry x e t in
          match o with
          | Ok (Some data) =>
              (mkTunnel (tn_end t') (tn_sent t) (set_at x (tn_got t x ++ [data]) (tn_got t)), Ok tt)
          | Ok None => (t', Ok tt)
          | Err e => (t', Err e)
          | Panic => (t', Panic)
          end
      end
  end.

(** The run up to the first event that fails, and that event. *)
Fixpoint tn_run (evs : list TunnelEvent) (t : Tunnel) : Tunnel * option TunnelEvent :=
  match evs with
  | [] => (t, None)
  | ev :: evs =>
      match tn_step ev t with
      | (t', Ok _) => tn_run evs t'
      | _ => (t, Some ev)
      end
  end.

Definition tn_start (i r : Transport) : Tunnel :=
  mkTunnel (fun x => match x with RoleInitiator => i | RoleResponder => r end)
    (fun _ => []) (fun _ => []).
End System.

(** * One call *)

(** [ReadMessageInto] takes the message in front, whatever the buffer held. *)
Lemma ReadMessageInto_wire buf mt p rest : len p <= MaxMessageSize ->
  exists b, ReadMessageInto buf (wire_payload mt p ++ rest) = (rest, Ok (b, HeaderSize + len p)) /\
    slice (E := error) b 0 (HeaderSize + len p) = Ok (wire_payload mt p).
Proof.
  intros Hp. unfold ReadMessageInto, wire_payload.
  set (h := [mt] ++ be_put 4 (len p)). assert (len h = HeaderSize) as Hh by (subst h; golia).
  replace (([mt] ++ be_put 4 (len p) ++ p) ++ rest) with (h ++ p ++ rest) by (subst h; by rw -!app_assoc).
  rw (st_bind_ok _ _ _ (p ++ rest) h); [rw -Hh; apply ReadFull_app; golia|].
  assert (@get_be error 4 h 1 = Ok (len p)) as Hg.
  { assert (at_off h 1 (be_put 4 (len p) ++ [])) as H by (rw app_nil_r; apply (at_off_pre [mt])).
    rw (get_be_at_eq _ _ _ _ _ _ H); [done|golia|done]. }
  rw (st_bind_lift _ _ _ _ Hg).
  replace (negb _) with true by (symmetry; apply negb_true_iff, Z.ltb_ge; golia). cbv zeta.
  set (b := if len buf <? HeaderSize + len p then _ else buf).
  assert (HeaderSize + len p <= len b) as Hb by (subst b; case_match; golia). clearbody b.
  assert (forall tl, slice (E := error) (h ++ p ++ tl) 0 (HeaderSize + len p) = Ok (h ++ p)) as Hsl.
  { intros tl. unfold slice. replace (_ && _) with true by (repeat blia_step; golia).
    rw app_assoc drop_0 take_app_length' //. rw -length_to_nat. f_equal. golia. }
  assert (@c_copy error h HeaderSize (Cursor b 0) = Ok (Cursor (h ++ drop (length h) b) (len h))) as Hc.
  { rw (c_copy_over h HeaderSize [] b); [golia|done]. }
  rw (st_bind_lift _ _ _ _ Hc). destruct (0 <? len p) eqn:H0.
  - rw (st_bind_ok _ _ _ rest p); [by apply ReadFull_app|].
    erewrite st_bind_lift; [|apply c_copy_over; autorewrite with golen; unfold len in *; lia].
    eexists. split; [reflexivity|]. cbn [c_buf]. apply Hsl.
  - destruct p; [|golia]. eexists. split; [reflexivity|]. apply (Hsl (drop (length h) b)).
Qed.

Section Calls.
Context {P : Primitives} {PL : PrimitivesLaws P} {K : KEMPrimitives} {KL : KEMLaws K}.
Context (fips : bool) (cs : CipherSuite).

(** A transport after it wrote [msgs], its session now [s]. *)
Definition wrote (t : Transport) (s : Session) (msgs : list (list Z)) : Transport :=
  t <| t_session := s |> <| t_conn := (t_conn t) <| cn_out := cn_out (t_conn t) ++ msgs |> |>.

(** A transport after it read a message. *)
Definition took (t : Transport) (rest buf : list Z) : Transport :=
  t <| t_conn := (t_conn t) <| cn_in := rest |> |> <| t_readBuf := buf |>.

Definition usable (t : Transport) : Prop := t_closed t = false /\ cn_wfail (t_conn t) = [].

Lemma wrote_nothing t : t = wrote t (t_session t) [].
Proof. unfold wrote. destruct t as [s [i o w] b c d]. cbn. by rw app_nil_r. Qed.

Lemma wrote_session t s : t <| t_session := s |> = wrote t s [].
Proof. unfold wrote. destruct t as [s0 [i o w] b c d]. cbn. by rw app_nil_r. Qed.

Lemma writeLocked_ok t s l msg : usable t ->
  writeLocked msg (wrote t s l) = (wrote t s (l ++ [msg]), Ok tt).
Proof.
  intros [_ Hw]. unfold writeLocked, wrote. destruct t as [s0 [i o w] b c d]. cbn in *. subst w.
  cbn. by rw app_assoc.
Qed.

Lemma checkClosed_ok t : usable t -> checkClosed t = (t, Ok tt).
Proof. intros [Hc _]. unfold checkClosed. by rw st_bind_get Hc. Qed.

Lemma on_session_ok {A} (m : ST Session error A) t s l s' o :
  m s = (s', o) -> on_session m (wrote t s l) = (wrote t s' l, o).
Proof. intros H. unfold on_session. change (t_session (wrote t s l)) with s. by rw H. Qed.

(** What is needed of a session to send. *)
Definition can_send (s : Session) (k : list Z) : Prop :=
  keyed cs k (s_sendCipher s) /\ 0 <= s_sendEpochStartSeq s <= s_sendSeq s /\ s_sendSeq s < 2 ^ 64 - 1.

Lemma sealAndWrite_cases now t k data : usable t -> can_send (t_session t) k ->
  exists s', sent_from (t_session t) s' /\
    ((exists e, sealAndWrite now data t = (wrote t s' [], Err e)) \/
     (len data + 16 <= MaxPayloadSize /\ sealAndWrite now data t =
       (wrote t s' [wire cs (s_sendNoncePrefix (t_session t))
                      (Rec MessageTypeData k (s_sendSeq (t_session t)) data)], Ok tt))).
Proof.
  intros Hu (Hk & H0 & Hlt). destruct (Encrypt_cases cs now data _ k Hk H0 Hlt) as (s' & Hs & He).
  exists s'. split; [done|]. rw {1 3}(wrote_nothing t). unfold sealAndWrite.
  destruct He as [He|He]; apply (on_session_ok _ t _ []) in He.
  - rw (st_bind_ok _ _ _ _ _ He). cbv beta iota.
    set (ct := record_of _ _ _ _ _). assert (len ct = len data + 16) as Hl by apply aead_seal_len.
    destruct (decide (len data + 16 <= MaxPayloadSize)) as [Hle|Hgt].
    + right. split; [done|]. rw EncodeData_wire; [lia|]. erewrite st_bind_lift; [|done].
      by apply writeLocked_ok.
    + left. exists ErrMessageTooLarge. unfold EncodeData.
      replace (MaxPayloadSize <? len ct) with true by blia. done.
  - left. exists ErrNonceExhausted. unfold st_bind. by rw He.
Qed.

Definition rekey_request (k : list Z) (s : Session) (pk : list Z) : item :=
  Rec MessageTypeRekey k (s_sendSeq s) (wire_Rekey_payload pk (u64_add (s_sendSeq s) 16)).

(** Sealing and writing a rekey record, which ends both [SendRekey] and [sendRekeyResponse]. *)
Lemma sendRekeyResponse_cases now t s l k b act : usable t -> can_send s k -> 0 < len b <= 65000 ->
  exists s', sent_from s s' /\
    (sendRekeyResponse now b act (wrote t s l) =
       (wrote t s' (l ++ [wire cs (s_sendNoncePrefix s)
          (Rec MessageTypeRekey k (s_sendSeq s) (wire_Rekey_payload b act))]), Ok tt) \/
     sendRekeyResponse now b act (wrote t s l) = (wrote t s' l, Err ErrNonceExhausted)).
Proof.
  intros Hu (Hk & H0 & Hlt) Hb. unfold sendRekeyResponse. rw EncodeRekeyPayload_wire; [lia|].
  erewrite st_bind_lift; [|done].
  destruct (Encrypt_cases cs now (wire_Rekey_payload b act) s k Hk H0 Hlt) as (s' & Hs & HE).
  exists s'. split; [done|]. destruct HE as [HE|HE]; apply (on_session_ok _ t _ l) in HE; [left|right].
  - rw (st_bind_ok _ _ _ _ _ HE). cbv beta iota. rw EncodeRekey_wire.
    { unfold record_of. rw aead_seal_len. unfold wire_Rekey_payload. golia. }
    erewrite st_bind_lift; [|done]. by apply writeLocked_ok.
  - unfold st_bind. by rw HE.
Qed.

(** [SendRekey] on session [s]: nothing happened, or the session began a rekey and [out] is what
    went on the wire, the request or nothing. *)
Definition asks (k : list Z) (s s' : Session) (out : list item) : Prop :=
  (s' = s /\ out = []) \/
  exists kp pk, s_rekeyInProgress s = false /\ key_of (s_kemSuite s) kp /\
    PublicKey_Bytes (KeyPair_PublicKey kp) = Ok pk /\ len pk <= 65000 /\
    sent_from (initiated s kp) s' /\ (out = [] \/ out = [rekey_request k s pk]).

Lemma SendRekey_cases z t s l k : usable t -> suite_good (s_kemSuite s) -> can_send s k ->
  exists s' out o, asks k s s' out /\ o <> Panic /\
    SendRekey z (wrote t s l) = (wrote t s' (l ++ map (wire cs (s_sendNoncePrefix s)) out), o).
Proof.
  intros Hu Hg (Hk & H0 & Hlt). unfold SendRekey. rw (st_bind_ok _ _ _ _ _ (checkClosed_ok (wrote t s l) Hu)).
  destruct (InitiateRekey_cases (te_rnd z) s Hg) as [[e He]|(kp & pk & He & Hr & Hkey & Hpk & Hl)];
    apply (on_session_ok _ t _ l) in He.
  { exists s, [], (Err e). split; [by left|]. split; [done|]. cbn. rw app_nil_r. unfold st_bind. by rw He. }
  rw (st_bind_ok _ _ _ _ _ He). cbv beta iota.
  destruct (sendRekeyResponse_cases (te_now z) t (initiated s kp) l k pk (u64_add (s_sendSeq s) 16))
    as (s' & Hs & HE); [done|done|done|].
  assert (forall out, out = [] \/ out = [rekey_request k s pk] -> asks k s s' out) as Hasks.
  { intros out Hout. right. exists kp, pk. do 3 (split; [done|]). split; [lia|done]. }
  exists s'. destruct HE as [HE|HE].
  - exists [rekey_request k s pk], (Ok tt). split; [apply Hasks; by right|]. split; [done|]. exact HE.
  - exists [], (Err ErrNonceExhausted). split; [apply Hasks; by left|]. split; [done|].
    cbn. rw app_nil_r. exact HE.
Qed.

Lemma CheckAndRekey_cases z t s l k : usable t -> suite_good (s_kemSuite s) -> can_send s k ->
  exists s' out o, asks k s s' out /\ o <> Panic /\ (s_Role s = RoleInitiator \/ s' = s /\ out = []) /\
    CheckAndRekey z (wrote t s l) = (wrote t s' (l ++ map (wire cs (s_sendNoncePrefix s)) out), o).
Proof.
  intros Hu Hg Hc. unfold CheckAndRekey. rw st_bind_get. change (t_session (wrote t s l)) with s. cbv zeta.
  assert (exists s' out o, asks k s s' out /\ o <> Panic /\ (s_Role s = RoleInitiator \/ s' = s /\ out = []) /\
    (wrote t s l, Ok tt : outcome error unit) = (wrote t s' (l ++ map (wire cs (s_sendNoncePrefix s)) out), o)) as Hstay.
  { exists s, [], (Ok tt). split; [by left|]. split; [done|]. split; [by right|]. cbn. by rw app_nil_r. }
  case_bool_decide as Hr; [|exact Hstay]. cbn [negb]. destruct (IsRekeyInProgress s); [exact Hstay|].
  destruct (NeedsRekey _ s); [|exact Hstay].
  destruct (SendRekey_cases z t s l k Hu Hg Hc) as (s' & out & o & Ha & Ho & He).
  exists s', out, o. by do 3 (split; [auto|]).
Qed.

Lemma Send_cases z data t k : usable t -> suite_good (s_kemSuite (t_session t)) ->
  can_send (t_session t) k -> s_sendSeq (t_session t) + 1 < 2 ^ 64 - 1 ->
  let s := t_session t in
  (exists s' e, (s' = s \/ sent_from s s') /\ Send z data t = (wrote t s' [], Err e)) \/
  exists s1 s2 out, sent_from s s1 /\ len data + 16 <= MaxPayloadSize /\ asks k s1 s2 out /\
    (s_Role s = RoleInitiator \/ s2 = s1 /\ out = []) /\
    Send z data t = (wrote t s2 (map (wire cs (s_sendNoncePrefix s))
                       (Rec MessageTypeData k (s_sendSeq s) data :: out)), Ok tt).
Proof.
  intros Hu Hg Hc Hlt s. subst s. unfold Send. rw (st_bind_ok _ _ _ _ _ (checkClosed_ok t Hu)).
  destruct (negb _). 2:{ left. eexists _, _. split; [by left|]. rw {1}(wrote_nothing t). reflexivity. }
  destruct (sealAndWrite_cases (te_now z) t k data Hu Hc) as (s1 & Hs & [[e He]|[Hl He]]).
  { left. exists s1, e. split; [by right|]. unfold st_bind. by rw He. }
  right. rw (st_bind_ok _ _ _ _ _ He). pose proof Hs as (b & n & l & E).
  destruct (CheckAndRekey_cases z t s1 [wire cs (s_sendNoncePrefix (t_session t))
    (Rec MessageTypeData k (s_sendSeq (t_session t)) data)] k) as (s2 & out & o & Ha & Ho & Hr & HC).
  { done. } { by rw E. } { destruct Hc as (Hc1 & Hc2 & Hc3). subst s1. split; [done|]. cbn. lia. }
  exists s1, s2, out. do 3 (split; [done|]). split; [destruct Hr as [Hr|?]; [left; by rw E in Hr|by right]|].
  unfold ignoring. rw HC. replace (s_sendNoncePrefix s1) with (s_sendNoncePrefix (t_session t)) by (by rw E).
  by destruct o.
Qed.

(** * The invariant of the system *)

Definition sessions (t : Tunnel) (x : Role) : Session := t_session (tn_end t x).

(** [n] sequence numbers are left on either side. *)
Record live (t : Tunnel) (Q : Role -> list item) (k : Role -> list Z) (n : Z) : Prop := {
  lv_link : link fips cs (sessions t) Q k;
  lv_suite : suite_good (s_kemSuite (sessions t RoleInitiator));
  lv_usable : forall x, usable (tn_end t x);
  lv_out : forall x, cn_out (t_conn (tn_end t x)) = [];
  lv_in : forall x, cn_in (t_conn (tn_end t (Role_peer x))) =
    concat (map (wire cs (s_sendNoncePrefix (sessions t x))) (Q x));
  lv_room : forall x, s_sendSeq (sessions t x) + n < 2 ^ 64 - 1;
  lv_books : forall x, tn_sent t x = tn_got t (Role_peer x) ++ omap data_of (Q x) }.

Lemma live_can_send t Q k n x : live t Q k n -> 0 <= n -> can_send (sessions t x) (k x).
Proof.
  intros [[[] _] _ _ _ _ Hr _] Hn. specialize (Hr x).
  destruct x; (split; [done|]); [pose proof (fl_epoch _ _ _ pd_ir)|pose proof (fl_epoch _ _ _ pd_ri)]; lia.
Qed.

Lemma live_suite t Q k n x : live t Q k n -> suite_good (s_kemSuite (sessions t x)).
Proof. intros [[[] _] Hg _ _ _ _ _]. destruct x; [done|]. by rw pd_kem. Qed.

Lemma live_prefix t Q k n x : live t Q k n ->
  s_sendNoncePrefix (sessions t (Role_peer x)) = s_recvNoncePrefix (sessions t x).
Proof. intros [[[] _] _ _ _ _ _ _]. destruct x; symmetry; [apply pd_ri|apply pd_ir]. Qed.

(** A session step of side [x] within a call that leaves it the transport [e]. *)
Lemma live_carry t Q k n x e Q' k' n' out sent got :
  live t Q k n -> n' <= n -> usable e ->
  link fips cs (set_at x (t_session e) (sessions t)) Q' k' ->
  s_sendNoncePrefix (t_session e) = s_sendNoncePrefix (sessions t x) ->
  s_kemSuite (t_session e) = s_kemSuite (sessions t x) ->
  s_sendSeq (t_session e) + n' < 2 ^ 64 - 1 ->
  cn_out (t_conn e) = map (wire cs (s_sendNoncePrefix (sessions t x))) out ->
  Q' x = Q x ++ out ->
  cn_in (t_conn e) = concat (map (wire cs (s_sendNoncePrefix (sessions t (Role_peer x)))) (Q' (Role_peer x))) ->
  (forall y, sent y = got (Role_peer y) ++ omap data_of (Q' y)) ->
  live (mkTunnel (tn_end (carry x e t)) sent got) Q' k' n'.
Proof.
  intros [Hl Hg Hu Ho Hi Hr Hb] Hn Hue Hl' Hpre Hkem Hseq Hout HQ Hin Hb'.
  assert (forall y, sessions (mkTunnel (tn_end (carry x e t)) sent got) y = set_at x (t_session e) (sessions t) y)
    as HS by (intros y; by destruct x, y).
  split; try done.
  - destruct x; exact Hl'.
  - rw HS. destruct x; cbn [set_at]; [by rw Hkem|done].
  - intros y. pose proof (Hu y). destruct x, y; try done; apply Hue.
  - intros y. pose proof (Ho y). by destruct x, y.
  - intros y. rw HS. pose proof (Hi y). pose proof (Hi x).
    destruct x, y; cbn [carry tn_end set_at Role_peer] in *; cbn -[wire]; rw ?Hpre; try done; rw HQ map_app concat_app Hout; by f_equal.
  - intros y. rw HS. pose proof (Hr y). destruct x, y; cbn [set_at]; lia.
Qed.

Lemma link_same S Q k x : link fips cs S Q k -> link fips cs (set_at x (S x) S) (set_at x (Q x ++ []) Q) k.
Proof. intros H. rw app_nil_r. by destruct x. Qed.

Lemma link_asks S Q k s' out : link fips cs S Q k -> asks (k RoleInitiator) (S RoleInitiator) s' out ->
  link fips cs (set_at RoleInitiator s' S) (set_at RoleInitiator (Q RoleInitiator ++ out) Q) k.
Proof.
  intros Hl [[-> ->]|(kp & pk & Hr & Hkey & Hpk & Hlen & Hs & [->| ->])].
  - by apply link_same.
  - rw app_nil_r. exact (link_skip _ _ _ _ _ RoleInitiator _ (link_initiated _ _ _ _ _ kp Hl Hr) Hs).
  - by eapply link_ask.
Qed.

Lemma asks_seq k s s' out : asks k s s' out -> s_sendSeq s' <= s_sendSeq s + 1 /\
  s_sendNoncePrefix s' = s_sendNoncePrefix s /\ s_kemSuite s' = s_kemSuite s /\ omap data_of out = [].
Proof.
  intros [[-> ->]|(kp & pk & _ & _ & _ & _ & (b & n & l & ->) & Hout)]; [cbn; repeat split; lia|].
  cbn. destruct Hout as [->| ->]; repeat split; lia.
Qed.

Lemma wrote_usable t s l : usable t -> usable (wrote t s l).
Proof. done. Qed.

(** A call of side [x] that reads nothing, from session to session and with [out] on the wire. *)
Lemma live_call t Q k n x s' out sent : live t Q k (n + 2) ->
  link fips cs (set_at x s' (sessions t)) (set_at x (Q x ++ out) Q) k ->
  s_sendSeq s' <= s_sendSeq (sessions t x) + 2 ->
  s_sendNoncePrefix s' = s_sendNoncePrefix (sessions t x) -> s_kemSuite s' = s_kemSuite (sessions t x) ->
  (forall y, sent y = tn_got t (Role_peer y) ++ omap data_of (set_at x (Q x ++ out) Q y)) ->
  live (mkTunnel (tn_end (carry x (wrote (tn_end t x) s' (map (wire cs (s_sendNoncePrefix (sessions t x))) out)) t))
          sent (tn_got t)) (set_at x (Q x ++ out) Q) k n.
Proof.
  intros Hl Hk Hseq Hpre Hkem Hb. pose proof (lv_room _ _ _ _ Hl x). pose proof (lv_out _ _ _ _ Hl x) as Ho.
  eapply (live_carry _ _ _ _ _ _ _ _ _ out); [exact Hl|lia|apply wrote_usable, Hl|exact Hk|exact Hpre|exact Hkem| | | | |done].
  - change (t_session (wrote _ s' _)) with s'. lia.
  - unfold wrote. cbn -[wire]. by rw Ho.
  - by destruct x.
  - pose proof (lv_in _ _ _ _ Hl (Role_peer x)) as Hi. destruct x; exact Hi.
Qed.

Lemma books_same t Q k n x out : live t Q k n -> omap data_of out = [] ->
  forall y, tn_sent t y = tn_got t (Role_peer y) ++ omap data_of (set_at x (Q x ++ out) Q y).
Proof.
  intros Hl Ho y. rw (lv_books _ _ _ _ Hl y). destruct x, y; cbn [set_at]; rw ?omap_app ?Ho ?app_nil_r //.
Qed.

Lemma books_sent t Q k n x p q out : live t Q k n -> omap data_of out = [] -> data_of q = Some p ->
  forall y, set_at x (tn_sent t x ++ [p]) (tn_sent t) y =
    tn_got t (Role_peer y) ++ omap data_of (set_at x (Q x ++ q :: out) Q y).
Proof.
  intros Hl Ho Hd y. pose proof (lv_books _ _ _ _ Hl) as Hb.
  destruct x, y; cbn [set_at]; rw ?omap_app ?(Hb RoleInitiator) ?(Hb RoleResponder) //; cbn; rw Hd Ho -app_assoc //.
Qed.

Definition goes_on (ev : TunnelEvent) (t : Tunnel) (n : Z) : Prop :=
  exists t' Q k, tn_step fips ev t = (t', Ok tt) /\ live t' Q k n.

Lemma sent_seq s s' : sent_from s s' -> s_sendSeq s' = s_sendSeq s + 1 /\
  s_sendNoncePrefix s' = s_sendNoncePrefix s /\ s_kemSuite s' = s_kemSuite s /\ s_Role s' = s_Role s.
Proof. by intros (b & n & l & ->). Qed.

Lemma Send_goes_on t Q k n x z data : live t Q k (n + 2) -> 0 <= n -> goes_on (EvSend x z data) t n.
Proof.
  intros Hl Hn. pose proof (lv_link _ _ _ _ Hl) as Hk. pose proof (lv_room _ _ _ _ Hl x) as Hr.
  unfold goes_on, tn_step.
  destruct (Send_cases z data (tn_end t x) (k x)) as [(s' & e & Hs & ->)|(s1 & s2 & out & Hs & Hlen & Ha & Hi & ->)].
  { apply Hl. } { by eapply live_suite. } { eapply live_can_send; [done|lia]. } { unfold sessions in Hr. lia. }
  - eexists _, _, _. split; [reflexivity|].
    eapply (live_call _ _ _ _ _ _ []); [exact Hl| | | | |by eapply books_same]; fold (sessions t x) in Hs.
    + destruct Hs as [->|Hs]; [by apply link_same|]. rw app_nil_r. destruct x; by eapply link_skip.
    + destruct Hs as [->|[? _]%sent_seq]; lia.
    + by destruct Hs as [->|(_ & ? & _)%sent_seq].
    + by destruct Hs as [->|(_ & _ & ? & _)%sent_seq].
  - fold (sessions t x) in Hs, Hi. fold (sessions t x). destruct (sent_seq _ _ Hs) as (Q1 & Q2 & Q3 & Q4).
    destruct (asks_seq _ _ _ _ Ha) as (A1 & A2 & A3 & A4).
    eexists _, _, _. split; [reflexivity|].
    eapply live_call; [exact Hl| |lia|by rw A2|by rw A3|by eapply books_sent].
    assert (item_ok (Rec MessageTypeData (k x) (s_sendSeq (sessions t x)) data)) as Hok.
    { split; [by left|]. split; [|done]. pose proof (live_can_send _ _ _ _ x Hl ltac:(lia)) as (_ & ? & _). lia. }
    pose proof (link_send _ _ _ _ _ x s1 _ _ Hk Hs Hok eq_refl) as Hk1. rw cons_middle app_assoc.
    destruct x; [exact (link_asks _ _ _ _ _ Hk1 Ha)|].
    destruct Hi as [Hi|[-> ->]]; [|by rw app_nil_r].
    pose proof Hk as [[] _]. by rw Hi in pd_role_r.
Qed.

Lemma Ping_goes_on t Q k n x : live t Q k (n + 2) -> 0 <= n -> goes_on (EvPing x) t n.
Proof.
  intros Hl Hn. unfold goes_on, tn_step, SendPing. pose proof (lv_usable _ _ _ _ Hl x) as Hu.
  rw (st_bind_ok _ _ _ _ _ (checkClosed_ok _ Hu)). rw {1}(wrote_nothing (tn_end t x)). unfold writeFrame.
  rw writeLocked_ok //. cbn [app]. eexists _, _, _. split; [reflexivity|].
  eapply (live_call _ _ _ _ _ _ [Ctl MessageTypePing]); [exact Hl| |unfold sessions; lia|done|done|by eapply books_same].
  pose proof (link_ctl _ _ _ _ _ x _ (lv_link _ _ _ _ Hl) (or_introl eq_refl : item_ok (Ctl MessageTypePing))).
  by destruct x.
Qed.

Lemma Rekey_goes_on t Q k n z : live t Q k (n + 2) -> 0 <= n -> goes_on (EvRekey z) t n.
Proof.
  intros Hl Hn. unfold goes_on, tn_step. rw {1}(wrote_nothing (tn_end t RoleInitiator)).
  fold (sessions t RoleInitiator).
  destruct (SendRekey_cases z (tn_end t RoleInitiator) (sessions t RoleInitiator) [] (k RoleInitiator))
    as (s' & out & o & Ha & Ho & ->).
  { apply Hl. } { apply Hl. } { eapply live_can_send; [done|lia]. }
  destruct (asks_seq _ _ _ _ Ha) as (A1 & A2 & A3 & A4). eexists _, _, _. split; [by destruct o|].
  eapply live_call; [exact Hl|by eapply link_asks; [apply Hl|]|lia|done|done|by eapply books_same].
Qed.

(** ** Receive turns *)

Definition item_type (it : item) : MessageType := match it with Rec mt _ _ _ | Ctl mt => mt end.

Lemma wire_shape pre it : item_ok it ->
  exists p, wire cs pre it = wire_payload (item_type it) p /\ len p <= MaxMessageSize.
Proof.
  destruct it as [mt k seq p|mt]; intros Hok; eexists; (split; [reflexivity|]); [|golia].
  destruct Hok as (_ & _ & Hl). unfold record_of. rw len_app aead_seal_len. unfold MaxPayloadSize, MaxMessageSize in *. golia.
Qed.

Lemma readMessage_wire t pre it rest : item_ok it -> cn_in (t_conn t) = wire cs pre it ++ rest ->
  exists buf, readMessage t = (took t rest buf, Ok (wire cs pre it, item_type it)).
Proof.
  intros Hok Hin. destruct (wire_shape pre it Hok) as (p & E & Hp). rw E in Hin. rw E.
  destruct (ReadMessageInto_wire (t_readBuf t) (item_type it) p rest Hp) as (b & HR & Hs).
  exists b. unfold readMessage.
  rw (st_bind_ok _ _ _ (t <| t_conn := (t_conn t) <| cn_in := rest |> |>) (b, HeaderSize + len p)).
  { unfold conn_read. by rw Hin HR. }
  cbv beta iota. rw st_bind_mod (st_bind_lift _ _ _ _ Hs).
  assert (GetMessageType (wire_payload (item_type it) p) = Ok (item_type it)) as Hg.
  { unfold GetMessageType. unfold wire_payload. gd. done. }
  by rw (st_bind_lift _ _ _ _ Hg).
Qed.

(** What a turn of side [x] leaves: the record in front is gone and [out] is on the wire. *)
Lemma live_turn t Q k n x it q s' out k' buf rest got : live t Q k (n + 2) -> Q (Role_peer x) = it :: q ->
  cn_in (t_conn (tn_end t x)) = wire cs (s_sendNoncePrefix (sessions t (Role_peer x))) it ++ rest ->
  let Q' := set_at x (Q x ++ out) (set_at (Role_peer x) q Q) in
  link fips cs (set_at x s' (sessions t)) Q' k' ->
  s_sendSeq s' <= s_sendSeq (sessions t x) + 2 ->
  s_sendNoncePrefix s' = s_sendNoncePrefix (sessions t x) -> s_kemSuite s' = s_kemSuite (sessions t x) ->
  (forall y, tn_sent t y = got (Role_peer y) ++ omap data_of (Q' y)) ->
  live (mkTunnel (tn_end (carry x (wrote (took (tn_end t x) rest buf) s'
          (map (wire cs (s_sendNoncePrefix (sessions t x))) out)) t)) (tn_sent t) got) Q' k' n.
Proof.
  intros Hl HQ Hin Q' Hk Hseq Hpre Hkem Hb. pose proof (lv_room _ _ _ _ Hl x). pose proof (lv_out _ _ _ _ Hl x) as Ho.
  eapply (live_carry _ _ _ _ _ _ _ _ _ out); [exact Hl|lia|apply (lv_usable _ _ _ _ Hl x)|exact Hk|exact Hpre|exact Hkem| | | | |done].
  - change (t_session (wrote _ s' _)) with s'. lia.
  - unfold wrote, took. cbn -[wire]. by rw Ho.
  - subst Q'. by destruct x.
  - pose proof (lv_in _ _ _ _ Hl (Role_peer x)) as Hi. rw HQ in Hi. cbn [map concat] in Hi.
    replace (tn_end t (Role_peer (Role_peer x))) with (tn_end t x) in Hi by (by destruct x). rw Hin in Hi.
    apply app_inv_head in Hi. subst rest Q'. by destruct x.
Qed.

Lemma books_skip t Q k n x it q out : live t Q k n -> Q (Role_peer x) = it :: q -> data_of it = None ->
  omap data_of out = [] ->
  forall y, tn_sent t y = tn_got t (Role_peer y) ++ omap data_of (set_at x (Q x ++ out) (set_at (Role_peer x) q Q) y).
Proof.
  intros Hl HQ Hd Ho y. rw (lv_books _ _ _ _ Hl y).
  destruct x, y; cbn [set_at Role_peer] in *; rw ?HQ ?omap_app ?Ho ?app_nil_r //; cbn; by rw Hd.
Qed.

Lemma books_got t Q k n x it q p : live t Q k n -> Q (Role_peer x) = it :: q -> data_of it = Some p ->
  forall y, tn_sent t y = set_at x (tn_got t x ++ [p]) (tn_got t) (Role_peer y) ++
    omap data_of (set_at x (Q x ++ []) (set_at (Role_peer x) q Q) y).
Proof.
  intros Hl HQ Hd y. rw (lv_books _ _ _ _ Hl y).
  destruct x, y; cbn [set_at Role_peer] in *; rw ?HQ ?app_nil_r //; cbn; by rw Hd -app_assoc.
Qed.

(** The record in front of side [x] opens under a key it was not sealed with. *)
Definition confused_at (t : Tunnel) : Prop :=
  exists x mt key seq p rest, cn_in (t_conn (tn_end t x))
      = wire cs (s_recvNoncePrefix (sessions t x)) (Rec mt key seq p) ++ rest /\
    confused cs (sessions t x) key seq p.

Lemma live_front t Q k n x it q : live t Q k n -> 0 <= n -> Q (Role_peer x) = it :: q ->
  item_ok it /\ (forall mt key seq p, it = Rec mt key seq p -> is_u64 seq) /\
  exists rest, cn_in (t_conn (tn_end t x)) = wire cs (s_sendNoncePrefix (sessions t (Role_peer x))) it ++ rest.
Proof.
  intros Hl Hn HQ. pose proof (lv_link _ _ _ _ Hl) as [[] _].
  assert (flow (sessions t (Role_peer x)) (sessions t x) (it :: q)) as Hf by (destruct x; by rw -HQ).
  split; [by destruct Hf as [_ _ _ [? _]%Forall_cons_1]|]. split.
  - intros mt key seq p ->. pose proof (lv_room _ _ _ _ Hl (Role_peer x)).
    eapply (flow_next _ _ _ _ _ _ _ Hf). lia.
  - pose proof (lv_in _ _ _ _ Hl (Role_peer x)) as Hi. rw HQ in Hi.
    replace (tn_end t (Role_peer (Role_peer x))) with (tn_end t x) in Hi by (by destruct x). cbn [map concat] in Hi. by eexists.
Qed.

Lemma live_small t Q k n : live t Q k n -> 0 <= n -> forall y, s_sendSeq (sessions t y) < 2 ^ 64.
Proof. intros Hl Hn y. pose proof (lv_room _ _ _ _ Hl y). lia. Qed.

(** The head of a turn: the message is read, and its type decides. *)
Lemma turn_reads z t pre it rest : usable t -> item_ok it -> cn_in (t_conn t) = wire cs pre it ++ rest ->
  exists buf, receive_turn fips z t =
    (let msg := wire cs pre it in
     match it with
     | Rec mt _ _ _ => if mt =? MessageTypeData
                       then st_bind (handleData (te_now z) msg) (fun data => st_ret (Some data))
                       else st_bind (handleRekey fips z msg) (fun _ => st_ret None)
     | Ctl mt => if mt =? MessageTypePing then st_bind sendPong (fun _ => st_ret None) else st_ret None
     end) (took t rest buf).
Proof.
  intros Hu Hok Hin. destruct (readMessage_wire t pre it rest Hok Hin) as (buf & HR). exists buf.
  unfold receive_turn. rw (st_bind_ok _ _ _ _ _ (checkClosed_ok _ Hu)) (st_bind_ok _ _ _ _ _ HR). cbv beta iota zeta.
  destruct it as [mt key seq p|mt]; cbn [item_type].
  - by destruct Hok as ([->| ->] & _).
  - by destruct Hok as [->| ->].
Qed.

Lemma Data_turn t Q k n x z key seq p q : live t Q k (n + 2) -> 0 <= n ->
  Q (Role_peer x) = Rec MessageTypeData key seq p :: q -> confused_at t \/ goes_on (EvTurn x z) t n.
Proof.
  intros Hl Hn HQ. destruct (live_front _ _ _ _ _ _ _ Hl ltac:(lia) HQ) as (Hok & Hu & rest & Hin).
  specialize (Hu _ _ _ _ eq_refl). pose proof Hin as Hin0. rw (live_prefix _ _ _ _ x Hl) in Hin.
  destruct (link_recv fips cs (te_now z) _ _ _ x _ _ _ _ (lv_link _ _ _ _ Hl) (live_small _ _ _ _ Hl ltac:(lia)) HQ)
    as [Hc|(s' & HD & Hrf & Hk)]; [left; by eexists _, _, _, _, _, _|right].
  unfold goes_on, tn_step. destruct (cn_in (t_conn (tn_end t x))) as [|b0 bs] eqn:Hcn; [discriminate Hin|].
  destruct (turn_reads z (tn_end t x) (s_recvNoncePrefix (sessions t x)) _ rest (lv_usable _ _ _ _ Hl x) Hok) as (buf & ->); [by rw Hcn|].
  cbv zeta. rw Z.eqb_refl {1}(wrote_nothing (took _ _ _)). unfold handleData, wire.
  rw DecodeData_wire //. apply (on_session_ok _ (took (tn_end t x) rest buf) _ []) in HD.
  rw (st_bind_ok _ _ _ _ _ HD). eexists _, _, _. split; [reflexivity|].
  destruct Hrf as (w & c1 & c2 & b1 & n1 & l1 & ->).
  eapply (live_turn _ _ _ _ _ _ _ _ []); [exact Hl|exact HQ|by rw Hcn| |cbn; lia|done|done|by eapply books_got].
  rw app_nil_r. by destruct x.
Qed.

Lemma Ctl_turn t Q k n x z mt q : live t Q k (n + 2) -> 0 <= n ->
  Q (Role_peer x) = Ctl mt :: q -> goes_on (EvTurn x z) t n.
Proof.
  intros Hl Hn HQ. destruct (live_front _ _ _ _ _ _ _ Hl ltac:(lia) HQ) as (Hok & _ & rest & Hin).
  pose proof (link_recv_ctl fips cs _ _ _ x _ _ (lv_link _ _ _ _ Hl) HQ) as Hk.
  unfold goes_on, tn_step. destruct (cn_in (t_conn (tn_end t x))) as [|b0 bs] eqn:Hcn; [discriminate Hin|].
  destruct (turn_reads z (tn_end t x) _ _ rest (lv_usable _ _ _ _ Hl x) Hok ltac:(by rw Hcn)) as (buf & ->).
  cbv zeta. rw {1}(wrote_nothing (took _ _ _)). rw Hin in Hcn.
  destruct (mt =? MessageTypePing).
  - unfold sendPong, writeFrame. rw (st_bind_ok _ _ _ _ _ (writeLocked_ok _ _ [] encodePong (lv_usable _ _ _ _ Hl x : usable (took (tn_end t x) rest buf)))).
    eexists _, _, _. split; [reflexivity|].
    eapply (live_turn _ _ _ _ _ _ _ _ [Ctl MessageTypePong]); [exact Hl|exact HQ|exact Hcn| |unfold sessions, took; cbn; lia|done|done|by eapply books_skip].
    pose proof (link_ctl fips cs _ _ _ x _ Hk (or_intror eq_refl : item_ok (Ctl MessageTypePong))). by destruct x.
  - eexists _, _, _. split; [reflexivity|].
    eapply (live_turn _ _ _ _ _ _ _ _ []); [exact Hl|exact HQ|exact Hcn| |unfold sessions, took; cbn; lia|done|done|by eapply books_skip].
    rw app_nil_r. by destruct x.
Qed.

(** A rekey record opened: the role and the state of the session decide. *)
Lemma handleRekey_opens z e s ct seq pk act s1 : is_u64 seq -> 0 < len pk < 2 ^ 16 -> is_u64 act ->
  Decrypt (te_now z) ct seq s = (s1, Ok (wire_Rekey_payload pk act)) ->
  handleRekey fips z (wire_payload MessageTypeRekey (be_put 8 seq ++ ct)) (wrote e s []) =
    (if bool_decide (s_Role s1 = RoleResponder) && negb (IsRekeyInProgress s1) then
       do! responseCT := on_session (PrepareRekeyResponse fips (te_rnd z) pk act) in
       do! _ := sendRekeyResponse (te_now z) responseCT act in
       on_session (ActivateRekeySend (te_now z))
     else if bool_decide (s_Role s1 = RoleInitiator) && IsRekeyInProgress s1 then
       on_session (ProcessRekeyResponse fips (te_now z) pk)
     else st_ret tt) (wrote e s1 []).
Proof.
  intros Hs Hpk Ha HD. unfold handleRekey. rw DecodeRekey_wire //. erewrite st_bind_lift; [|done]. cbv beta iota.
  apply (on_session_ok _ e _ []) in HD. rw (st_bind_ok _ _ _ _ _ HD).
  pose proof (DecodeRekeyPayload_wire pk act [] Hpk Ha) as HDec. rw app_nil_r in HDec.
  rw (st_bind_lift _ _ _ _ HDec). cbv beta iota. by rw st_bind_get.
Qed.

(** The response completes the initiator's rekey. *)
Lemma Response_turn t Q k n z key seq p q : live t Q k (n + 2) -> 0 <= n ->
  Q RoleResponder = Rec MessageTypeRekey key seq p :: q ->
  confused_at t \/ goes_on (EvTurn RoleInitiator z) t n.
Proof.
  intros Hl Hn HQ. destruct (live_front _ _ _ _ RoleInitiator _ _ Hl ltac:(lia) HQ) as (Hok & Hu & rest & Hin).
  specialize (Hu _ _ _ _ eq_refl). pose proof Hin as Hin0. rw (live_prefix _ _ _ _ RoleInitiator Hl) in Hin.
  destruct (link_finish fips cs (te_now z) _ _ _ _ _ _ _ (lv_link _ _ _ _ Hl) (live_small _ _ _ _ Hl ltac:(lia)) HQ)
    as [Hc|(ct & act & i1 & sc & rc & ns & ik & -> & Hct & Ha & HD & Hrf & Hr & HP & Hk)];
    [left; by eexists RoleInitiator, _, _, _, _, _|right].
  unfold goes_on, tn_step. destruct (cn_in (t_conn (tn_end t RoleInitiator))) as [|b0 bs] eqn:Hcn; [discriminate Hin|].
  destruct (turn_reads z (tn_end t RoleInitiator) (s_recvNoncePrefix (sessions t RoleInitiator)) _ rest
    (lv_usable _ _ _ _ Hl RoleInitiator) Hok ltac:(by rw Hcn)) as (buf & ->).
  cbv zeta. rw {1}(wrote_nothing (took _ _ _)). set (e := took _ _ _). unfold wire.
  replace (MessageTypeRekey =? MessageTypeData) with false by done.
  pose proof (handleRekey_opens z e _ _ _ _ _ _ Hu Hct Ha HD) as HH.
  destruct Hrf as (w & c1 & c2 & b1 & n1 & l1 & E).
  assert (s_Role i1 = RoleInitiator) as HR by (pose proof (lv_link _ _ _ _ Hl) as [[] _]; by rw E).
  unfold IsRekeyInProgress in HH. rw HR Hr in HH.
  change (bool_decide (RoleInitiator = RoleResponder)) with false in HH.
  change (bool_decide (RoleInitiator = RoleInitiator)) with true in HH. cbn [andb] in HH.
  rw (on_session_ok _ e _ [] _ _ HP) in HH.
  change (t_session e) with (sessions t RoleInitiator).
  rw (st_bind_ok _ _ _ _ _ HH). eexists _, _, _. split; [reflexivity|].
  eapply (live_turn _ _ _ _ RoleInitiator _ _ _ []); [exact Hl|exact HQ|by rw Hcn| | | | |by eapply books_skip].
  - by rw app_nil_r.
  - rw E. cbn. lia.
  - by rw E.
  - by rw E.
Qed.

Definition answer (z : TEnv) (pk : list Z) (act : Z) : Tr unit :=
  do! responseCT := on_session (PrepareRekeyResponse fips (te_rnd z) pk act) in
  do! _ := sendRekeyResponse (te_now z) responseCT act in
  on_session (ActivateRekeySend (te_now z)).

Lemma answer_cases z e r1 k pk act : usable e -> can_send r1 k ->
  (forall ct r2, PrepareRekeyResponse fips (te_rnd z) pk act r1 = (r2, Ok ct) ->
     0 < len ct <= 65000 /\ exists rc sc ns, r2 = prepared r1 act rc sc ns) ->
  (forall e', answer z pk act (wrote e r1 []) <> (e', Ok tt)) \/
  exists ct rc sc ns r3, PrepareRekeyResponse fips (te_rnd z) pk act r1 = (prepared r1 act rc sc ns, Ok ct) /\
    sent_from (prepared r1 act rc sc ns) r3 /\
    (ActivateRekeySend (te_now z) r3 = (switched (te_now z) r3 sc ns, Ok tt) ->
     answer z pk act (wrote e r1 []) = (wrote e (switched (te_now z) r3 sc ns)
      [wire cs (s_sendNoncePrefix r1) (Rec MessageTypeRekey k (s_sendSeq r1) (wire_Rekey_payload ct act))], Ok tt)).
Proof.
  intros Hu Hc HP. unfold answer.
  destruct (PrepareRekeyResponse fips (te_rnd z) pk act r1) as [r2 [ct|er|]] eqn:Hp;
    pose proof (on_session_ok _ e _ [] _ _ Hp) as He.
  - destruct (HP _ _ eq_refl) as (Hlen & rc & sc & ns & ->). clear HP.
    rw (st_bind_ok _ _ _ _ _ He).
    destruct (sendRekeyResponse_cases (te_now z) e (prepared r1 act rc sc ns) [] k ct act Hu Hc Hlen)
      as (r3 & Hs & [HS|HS]); [right|left].
    + exists ct, rc, sc, ns, r3. split; [done|]. split; [done|]. intros HA. rw (st_bind_ok _ _ _ _ _ HS).
      by apply on_session_ok.
    + intros e'. unfold st_bind. by rw HS.
  - left. intros e'. unfold st_bind. by rw He.
  - left. intros e'. unfold st_bind. by rw He.
Qed.

(** The responder meets the request: it answers, or the turn fails. *)
Lemma Request_turn t Q k n z key seq p q : live t Q k (n + 2) -> 0 <= n ->
  Q RoleInitiator = Rec MessageTypeRekey key seq p :: q ->
  confused_at t \/ goes_on (EvTurn RoleResponder z) t n \/
  forall t', tn_step fips (EvTurn RoleResponder z) t <> (t', Ok tt).
Proof.
  intros Hl Hn HQ. destruct (live_front _ _ _ _ RoleResponder _ _ Hl ltac:(lia) HQ) as (Hok & Hu & rest & Hin).
  specialize (Hu _ _ _ _ eq_refl). pose proof Hin as Hin0. rw (live_prefix _ _ _ _ RoleResponder Hl) in Hin.
  destruct (link_answer fips cs (te_now z) _ _ _ _ _ _ _ (lv_link _ _ _ _ Hl) (live_small _ _ _ _ Hl ltac:(lia))
    (lv_suite _ _ _ _ Hl) HQ) as [Hc|(pk & act & r1 & -> & Hpk & Ha & HD & Hrf & HA)];
    [left; by eexists RoleResponder, _, _, _, _, _|right].
  unfold goes_on, tn_step. destruct (cn_in (t_conn (tn_end t RoleResponder))) as [|b0 bs] eqn:Hcn; [discriminate Hin|].
  pose proof (lv_usable _ _ _ _ Hl RoleResponder) as Hus.
  destruct (turn_reads z (tn_end t RoleResponder) (s_recvNoncePrefix (sessions t RoleResponder)) _ rest
    Hus Hok ltac:(by rw Hcn)) as (buf & ->).
  cbv zeta. rw (wrote_nothing (took _ _ _)). set (e := took _ _ _). unfold wire.
  replace (MessageTypeRekey =? MessageTypeData) with false by done.
  pose proof (handleRekey_opens z e _ _ _ _ _ _ Hu Hpk Ha HD) as HH.
  pose proof Hrf as (w & c1 & c2 & b1 & n1 & l1 & E). pose proof (lv_link _ _ _ _ Hl) as [[] _].
  assert (s_Role r1 = RoleResponder /\ s_rekeyInProgress r1 = false) as [HR Hr] by (by rw E).
  unfold IsRekeyInProgress in HH. rw HR Hr in HH.
  change (bool_decide (RoleResponder = RoleResponder)) with true in HH. cbn [andb negb] in HH.
  fold (answer z pk act) in HH. change (t_session e) with (sessions t RoleResponder).
  destruct (answer_cases z e r1 (k RoleResponder) pk act Hus) as [Hfail|(ct & rc & sc & ns & r3 & HP & Hs & Hans)].
  { rw E. eapply (live_can_send _ _ _ _ RoleResponder Hl). lia. }
  { intros ct r2 (? & rc & sc & ns & kr & ? & _)%HA. split; [done|]. by exists rc, sc, ns. }
  - right. intros t'. unfold st_bind. rw HH. specialize (Hfail (answer z pk act (wrote e r1 [])).1).
    destruct (answer z pk act (wrote e r1 [])) as [e' [[]|er|]]; by [|cbn].
  - left. destruct (HA _ _ _ HP) as (Hct & rc' & sc' & ns' & kr & Heq & HL).
    pose proof (f_equal s_pendingSendCipher Heq) as [= <-]. pose proof (f_equal s_pendingRekeySecret Heq) as [= <-].
    destruct (HL r3 Hs) as [Hact Hlk]. rw (Hans Hact) in HH. rw (st_bind_ok _ _ _ _ _ HH).
    destruct Hs as (b2 & n2 & l2 & E3).
    replace (s_sendNoncePrefix r1) with (s_sendNoncePrefix (sessions t RoleResponder)) by (by rw E).
    replace (s_sendSeq r1) with (s_sendSeq (sessions t RoleResponder)) by (by rw E).
    eexists _, _, _. split; [reflexivity|].
    eapply (live_turn _ _ _ _ RoleResponder _ _ _
      [Rec MessageTypeRekey (k RoleResponder) (s_sendSeq (sessions t RoleResponder)) (wire_Rekey_payload ct act)]);
      [exact Hl|exact HQ|by rw Hcn|exact Hlk| | | |by eapply books_skip]; rw E3 E; cbn; [lia|done|done].
Qed.

(** * Runs *)

Definition answering (ev : TunnelEvent) (t : Tunnel) : Prop :=
  (exists z, ev = EvTurn RoleResponder z) /\
  head (cn_in (t_conn (tn_end t RoleResponder))) = Some MessageTypeRekey.

Lemma live_weaken t Q k n n' : live t Q k n -> n' <= n -> live t Q k n'.
Proof. intros [] Hn. split; try done. intros x. specialize (lv_room0 x). lia. Qed.

Lemma step_live ev t Q k n : live t Q k (n + 2) -> 0 <= n ->
  confused_at t \/ goes_on ev t n \/ (answering ev t /\ forall t', tn_step fips ev t <> (t', Ok tt)).
Proof.
  intros Hl Hn. destruct ev as [x z data|x|z|x z].
  - right. left. by eapply Send_goes_on.
  - right. left. by eapply Ping_goes_on.
  - right. left. by eapply Rekey_goes_on.
  - destruct (Q (Role_peer x)) as [|it q] eqn:HQ.
    { right. left. exists t, Q, k. split; [|eapply live_weaken; [done|lia]]. unfold tn_step.
      pose proof (lv_in _ _ _ _ Hl (Role_peer x)) as Hi. rw HQ in Hi.
      replace (tn_end t (Role_peer (Role_peer x))) with (tn_end t x) in Hi by (by destruct x). by rw Hi. }
    destruct (live_front _ _ _ _ _ _ _ Hl ltac:(lia) HQ) as (Hok & _ & rest & Hin).
    destruct it as [mt key seq p|mt]; [|right; left; by eapply Ctl_turn].
    destruct Hok as ([->| ->] & _); [destruct (Data_turn _ _ _ _ _ z _ _ _ _ Hl Hn HQ); auto|].
    destruct x; [destruct (Response_turn _ _ _ _ z _ _ _ _ Hl Hn HQ); auto|].
    destruct (Request_turn _ _ _ _ z _ _ _ _ Hl Hn HQ) as [?|[?|Hf]]; [by left|by right; left|].
    right. right. split; [|done]. split; [by exists z|]. by rw Hin.
Qed.

Lemma run_live evs : forall t Q k t' o, live t Q k (2 * len evs) -> tn_run fips evs t = (t', o) ->
  (exists evs' t1, evs' `prefix_of` evs /\ tn_run fips evs' t = (t1, None) /\ confused_at t1) \/
  ((exists Q' k', live t' Q' k' 0) /\ forall ev, o = Some ev -> answering ev t').
Proof.
  induction evs as [|ev evs IH]; intros t Q k t' o Hl Hrun.
  { injection Hrun as <- <-. right. split; [by exists Q, k|done]. }
  assert (2 * len (ev :: evs) = 2 * len evs + 2) as E by (rw len_cons; lia). rw E in Hl.
  pose proof (len_nonneg evs). cbn [tn_run] in Hrun.
  destruct (step_live ev t Q k (2 * len evs) Hl ltac:(lia)) as [Hc|[(t1 & Q1 & k1 & Hs & Hl1)|[Ha Hf]]].
  - left. exists [], t. split; [apply prefix_nil|done].
  - rw Hs in Hrun. destruct (IH _ _ _ _ _ Hl1 Hrun) as [(evs' & t2 & Hpre & Hr & Hc)|?]; [|by right].
    left. exists (ev :: evs'), t2. split; [by apply prefix_cons|]. cbn [tn_run]. by rw Hs.
  - destruct (tn_step fips ev t) as [t1 o1]. destruct o1 as [[]|e|]; [by destruct (Hf t1)| |];
      injection Hrun as <- <-; right; (split; [exists Q, k; eapply live_weaken; [done|lia]|by intros ? [= <-]]).
Qed.
End Calls.

(** * Properties *)

(** Two sessions as a handshake leaves them. *)
Record established_pair (i r : Session) : Prop := {
  ep_role_i : s_Role i = RoleInitiator;
  ep_role_r : s_Role r = RoleResponder;
  ep_kem : s_kemSuite r = s_kemSuite i;
  ep_suite : s_CipherSuite r = s_CipherSuite i;
  ep_secret : s_masterSecret r = s_masterSecret i;
  ep_idle : s_rekeyInProgress i = false /\ s_rekeyInProgress r = false;
  ep_window : s_replayWindow i = NewReplayWindow /\ s_replayWindow r = NewReplayWindow;
  ep_epoch_i : 0 <= s_sendEpochStartSeq i <= s_sendSeq i;
  ep_epoch_r : 0 <= s_sendEpochStartSeq r <= s_sendSeq r;
  ep_ir : exists k, keyed (s_CipherSuite i) k (s_sendCipher i) /\ keyed (s_CipherSuite i) k (s_recvCipher r);
  ep_ri : exists k, keyed (s_CipherSuite i) k (s_sendCipher r) /\ keyed (s_CipherSuite i) k (s_recvCipher i);
  ep_prefix : s_recvNoncePrefix r = s_sendNoncePrefix i /\ s_recvNoncePrefix i = s_sendNoncePrefix r }.

Lemma established_live {P : Primitives} {K : KEMPrimitives} {KL : KEMLaws K} {PL : PrimitivesLaws P}
    fips id i r ti tr n :
  GetSuite id = Some (s_kemSuite i) -> established_pair i r ->
  NewTransport i (mkConn [] [] []) = Ok ti -> NewTransport r (mkConn [] [] []) = Ok tr ->
  s_sendSeq i + n < 2 ^ 64 - 1 -> s_sendSeq r + n < 2 ^ 64 - 1 ->
  exists Q k, live fips (s_CipherSuite i) (tn_start ti tr) Q k n.
Proof.
  intros Hg [] Hi Hr Li Lr. unfold NewTransport in Hi, Hr. okinv Hi. okinv Hr.
  apply Ok_inj in Hi as <-. apply Ok_inj in Hr as <-. unfold is_state in *.
  repeat match goal with H : bool_decide _ = true |- _ => apply bool_decide_eq_true in H end.
  destruct ep_ir0 as (ki & Ki & Ki'). destruct ep_ri0 as (kr & Kr & Kr'). destruct ep_idle0, ep_prefix0, ep_window0 as [W1 W2].
  exists (fun _ => []), (fun x => match x with RoleInitiator => ki | RoleResponder => kr end).
  assert (window_of NewReplayWindow []) as HW by (by apply NewWindow_of).
  assert (forall n, StronglySorted Z.lt (reverse [] ++ seqs [] ++ [n])) as HS by (intros; repeat constructor).
  split; try done.
  - split; [split; try done; (split; [done| |done|done]); exists []; cbn in *; by rw ?W1 ?W2|].
    left. split; [by constructor|]. split; [by constructor|]. cbn.
    split; [exists ki; by split; [|left]|]. split; [exists kr; by split; [|left]|].
    intros _. split; [done|]. unfold ms_bytes. by rw ep_secret0.
  - by eapply GetSuite_good.
  - by intros [].
  - by intros [].
  - by intros [].
  - by intros [].
Qed.

(** What a run from [start] shows.  On either side what was received is a prefix of what the other
    side's successful sends were given, in order, nothing lost, repeated or altered, and all of it
    once the stream is drained; outside a rekey the initiator has the responder's master secret;
    and no call fails except the responder's answer to a rekey request.  The one way out is a
    record that opens under a key it was not sealed with. *)
Definition delivers {P : Primitives} (fips : bool) (cs : CipherSuite) (start : Tunnel)
    (evs : list TunnelEvent) (t : Tunnel) (o : option TunnelEvent) : Prop :=
  (exists evs' t', evs' `prefix_of` evs /\ tn_run fips evs' start = (t', None) /\ confused_at cs t') \/
  ((forall x, tn_got t (Role_peer x) `prefix_of` tn_sent t x) /\
   (forall x, cn_in (t_conn (tn_end t (Role_peer x))) = [] -> tn_got t (Role_peer x) = tn_sent t x) /\
   (s_rekeyInProgress (sessions t RoleInitiator) = false ->
    ms_bytes (sessions t RoleInitiator) = ms_bytes (sessions t RoleResponder)) /\
   (forall ev, o = Some ev -> (exists z, ev = EvTurn RoleResponder z) /\
      head (cn_in (t_conn (tn_end t RoleResponder))) = Some MessageTypeRekey)).

Lemma pair_delivers {P : Primitives} {PL : PrimitivesLaws P} {K : KEMPrimitives} {KL : KEMLaws K}
    fips id i r ti tr evs t o :
  GetSuite id = Some (s_kemSuite i) -> established_pair i r ->
  NewTransport i (mkConn [] [] []) = Ok ti -> NewTransport r (mkConn [] [] []) = Ok tr ->
  s_sendSeq i + 2 * len evs < 2 ^ 64 - 1 -> s_sendSeq r + 2 * len evs < 2 ^ 64 - 1 ->
  tn_run fips evs (tn_start ti tr) = (t, o) ->
  delivers fips (s_CipherSuite i) (tn_start ti tr) evs t o.
Proof.
  intros Hg He Hi Hr Li Lr Hrun.
  destruct (established_live fips id i r ti tr _ Hg He Hi Hr Li Lr) as (Q & k & Hl).
  destruct (run_live fips (s_CipherSuite i) _ _ _ _ _ _ Hl Hrun) as [?|[(Q' & k' & Hl') Ho]]; [by left|right].
  split; [|split; [|split; [|exact Ho]]].
  - intros x. rw (lv_books _ _ _ _ _ _ Hl' x). by eexists.
  - intros x Hin. rw (lv_books _ _ _ _ _ _ Hl' x). pose proof (lv_in _ _ _ _ _ _ Hl' x) as Hc.
    rw Hin in Hc. destruct (Q' x) as [|[]]; [by rw app_nil_r|discriminate Hc|discriminate Hc].
  - intros Hp. pose proof (lv_link _ _ _ _ _ _ Hl') as [_ Hph]. by eapply phase_idle.
Qed.

(** The tunnel delivers.  Take two transports over established sessions, joined by reliable
    streams, and any interleaving of sends, pings, receive turns and rekeys on the two sides: what
    is received is what was sent, in order and complete, across every change of keys, unless a
    record opens under a key it was not sealed with. *)
Theorem tunnel_in_order (P : Primitives) (PL : PrimitivesLaws P) (K : KEMPrimitives) (KL : KEMLaws K)
    fips id i r ti tr evs t o :
  GetSuite id = Some (s_kemSuite i) -> established_pair i r ->
  NewTransport i (mkConn [] [] []) = Ok ti -> NewTransport r (mkConn [] [] []) = Ok tr ->
  s_sendSeq i + 2 * len evs < 2 ^ 64 - 1 -> s_sendSeq r + 2 * len evs < 2 ^ 64 - 1 ->
  tn_run fips evs (tn_start ti tr) = (t, o) ->
  delivers fips (s_CipherSuite i) (tn_start ti tr) evs t o.
Proof. apply pair_delivers. Qed.

Definition example_transport (role : Role) : Transport :=
  mkTransport (example_session role) (mkConn [] [] []) [] false false.

(** Data before, during and after a rekey, in both directions, and a ping. *)
Definition example_events : list TunnelEvent :=
  let zi := mkTEnv 5 (example_draws [32; 64]%nat) in
  let zr := mkTEnv 6 (example_draws [32; 32]%nat) in
  [EvSend RoleInitiator zi [1; 2]; EvRekey zi; EvSend RoleInitiator zi [3]; EvPing RoleInitiator;
   EvSend RoleResponder zr [7]; EvTurn RoleResponder zr; EvTurn RoleResponder zr;
   EvSend RoleResponder zr [8]; EvTurn RoleInitiator zi; EvTurn RoleInitiator zi;
   EvSend RoleInitiator zi [4]; EvTurn RoleInitiator zi; EvTurn RoleResponder zr;
   EvTurn RoleResponder zr; EvTurn RoleResponder zr; EvTurn RoleInitiator zi].

Definition example_run : Tunnel * option TunnelEvent :=
  @tn_run toy false example_events
    (tn_start (example_transport RoleInitiator) (example_transport RoleResponder)).

Lemma example_pair : established_pair (example_session RoleInitiator) (example_session RoleResponder).
Proof.
  split; [reflexivity|reflexivity|reflexivity| | | | | | | | |].
  - vm_compute. reflexivity.
  - vm_compute. reflexivity.
  - split; reflexivity.
  - split; reflexivity.
  - split; vm_compute; congruence.
  - split; vm_compute; congruence.
  - eexists. split; eexists; (split; [vm_compute; reflexivity|]); split; vm_compute; reflexivity.
  - eexists. split; eexists; (split; [vm_compute; reflexivity|]); split; vm_compute; reflexivity.
  - split; vm_compute; reflexivity.
Qed.

Lemma tunnel_in_order_witness :
  tn_got example_run.1 RoleResponder = [[1; 2]; [3]; [4]] /\ tn_got example_run.1 RoleInitiator = [[7]; [8]] /\
  ((exists evs' t', evs' `prefix_of` example_events /\
      @tn_run toy false evs' (tn_start (example_transport RoleInitiator) (example_transport RoleResponder))
        = (t', None) /\ @confused_at toy CipherSuiteAES256GCM t') \/
   ms_bytes (sessions example_run.1 RoleInitiator) = ms_bytes (sessions example_run.1 RoleResponder)).
Proof.
  split; [vm_compute; reflexivity|]. split; [vm_compute; reflexivity|].
  destruct (tunnel_in_order toy toy_laws toyKEM toyKEM_laws false SuiteCHKEMv1
    (example_session RoleInitiator) (example_session RoleResponder)
    (example_transport RoleInitiator) (example_transport RoleResponder) example_events example_run.1 example_run.2)
    as [H|(_ & _ & H & _)].
  - reflexivity.
  - apply example_pair.
  - reflexivity.
  - reflexivity.
  - vm_compute. reflexivity.
  - vm_compute. reflexivity.
  - unfold example_run. apply surjective_pairing.
  - left. exact H.
  - right. apply H. vm_compute. reflexivity.
Defined.
