(* ===== verification/Connect.v ===== *)
(** From the handshake to the tunnel: the sessions the stream drivers leave are a pair on which
    two transports can be opened, so that a whole connection, from the first hello to the last
    record, is one theorem. *)

From Corelib Require Import ssreflect.
From stdpp Require Import base tactics list numbers strings.
From Stdlib Require Import ZArith Lia.
From S2P Require Import Prelude Base Messages Codec Replay Crypto Chkem Ticket Session DgramSession.
From S2P Require Import Handshake Hellos Agreement Transport Link Tunnel.

Local Open Scope Z_scope.
Local Open Scope go_scope.

(** * What a handshake leaves alone *)

(** The data path of the session is untouched, but for the start of the send epoch, and so is what
    it authenticates the peer by; with [kem] the suite stays as well. *)
Definition session_frame (kem : bool) (s s' : Session) : Prop :=
  s_Role s' = s_Role s /\ s_sendSeq s' = s_sendSeq s /\ s_replayWindow s' = s_replayWindow s /\
  s_rekeyInProgress s' = s_rekeyInProgress s /\
  (s_sendEpochStartSeq s' = s_sendEpochStartSeq s \/ s_sendEpochStartSeq s' = s_sendSeq s) /\
  (kem = true -> s_kemSuite s' = s_kemSuite s) /\
  s_PinnedServerKey s' = s_PinnedServerKey s /\ s_PSK s' = s_PSK s.

Definition frame (kem : bool) (h h' : Handshake) : Prop := session_frame kem (h_session h) (h_session h').

#[export] Instance session_frame_preorder kem : PreOrder (session_frame kem).
Proof.
  split; [by repeat split; auto|].
  intros x y z (A1 & A2 & A3 & A4 & A5 & A6 & A7 & A8) (B1 & B2 & B3 & B4 & B5 & B6 & B7 & B8).
  unfold session_frame. rw B1 B2 B3 B4 A1 A2 A3 A4 B7 B8. do 4 (split; [done|]).
  split; [destruct B5 as [-> | ->]; [exact A5|by right; rw A2]|]. split; [intros Hk; by rw B6 ?A6|done].
Qed.

#[export] Instance frame_preorder kem : PreOrder (frame kem).
Proof. split; [intros h; unfold frame; reflexivity|]. intros x y z H1 H2. unfold frame in *. by etrans. Qed.

Create HintDb frame.

(** An assignment. *)
Ltac frame_mod :=
  repeat match goal with
  | |- frame _ _ (match ?x with _ => _ end) => destruct x
  end;
  unfold frame, session_frame; cbn; by repeat split; auto.
Ltac frame_steps := keeps_auto; first [solve [eauto with frame] | frame_mod].

Section Frame.
Context {P : Primitives} {K : KEMPrimitives} (fips kem : bool).

Lemma foldStaticSecret_frame : keeps (frame kem) foldStaticSecret.
Proof. unfold foldStaticSecret. frame_steps. Qed.
Lemma foldPSKSecret_frame : keeps (frame kem) foldPSKSecret.
Proof. unfold foldPSKSecret. frame_steps. Qed.
Lemma deriveHandshakeKeys_frame : keeps (frame kem) (deriveHandshakeKeys fips).
Proof. unfold deriveHandshakeKeys. frame_steps. Qed.
#[local] Hint Resolve foldStaticSecret_frame foldPSKSecret_frame deriveHandshakeKeys_frame : frame.
Lemma fold_and_derive_frame : keeps (frame kem) (fold_and_derive fips).
Proof. unfold fold_and_derive. frame_steps. Qed.
Lemma resumption_mix_frame fresh : keeps (frame kem) (resumption_mix fresh).
Proof. unfold resumption_mix. frame_steps. Qed.
Lemma write_transcript_frame d : keeps (frame kem) (write_transcript d).
Proof. unfold write_transcript. frame_steps. Qed.
Lemma seal_finished_frame d : keeps (frame kem) (seal_finished d).
Proof. unfold seal_finished. frame_steps. Qed.
Lemma verify_finished_frame l d : keeps (frame kem) (verify_finished l d).
Proof. unfold verify_finished. frame_steps. Qed.
Lemma client_random_frame rnd : keeps (frame kem) (client_random rnd).
Proof. unfold client_random. frame_steps. Qed.
Lemma static_encapsulate_frame krnd : keeps (frame kem) (static_encapsulate krnd).
Proof. unfold static_encapsulate. frame_steps. Qed.
Lemma psk_advertise_frame : keeps (frame kem) psk_advertise.
Proof. unfold psk_advertise. frame_steps. Qed.
Lemma static_decapsulate_frame ct : keeps (frame kem) (static_decapsulate ct).
Proof. unfold static_decapsulate. frame_steps. Qed.
Lemma psk_select_frame krnd id : keeps (frame kem) (psk_select krnd id).
Proof. unfold psk_select. frame_steps. Qed.
Lemma cleanup_frame : keeps (frame kem) cleanup.
Proof. unfold cleanup. frame_steps. Qed.

Lemma on_session_frame {A} (m : ST Session error A) :
  keeps (session_frame kem) m -> keeps (frame kem) (Handshake.on_session m).
Proof.
  intros Hm h. specialize (Hm (h_session h)). unfold Handshake.on_session, frame.
  by destruct (m (h_session h)) as [s o].
Qed.

Lemma initializeSessionKeys_frame now : keeps (frame kem) (initializeSessionKeys fips now).
Proof.
  unfold initializeSessionKeys. keeps_auto; apply on_session_frame;
    [unfold InitializeDatagramKeys|unfold InitializeKeys]; keeps_auto; unfold session_frame; cbn;
    by repeat split; auto.
Qed.

Lemma try_resume_frame now sid : keeps (frame kem) (try_resume fips now sid).
Proof.
  intros h. unfold try_resume. rw st_bind_get. destruct (h_ticketManager h) as [tm|]; [|reflexivity].
  destruct (0 <? len sid); [|reflexivity].
  assert (session_frame kem (h_session h) (Resume fips now sid tm (h_session h)).1) as Hs.
  { unfold Resume, st_bind, st_lift. destruct (DecryptTicket fips now tm sid); unfold session_frame; cbn; by repeat split; auto. }
  by destruct (Resume fips now sid tm (h_session h)) as [s' [secret|e|]].
Qed.
#[local] Hint Resolve fold_and_derive_frame resumption_mix_frame write_transcript_frame
  seal_finished_frame verify_finished_frame client_random_frame static_encapsulate_frame
  psk_advertise_frame static_decapsulate_frame psk_select_frame cleanup_frame
  initializeSessionKeys_frame try_resume_frame : frame.

Lemma CreateClientHello_frame rnd krnd : keeps (frame kem) (CreateClientHello fips rnd krnd).
Proof. unfold CreateClientHello, set_session. frame_steps. Qed.
Lemma ProcessServerHello_frame d : keeps (frame kem) (ProcessServerHello fips d).
Proof. unfold ProcessServerHello, set_session. frame_steps. Qed.
Lemma CreateServerHello_frame rnd krnd : keeps (frame kem) (CreateServerHello fips rnd krnd).
Proof. unfold CreateServerHello. frame_steps. Qed.
Lemma CreateServerFinished_frame : keeps (frame kem) CreateServerFinished.
Proof. unfold CreateServerFinished. frame_steps. Qed.
Lemma ProcessServerFinished_frame d : keeps (frame kem) (ProcessServerFinished d).
Proof. unfold ProcessServerFinished. frame_steps. Qed.
Lemma CreateClientFinished_frame now : keeps (frame kem) (CreateClientFinished fips now).
Proof. unfold CreateClientFinished. frame_steps. Qed.
Lemma ProcessClientFinished_frame now d : keeps (frame kem) (ProcessClientFinished fips now d).
Proof. unfold ProcessClientFinished. frame_steps. Qed.
End Frame.

#[export] Hint Resolve foldStaticSecret_frame foldPSKSecret_frame deriveHandshakeKeys_frame
  static_decapsulate_frame psk_select_frame try_resume_frame write_transcript_frame : frame.

Lemma ProcessClientHello_frame {P : Primitives} {K : KEMPrimitives} fips krnd now d :
  keeps (frame false) (ProcessClientHello fips krnd now d).
Proof. unfold ProcessClientHello, set_session. frame_steps. Qed.

Lemma ProcessHelloRetryRequest_frame {P : Primitives} {K : KEMPrimitives} krnd d :
  keeps (frame false) (ProcessHelloRetryRequest krnd d).
Proof. unfold ProcessHelloRetryRequest, replaceFirstHelloWithHash, set_session. frame_steps. Qed.

(** ... and so for the drivers. *)
Definition driver_frame (s s' : Handshake * Conn) : Prop := frame false s.1 s'.1.

#[export] Instance driver_frame_preorder : PreOrder driver_frame.
Proof. split; [intros s; unfold driver_frame; reflexivity|]. intros x y z H1 H2. unfold driver_frame in *. by etrans. Qed.

Lemma on_handshake_frame {A} (m : ST Handshake error A) : keeps (frame false) m -> keeps driver_frame (on_handshake m).
Proof. intros Hm [h c]. specialize (Hm h). unfold on_handshake, driver_frame. cbn. by destruct (m h) as [h' o]. Qed.

Lemma rw_Read_frame {A} (m : ST (list Z) error A) : keeps driver_frame (rw_Read m).
Proof. intros [h c]. unfold rw_Read, driver_frame. cbn. destruct (m (cn_in c)). cbn. reflexivity. Qed.

Lemma rw_Write_frame b : keeps driver_frame (rw_Write b).
Proof. intros [h c]. unfold rw_Write, driver_frame. cbn. case_match; cbn; reflexivity. Qed.

Lemma or_alert_frame {A} (m : Driver A) f : keeps driver_frame m -> keeps driver_frame (or_alert m f).
Proof.
  intros Hm s. specialize (Hm s). unfold or_alert. destruct (m s) as [s' [a|e|]]; [done| |done]. cbn in Hm.
  unfold sendHandshakeAlert. destruct (EncodeAlert _ _ _) as [msg| |]; cbn; try done.
  pose proof (rw_Write_frame msg s') as Hw. destruct (rw_Write msg s') as [s2 o]. cbn in Hw |- *. by etrans.
Qed.

Ltac driver_steps := repeat lazymatch goal with
  | |- keeps _ (or_alert _ _) => apply or_alert_frame
  | |- keeps _ (rw_Read _) => apply rw_Read_frame
  | |- keeps _ (rw_Write _) => apply rw_Write_frame
  | |- keeps _ (on_handshake _) => apply on_handshake_frame
  end.

Lemma InitiatorHandshake_frame {P : Primitives} {K : KEMPrimitives} fips rnd krnd hrnd krnd2 now session c :
  session_frame false session (h_session (InitiatorHandshake fips rnd krnd hrnd krnd2 now session c).1.1).
Proof.
  assert (keeps driver_frame (do! _ := initiatorExchangeHellos fips rnd krnd hrnd krnd2 in initiatorFinish fips now)) as H.
  { unfold initiatorExchangeHellos, initiatorFinish, writeEncryptedRecord. keeps_auto; driver_steps.
    - apply CreateClientHello_frame.
    - apply ProcessHelloRetryRequest_frame.
    - apply CreateClientHello_frame.
    - apply ProcessServerHello_frame.
    - intros s. pose proof (rw_Read_frame readEncryptedRecord s) as Hr. by destruct (rw_Read readEncryptedRecord s) as [s' [x|e|]].
    - apply ProcessServerFinished_frame.
    - apply CreateClientFinished_frame. }
  exact (H (NewHandshake session, c)).
Qed.

(** * The pair the drivers leave *)

Section Connect.
Context {P : Primitives} {PL : PrimitivesLaws P} {K : KEMPrimitives} {KL : KEMLaws K}.

(** A session that has sent and received nothing. *)
Definition unused (s : Session) : Prop :=
  s_sendSeq s = 0 /\ s_sendEpochStartSeq s = 0 /\ s_replayWindow s = NewReplayWindow /\
  s_rekeyInProgress s = false.

Lemma frame_unused kem s s' : session_frame kem s s' -> unused s -> unused s'.
Proof.
  intros (_ & E1 & E2 & E3 & E4 & _) (U1 & U2 & U3 & U4). unfold unused. rw E1 E2 E3.
  split; [done|]. split; [destruct E4; lia|done].
Qed.

Lemma step_frame {A} kem (m : ST Handshake error A) h h' o :
  keeps (frame kem) m -> m h = (h', o) -> frame kem h h'.
Proof. intros Hk Hm. specialize (Hk h). by rw Hm in Hk. Qed.

Lemma agreed_pair ms h g : agreed false ms h g -> unused (h_session h) -> unused (h_session g) ->
  s_Role (h_session h) = RoleInitiator -> s_Role (h_session g) = RoleResponder ->
  s_kemSuite (h_session g) = s_kemSuite (h_session h) -> established_pair (h_session h) (h_session g).
Proof.
  intros [_ _ [Hm1 Hm2] [Hc1 Hc2] [Kh Kg] _] (A1 & A2 & A3 & A4) (B1 & B2 & B3 & B4) Rh Rg Hk.
  destruct Kh as (ik & rk & ip & rp & Ht & Hp & [_ _ _ F1 F2 F3 F4] & _).
  destruct Kg as (ik' & rk' & ip' & rp' & Ht' & Hp' & [_ _ _ G1 G2 G3 G4] & _).
  rw Ht in Ht'. apply Ok_inj in Ht' as [= <- <-]. rw Hp in Hp'. apply Ok_inj in Hp' as [= <- <-].
  cbn in *. split; try done; rw ?Hc1 ?Hm1 ?A1 ?A2 ?B1 ?B2 //; [by exists ik|by exists rk|by rw F3 F4 G3 G4].
Qed.

(** The handlers in the order the drivers call them. *)
Lemma handlers_pair fi frs rnd krnd prnd srnd skrnd now now1 now2 h g h1 ch g1 g2 sh h2 g3 sf h3 h4 cf g4 ms :
  hs_ready frs now h g -> unused (h_session h) -> unused (h_session g) ->
  CreateClientHello fi rnd krnd h = (h1, Ok ch) -> ProcessClientHello frs prnd now ch g = (g1, Ok tt) ->
  CreateServerHello frs srnd skrnd g1 = (g2, Ok sh) -> ProcessServerHello fi sh h1 = (h2, Ok tt) ->
  CreateServerFinished g2 = (g3, Ok sf) -> ProcessServerFinished sf h2 = (h3, Ok tt) ->
  CreateClientFinished fi now1 h3 = (h4, Ok cf) -> ProcessClientFinished frs now2 cf g3 = (g4, Ok tt) ->
  agreed false ms h4 g4 ->
  established_pair (h_session h4) (h_session g4) /\ unused (h_session h4) /\ unused (h_session g4) /\
  s_kemSuite (h_session h4) = s_kemSuite (h_session h).
Proof.
  intros R Uh Ug Hc Hp Hs Hph Hsf Hpf Hcf Hpc Ha.
  pose proof Hc as [m S]%CreateClientHello_inv.
  destruct (ProcessClientHello_ok _ frs _ prnd _ _ _ _ _ _ R S) as (g1' & Hp' & V).
  rw Hp in Hp'. injection Hp' as <-.
  assert (frame true h h4) as Fh.
  { etrans; [exact (step_frame true _ _ _ _ (CreateClientHello_frame fi true rnd krnd) Hc)|].
    etrans; [exact (step_frame true _ _ _ _ (ProcessServerHello_frame fi true sh) Hph)|].
    etrans; [exact (step_frame true _ _ _ _ (ProcessServerFinished_frame true sf) Hpf)|].
    exact (step_frame true _ _ _ _ (CreateClientFinished_frame fi true now1) Hcf). }
  assert (frame true g1 g4) as Fg1.
  { etrans; [exact (step_frame true _ _ _ _ (CreateServerHello_frame frs true srnd skrnd) Hs)|].
    etrans; [exact (step_frame true _ _ _ _ (CreateServerFinished_frame true) Hsf)|].
    exact (step_frame true _ _ _ _ (ProcessClientFinished_frame frs true now2 cf) Hpc). }
  pose proof (step_frame false _ _ _ _ (ProcessClientHello_frame frs prnd now ch) Hp) as Fg.
  pose proof (frame_unused _ _ _ Fh Uh) as U1.
  pose proof (frame_unused _ _ _ Fg1 (frame_unused _ _ _ Fg Ug)) as U2.
  destruct (hr_role _ _ _ _ R) as [R1 R2].
  destruct Fh as (Rh & _ & _ & _ & _ & Kh & _). destruct Fg1 as (Rg1 & _ & _ & _ & _ & Kg & _). destruct Fg as [Rg _].
  split; [|by repeat split; auto; apply U1 || apply U2].
  eapply agreed_pair; [exact Ha|done|done|by rw Rh|by rw Rg1 Rg|].
  rw Kg // (hv_kem _ _ _ _ V). by rw Kh.
Qed.

Lemma pair_transports ms h g : agreed false ms h g -> exists ti tr,
  NewTransport (h_session h) (mkConn [] [] []) = Ok ti /\ NewTransport (h_session g) (mkConn [] [] []) = Ok tr.
Proof.
  intros [_ [H1 H2] _ _ _ _]. unfold NewTransport, is_state. rw H1 H2. by eexists _, _.
Qed.
End Connect.

(** * Theorem *)


Local Abbreviation example_hello := (@CreateClientHello toy toyKEM false hello_rnd kem_rnd (NewHandshake example_initiator)).
Local Abbreviation example_heard := (@ProcessClientHello toy toyKEM false (example_draws []) 0 example_ch_bytes
  (NewHandshake example_responder)).
Local Abbreviation example_reply := (@CreateServerHello toy false hello_rnd kem_rnd example_heard.1).

