(* ===== verification/Listener.v ===== *)
(** Dialling and listening for stream tunnels: the rest of [pkg/tunnel/transport.go].

    [Listener] is the listener with everything its goroutines share: the limiters, the pending
    slots, the queue of results, the connections and the tunnels the application holds.  A
    handshake goroutine is a stage; one step of it goes from one access to shared state to the
    next, so the goroutines interleave at these steps.  The wrapper around a counted connection
    lives with its limiter, because a new configuration leaves old connections with the limiter
    they were admitted by. *)

From Corelib Require Import ssreflect.
From stdpp Require Import base tactics list numbers strings.
From Stdlib Require Import ZArith Lia.
From S2P Require Import Prelude Base Messages Codec Crypto Chkem Ticket Session Handshake Admission Endpoint Transport.

Local Open Scope Z_scope.
Local Open Scope go_scope.

(** * Configuration *)

Record TransportConfig := mkTransportConfig {
  tc_ReadTimeout : Z;
  tc_WriteTimeout : Z;
  tc_HandshakeTimeout : Z;
  tc_MaxPendingHandshakes : Z;
  tc_RateLimit : RateLimitConfig;
  tc_StaticKeyPair : option KeyPair;
  tc_PinnedServerKey : option PublicKey;
  tc_RequireStaticAuth : bool;
  tc_PSK : option (list Z);
  tc_PSKIdentity : option (list Z);
  tc_PSKLookup : option (list Z -> option (list Z));
  tc_RequirePSK : bool }.

Definition DefaultTransportConfig : TransportConfig :=
  mkTransportConfig (30 * Second) (30 * Second) (30 * Second) 0
    (mkRateLimitConfig 0 (TokenBucket.f64_of_Z 0) 0) None None false None None None false.

Definition newRateLimitError (desc : string) : error :=
  NewProtocolError "rate limit"
    (ErrExternal (alertError (mkAlertMessage AlertLevelFatal AlertCodeInternalError (bytes_of_string desc)))).

(** What a call draws and reads from outside. *)
Record LEnv := mkLEnv {
  le_now : Z;
  le_id : Draws;
  le_key : Draws;
  le_rnd : Draws;
  le_rnd2 : Draws;
  le_hello : Draws;
  le_kem : Draws;
  le_first : bool }.

Section Listener.
Context {P : Primitives} {K : KEMPrimitives} (fips : bool).

(** * Dialling *)

(** The connection [DialWithConfig] opened, and whether it closed it again. *)
Record Dialled := mkDialled {
  dl_conn : option Conn;
  dl_closed : bool }.

(** [m] or close the connection. *)
Definition or_close {A} (o : outcome error A) : ST Dialled error A :=
  fun d => match o with
           | Err e => (mkDialled (dl_conn d) true, Err e)
           | o => (d, o)
           end.

(** [dial] is what [net.Dial] returned. *)
Definition DialWithConfig (z : LEnv) (config : TransportConfig) (dial : outcome error Conn)
    : ST Dialled error Transport :=
  do! _ := st_lift (validatePSK (tc_PSK config) (tc_PSKIdentity config)) in
  do! conn := st_lift dial in
  do! _ := st_mod (fun _ => mkDialled (Some conn) false) in
  do! session := or_close (NewSession (le_id z) (le_key z) (le_now z) RoleInitiator) in
  let session := session <| s_PinnedServerKey := tc_PinnedServerKey config |>
                         <| s_PSK := tc_PSK config |>
                         <| s_PSKIdentity := default [] (tc_PSKIdentity config) |> in
  let '((h, conn), o) :=
    InitiatorHandshake fips (le_hello z) (le_kem z) (le_rnd z) (le_rnd2 z) (le_now z) session conn in
  do! _ := or_close o in
  or_close (NewTransport (h_session h) conn).

Definition Dial (z : LEnv) (dial : outcome error Conn) : ST Dialled error Transport :=
  DialWithConfig z DefaultTransportConfig dial.

(** * The listener *)

(** A raw connection, counted by limiter [j] as its connection [k] if [nc_limit] is [Some (j, k)]. *)
Record netConn := mkNetConn {
  nc_conn : Conn;
  nc_ip : string;
  nc_limit : option (nat * nat);
  nc_closed : bool }.

#[export] Instance netConn_eta : Eta netConn := {| eta := fun c =>
  mkNetConn (nc_conn c) (nc_ip c) (nc_limit c) (nc_closed c) |}.

(** [acceptResult]: a tunnel and the connection under it, or the reason it failed. *)
Definition acceptResult : Type := (Transport * nat) + error.

(** Where a handshake goroutine is: what it will do next. *)
Inductive stage :=
| StArrived
| StAdmitted
| StSession (session : Session)
| StAllowed (session : Session)
| StResult (r : acceptResult)
| StDelivered
| StGone.

Record thread := mkThread {
  th_conn : nat;
  th_stage : stage }.

Record Listener := mkListener {
  ln_config : TransportConfig;
  ln_limiters : list IPLimit.listener;
  ln_ipLimiter : option nat;
  ln_handshakeLimiter : option TokenBucket.HandshakeLimiter;
  ln_started : bool;
  ln_stopped : bool;
  ln_closing : bool;
  ln_acceptErr : option error;
  ln_results : list acceptResult;
  ln_limit : Z;
  ln_pending : Z;
  ln_conns : list netConn;
  ln_threads : list thread;
  ln_tunnels : list (Transport * nat);
  ln_crashed : bool }.

#[export] Instance Listener_eta : Eta Listener := {| eta := fun l =>
  mkListener (ln_config l) (ln_limiters l) (ln_ipLimiter l) (ln_handshakeLimiter l) (ln_started l)
    (ln_stopped l) (ln_closing l) (ln_acceptErr l) (ln_results l) (ln_limit l) (ln_pending l)
    (ln_conns l) (ln_threads l) (ln_tunnels l) (ln_crashed l) |}.

Definition maxPendingHandshakes : Z := 1024.
Definition resultsCap : Z := 64.

(** [Listen], on a listener of the operating system. *)
Definition Listen : Listener :=
  mkListener DefaultTransportConfig [] None None false false false None [] 0 0 [] [] [] false.

Definition startAcceptLoop (l : Listener) : Listener :=
  if ln_started l then l
  else
    let limit := tc_MaxPendingHandshakes (ln_config l) in
    let limit := if limit <=? 0 then maxPendingHandshakes else limit in
    l <| ln_started := true |> <| ln_limit := limit |>.

Definition SetConfig (config : TransportConfig) (now : Z) (l : Listener) : Listener :=
  let '(ip, hs) := SetConfig_limiters (tc_RateLimit config) now in
  let l := l <| ln_config := config |> <| ln_handshakeLimiter := hs |> in
  match ip with
  | Some lim => l <| ln_limiters := ln_limiters l ++ [IPLimit.mkListener lim []] |>
                  <| ln_ipLimiter := Some (length (ln_limiters l)) |>
  | None => l <| ln_ipLimiter := None |>
  end.

(** [conn.Close()], through the wrapper when there is one. *)
Definition closeConn (i : nat) (l : Listener) : Listener :=
  match ln_conns l !! i with
  | Some c =>
      let l := l <| ln_conns := alter (fun c => c <| nc_closed := true |>) i (ln_conns l) |> in
      match nc_limit c with
      | Some (j, k) => l <| ln_limiters := alter (fun s => IPLimit.step s (IPLimit.CloseConn k)) j (ln_limiters l) |>
      | None => l
      end
  | None => l
  end.

Definition set_stage (g : nat) (st : stage) (l : Listener) : Listener :=
  l <| ln_threads := alter (fun t => mkThread (th_conn t) st) g (ln_threads l) |>.

(** Closing the connection and ending with an error. *)
Definition refuse (g i : nat) (e : error) (l : Listener) : Listener :=
  set_stage g (StResult (inr e)) (closeConn i l).

(** One turn of [acceptLoop]. *)
Definition acceptLoop_conn (c : Conn) (ip : string) (l : Listener) : Listener :=
  let i := length (ln_conns l) in
  let l := l <| ln_conns := ln_conns l ++ [mkNetConn c ip None false] |> in
  if ln_pending l <? ln_limit l
  then l <| ln_pending := ln_pending l + 1 |> <| ln_threads := ln_threads l ++ [mkThread i StArrived] |>
  else closeConn i l.

Definition acceptLoop_error (e : error) (l : Listener) : Listener :=
  l <| ln_acceptErr := Some e |> <| ln_stopped := true |>.

Definition checkIPRateLimit (g i : nat) (ip : string) (l : Listener) : Listener :=
  match ln_ipLimiter l with
  | None => set_stage g StAdmitted l
  | Some j =>
      match ln_limiters l !! j with
      | None => l
      | Some s =>
          match IPLimit.checkIPRateLimit (IPLimit.limiter s) ip with
          | (_, None) => refuse g i (newRateLimitError "connection rate limit exceeded") l
          | (_, Some _) =>
              set_stage g StAdmitted
                (l <| ln_limiters := <[j := IPLimit.step s (IPLimit.Arrive ip)]> (ln_limiters l) |>
                   <| ln_conns := alter (fun c => c <| nc_limit := Some (j, length (IPLimit.conns s)) |>) i
                        (ln_conns l) |>)
          end
      end
  end.

Definition createSession (z : LEnv) (config : TransportConfig) : outcome error Session :=
  guard! negb (tc_RequireStaticAuth config && bool_decide (tc_StaticKeyPair config = None))
    else ErrStaticAuthMisconfigured in
  let! _ := validatePSK (tc_PSK config) (tc_PSKIdentity config) in
  let! _ := validateRequirePSK (tc_RequirePSK config) (tc_PSK config) (tc_PSKLookup config) in
  let! session := NewSession (le_id z) (le_key z) (le_now z) RoleResponder in
  Ok (session <| s_StaticKeyPair := tc_StaticKeyPair config |>
              <| s_RequireStaticAuth := tc_RequireStaticAuth config |>
              <| s_PSK := tc_PSK config |>
              <| s_PSKIdentity := default [] (tc_PSKIdentity config) |>
              <| s_PSKLookup := tc_PSKLookup config |>
              <| s_RequirePSK := tc_RequirePSK config |>).

(** [performHandshake], its check of the handshake rate. *)
Definition checkHandshakeRate (g i : nat) (now : Z) (session : Session) (l : Listener) : Listener :=
  match ln_handshakeLimiter l with
  | None => set_stage g (StAllowed session) l
  | Some lim =>
      let '(lim, ok) := TokenBucket.AllowHandshake lim now in
      let l := l <| ln_handshakeLimiter := Some lim |> in
      if ok then set_stage g (StAllowed session) l
      else refuse g i (newRateLimitError "handshake rate limit exceeded") l
  end.

(** ... the handshake, and [NewTransport].  A panic of a goroutine ends the process. *)
Definition runHandshake (g i : nat) (z : LEnv) (session : Session) (l : Listener) : Listener :=
  match ln_conns l !! i with
  | None => l
  | Some c =>
      match ResponderHandshake fips (le_rnd z) (le_rnd2 z) (le_hello z) (le_kem z) (le_now z) session (nc_conn c) with
      | (_, Panic) => l <| ln_crashed := true |>
      | (_, Err e) => refuse g i e l
      | ((h, conn), Ok _) =>
          match NewTransport (h_session h) conn with
          | Ok t => set_stage g (StResult (inl (t, i))) l
          | Err e => refuse g i e l
          | Panic => l <| ln_crashed := true |>
          end
      end
  end.

(** [tunnel.Close()] *)
Definition closeTunnel (t : Transport * nat) (l : Listener) : Listener := closeConn t.2 l.

(** [deliver]: of the two cases of the select, [first] says which one is taken when both can. *)
Definition deliver (g : nat) (first : bool) (r : acceptResult) (l : Listener) : Listener :=
  let room := len (ln_results l) <? resultsCap in
  if room && (first || negb (ln_closing l)) then
    set_stage g StDelivered (l <| ln_results := ln_results l ++ [r] |>)
  else if ln_closing l then
    let l := match r with
             | inl t => closeTunnel t l
             | inr _ => l
             end in
    set_stage g StDelivered l
  else l.

(** One step of goroutine [g]. *)
Definition runThread (g : nat) (z : LEnv) (l : Listener) : Listener :=
  match ln_threads l !! g with
  | None => l
  | Some th =>
      let i := th_conn th in
      match th_stage th with
      | StArrived =>
          match ln_conns l !! i with
          | Some c => checkIPRateLimit g i (nc_ip c) l
          | None => l
          end
      | StAdmitted =>
          match createSession z (ln_config l) with
          | Ok s => set_stage g (StSession s) l
          | Err e => refuse g i e l
          | Panic => l <| ln_crashed := true |>
          end
      | StSession s => checkHandshakeRate g i (le_now z) s l
      | StAllowed s => runHandshake g i z s l
      | StResult r => deliver g (le_first z) r l
      | StDelivered => set_stage g StGone (l <| ln_pending := ln_pending l - 1 |>)
      | StGone => l
      end
  end.

(** [Accept]: what it returns, or [None] while it blocks. *)
Definition Accept (l : Listener) : Listener * option acceptResult :=
  let l := startAcceptLoop l in
  match ln_results l with
  | r :: rs =>
      (l <| ln_results := rs |>
         <| ln_tunnels := ln_tunnels l ++ match r with inl t => [t] | inr _ => [] end |>, Some r)
  | [] => (l, if ln_stopped l then Some (inr (default ErrEOF (ln_acceptErr l))) else None)
  end.

(** [Close]; the loop stops when the closed listener's [Accept] fails. *)
Definition CloseListener (l : Listener) : Listener :=
  (startAcceptLoop l) <| ln_closing := true |>.

(** * Runs *)

Inductive ListenerEvent :=
| LConn (c : Conn) (ip : string)
| LError (e : error)
| LRun (g : nat) (z : LEnv)
| LAccept
| LCloseTunnel (k : nat)
| LSetConfig (config : TransportConfig) (now : Z)
| LClose.

Definition ln_step (l : Listener) (ev : ListenerEvent) : Listener :=
  if ln_crashed l then l
  else match ev with
       | LConn c ip => if ln_started l && negb (ln_stopped l) then acceptLoop_conn c ip l else l
       | LError e => if ln_started l && negb (ln_stopped l) then acceptLoop_error e l else l
       | LRun g z => runThread g z l
       | LAccept => (Accept l).1
       | LCloseTunnel k => match ln_tunnels l !! k with Some t => closeTunnel t l | None => l end
       | LSetConfig config now => SetConfig config now l
       | LClose => CloseListener l
       end.

Definition ln_run (evs : list ListenerEvent) : Listener := foldl ln_step Listen evs.
End Listener.

(** * What the listener holds *)

(** A goroutine that has not returned its pending slot. *)
Definition active (t : thread) : bool := match th_stage t with StGone => false | _ => true end.

(** A goroutine that still has its connection: before a result, or with a tunnel to deliver. *)
Definition holding (st : stage) : bool :=
  match st with
  | StArrived | StAdmitted | StSession _ | StAllowed _ | StResult (inl _) => true
  | _ => false
  end.

(** A tunnel or an unfinished handshake on connection [i]. *)
Definition owned (l : Listener) (i : nat) : Prop :=
  (exists g t, ln_threads l !! g = Some t /\ th_conn t = i /\ holding (th_stage t) = true) \/
  (exists t, inl (t, i) ∈ ln_results l) \/ (exists t, (t, i) ∈ ln_tunnels l).

Definition wrapper (L : list IPLimit.listener) (jk : nat * nat) : option IPLimit.rateLimitedConn :=
  s ← L !! jk.1; IPLimit.conns s !! jk.2.

(** The open connections limiter [j] counts for [ip]. *)
Definition counted (j : nat) (ip : string) (c : netConn) : Prop :=
  fst <$> nc_limit c = Some j /\ nc_ip c = ip /\ nc_closed c = false.

#[export] Instance counted_dec j ip c : Decision (counted j ip c).
Proof. unfold counted. solve_decision. Defined.

Definition opened (j : nat) (ip : string) (cs : list netConn) : Z := len (filter (counted j ip) cs).

(** A goroutine that has handed its result over. *)
Definition past (st : stage) : bool := match st with StDelivered | StGone => true | _ => false end.

(** Goroutines, slots and results. *)
Record busy_inv (l : Listener) : Prop := {
  li_active : ln_pending l = len (filter (fun t => active t = true) (ln_threads l));
  li_limit : ln_pending l <= ln_limit l;
  li_limit_pos : 0 <= ln_limit l;
  li_unstarted : ln_started l = false -> ln_limit l = 0;
  li_results : len (ln_results l) <= resultsCap;
  li_conn : forall g t, ln_threads l !! g = Some t -> is_Some (ln_conns l !! th_conn t);
  li_distinct : forall g g' t t', ln_threads l !! g = Some t -> ln_threads l !! g' = Some t' ->
    th_conn t = th_conn t' -> g = g';
  li_raw : forall g t c, ln_threads l !! g = Some t -> th_stage t = StArrived ->
    ln_conns l !! th_conn t = Some c -> nc_limit c = None /\ nc_closed c = false;
  li_tunnel : forall g t tr i, ln_threads l !! g = Some t -> th_stage t = StResult (inl (tr, i)) -> th_conn t = i;
  li_passed : forall tr i, inl (tr, i) ∈ ln_results l \/ (tr, i) ∈ ln_tunnels l ->
    exists g t, ln_threads l !! g = Some t /\ th_conn t = i /\ past (th_stage t) = true }.

(** Limiters: each has only been stepped, and its wrappers are the connections it admitted. *)
Record count_inv (L : list IPLimit.listener) (cur : option nat) (cs : list netConn) : Prop := {
  li_limiters : forall j s, L !! j = Some s -> exists max es, 0 < max /\ s = IPLimit.run max es;
  li_current : forall j, cur = Some j -> is_Some (L !! j);
  li_wrapped : forall i c jk, cs !! i = Some c -> nc_limit c = Some jk ->
    wrapper L jk = Some (IPLimit.mkConn (nc_ip c) (nc_closed c));
  li_one : forall i i' c c' jk, cs !! i = Some c -> cs !! i' = Some c' ->
    nc_limit c = Some jk -> nc_limit c' = Some jk -> i = i';
  li_count : forall j s ip, L !! j = Some s -> IPLimit.live ip (IPLimit.conns s) = opened j ip cs }.

(** No connection is open without an owner. *)
Definition owned_inv (l : Listener) : Prop :=
  forall i c, ln_conns l !! i = Some c -> nc_closed c = false -> owned l i.

Definition ln_inv (l : Listener) : Prop :=
  busy_inv l /\ count_inv (ln_limiters l) (ln_ipLimiter l) (ln_conns l) /\ owned_inv l.

Lemma len_filter_alter {A} (Q : A -> Prop) `{!forall x, Decision (Q x)} f (i : nat) (l : list A) x : l !! i = Some x ->
  len (filter Q (alter f i l)) = len (filter Q l) - Z.b2z (bool_decide (Q x)) + Z.b2z (bool_decide (Q (f x))).
Proof.
  intros Hi. pose proof (lookup_lt_Some _ _ _ Hi) as Hlt.
  assert (alter f i l = take i l ++ f x :: drop (S i) l) as ->.
  { rw -{1}(take_drop_middle l i x Hi) alter_app_r_alt; [rw length_take; lia|].
    rw length_take Nat.min_l; [lia|]. by rw Nat.sub_diag. }
  rw -{3}(take_drop_middle l i x Hi) !filter_app !filter_cons !len_app.
  repeat case_bool_decide; repeat case_decide; rw ?len_cons; cbn; try done; lia.
Qed.

Lemma len_filter_snoc {A} (Q : A -> Prop) `{!forall x, Decision (Q x)} (l : list A) x :
  len (filter Q (l ++ [x])) = len (filter Q l) + Z.b2z (bool_decide (Q x)).
Proof. rw filter_app len_app filter_cons filter_nil. by case_bool_decide; case_decide. Qed.

Section Accounts.
Context {P : Primitives} {K : KEMPrimitives} (fips : bool).

Lemma limiter_step s max es e : s = IPLimit.run max es -> IPLimit.step s e = IPLimit.run max (es ++ [e]).
Proof. intros ->. unfold IPLimit.run. by rw foldl_app. Qed.

Definition shut (w : IPLimit.rateLimitedConn) : IPLimit.rateLimitedConn := IPLimit.mkConn (IPLimit.conn_ip w) true.

Lemma alter_same {A} (f : A -> A) (i : nat) (l : list A) : (forall x, l !! i = Some x -> f x = x) -> alter f i l = l.
Proof.
  intros H. apply list_eq. intros j. rw list_lookup_alter. case_decide; [subst j|done].
  destruct (l !! i) as [x|] eqn:Hx; [|done]. cbn. by rw H.
Qed.

(** Closing a counted connection closes its wrapper and no other. *)
Lemma step_close_conns s k :
  IPLimit.conns (IPLimit.step s (IPLimit.CloseConn k)) = alter shut k (IPLimit.conns s).
Proof.
  cbn. destruct (IPLimit.conns s !! k) as [w|] eqn:Hk; [|symmetry; apply alter_same; by rw Hk].
  unfold IPLimit.Close. destruct (IPLimit.conn_closed w) eqn:Hc; cbn.
  - rw list_insert_id //. symmetry. apply alter_same. rw Hk. intros w' [= <-]. destruct w. cbn in *. by subst.
  - apply list_eq. intros j. rw list_lookup_alter. case_decide as He; [subst j|by rw list_lookup_insert_ne].
    rw list_lookup_insert_eq; [by eapply lookup_lt_Some|]. by rw Hk.
Qed.

Lemma wrapper_close L jk jk' : 
  wrapper (alter (fun s => IPLimit.step s (IPLimit.CloseConn jk.2)) jk.1 L) jk' =
  if bool_decide (jk' = jk) then shut <$> wrapper L jk' else wrapper L jk'.
Proof.
  destruct jk as [j k], jk' as [j' k']. unfold wrapper. cbn [fst snd]. rw list_lookup_alter.
  case_decide as Hj; [subst j'|rw bool_decide_false; [congruence|done]].
  destruct (L !! j) as [s|]; [|by case_bool_decide]. cbn [fmap option_fmap option_map mbind option_bind].
  rw step_close_conns list_lookup_alter. destruct (decide (k = k')) as [->|Hk].
  - by rw bool_decide_true.
  - rw bool_decide_false; [congruence|done].
Qed.

Lemma wrapper_snoc L s jk : wrapper (L ++ [IPLimit.mkListener s []]) jk = wrapper L jk.
Proof.
  unfold wrapper. destruct (decide (jk.1 < length L)%nat); [by rw lookup_app_l|]. rw lookup_app_r; [lia|].
  rw (lookup_ge_None_2 L); [lia|]. destruct (jk.1 - length L)%nat; [|done]. cbn. apply lookup_nil.
Qed.

Lemma lookup_closed (i : nat) (l : list netConn) j c : alter (fun c => c <| nc_closed := true |>) i l !! j = Some c ->
  exists c0, l !! j = Some c0 /\ nc_ip c = nc_ip c0 /\ nc_limit c = nc_limit c0 /\ nc_conn c = nc_conn c0 /\
    nc_closed c = (if bool_decide (j = i) then true else nc_closed c0).
Proof.
  rw list_lookup_alter. case_decide as He; [subst j|intros H; exists c; by rw bool_decide_false].
  destruct (l !! i) as [c0|]; [|done]. intros [= <-]. exists c0. by rw bool_decide_true.
Qed.

Lemma live_close_wrapper s k ip w : IPLimit.conns s !! k = Some w ->
  IPLimit.live ip (IPLimit.conns (IPLimit.step s (IPLimit.CloseConn k))) =
  IPLimit.live ip (IPLimit.conns s) -
    Z.b2z (bool_decide (IPLimit.conn_ip w = ip /\ IPLimit.conn_closed w = false)).
Proof.
  intros Hk. rw step_close_conns. unfold IPLimit.live. rw (len_filter_alter _ _ _ _ _ Hk).
  rw (bool_decide_false (IPLimit.conn_ip (shut w) = ip /\ _)); [by intros [_ ?]|]. cbn. lia.
Qed.

Lemma opened_close j ip i cs c : cs !! i = Some c ->
  opened j ip (alter (fun c => c <| nc_closed := true |>) i cs) = opened j ip cs - Z.b2z (bool_decide (counted j ip c)).
Proof.
  intros Hi. unfold opened. rw (len_filter_alter _ _ _ _ _ Hi).
  rw (bool_decide_false (counted j ip (c <| nc_closed := true |>))); [by intros (_ & _ & ?)|]. cbn. lia.
Qed.

Lemma closeConn_count i l : count_inv (ln_limiters l) (ln_ipLimiter l) (ln_conns l) ->
  count_inv (ln_limiters (closeConn i l)) (ln_ipLimiter (closeConn i l)) (ln_conns (closeConn i l)).
Proof.
  intros [H1 H2 H3 H4 H5]. unfold closeConn. destruct (ln_conns l !! i) as [c|] eqn:Hi; [|done].
  destruct (nc_limit c) as [[j k]|] eqn:Hl; cbn -[alter IPLimit.step].
  - pose proof (wrapper_close (ln_limiters l) (j, k)) as HW. cbn [fst snd] in HW. split.
    + intros j' s. rw list_lookup_alter. case_decide as He; [subst j'|apply H1].
      destruct (ln_limiters l !! j) as [s0|] eqn:Hs; [|done]. intros <-%(inj Some).
      destruct (H1 _ _ Hs) as (max & es & Hm & He). eexists max, _. split; [done|]. exact (limiter_step s0 max es _ He).
    + intros j' Hj. apply H2 in Hj as [s Hs]. rw list_lookup_alter.
      case_decide; [subst j'|]; rw Hs; by eexists.
    + intros i' c' jk (c0 & Hc0 & E1 & E2 & _ & E3)%lookup_closed Hjk. rw E2 in Hjk.
      rw HW (H3 _ _ _ Hc0 Hjk) E1 E3. destruct (decide (i' = i)) as [->|Hne].
      * rw Hi in Hc0. injection Hc0 as <-. rw Hl in Hjk. injection Hjk as <-. by rw !bool_decide_true.
      * rw (bool_decide_false (i' = i)); [done|]. rw bool_decide_false; [|done]. intros ->. by eapply Hne, H4.
    + intros i1 i2 ca cb jk (ca0 & A & _ & A2 & _)%lookup_closed (cb0 & B & _ & B2 & _)%lookup_closed.
      rw A2 B2. by eapply H4.
    + intros j' s ip. rw list_lookup_alter (opened_close _ _ _ _ _ Hi). case_decide as He.
      * subst j'. destruct (ln_limiters l !! j) as [s0|] eqn:Hs; [|done]. intros <-%(inj Some).
        pose proof (H3 _ _ _ Hi Hl) as Hw. unfold wrapper in Hw. cbn in Hw. rw Hs in Hw.
        rw (live_close_wrapper _ _ _ _ Hw) (H5 _ _ _ Hs). cbn. do 2 f_equal. apply bool_decide_ext. unfold counted. rw Hl. naive_solver.
      * intros Hs. rw (H5 _ _ _ Hs) bool_decide_false; [unfold counted; rw Hl; naive_solver|]. cbn. lia.
  - split; [done|done| | |].
    + intros i' c' jk (c0 & Hc0 & E1 & E2 & _ & E3)%lookup_closed Hjk. rw E2 in Hjk. rw E1 E3.
      case_bool_decide as He; [subst i'|by apply (H3 _ _ _ Hc0)]. rw Hi in Hc0. injection Hc0 as <-. congruence.
    + intros i1 i2 ca cb jk (ca0 & A & _ & A2 & _)%lookup_closed (cb0 & B & _ & B2 & _)%lookup_closed.
      rw A2 B2. by eapply H4.
    + intros j' s ip Hs. rw (opened_close _ _ _ _ _ Hi) (H5 _ _ _ Hs) bool_decide_false; [|cbn; lia].
      unfold counted. rw Hl. by intros [? _].
Qed.

(** ** Goroutines *)

Lemma lookup_stage g st l g' t : ln_threads (set_stage g st l) !! g' = Some t ->
  exists t0, ln_threads l !! g' = Some t0 /\ th_conn t = th_conn t0 /\
    th_stage t = (if bool_decide (g' = g) then st else th_stage t0).
Proof.
  cbn. rw list_lookup_alter. case_decide as He; [subst g'|intros H; exists t; by rw bool_decide_false].
  destruct (ln_threads l !! g) as [t0|]; [|done]. intros [= <-]. exists t0. by rw bool_decide_true.
Qed.

Lemma stage_lookup g st l g' t : ln_threads l !! g' = Some t ->
  ln_threads (set_stage g st l) !! g' = Some (mkThread (th_conn t) (if bool_decide (g' = g) then st else th_stage t)).
Proof.
  intros H. cbn. rw list_lookup_alter. case_decide as He; [subst g'; rw H; by rw bool_decide_true|].
  rw bool_decide_false; [done|]. rw H. by destruct t.
Qed.

(** A goroutine goes on to a later stage. *)
Lemma set_stage_busy g st l t : ln_threads l !! g = Some t ->
  active (mkThread (th_conn t) st) = active t -> (past (th_stage t) = true -> past st = true) ->
  (st = StArrived -> False) -> (forall tr i, st = StResult (inl (tr, i)) -> th_conn t = i) ->
  busy_inv l -> busy_inv (set_stage g st l).
Proof.
  intros Hg Ha Hp Hn Ht [H1 H2 H3 H4 H5 H6 H7 H8 H9 H10]. split; try done.
  - cbn. rw (len_filter_alter _ _ _ _ _ Hg) H1 Ha. lia.
  - intros g' t' (t0 & H0 & -> & _)%lookup_stage. by eapply H6.
  - intros g1 g2 t1 t2 (u & Hu & -> & _)%lookup_stage (v & Hv & -> & _)%lookup_stage. by eapply H7.
  - intros g' t' c (t0 & H0 & -> & ->)%lookup_stage. case_bool_decide; [done|]. by eapply H8.
  - intros g' t' tr i (t0 & H0 & -> & ->)%lookup_stage. case_bool_decide; [|by eapply H9].
    subst g'. rw Hg in H0. injection H0 as <-. apply Ht.
  - intros tr i (g' & t' & H & <- & Hpast)%H10. eexists g', _. rw (stage_lookup _ _ _ _ _ H). split_and!; [done|done|].
    cbn. case_bool_decide; [|done]. subst g'. rw Hg in H. injection H as <-. by apply Hp.
Qed.

Lemma set_stage_owned g st l t : ln_threads l !! g = Some t ->
  (holding (th_stage t) = true -> holding st = true \/
     (forall c, ln_conns l !! th_conn t = Some c -> nc_closed c = true) \/
     (exists tr, inl (tr, th_conn t) ∈ ln_results l)) ->
  owned_inv l -> owned_inv (set_stage g st l).
Proof.
  intros Hg Hh Ho i c Hi Hc. cbn in Hi. destruct (Ho i c Hi Hc) as [(g' & t' & Hg' & <- & Hold)|H]; [|by right].
  destruct (decide (g' = g)) as [->|Hne].
  - rw Hg in Hg'. injection Hg' as <-. destruct (Hh Hold) as [Hst|[Hcl|Hr]].
    + left. eexists g, _. rw (stage_lookup _ _ _ _ _ Hg) bool_decide_true; [done|]. by split_and!.
    + apply Hcl in Hi. congruence.
    + right. by left.
  - left. eexists g', _. rw (stage_lookup _ _ _ _ _ Hg') bool_decide_false; [done|]. by split_and!.
Qed.

(** ** Closing a connection *)

Lemma closeConn_conns i l : ln_conns (closeConn i l) = alter (fun c => c <| nc_closed := true |>) i (ln_conns l).
Proof.
  unfold closeConn. destruct (ln_conns l !! i) as [c|] eqn:Hi; [|symmetry; apply alter_same; by rw Hi].
  by destruct (nc_limit c) as [[j k]|].
Qed.

Lemma closeConn_rest i l :
  let l' := closeConn i l in
  ln_threads l' = ln_threads l /\ ln_results l' = ln_results l /\ ln_tunnels l' = ln_tunnels l /\
  ln_pending l' = ln_pending l /\ ln_limit l' = ln_limit l /\ ln_started l' = ln_started l.
Proof. unfold closeConn. destruct (ln_conns l !! i) as [c|]; [destruct (nc_limit c) as [[j k]|]|]; by split_and!. Qed.

Lemma closeConn_busy i l :
  (forall g t, ln_threads l !! g = Some t -> th_conn t = i -> th_stage t = StArrived -> False) ->
  busy_inv l -> busy_inv (closeConn i l).
Proof.
  intros Hn [H1 H2 H3 H4 H5 H6 H7 H8 H9 H10].
  destruct (closeConn_rest i l) as (E1 & E2 & E3 & E4 & E5 & E6).
  split; rw ?closeConn_conns ?E1 ?E2 ?E3 ?E4 ?E5 ?E6; try done.
  - intros g t Hg. destruct (H6 g t Hg) as [c Hc]. rw list_lookup_alter. case_decide as He; [rw He|]; rw Hc; by eexists.
  - intros g t c Hg Ht (c0 & Hc0 & _ & -> & _ & ->)%lookup_closed. case_bool_decide; [|by eapply H8].
    exfalso. by eapply Hn.
Qed.

Lemma closeConn_owned i l : owned_inv l -> owned_inv (closeConn i l).
Proof.
  intros Ho i' c. rw closeConn_conns. intros (c0 & Hc0 & _ & _ & _ & ->)%lookup_closed. case_bool_decide; [done|].
  intros Hc. destruct (closeConn_rest i l) as (E1 & E2 & E3 & _). unfold owned. rw E1 E2 E3. by eapply Ho.
Qed.

Lemma set_stage_close g st i l : set_stage g st (closeConn i l) = closeConn i (set_stage g st l).
Proof. unfold closeConn. cbn. destruct (ln_conns l !! i) as [c|]; [destruct (nc_limit c) as [[j k]|]|]; done. Qed.

(** ** One step keeps the accounts *)

Lemma set_stage_inv g st l t : ln_threads l !! g = Some t ->
  active t = true -> past (th_stage t) = false -> holding st = true ->
  (st = StArrived -> False) -> (forall tr i, st = StResult (inl (tr, i)) -> th_conn t = i) ->
  ln_inv l -> ln_inv (set_stage g st l).
Proof.
  intros Hg Ha Hp Hh Hn Ht (H1 & H2 & H3). split_and!; [|exact H2|].
  - apply (set_stage_busy g st l t); try done; [rw Ha; by destruct st|by rw Hp].
  - apply (set_stage_owned g st l t); [done|by left|done].
Qed.

(** The connection is closed and the goroutine keeps nothing of it. *)
Lemma leave_inv g st l t : ln_threads l !! g = Some t -> active t = true -> past (th_stage t) = false ->
  active (mkThread (th_conn t) st) = true -> holding st = false ->
  ln_inv l -> ln_inv (set_stage g st (closeConn (th_conn t) l)).
Proof.
  intros Hg Ha Hp Ha' Hh (H1 & H2 & H3). assert (Hst : st = StArrived -> False) by by intros ->. split_and!.
  - rw set_stage_close. apply closeConn_busy.
    + intros g' t' (t0 & Ht0 & -> & ->)%lookup_stage Hc. rw bool_decide_true; [|done]. by eapply (li_distinct l).
    + apply (set_stage_busy g _ l t); [done|by rw Ha|by rw Hp|done|by intros ? ? ->|done].
  - by apply closeConn_count.
  - destruct (closeConn_rest (th_conn t) l) as (E1 & _). apply (set_stage_owned g _ _ t); [by rw E1| |by apply closeConn_owned].
    intros _. right. left. intros c. rw closeConn_conns. intros (c0 & _ & _ & _ & _ & ->)%lookup_closed.
    by rw bool_decide_true.
Qed.

Lemma refuse_inv g e l t : ln_threads l !! g = Some t -> active t = true -> past (th_stage t) = false ->
  ln_inv l -> ln_inv (refuse g (th_conn t) e l).
Proof. intros. by apply leave_inv. Qed.

Lemma count_snoc L cur cs c : nc_limit c = None -> count_inv L cur cs -> count_inv L cur (cs ++ [c]).
Proof.
  intros Hc [H1 H2 H3 H4 H5]. split; [done|done| | |].
  - intros i c' jk [Hi|(Hi & [_ <-]%list_lookup_singleton_Some)]%lookup_app_Some Hjk; [by eapply H3|congruence].
  - intros i i' a b jk [Hi|(Hi & E)]%lookup_app_Some [Hi'|(Hi' & E')]%lookup_app_Some Ha Hb;
      [by eapply H4|apply list_lookup_singleton_Some in E' as [_ <-]|apply list_lookup_singleton_Some in E as [_ <-]..];
      congruence.
  - intros j s ip Hs. unfold opened. rw len_filter_snoc bool_decide_false; [intros [? _]; by rw Hc in H|].
    rw (H5 _ _ _ Hs). unfold opened. cbn. lia.
Qed.

(** A connection with no goroutine: just accepted. *)
Lemma accepted_busy c ip l : busy_inv l ->
  busy_inv (l <| ln_conns := ln_conns l ++ [mkNetConn c ip None false] |>).
Proof.
  intros [H1 H2 H3 H4 H5 H6 H7 H8 H9 H10]. split; try done; cbn.
  - intros g t Hg. destruct (H6 g t Hg) as [x Hx]. rw (lookup_app_l_Some _ _ _ _ Hx). by eexists.
  - intros g t x Hg Ht Hx. destruct (H6 g t Hg) as [y Hy]. rw (lookup_app_l_Some _ _ _ _ Hy) in Hx.
    injection Hx as <-. by eapply H8.
Qed.

Lemma acceptLoop_conn_inv c ip l : ln_inv l -> ln_inv (acceptLoop_conn c ip l).
Proof.
  intros (H1 & H2 & H3). unfold acceptLoop_conn. set l1 := l <| ln_conns := _ |>.
  assert (B1 : busy_inv l1) by by apply accepted_busy.
  assert (C1 : count_inv (ln_limiters l1) (ln_ipLimiter l1) (ln_conns l1)) by by apply count_snoc.
  assert (Hfresh : forall g t, ln_threads l !! g = Some t -> th_conn t <> length (ln_conns l)).
  { intros g t Hg He. destruct (li_conn l H1 g t Hg) as [x Hx%lookup_lt_Some]. lia. }
  destruct (ln_pending l1 <? ln_limit l1) eqn:Hp; (split; [|split; [|]]).
  - destruct B1 as [A1 A2 A3 A4 A5 A6 A7 A8 A9 A10]. split; try done; cbn -[l1].
    + rw len_filter_snoc. unfold l1 in A1. cbn in A1 |- *. rw bool_decide_true; [done|cbn; lia].
    + apply Z.ltb_lt in Hp. unfold l1 in Hp |- *. cbn in Hp |- *. lia.
    + intros g t [Hg|(_ & [_ <-]%list_lookup_singleton_Some)]%lookup_app_Some; [by eapply A6|].
      cbn. rw lookup_app_r // Nat.sub_diag. by eexists.
    + intros g g' t t' [Hg|(Hl & [Hg <-]%list_lookup_singleton_Some)]%lookup_app_Some
        [Hg'|(Hl' & [Hg' <-]%list_lookup_singleton_Some)]%lookup_app_Some He; cbn in He; [by eapply A7| | |cbn in *; lia].
      * by apply Hfresh in Hg.
      * by apply Hfresh in Hg'.
    + intros g t x [Hg|(_ & [_ <-]%list_lookup_singleton_Some)]%lookup_app_Some; [by eapply A8|].
      cbn. rw lookup_app_r // Nat.sub_diag. intros _ [= <-]. done.
    + intros g t tr i [Hg|(_ & [_ <-]%list_lookup_singleton_Some)]%lookup_app_Some; [by eapply A9|done].
    + intros tr i (g & t & Hg & Ht)%A10. exists g, t. split; [|done]. by apply lookup_app_l_Some.
  - exact C1.
  - intros i x [Hi|(Hl & [E <-]%list_lookup_singleton_Some)]%lookup_app_Some Hx.
    + destruct (H3 i x Hi Hx) as [(g & t & Hg & Ht)|H]; [|by right]. left. exists g, t. split; [|done].
      by apply lookup_app_l_Some.
    + left. eexists (length (ln_threads l)), _. cbn. rw lookup_app_r // Nat.sub_diag. split_and!; [done|cbn; lia|done].
  - apply closeConn_busy; [|done]. intros g t Hg He. by apply Hfresh in Hg.
  - by apply closeConn_count.
  - intros i x. rw closeConn_conns. intros (x0 & [Hx0|(Hl & [E <-]%list_lookup_singleton_Some)]%lookup_app_Some & _ & _ & _ & ->)%lookup_closed.
    + case_bool_decide; [done|]. intros Hx. destruct (closeConn_rest (length (ln_conns l)) l1) as (E1 & E2 & E3 & _).
      unfold owned. rw E1 E2 E3. by eapply H3.
    + rw bool_decide_true; [lia|done].
Qed.

Lemma step_arrive_conns s ip w : (IPLimit.checkIPRateLimit (IPLimit.limiter s) ip).2 = Some w ->
  IPLimit.conns (IPLimit.step s (IPLimit.Arrive ip)) = IPLimit.conns s ++ [IPLimit.mkConn ip false].
Proof.
  cbn. unfold IPLimit.checkIPRateLimit. destruct (IPLimit.AllowConnection _ _) as [lim [|]]; [|done]. by intros [= <-].
Qed.

Lemma lookup_counted (i : nat) jk (cs : list netConn) i' c :
  alter (fun c => c <| nc_limit := Some jk |>) i cs !! i' = Some c ->
  exists c0, cs !! i' = Some c0 /\ nc_ip c = nc_ip c0 /\ nc_closed c = nc_closed c0 /\
    nc_limit c = (if bool_decide (i' = i) then Some jk else nc_limit c0).
Proof.
  rw list_lookup_alter. case_decide as He; [subst i'|intros H; exists c; by rw bool_decide_false].
  destruct (cs !! i) as [c0|]; [|done]. intros [= <-]. exists c0. by rw bool_decide_true.
Qed.

(** An address below its limit: the connection is wrapped, as the limiter's newest. *)
Lemma arrive_count L cur cs i c j s w : cs !! i = Some c -> nc_limit c = None -> nc_closed c = false ->
  L !! j = Some s -> (IPLimit.checkIPRateLimit (IPLimit.limiter s) (nc_ip c)).2 = Some w ->
  count_inv L cur cs ->
  count_inv (<[j := IPLimit.step s (IPLimit.Arrive (nc_ip c))]> L) cur
    (alter (fun c => c <| nc_limit := Some (j, length (IPLimit.conns s)) |>) i cs).
Proof.
  intros Hi Hn Hc Hj Hw%step_arrive_conns [H1 H2 H3 H4 H5].
  pose proof (lookup_lt_Some _ _ _ Hj) as Hlt. set (k := length (IPLimit.conns s)).
  assert (HW : forall jk x, wrapper L jk = Some x -> wrapper (<[j := IPLimit.step s (IPLimit.Arrive (nc_ip c))]> L) jk = Some x).
  { intros [j' k'] x. unfold wrapper. cbn [fst snd]. destruct (decide (j' = j)) as [->|]; [|by rw list_lookup_insert_ne].
    rw Hj list_lookup_insert_eq //. cbn -[IPLimit.step]. rw Hw. apply lookup_app_l_Some. }
  assert (Hnew : wrapper L (j, k) = None).
  { unfold wrapper. cbn. rw Hj. by apply lookup_ge_None_2. }
  split.
  - intros j' s'. destruct (decide (j' = j)) as [->|]; [|rw list_lookup_insert_ne //; apply H1].
    rw list_lookup_insert_eq //. intros <-%(inj Some). destruct (H1 _ _ Hj) as (max & es & Hm & He).
    eexists max, _. split; [done|]. exact (limiter_step s max es _ He).
  - intros j' Hj'. apply H2 in Hj' as [x Hx]. apply lookup_lt_is_Some. rw length_insert. by eapply lookup_lt_Some.
  - intros i' c' jk (c0 & Hc0 & -> & -> & ->)%lookup_counted. case_bool_decide; [|intros Hjk; by apply HW, (H3 i')].
    subst i'. rw Hi in Hc0. injection Hc0 as <-. intros [= <-]. unfold wrapper. cbn [fst snd].
    rw list_lookup_insert_eq //. cbn -[IPLimit.step]. rw Hw lookup_app_r // Nat.sub_diag Hc. done.
  - intros i1 i2 c1 c2 jk (d1 & D1 & _ & _ & ->)%lookup_counted (d2 & D2 & _ & _ & ->)%lookup_counted.
    repeat case_bool_decide; subst; try done.
    + intros [= <-] E. apply (H3 _ _ _ D2) in E. congruence.
    + intros E [= <-]. apply (H3 _ _ _ D1) in E. congruence.
    + by eapply H4.
  - intros j' s' ip. unfold opened. rw (len_filter_alter _ _ _ _ _ Hi) (bool_decide_false (counted j' ip c)).
    { unfold counted. rw Hn. by intros [? _]. }
    destruct (decide (j' = j)) as [->|Hne].
    + rw list_lookup_insert_eq //. intros <-%(inj Some). rw Hw IPLimitProofs.live_snoc (H5 _ _ _ Hj). unfold opened. cbn.
      rw Z.sub_0_r. do 2 f_equal. apply bool_decide_ext. unfold IPLimitProofs.is_live, counted. cbn. naive_solver.
    + rw list_lookup_insert_ne //. intros Hs. rw (H5 _ _ _ Hs). unfold opened.
      rw bool_decide_false; [|cbn; lia]. unfold counted. cbn. intros [[= ?] _]. congruence.
Qed.

Lemma busy_counted i jk L l :
  (forall g t, ln_threads l !! g = Some t -> th_conn t = i -> th_stage t = StArrived -> False) ->
  busy_inv l ->
  busy_inv (l <| ln_limiters := L |> <| ln_conns := alter (fun c => c <| nc_limit := Some jk |>) i (ln_conns l) |>).
Proof.
  intros Hn [A1 A2 A3 A4 A5 A6 A7 A8 A9 A10]. split; try done; cbn.
  - intros g t Hg. apply lookup_lt_is_Some. rw length_alter. apply lookup_lt_is_Some. by eapply A6.
  - intros g t c Hg Ht (c0 & Hc0 & _ & -> & ->)%lookup_counted. case_bool_decide; [|by eapply A8].
    exfalso. by eapply Hn.
Qed.

Lemma checkIPRateLimit_inv g l t c : ln_threads l !! g = Some t -> th_stage t = StArrived ->
  ln_conns l !! th_conn t = Some c -> ln_inv l -> ln_inv (checkIPRateLimit g (th_conn t) (nc_ip c) l).
Proof.
  intros Hg Ht Hc Hinv. assert (Ha : active t = true) by by rw /active Ht.
  assert (Hp : past (th_stage t) = false) by by rw Ht.
  pose proof Hinv as (H1 & H2 & H3). unfold checkIPRateLimit.
  destruct (ln_ipLimiter l) as [j|] eqn:Hip; [|by apply (set_stage_inv g _ l t)].
  destruct (li_current _ _ _ H2 j eq_refl) as [s Hs]. rw Hs.
  destruct (IPLimit.checkIPRateLimit _ _) as [lim [w|]] eqn:Hw; [|by apply refuse_inv].
  destruct (li_raw l H1 g t c Hg Ht Hc) as [Hn Ho]. split_and!.
  - assert (B : busy_inv (set_stage g StAdmitted l)) by (apply (set_stage_busy g _ l t); by rw ?Hp).
    refine (busy_counted (th_conn t) _ _ _ _ B). intros g' t' (t0 & Ht0 & -> & ->)%lookup_stage He.
    rw bool_decide_true; [by eapply (li_distinct l)|done].
  - cbn -[IPLimit.step]. rw Hip. by eapply arrive_count; rw ?Hw.
  - eapply (set_stage_owned g _ _ t); [exact Hg|by left|].
    intros i' c' (c0 & Hc0 & _ & -> & _)%lookup_counted. apply (H3 i' c0 Hc0).
Qed.

Lemma busy_result r l : len (ln_results l) < resultsCap ->
  (forall tr i, r = inl (tr, i) ->
    exists g t, ln_threads l !! g = Some t /\ th_conn t = i /\ past (th_stage t) = true) ->
  busy_inv l -> busy_inv (l <| ln_results := ln_results l ++ [r] |>).
Proof.
  intros Hl Hr [A1 A2 A3 A4 A5 A6 A7 A8 A9 A10]. split; try done; cbn.
  - rw len_app len_cons len_nil. lia.
  - intros tr i [[H|H%list_elem_of_singleton]%elem_of_app|H]; [by apply (A10 tr); left|by eapply Hr|by apply (A10 tr); right].
Qed.

Lemma deliver_inv g first r l t : ln_threads l !! g = Some t -> th_stage t = StResult r ->
  ln_inv l -> ln_inv (deliver g first r l).
Proof.
  intros Hg Ht Hinv. assert (Ha : active t = true) by by rw /active Ht.
  assert (Hp : past (th_stage t) = false) by by rw Ht.
  pose proof Hinv as (H1 & H2 & H3). unfold deliver.
  assert (B : busy_inv (set_stage g StDelivered l)) by (apply (set_stage_busy g _ l t); by rw ?Hp).
  destruct (_ && _) eqn:Hroom; [|destruct (ln_closing l); [|done]].
  - apply andb_prop in Hroom as [Hroom%Z.ltb_lt _]. split_and!.
    + refine (busy_result r _ _ _ B); [done|]. intros tr i ->. eexists g, _. rw (stage_lookup _ _ _ _ _ Hg).
      rw bool_decide_true; [done|]. split_and!; [done| |done]. by apply (li_tunnel l H1 g t tr i).
    + exact H2.
    + eapply (set_stage_owned g _ _ t); [exact Hg| |].
      * rw Ht. destruct r as [[tr i]|e]; [|done]. intros _. right. right. exists tr. cbn.
        rw (li_tunnel l H1 g t tr i Hg Ht). apply elem_of_app. right. by apply list_elem_of_singleton.
      * intros i c Hi Hc. destruct (H3 i c Hi Hc) as [H|[[tr H]|H]]; [by left| |by right; right].
        right. left. exists tr. apply elem_of_app. by left.
  - destruct r as [[tr i]|e].
    + rw -(li_tunnel l H1 g t tr i Hg Ht). by apply leave_inv.
    + split_and!; [done|exact H2|]. apply (set_stage_owned g _ l t); [done|by rw Ht|done].
Qed.

Lemma gone_inv g l t : ln_threads l !! g = Some t -> th_stage t = StDelivered -> ln_inv l ->
  ln_inv (set_stage g StGone (l <| ln_pending := ln_pending l - 1 |>)).
Proof.
  intros Hg Ht (H1 & H2 & H3). split_and!; [|exact H2|].
  - pose proof H1 as [A1 A2 A3 A4 A5 A6 A7 A8 A9 A10]. split; try done.
    + cbn. rw (len_filter_alter _ _ _ _ _ Hg) A1. rw (bool_decide_true (active t = true)); [by rw /active Ht|].
      rw bool_decide_false; [done|]. cbn. lia.
    + cbn. lia.
    + intros g' t' (t0 & H0 & -> & _)%lookup_stage. by eapply A6.
    + intros g1 g2 t1 t2 (u & Hu & -> & _)%lookup_stage (v & Hv & -> & _)%lookup_stage. by eapply A7.
    + intros g' t' c (t0 & H0 & -> & ->)%lookup_stage. case_bool_decide; [done|]. by eapply A8.
    + intros g' t' tr i (t0 & H0 & -> & ->)%lookup_stage. case_bool_decide; [done|]. by eapply A9.
    + intros tr i (g' & t' & H & <- & Hpast)%A10. eexists g', _. rw (stage_lookup _ _ _ _ _ H). split_and!; [done|done|].
      cbn. by case_bool_decide.
  - eapply (set_stage_owned g _ _ t); [exact Hg|by rw Ht|exact H3].
Qed.

(** Fields no account is kept of. *)
Lemma crashed_inv l : ln_inv l -> ln_inv (l <| ln_crashed := true |>).
Proof. intros ([] & ? & ?). by split_and!; [split|..]. Qed.

Lemma acceptLoop_error_inv e l : ln_inv l -> ln_inv (acceptLoop_error e l).
Proof. intros ([] & ? & ?). by split_and!; [split|..]. Qed.

Lemma closing_inv l : ln_inv l -> ln_inv (l <| ln_closing := true |>).
Proof. intros ([] & ? & ?). by split_and!; [split|..]. Qed.

Lemma handshakeLimiter_inv lim l : ln_inv l -> ln_inv (l <| ln_handshakeLimiter := lim |>).
Proof. intros ([] & ? & ?). by split_and!; [split|..]. Qed.

Lemma runThread_inv g z l : ln_inv l -> ln_inv (runThread fips g z l).
Proof.
  intros Hinv. unfold runThread. destruct (ln_threads l !! g) as [t|] eqn:Hg; [|done].
  destruct (th_stage t) as [| |session|session|r| |] eqn:Ht; [| | | |by eapply deliver_inv|by eapply gone_inv|done];
    assert (Ha : active t = true) by (by rw /active Ht); assert (Hp : past (th_stage t) = false) by (by rw Ht).
  - destruct (ln_conns l !! th_conn t) as [c|] eqn:Hc; [|done]. by apply checkIPRateLimit_inv.
  - destruct (createSession z (ln_config l)); [by apply (set_stage_inv g _ l t)|by apply refuse_inv|by apply crashed_inv].
  - unfold checkHandshakeRate. destruct (ln_handshakeLimiter l) as [lim|]; [|by apply (set_stage_inv g _ l t)].
    destruct (TokenBucket.AllowHandshake lim (le_now z)) as [lim' [|]].
    + by apply (set_stage_inv g _ (l <| ln_handshakeLimiter := Some lim' |>) t); try apply handshakeLimiter_inv.
    + by apply (refuse_inv g _ (l <| ln_handshakeLimiter := Some lim' |>)); try apply handshakeLimiter_inv.
  - unfold runHandshake. destruct (ln_conns l !! th_conn t) as [c|] eqn:Hc; [|done].
    destruct (ResponderHandshake _ _ _ _ _ _ _ _) as [[h conn] [[]|e|]]; [|by apply refuse_inv|by apply crashed_inv].
    destruct (NewTransport (h_session h) conn) as [tr|e|]; [|by apply refuse_inv|by apply crashed_inv].
    apply (set_stage_inv g _ l t); try done. by intros ? ? [= _ <-].
Qed.

Lemma startAcceptLoop_inv l : ln_inv l -> ln_inv (startAcceptLoop l).
Proof.
  intros Hinv. unfold startAcceptLoop. destruct (ln_started l) eqn:Hs; [done|].
  destruct Hinv as ([A1 A2 A3 A4 A5 A6 A7 A8 A9 A10] & H2 & H3). rw A4 // in A2.
  assert (Hpos : 0 < if tc_MaxPendingHandshakes (ln_config l) <=? 0 then maxPendingHandshakes else tc_MaxPendingHandshakes (ln_config l)).
  { destruct (Z.leb_spec (tc_MaxPendingHandshakes (ln_config l)) 0); [done|lia]. }
  split_and!; [|exact H2|exact H3]. split; cbn; try done; lia.
Qed.

Lemma Accept_inv l : ln_inv l -> ln_inv (Accept l).1.
Proof.
  intros Hinv%startAcceptLoop_inv. unfold Accept. destruct (ln_results (startAcceptLoop l)) as [|r rs] eqn:Hr; [done|].
  set l1 := startAcceptLoop l in Hinv, Hr |- *. destruct Hinv as ([A1 A2 A3 A4 A5 A6 A7 A8 A9 A10] & H2 & H3).
  rw Hr in A10, A5. rw len_cons in A5. split_and!; [|exact H2|].
  - split; try done; cbn; [lia|]. intros tr i [H|[H|H]%elem_of_app]; [|by apply (A10 tr); right|].
    + apply (A10 tr). left. by apply elem_of_cons; right.
    + apply (A10 tr). left. apply elem_of_cons. left. destruct r as [t|e]; [|by apply not_elem_of_nil in H].
      by apply list_elem_of_singleton in H as ->.
  - intros i c Hi Hc. destruct (H3 i c Hi Hc) as [H|[[tr H]|[tr H]]]; [by left| |].
    + right. rw Hr in H. apply elem_of_cons in H as [<-|H]; [right|left]; exists tr; [|done].
      apply elem_of_app. right. by apply list_elem_of_singleton.
    + right. right. exists tr. apply elem_of_app. by left.
Qed.

Lemma SetConfig_inv config now l : ln_inv l -> ln_inv (SetConfig config now l).
Proof.
  intros ([A1 A2 A3 A4 A5 A6 A7 A8 A9 A10] & [H1 H2 H3 H4 H5] & Ho). unfold SetConfig, SetConfig_limiters.
  destruct (Z.ltb_spec 0 (MaxConnectionsPerIP (tc_RateLimit config))) as [Hm|Hm]; split_and!; try exact Ho; try by split.
  split; cbn.
  - intros j s [Hj|(Hl & [_ <-]%list_lookup_singleton_Some)]%lookup_app_Some; [by eapply H1|].
    by exists (MaxConnectionsPerIP (tc_RateLimit config)), [].
  - intros j [= <-]. apply lookup_lt_is_Some. rw length_app. cbn. lia.
  - intros i c jk Hi Hjk. rw wrapper_snoc. by eapply H3.
  - done.
  - intros j s ip [Hj|(Hl & [E <-]%list_lookup_singleton_Some)]%lookup_app_Some; [by eapply H5|].
    assert (filter (counted j ip) (ln_conns l) = []) as Hnone; [|by unfold opened; rw Hnone].
    destruct (filter (counted j ip) (ln_conns l)) as [|c cs] eqn:Hf; [done|exfalso].
    assert (c ∈ filter (counted j ip) (ln_conns l)) as [(Hj & _) [i Hi]%list_elem_of_lookup]%list_elem_of_filter.
    { rw Hf. apply elem_of_cons. by left. }
    destruct (nc_limit c) as [[j' k]|] eqn:Hjk; [|done]. injection Hj as ->.
    apply (H3 _ _ _ Hi) in Hjk. unfold wrapper in Hjk. rw lookup_ge_None_2 // in Hjk.
Qed.

Lemma closeTunnel_inv k t l : ln_tunnels l !! k = Some t -> ln_inv l -> ln_inv (closeTunnel t l).
Proof.
  intros Hk (H1 & H2 & H3). split_and!; [|by apply closeConn_count|by apply closeConn_owned].
  apply closeConn_busy; [|done]. intros g th Hg Hc Hst. destruct t as [tr i].
  destruct (li_passed l H1 tr i) as (g' & t' & Hg' & Hi & Hp); [right; by eapply list_elem_of_lookup_2|].
  assert (g = g') as -> by (eapply (li_distinct l); [done..|]; by rw Hc Hi).
  rw Hg in Hg'. injection Hg' as <-. by rw Hst in Hp.
Qed.

Lemma ln_step_inv l ev : ln_inv l -> ln_inv (ln_step fips l ev).
Proof.
  intros Hinv. unfold ln_step. destruct (ln_crashed l); [done|]. destruct ev as [c ip|e|g z| |k|config now|].
  - destruct (_ && _); [by apply acceptLoop_conn_inv|done].
  - destruct (_ && _); [by apply acceptLoop_error_inv|done].
  - by apply runThread_inv.
  - by apply Accept_inv.
  - destruct (ln_tunnels l !! k) as [t|] eqn:Hk; [|done]. by eapply closeTunnel_inv.
  - by apply SetConfig_inv.
  - by apply closing_inv, startAcceptLoop_inv.
Qed.

Lemma ln_run_inv evs : ln_inv (ln_run fips evs).
Proof.
  unfold ln_run. assert (H0 : ln_inv Listen).
  { split_and!; [split|split|]; try done. by intros tr i [H%not_elem_of_nil|H%not_elem_of_nil]. }
  revert H0. generalize Listen. induction evs as [|ev evs IH]; intros l Hl; [done|]. by apply IH, ln_step_inv.
Qed.
End Accounts.

(** ** What the listener promises *)


(** The first message of a responder handshake, when its session id overruns it. *)
Lemma ResponderHandshake_overrun {P : Primitives} {K : KEMPrimitives} fips prnd prnd2 rnd krnd now session c p rest :
  cn_in c = wire_payload MessageTypeClientHello p ++ rest -> len p <= MaxMessageSize ->
  is_bytes (wire_payload MessageTypeClientHello p) ->
  session_id_overruns MessageTypeClientHello 44 (wire_payload MessageTypeClientHello p) = true ->
  (ResponderHandshake fips prnd prnd2 rnd krnd now session c).2 = Panic.
Proof.
  intros Hin Hl Hb Ho. destruct c as [i out wf]. cbn in Hin. subst i.
  set d := wire_payload _ p in Hb, Ho |- *.
  assert (Hp : ProcessClientHello fips prnd now d (NewHandshake session) = (NewHandshake session, Panic)).
  { unfold ProcessClientHello. rw st_bind_get. cbn -[DecodeClientHello]. unfold st_bind, st_lift. by rw DecodeClientHello_overrun. }
  unfold ResponderHandshake, responderExchangeHellos.
  assert (HR : rw_Read ReadMessage (NewHandshake session, mkConn (d ++ rest) out wf) =
    ((NewHandshake session, mkConn rest out wf), Ok d)).
  { unfold rw_Read. cbn [cn_in]. by rw (ReadMessage_wire MessageTypeClientHello p rest Hl). }
  unfold st_bind at 1 2. rw HR. cbv beta iota. unfold st_bind at 1, or_alert at 1, on_handshake at 1. by rw Hp.
Qed.

(** In any state of the listener a connection that has passed the rate limits ends the whole
    process, if it sends a ClientHello whose session-id length reaches past the message: the
    decoder panics in the handshake goroutine, and nothing recovers there. *)
Theorem listener_crash {P : Primitives} {K : KEMPrimitives} fips evs g z i session c p rest :
  ln_crashed (ln_run fips evs) = false ->
  ln_threads (ln_run fips evs) !! g = Some (mkThread i (StAllowed session)) ->
  ln_conns (ln_run fips evs) !! i = Some c ->
  cn_in (nc_conn c) = wire_payload MessageTypeClientHello p ++ rest -> len p <= MaxMessageSize ->
  is_bytes (wire_payload MessageTypeClientHello p) ->
  session_id_overruns MessageTypeClientHello 44 (wire_payload MessageTypeClientHello p) = true ->
  forall evs', ln_crashed (ln_run fips (evs ++ LRun g z :: evs')) = true.
Proof.
  intros Hc Hg Hi Hin Hl Hb Ho evs'. unfold ln_run. rw foldl_app. fold (ln_run fips evs). cbn [foldl].
  assert (Hcr : ln_crashed (ln_step fips (ln_run fips evs) (LRun g z)) = true).
  { unfold ln_step, runThread. rw Hc Hg. cbn [th_stage th_conn]. unfold runHandshake. rw Hi.
    pose proof (ResponderHandshake_overrun fips (le_rnd z) (le_rnd2 z) (le_hello z) (le_kem z) (le_now z) session
      (nc_conn c) p rest Hin Hl Hb Ho) as Hp.
    destruct (ResponderHandshake _ _ _ _ _ _ _ _) as [[h conn] o]. cbn in Hp. by subst o. }
  revert Hcr. generalize (ln_step fips (ln_run fips evs) (LRun g z)).
  induction evs' as [|ev evs' IH]; intros l Hcr; [done|]. apply IH. unfold ln_step. by rw Hcr.
Qed.

Definition example_lenv : LEnv :=
  mkLEnv 0 (example_draws [16%nat]) (example_draws []) (example_draws []) (example_draws []) (example_draws [])
    (example_draws []) true.

(** A listener that limits nothing, and one connection with the 49-byte hello. *)
Definition example_arrival : list ListenerEvent :=
  [LAccept; LConn (mkConn overrun_ClientHello [] []) "192.0.2.1";
   LRun 0 example_lenv; LRun 0 example_lenv; LRun 0 example_lenv].

Lemma listener_crash_witness : ln_crashed (@ln_run toy toyKEM false (example_arrival ++ [LRun 0 example_lenv])) = true.
Proof.
  eapply (listener_crash false example_arrival 0%nat example_lenv 0%nat _ _ (drop 5 overrun_ClientHello) []);
    [reflexivity|reflexivity|reflexivity|reflexivity|done|apply is_bytesb_ok; reflexivity|reflexivity].
Defined.

(** Dialling: a connection that does not become a tunnel is closed, and a tunnel's is not. *)
Lemma DialWithConfig_closes {P : Primitives} {K : KEMPrimitives} fips z config dial d o :
  DialWithConfig fips z config dial (mkDialled None false) = (d, o) ->
  match o with
  | Ok _ => is_Some (dl_conn d) /\ dl_closed d = false
  | Err _ => dl_closed d = bool_decide (is_Some (dl_conn d))
  | Panic => True
  end.
Proof.
  unfold DialWithConfig, st_bind, st_lift, st_mod, or_close.
  destruct (validatePSK _ _); [|by intros [= <- <-]..].
  destruct dial as [conn|e|]; [|by intros [= <- <-]..]. cbn [dl_conn dl_closed].
  destruct (NewSession _ _ _ _) as [s|e|]; [|by intros [= <- <-]..].
  destruct (InitiatorHandshake _ _ _ _ _ _ _ _) as [[h c] [[]|e|]]; [|by intros [= <- <-]..].
  destruct (NewTransport _ _) as [t|e|]; intros [= <- <-]; by [|split; [eexists|]].
Qed.
