(* ===== verification/Pool.v ===== *)
(** The connection pool: [pkg/tunnel/pool.go], [pool_conn.go], [pool_config.go], [pool_stats.go].

    A [Pool] holds what the Go pool and its goroutines share: the pooled connections and the
    handles on them live in lists and are referred to by index, as pointers are, and so are the
    channels waiters sleep on.  A call of [Acquire] is a [caller] at a stage; a step takes it from
    one access to the pool to the next, so that calls, releases, the health checker and [Close]
    interleave at these steps.  Observer callbacks are left out. *)

From Corelib Require Import ssreflect.
From stdpp Require Import base tactics list numbers strings.
From Stdlib Require Import ZArith Lia Floats.SpecFloat.
From S2P Require Import Prelude Base Messages Codec Crypto Chkem Ticket Session Handshake Admission Endpoint Transport Listener.

Local Open Scope Z_scope.
Local Open Scope go_scope.

(** * Configuration *)

Record PoolConfig := mkPoolConfig {
  MinConns : Z;
  MaxConns : Z;
  IdleTimeout : Z;
  MaxLifetime : Z;
  HealthCheckInterval : Z;
  WaitTimeout : Z;
  DialTimeout : Z;
  pl_TransportConfig : TransportConfig }.

#[export] Instance PoolConfig_eta : Eta PoolConfig := {| eta := fun c =>
  mkPoolConfig (MinConns c) (MaxConns c) (IdleTimeout c) (MaxLifetime c) (HealthCheckInterval c)
    (WaitTimeout c) (DialTimeout c) (pl_TransportConfig c) |}.

Definition Minute : Z := 60 * Second.

Definition DefaultPoolConfig : PoolConfig :=
  mkPoolConfig 1 10 (5 * Minute) (30 * Minute) (30 * Second) (30 * Second) (10 * Second) DefaultTransportConfig.

Definition PoolConfig_Validate (c : PoolConfig) : outcome error unit :=
  guard! negb (MinConns c <? 0) else ErrExternal "pool: MinConns cannot be negative" in
  guard! negb (MaxConns c <? 0) else ErrExternal "pool: MaxConns cannot be negative" in
  guard! negb ((0 <? MaxConns c) && (MaxConns c <? MinConns c)) else ErrExternal "pool: MinConns cannot exceed MaxConns" in
  guard! negb (IdleTimeout c <? 0) else ErrExternal "pool: IdleTimeout cannot be negative" in
  guard! negb (MaxLifetime c <? 0) else ErrExternal "pool: MaxLifetime cannot be negative" in
  guard! negb (HealthCheckInterval c <? 0) else ErrExternal "pool: HealthCheckInterval cannot be negative" in
  guard! negb (WaitTimeout c <? 0) else ErrExternal "pool: WaitTimeout cannot be negative" in
  guard! negb (DialTimeout c <? 0) else ErrExternal "pool: DialTimeout cannot be negative" in
  Ok tt.

Definition or_default (v d : Z) : Z := if v =? 0 then d else v.

Definition applyDefaults (c : PoolConfig) : PoolConfig :=
  let d := DefaultPoolConfig in
  mkPoolConfig (or_default (MinConns c) (MinConns d)) (or_default (MaxConns c) (MaxConns d))
    (or_default (IdleTimeout c) (IdleTimeout d)) (or_default (MaxLifetime c) (MaxLifetime d))
    (or_default (HealthCheckInterval c) (HealthCheckInterval d)) (or_default (WaitTimeout c) (WaitTimeout d))
    (or_default (DialTimeout c) (DialTimeout d)) (pl_TransportConfig c).

(** * Statistics *)

Record PoolStats := mkPoolStats {
  connectionsTotal : Z;
  connectionsIdle : Z;
  connectionsInUse : Z;
  waitingCount : Z;
  acquiresTotal : Z;
  acquireTimeoutsTotal : Z;
  connectionsCreated : Z;
  connectionsClosed : Z;
  healthChecksTotal : Z;
  healthChecksFailed : Z;
  totalAcquireWaitNanos : Z;
  totalDialNanos : Z;
  acquireCount : Z;
  dialCount : Z;
  peakConnections : Z;
  peakWaiting : Z;
  st_createdAt : Z }.

#[export] Instance PoolStats_eta : Eta PoolStats := {| eta := fun s =>
  mkPoolStats (connectionsTotal s) (connectionsIdle s) (connectionsInUse s) (waitingCount s) (acquiresTotal s)
    (acquireTimeoutsTotal s) (connectionsCreated s) (connectionsClosed s) (healthChecksTotal s)
    (healthChecksFailed s) (totalAcquireWaitNanos s) (totalDialNanos s) (acquireCount s) (dialCount s)
    (peakConnections s) (peakWaiting s) (st_createdAt s) |}.

Definition newPoolStats (now : Z) : PoolStats := mkPoolStats 0 0 0 0 0 0 0 0 0 0 0 0 0 0 0 0 now.

(** Atomic additions at the width of the counter. *)
Definition i64_add (a b : Z) : Z := i64 (a + b).

Definition updatePeakConnections (current : Z) (s : PoolStats) : PoolStats :=
  if current <=? peakConnections s then s else s <| peakConnections := current |>.

Definition updatePeakWaiting (current : Z) (s : PoolStats) : PoolStats :=
  if current <=? peakWaiting s then s else s <| peakWaiting := current |>.

Definition recordAcquire (waitDuration : Z) (reused : bool) (s : PoolStats) : PoolStats :=
  let s := s <| acquiresTotal := u64_add (acquiresTotal s) 1 |> <| acquireCount := u64_add (acquireCount s) 1 |>
             <| totalAcquireWaitNanos := i64_add (totalAcquireWaitNanos s) (Z.max 0 waitDuration) |>
             <| connectionsInUse := i64_add (connectionsInUse s) 1 |> in
  if reused then s <| connectionsIdle := i64_add (connectionsIdle s) (-1) |> else s.

Definition recordAcquireTimeout (s : PoolStats) : PoolStats :=
  s <| acquireTimeoutsTotal := u64_add (acquireTimeoutsTotal s) 1 |>.

Definition recordRelease (s : PoolStats) : PoolStats :=
  let current := i64_add (connectionsInUse s) (-1) in
  s <| connectionsInUse := if current <? 0 then 0 else current |>
    <| connectionsIdle := i64_add (connectionsIdle s) 1 |>.

Definition recordConnectionCreated (dialDuration : Z) (s : PoolStats) : PoolStats :=
  let total := i64_add (connectionsTotal s) 1 in
  updatePeakConnections total
    (s <| connectionsCreated := u64_add (connectionsCreated s) 1 |> <| dialCount := u64_add (dialCount s) 1 |>
       <| totalDialNanos := i64_add (totalDialNanos s) (Z.max 0 dialDuration) |> <| connectionsTotal := total |>).

Definition recordConnectionClosed (wasIdle : bool) (s : PoolStats) : PoolStats :=
  let s := s <| connectionsClosed := u64_add (connectionsClosed s) 1 |>
             <| connectionsTotal := i64_add (connectionsTotal s) (-1) |> in
  if wasIdle then s <| connectionsIdle := i64_add (connectionsIdle s) (-1) |> else s.

Definition recordHealthCheck (healthy : bool) (s : PoolStats) : PoolStats :=
  let s := s <| healthChecksTotal := u64_add (healthChecksTotal s) 1 |> in
  if healthy then s else s <| healthChecksFailed := u64_add (healthChecksFailed s) 1 |>.

Definition incrementWaiting (s : PoolStats) : PoolStats :=
  let current := i64_add (waitingCount s) 1 in
  updatePeakWaiting current (s <| waitingCount := current |>).

Definition decrementWaiting (s : PoolStats) : PoolStats := s <| waitingCount := i64_add (waitingCount s) (-1) |>.

Definition setIdleCount (count : Z) (s : PoolStats) : PoolStats := s <| connectionsIdle := count |>.

Definition setTotalCount (count : Z) (s : PoolStats) : PoolStats :=
  updatePeakConnections count (s <| connectionsTotal := count |>).

Record PoolStatsSnapshot := mkPoolStatsSnapshot {
  sn_Uptime : Z;
  sn_ConnectionsTotal : Z;
  sn_ConnectionsIdle : Z;
  sn_ConnectionsInUse : Z;
  sn_Stats : PoolStats;
  sn_AvgAcquireWaitMs : TokenBucket.f64;
  sn_AvgDialMs : TokenBucket.f64 }.

(** The mean of a total of nanoseconds over a count, in milliseconds. *)
Definition average (totalNanos count : Z) : TokenBucket.f64 :=
  if 0 <? count
  then TokenBucket.f64_div (TokenBucket.f64_div (TokenBucket.f64_of_Z (Z.max 0 totalNanos)) (TokenBucket.f64_of_Z count))
         (TokenBucket.f64_of_Z 1000000)
  else TokenBucket.f64_of_Z 0.

Definition Snapshot (now : Z) (s : PoolStats) : PoolStatsSnapshot :=
  mkPoolStatsSnapshot (time_Since now (st_createdAt s)) (connectionsTotal s) (connectionsIdle s) (connectionsInUse s) s
    (average (totalAcquireWaitNanos s) (acquireCount s)) (average (totalDialNanos s) (dialCount s)).

(** * State *)

Record pooledConn := mkPooledConn {
  pc_tunnel : Transport;
  pc_createdAt : Z;
  pc_lastUsed : Z;
  pc_inUse : bool;
  pc_unhealthy : bool }.

#[export] Instance pooledConn_eta : Eta pooledConn := {| eta := fun c =>
  mkPooledConn (pc_tunnel c) (pc_createdAt c) (pc_lastUsed c) (pc_inUse c) (pc_unhealthy c) |}.

Definition newPooledConn (tunnel : Transport) (now : Z) : pooledConn := mkPooledConn tunnel now now false false.

Definition markUsed (now : Z) (pc : pooledConn) : pooledConn := pc <| pc_lastUsed := now |>.
Definition age (now : Z) (pc : pooledConn) : Z := time_Since now (pc_createdAt pc).
Definition idleTime (now : Z) (pc : pooledConn) : Z := time_Since now (pc_lastUsed pc).

(** The handle [Acquire] returns. *)
Record PoolConn := mkPoolConn {
  hd_pc : nat;
  hd_released : bool }.

Definition newPoolConn (pc : nat) : PoolConn := mkPoolConn pc false.

(** A [chan *pooledConn] of capacity one: [None] in its buffer is a nil pointer. *)
Record waitChan := mkWaitChan {
  ch_buf : option (option nat);
  ch_closed : bool }.

(** Where a call of [Acquire] or [TryAcquire] is. *)
Inductive acquireStage :=
| AcTry
| AcStart
| AcDial (startTime : Z)
| AcDialled (startTime : Z) (r : outcome error nat)
| AcWait (startTime : Z) (ch : nat) (deadline : Z)
| AcRestore (r : outcome error nat)
| AcDone (r : outcome error nat).

(** [ac_saved] is the timeout a [TryAcquire] will put back. *)
Record caller := mkCaller {
  ac_saved : option Z;
  ac_stage : acquireStage }.

(** Where [Start], and then the health checker, is. *)
Inductive background :=
| BgNone
| BgStart (todo : nat)
| BgStarted (todo : nat) (pc : nat)
| BgIdle
| BgClose (unhealthy : list nat)
| BgDeficit
| BgRefill (todo : nat)
| BgRefilled (todo : nat) (pc : nat)
| BgEnd.

Record Pool := mkPool {
  p_config : PoolConfig;
  p_conns : list nat;
  p_idle : list nat;
  p_waiters : list nat;
  p_closed : bool;
  p_pending : Z;
  p_stats : PoolStats;
  p_pcs : list pooledConn;
  p_chans : list waitChan;
  p_handles : list PoolConn;
  p_callers : list caller;
  p_bg : background;
  p_async : list nat;
  p_crashed : bool }.

#[export] Instance Pool_eta : Eta Pool := {| eta := fun p =>
  mkPool (p_config p) (p_conns p) (p_idle p) (p_waiters p) (p_closed p) (p_pending p) (p_stats p) (p_pcs p)
    (p_chans p) (p_handles p) (p_callers p) (p_bg p) (p_async p) (p_crashed p) |}.

Definition NewPool (config : PoolConfig) (now : Z) : outcome error Pool :=
  let config := applyDefaults config in
  let! _ := PoolConfig_Validate config in
  Ok (mkPool config [] [] [] false 0 (newPoolStats now) [] [] [] [] BgNone [] false).

Definition snapshotLocked (now : Z) (p : Pool) : PoolStatsSnapshot :=
  let snap := Snapshot now (p_stats p) in
  mkPoolStatsSnapshot (sn_Uptime snap) (len (p_conns p)) (len (p_idle p)) (len (p_conns p) - len (p_idle p))
    (sn_Stats snap) (sn_AvgAcquireWaitMs snap) (sn_AvgDialMs snap).

Definition Size (p : Pool) : Z := len (p_conns p).
Definition IdleCount (p : Pool) : Z := len (p_idle p).
Definition InUseCount (p : Pool) : Z := len (p_conns p) - len (p_idle p).

(** What a step reads from outside: the clock, what the dial came to, the context, and which ready
    case a select takes. *)
Inductive waitChoice := WReceive | WTimer | WContext (e : error).

Record PEnv := mkPEnv {
  pe_now : Z;
  pe_lenv : LEnv;
  pe_dial : outcome error Conn;
  pe_deadline : option Z;
  pe_choice : waitChoice }.

Definition on_stats (f : PoolStats -> PoolStats) (p : Pool) : Pool := p <| p_stats := f (p_stats p) |>.
Definition on_pc (k : nat) (f : pooledConn -> pooledConn) (p : Pool) : Pool := p <| p_pcs := alter f k (p_pcs p) |>.

Definition set_inUse (b : bool) (k : nat) : Pool -> Pool := on_pc k (fun pc => pc <| pc_inUse := b |>).

Definition set_caller (g : nat) (st : acquireStage) (p : Pool) : Pool :=
  p <| p_callers := alter (fun c => mkCaller (ac_saved c) st) g (p_callers p) |>.

(** [Acquire] returns [r]; inside [TryAcquire] the timeout is still to be restored. *)
Definition finish (g : nat) (r : outcome error nat) (p : Pool) : Pool :=
  p <| p_callers := alter (fun c => mkCaller (ac_saved c)
         (match ac_saved c with Some _ => AcRestore r | None => AcDone r end)) g (p_callers p) |>.

(** * Operations *)

(** [pc.tunnel.Close()] *)
Definition closeTunnel (k : nat) : Pool -> Pool :=
  on_pc k (fun pc => pc <| pc_tunnel := (Transport.Close (pc_tunnel pc)).1 |>).

(** A goroutine that closes the tunnel. *)
Definition closeConnAsync (k : nat) (p : Pool) : Pool := p <| p_async := p_async p ++ [k] |>.

Definition recordTimeout : Pool -> Pool := on_stats recordAcquireTimeout.

Definition isHealthy (now : Z) (p : Pool) (k : nat) : bool :=
  match p_pcs p !! k with
  | None => false
  | Some pc =>
      negb (pc_unhealthy pc) &&
      negb ((0 <? MaxLifetime (p_config p)) && (MaxLifetime (p_config p) <? age now pc)) &&
      negb ((0 <? IdleTimeout (p_config p)) && (IdleTimeout (p_config p) <? idleTime now pc)) &&
      (is_state (t_session (pc_tunnel pc)) SessionStateEstablished ||
       is_state (t_session (pc_tunnel pc)) SessionStateRekeying)
  end.

Fixpoint remove_first (k : nat) (l : list nat) : list nat :=
  match l with
  | [] => []
  | x :: l => if Nat.eqb x k then l else x :: remove_first k l
  end.

Definition removeConnLocked (k : nat) (p : Pool) : Pool :=
  let p := p <| p_conns := remove_first k (p_conns p) |> <| p_idle := remove_first k (p_idle p) |> in
  on_stats (fun s => setIdleCount (len (p_idle p)) (setTotalCount (len (p_conns p)) s)) p.

Definition removeWaiter (ch : nat) (p : Pool) : Pool := p <| p_waiters := remove_first ch (p_waiters p) |>.

(** [ch <- v]: a waiter's channel has room for the one value it is ever sent. *)
Definition chan_send (ch : nat) (v : option nat) (p : Pool) : Pool :=
  p <| p_chans := alter (fun c => mkWaitChan (Some v) (ch_closed c)) ch (p_chans p) |>.

Definition wakeWaiterLocked (p : Pool) : Pool :=
  match p_waiters p with
  | ch :: ws => chan_send ch None (p <| p_waiters := ws |>)
  | [] => p
  end.

(** The loop of [tryGetIdleLocked]; a turn takes one idle connection away. *)
Fixpoint tryGetIdle_loop (fuel : nat) (now : Z) (p : Pool) : Pool * option nat :=
  match fuel with
  | O => (p, None)
  | S fuel =>
      match last (p_idle p) with
      | None => (p, None)
      | Some k =>
          let p := p <| p_idle := take (length (p_idle p) - 1) (p_idle p) |> in
          if isHealthy now p k then (set_inUse true k p, Some k)
          else tryGetIdle_loop fuel now (closeConnAsync k (removeConnLocked k p))
      end
  end.

Definition tryGetIdleLocked (now : Z) (p : Pool) : Pool * option nat := tryGetIdle_loop (length (p_idle p)) now p.

Definition finishAcquire (g k : nat) (startTime now : Z) (fromPool : bool) (p : Pool) : Pool :=
  let p := on_stats (recordAcquire (time_Since now startTime) fromPool) p in
  finish g (Ok (length (p_handles p))) (p <| p_handles := p_handles p ++ [newPoolConn k] |>).

Definition effectiveTimeout (now : Z) (deadline : option Z) (p : Pool) : Z :=
  let timeout := WaitTimeout (p_config p) in
  match deadline with
  | Some d => let remaining := time_Since d now in if remaining <? timeout then remaining else timeout
  | None => timeout
  end.

Definition waitForConnection (g : nat) (startTime : Z) (z : PEnv) (p : Pool) : Pool :=
  if WaitTimeout (p_config p) =? 0 then finish g (Err ErrPoolExhausted) (recordTimeout p)
  else
    let ch := length (p_chans p) in
    let p := on_stats incrementWaiting
               (p <| p_chans := p_chans p ++ [mkWaitChan None false] |> <| p_waiters := p_waiters p ++ [ch] |>) in
    set_caller g (AcWait startTime ch (pe_now z + effectiveTimeout (pe_now z) (pe_deadline z) p)) p.

Definition Acquire (g : nat) (z : PEnv) (p : Pool) : Pool :=
  let startTime := pe_now z in
  if p_closed p then finish g (Err ErrPoolClosed) p
  else
    match tryGetIdleLocked (pe_now z) p with
    | (p, Some k) => finishAcquire g k startTime (pe_now z) true p
    | (p, None) =>
        if (MaxConns (p_config p) =? 0) || (len (p_conns p) + p_pending p <? MaxConns (p_config p))
        then set_caller g (AcDial startTime) (p <| p_pending := p_pending p + 1 |>)
        else waitForConnection g startTime z p
    end.

Section Pool.
Context {P : Primitives} {K : KEMPrimitives} (fips : bool).

(** [createConn] up to the tunnel: on an error the connection it opened is closed. *)
Definition createConn (z : LEnv) (config : TransportConfig) (dial : outcome error Conn) : ST Dialled error Transport :=
  do! conn := st_lift dial in
  do! _ := st_mod (fun _ => mkDialled (Some conn) false) in
  do! session := or_close (NewSession (le_id z) (le_key z) (le_now z) RoleInitiator) in
  let '((h, conn), o) :=
    InitiatorHandshake fips (le_hello z) (le_kem z) (le_rnd z) (le_rnd2 z) (le_now z) session conn in
  do! _ := or_close o in
  or_close (NewTransport (h_session h) conn).

(** ... and the pooled connection, or the error. *)
Definition dialConn (z : PEnv) (p : Pool) : Pool * outcome error nat :=
  match (createConn (pe_lenv z) (pl_TransportConfig (p_config p)) (pe_dial z) (mkDialled None false)).2 with
  | Ok tunnel =>
      (on_stats (recordConnectionCreated (time_Since (pe_now z) (le_now (pe_lenv z))))
         (p <| p_pcs := p_pcs p ++ [newPooledConn tunnel (pe_now z)] |>), Ok (length (p_pcs p)))
  | Err e => (p, Err e)
  | Panic => (p <| p_crashed := true |>, Panic)
  end.

(** [createAndAcquire], after the dial. *)
Definition createAndAcquire (g : nat) (startTime now : Z) (r : outcome error nat) (p0 : Pool) : Pool :=
  let p := p0 <| p_pending := p_pending p0 - 1 |> in
  match r with
  | Ok k =>
      if p_closed p then finish g (Err ErrPoolClosed) (closeTunnel k p)
      else
        let p := set_inUse true k p in
        let p := p <| p_conns := p_conns p ++ [k] |> in
        finishAcquire g k startTime now false (on_stats (setTotalCount (len (p_conns p))) p)
  | Err e => finish g (Err e) (wakeWaiterLocked p)
  | Panic => p0
  end.

(** [handleWaitResult] on a value of the channel. *)
Definition handleWaitResult (g : nat) (startTime now : Z) (v : option nat) (p : Pool) : Pool :=
  let p := on_stats decrementWaiting p in
  match v with
  | None => set_caller g AcStart p
  | Some k =>
      if negb (isHealthy now p k) then set_caller g AcStart (closeConnAsync k (removeConnLocked k p))
      else finishAcquire g k startTime now true (set_inUse true k p)
  end.

Definition handleWaitTimeout (g ch : nat) (e : error) (p : Pool) : Pool :=
  finish g (Err e) (recordTimeout (on_stats decrementWaiting (removeWaiter ch p))).

(** The select of [waitForConnection]: a case is taken only when it is ready. *)
Definition wait_step (g : nat) (startTime : Z) (ch : nat) (deadline : Z) (z : PEnv) (p : Pool) : Pool :=
  match pe_choice z with
  | WReceive =>
      match p_chans p !! ch with
      | None => p
      | Some c =>
          match ch_buf c with
          | Some v =>
              handleWaitResult g startTime (pe_now z) v
                (p <| p_chans := alter (fun c => mkWaitChan None (ch_closed c)) ch (p_chans p) |>)
          | None => if ch_closed c then finish g (Err ErrPoolClosed) (on_stats decrementWaiting p) else p
          end
      end
  | WTimer => if deadline <=? pe_now z then handleWaitTimeout g ch ErrPoolTimeout p else p
  | WContext e => handleWaitTimeout g ch e p
  end.

(** The two critical sections of [TryAcquire]. *)
Definition TryAcquire_begin (g : nat) (p : Pool) : Pool :=
  let origTimeout := WaitTimeout (p_config p) in
  p <| p_config := (p_config p) <| WaitTimeout := 0 |> |>
    <| p_callers := alter (fun _ => mkCaller (Some origTimeout) AcStart) g (p_callers p) |>.

Definition TryAcquire_end (g : nat) (origTimeout : Z) (r : outcome error nat) (p : Pool) : Pool :=
  set_caller g (AcDone r) (p <| p_config := (p_config p) <| WaitTimeout := origTimeout |> |>).

(** One step of caller [g]. *)
Definition runCaller (g : nat) (z : PEnv) (p : Pool) : Pool :=
  match p_callers p !! g with
  | None => p
  | Some c =>
      match ac_stage c with
      | AcTry => TryAcquire_begin g p
      | AcStart => Acquire g z p
      | AcDial startTime => let '(p, r) := dialConn z p in set_caller g (AcDialled startTime r) p
      | AcDialled startTime r => createAndAcquire g startTime (pe_now z) r p
      | AcWait startTime ch deadline => wait_step g startTime ch deadline z p
      | AcRestore r => TryAcquire_end g (default 0 (ac_saved c)) r p
      | AcDone r => p
      end
  end.

(** * Handles *)

Definition ErrConnReleased : error := ErrExternal "pool: connection already released".

(** A call on the tunnel behind a handle that is not released. *)
Definition on_tunnel {A} (h : nat) (m : Tr A) (p : Pool) : Pool * outcome error A :=
  match p_handles p !! h with
  | None => (p, Panic)
  | Some c =>
      if hd_released c then (p, Err ErrConnReleased)
      else
        match p_pcs p !! hd_pc c with
        | None => (p, Panic)
        | Some pc => let '(t, o) := m (pc_tunnel pc) in
                     (on_pc (hd_pc c) (fun pc => pc <| pc_tunnel := t |>) p, o)
        end
  end.

Definition PoolConn_Send (h : nat) (z : TEnv) (data : list Z) : Pool -> Pool * outcome error unit := on_tunnel h (Transport.Send z data).
Definition PoolConn_Receive (h fuel : nat) (zs : nat -> TEnv) : Pool -> Pool * outcome error (list Z) :=
  on_tunnel h (Transport.Receive fips fuel zs).
Definition PoolConn_SendPing (h : nat) : Pool -> Pool * outcome error unit := on_tunnel h SendPing.

Definition release (k : nat) (p : Pool) : Pool :=
  if p_closed p then closeConnAsync k p
  else
    let p := set_inUse false k p in
    if default false (pc_unhealthy <$> p_pcs p !! k) then
      wakeWaiterLocked (closeConnAsync k (on_stats (recordConnectionClosed false) (removeConnLocked k p)))
    else
      match p_waiters p with
      | ch :: ws => chan_send ch (Some k) (set_inUse true k (p <| p_waiters := ws |>))
      | [] => on_stats recordRelease (p <| p_idle := p_idle p ++ [k] |>)
      end.

(** A handle gives its connection back once; [f] is what it does to the connection first. *)
Definition give_back (h : nat) (f : pooledConn -> pooledConn) (p : Pool) : Pool :=
  match p_handles p !! h with
  | None => p
  | Some c =>
      if hd_released c then p
      else release (hd_pc c) (on_pc (hd_pc c) f (p <| p_handles := <[h := mkPoolConn (hd_pc c) true]> (p_handles p) |>))
  end.

Definition PoolConn_Release (h : nat) (now : Z) : Pool -> Pool := give_back h (markUsed now).
Definition PoolConn_Close (h : nat) : Pool -> Pool := give_back h (fun pc => pc <| pc_unhealthy := true |>).

(** * Starting, health checks, closing *)

(** A connection nobody asked for: it goes to the idle ones. *)
Definition addIdle (k : nat) (p : Pool) : Pool :=
  let p := p <| p_conns := p_conns p ++ [k] |> <| p_idle := p_idle p ++ [k] |> in
  on_stats (fun s => setIdleCount (len (p_idle p)) (setTotalCount (len (p_conns p)) s)) p.

Definition Start (p : Pool) : Pool * outcome error unit :=
  if p_closed p then (p, Err ErrPoolClosed)
  else (p <| p_bg := BgStart (Z.to_nat (MinConns (p_config p))) |>, Ok tt).

(** The critical section of [runHealthCheck]. *)
Definition runHealthCheck (now : Z) (p : Pool) : Pool :=
  if p_closed p then p <| p_bg := BgEnd |>
  else
    let healthy := filter (fun k => isHealthy now p k = true) (p_idle p) in
    let unhealthy := filter (fun k => isHealthy now p k = false) (p_idle p) in
    let p := foldl (fun p k => on_stats (recordHealthCheck (isHealthy now p k)) p) p (p_idle p) in
    let p := p <| p_idle := healthy |> in
    let p := foldl (fun p k => removeConnLocked k p) p unhealthy in
    let p := on_stats (setIdleCount (len (p_idle p))) p in
    p <| p_bg := BgClose unhealthy |>.

Definition runBackground (z : PEnv) (p : Pool) : Pool :=
  match p_bg p with
  | BgNone | BgEnd => p
  | BgStart O => p <| p_bg := if 0 <? HealthCheckInterval (p_config p) then BgIdle else BgEnd |>
  | BgStart (S n) =>
      match dialConn z p with
      | (p, Ok k) => p <| p_bg := BgStarted n k |>
      | (p, _) => p <| p_bg := BgStart n |>
      end
  | BgStarted n k => (addIdle k p) <| p_bg := BgStart n |>
  | BgIdle => runHealthCheck (pe_now z) p
  | BgClose ks => (foldl (fun p k => closeTunnel k p) p ks) <| p_bg := BgDeficit |>
  | BgDeficit => p <| p_bg := BgRefill (Z.to_nat (MinConns (p_config p) - len (p_conns p))) |>
  | BgRefill O => p <| p_bg := BgIdle |>
  | BgRefill (S n) =>
      match dialConn z p with
      | (p, Ok k) => p <| p_bg := BgRefilled n k |>
      | (p, _) => p <| p_bg := BgIdle |>
      end
  | BgRefilled n k =>
      if p_closed p then (closeTunnel k p) <| p_bg := BgIdle |>
      else (addIdle k p) <| p_bg := BgRefill n |>
  end.

(** [Close]; the tunnels are closed after the lock is given up. *)
Definition Pool_Close (p : Pool) : Pool :=
  if p_closed p then p
  else
    p <| p_closed := true |>
      <| p_chans := foldl (fun cs ch => alter (fun c => mkWaitChan (ch_buf c) true) ch cs) (p_chans p) (p_waiters p) |>
      <| p_waiters := [] |> <| p_async := p_async p ++ p_conns p |> <| p_conns := [] |> <| p_idle := [] |>.

(** * Runs *)

Inductive PoolEvent :=
| PAcquire
| PTryAcquire
| PCaller (g : nat) (z : PEnv)
| PSend (h : nat) (z : TEnv) (data : list Z)
| PReceive (h : nat) (fuel : nat) (zs : nat -> TEnv)
| PPing (h : nat)
| PRelease (h : nat) (now : Z)
| PCloseHandle (h : nat)
| PStart
| PBackground (z : PEnv)
| PClose
| PAsync (i : nat).

Definition pl_step (p : Pool) (ev : PoolEvent) : Pool :=
  if p_crashed p then p
  else match ev with
       | PAcquire => p <| p_callers := p_callers p ++ [mkCaller None AcStart] |>
       | PTryAcquire => p <| p_callers := p_callers p ++ [mkCaller None AcTry] |>
       | PCaller g z => runCaller g z p
       | PSend h z data => (PoolConn_Send h z data p).1
       | PReceive h fuel zs => (PoolConn_Receive h fuel zs p).1
       | PPing h => (PoolConn_SendPing h p).1
       | PRelease h now => PoolConn_Release h now p
       | PCloseHandle h => PoolConn_Close h p
       | PStart => match p_bg p with BgNone => (Start p).1 | _ => p end
       | PBackground z => runBackground z p
       | PClose => Pool_Close p
       | PAsync i => match p_async p !! i with
                     | Some k => closeTunnel k (p <| p_async := delete i (p_async p) |>)
                     | None => p
                     end
       end.

Definition pl_run (p : Pool) (evs : list PoolEvent) : Pool := foldl pl_step p evs.
End Pool.
