(* ===== verification/PoolInv.v ===== *)
(** What the connection pool keeps, whatever calls interleave.

    A pooled connection has at most one owner: it is idle, on its way to a waiter, behind one
    handle in use, or just created by someone.  [lasts] relates the state before and after an
    operation that may hold one connection in its hands; each operation of the pool is shown to
    be [fine], and so is a run. *)

From Corelib Require Import ssreflect.
From stdpp Require Import base tactics list numbers strings.
From Stdlib Require Import ZArith Lia.
From S2P Require Import Prelude Base Messages Codec Crypto Chkem Ticket Session Handshake Agreement Admission Endpoint Transport Connect Listener Pool.

Local Open Scope Z_scope.
Local Open Scope go_scope.

(** * Who has a connection *)

(** The connection a caller, or the background goroutine, has created and not yet put anywhere. *)
Definition carried (st : acquireStage) : option nat :=
  match st with AcDialled _ (Ok k) => Some k | _ => None end.

Definition bg_carried (b : background) : option nat :=
  match b with BgStarted _ k | BgRefilled _ k => Some k | _ => None end.

Definition in_chan (k : nat) (c : waitChan) : Prop := ch_buf c = Some (Some k).
Definition in_handle (k : nat) (c : PoolConn) : Prop := hd_pc c = k /\ hd_released c = false.
Definition in_caller (k : nat) (c : caller) : Prop := carried (ac_stage c) = Some k.

#[export] Instance in_chan_dec k c : Decision (in_chan k c).
Proof. unfold in_chan. solve_decision. Defined.
#[export] Instance in_handle_dec k c : Decision (in_handle k c).
Proof. unfold in_handle. solve_decision. Defined.
#[export] Instance in_caller_dec k c : Decision (in_caller k c).
Proof. unfold in_caller. solve_decision. Defined.

(** How often connection [k] is idle, on its way to a waiter, or behind a handle in use ... *)
Definition attached (p : Pool) (k : nat) : Z :=
  len (filter (fun x => x = k) (p_idle p)) + len (filter (in_chan k) (p_chans p)) + len (filter (in_handle k) (p_handles p)).

(** ... and with those who just created it. *)
Definition tokens (p : Pool) (k : nat) : Z :=
  attached p k + len (filter (in_caller k) (p_callers p)) + Z.b2z (bool_decide (bg_carried (p_bg p) = Some k)).

(** ... and with the running operation, which may have [hand] in its hands. *)
Definition owners (hand : option nat) (p : Pool) (k : nat) : Z := tokens p k + Z.b2z (bool_decide (hand = Some k)).

(** Nothing gets a second owner, and no connection without one leaves the pool. *)
Record lasts (d : option nat) (p : Pool) (d' : option nat) (p' : Pool) : Prop := {
  la_owners : forall k, owners d' p' k <=
    owners d p k + Z.b2z (bool_decide (length (p_pcs p) <= k < length (p_pcs p'))%nat);
  la_pcs : (length (p_pcs p) <= length (p_pcs p'))%nat;
  la_conns : forall k, (k < length (p_pcs p))%nat -> k ∈ p_conns p -> owners d p k = 0 ->
    k ∈ p_conns p' \/ p_closed p' = true;
  la_closed : p_closed p = true -> p_closed p' = true }.

(** The lists agree with each other. *)
Record placed (p : Pool) : Prop := {
  pi_idle : forall k, k ∈ p_idle p -> k ∈ p_conns p;
  pi_conns : forall k, 0 < attached p k -> p_closed p = true \/ k ∈ p_conns p;
  pi_waiters : forall ch, ch ∈ p_waiters p -> p_chans p !! ch = Some (mkWaitChan None false);
  pi_queue : NoDup (p_waiters p) }.

Record owned_once (d : option nat) (p : Pool) : Prop := {
  pi_one : forall k, owners d p k <= 1;
  pi_known : forall k, (length (p_pcs p) <= k)%nat -> owners d p k = 0 }.

(** Nothing an owner is counted by has changed. *)
Record same (p p' : Pool) : Prop := {
  sm_conns : p_conns p' = p_conns p;
  sm_idle : p_idle p' = p_idle p;
  sm_waiters : p_waiters p' = p_waiters p;
  sm_closed : p_closed p' = p_closed p;
  sm_chans : p_chans p' = p_chans p;
  sm_handles : p_handles p' = p_handles p;
  sm_callers : p_callers p' = p_callers p;
  sm_bg : bg_carried (p_bg p') = bg_carried (p_bg p);
  sm_pcs : length (p_pcs p') = length (p_pcs p) }.

Section Owners.
Context {P : Primitives} {K : KEMPrimitives} (fips : bool).

Lemma len_filter_nonneg {A} (Q : A -> Prop) `{!forall x, Decision (Q x)} (l : list A) : 0 <= len (filter Q l).
Proof. apply len_nonneg. Qed.

Lemma attached_nonneg p k : 0 <= attached p k.
Proof. unfold attached. pose proof (len_filter_nonneg (fun x => x = k) (p_idle p)).
  pose proof (len_filter_nonneg (in_chan k) (p_chans p)). pose proof (len_filter_nonneg (in_handle k) (p_handles p)). lia. Qed.

Lemma attached_tokens p k : attached p k <= tokens p k.
Proof. unfold tokens. pose proof (len_filter_nonneg (in_caller k) (p_callers p)). destruct (bool_decide _); cbn; lia. Qed.

Lemma len_filter_pos {A} (Q : A -> Prop) `{!forall x, Decision (Q x)} (l : list A) :
  0 < len (filter Q l) <-> exists x, x ∈ l /\ Q x.
Proof.
  split.
  - destruct (filter Q l) as [|x k] eqn:Hf; [done|]. exists x.
    assert (x ∈ filter Q l) as [? ?]%list_elem_of_filter; [rw Hf; by left|done].
  - intros (x & Hx & HQ). destruct (filter Q l) as [|y k] eqn:Hf; [|rw len_cons; pose proof (len_nonneg k); lia].
    assert (x ∈ filter Q l) as Hin; [by apply list_elem_of_filter|]. rw Hf in Hin. by apply elem_of_nil in Hin.
Qed.

Lemma len_filter_filter {A} (Q R : A -> Prop) `{!forall x, Decision (Q x)} `{!forall x, Decision (R x)} (l : list A) :
  len (filter Q (filter R l)) <= len (filter Q l).
Proof.
  induction l as [|y l IH]; [done|]. rw (filter_cons R). case_decide; rw ?filter_cons; repeat case_decide; rw ?len_cons; lia.
Qed.

Lemma remove_first_le k x l : len (filter (fun y => y = k) (remove_first x l)) <= len (filter (fun y => y = k) l).
Proof.
  induction l as [|y l IH]; cbn [remove_first]; [done|]. destruct (Nat.eqb_spec y x) as [->|Hne].
  - rw filter_cons. case_decide; rw ?len_cons; lia.
  - rw !filter_cons. case_decide; rw ?len_cons; lia.
Qed.

Lemma elem_of_remove_first k x l : k ∈ l -> k <> x -> k ∈ remove_first x l.
Proof.
  intros H Hne. induction l as [|y l IH]; [done|]. cbn [remove_first]. apply elem_of_cons in H as [->|H].
  - destruct (Nat.eqb_spec y x); [done|]. by left.
  - destruct (Nat.eqb_spec y x); [done|]. right. by apply IH.
Qed.

Lemma remove_first_len x l : len (remove_first x l) <= len l.
Proof. induction l as [|y l IH]; cbn [remove_first]; [done|]. destruct (Nat.eqb y x); rw ?len_cons; lia. Qed.

Lemma remove_first_sub k x l : k ∈ remove_first x l -> k ∈ l.
Proof.
  induction l as [|y l IH]; [done|]. cbn [remove_first]. destruct (Nat.eqb_spec y x); [by right|].
  intros [->|H]%elem_of_cons; [by left|right; by apply IH].
Qed.

Lemma last_split {A} (l : list A) x : last l = Some x -> l = take (length l - 1) l ++ [x].
Proof.
  intros H. apply last_Some in H as [l' ->]. rw length_app. cbn. replace (length l' + 1 - 1)%nat with (length l') by lia.
  by rw take_app_length.
Qed.

Lemma b2z_nonneg b : 0 <= Z.b2z b.
Proof. by destruct b. Qed.

Lemma tokens_nonneg p k : 0 <= tokens p k.
Proof. pose proof (attached_nonneg p k). pose proof (attached_tokens p k). lia. Qed.

Lemma owners_None p k : owners None p k = tokens p k.
Proof. unfold owners. rw bool_decide_false; [done|]. cbn. lia. Qed.

Lemma owners_nonneg d p k : 0 <= owners d p k.
Proof. unfold owners. pose proof (tokens_nonneg p k). destruct (bool_decide _); cbn; lia. Qed.

Lemma lasts_trans d1 p1 d2 p2 d3 p3 : lasts d1 p1 d2 p2 -> lasts d2 p2 d3 p3 -> lasts d1 p1 d3 p3.
Proof.
  intros [A1 A2 A3 A4] [B1 B2 B3 B4]. split; [|lia| |auto].
  - intros k. specialize (A1 k). specialize (B1 k). revert A1 B1. repeat case_bool_decide; cbn; lia.
  - intros k Hk Hc Ho. specialize (A1 k). rw Ho bool_decide_false in A1; [lia|]. cbn in A1.
    pose proof (owners_nonneg d2 p2 k) as Hnn. destruct (A3 k Hk Hc Ho) as [H|H]; [|right; auto].
    apply B3; [lia|done|lia].
Qed.

Lemma lasts_once d p d' p' : lasts d p d' p' -> owned_once d p -> owned_once d' p'.
Proof.
  intros [A1 A2 _ _] [O1 O2]. split; intros k; specialize (A1 k); pose proof (owners_nonneg d' p' k).
  - specialize (O1 k). destruct (decide (length (p_pcs p) <= k)%nat) as [Hk|Hk].
    + rw (O2 k Hk) in A1. destruct (bool_decide _); cbn in A1; lia.
    + rw bool_decide_false in A1; [lia|]. cbn in A1. lia.
  - intros Hk. rw bool_decide_false in A1; [lia|]. rw (O2 k) in A1; [lia|]. cbn in A1. lia.
Qed.

Lemma lasts_drop k d p p' : lasts d p (Some k) p' -> lasts d p None p'.
Proof.
  intros [A1 A2 A3 A4]. split; [|done..]. intros k'. specialize (A1 k'). revert A1. unfold owners.
  rw (bool_decide_false (None = Some k')); [done|]. destruct (bool_decide (Some k = Some k')); cbn; lia.
Qed.

Lemma lasts_id d p : lasts d p d p.
Proof. split; [|done|by left|done]. intros k. destruct (bool_decide (_ <= _ < _)%nat); cbn; lia. Qed.

Lemma same_tokens p p' k : same p p' -> tokens p' k = tokens p k.
Proof. intros [E1 E2 E3 E4 E5 E6 E7 E8 E9]. unfold tokens, attached. by rw E2 E5 E6 E7 E8. Qed.

Lemma same_lasts d p p' : same p p' -> lasts d p d p'.
Proof.
  intros H. split; [|by rw (sm_pcs _ _ H)|rw (sm_conns _ _ H); by left|by rw (sm_closed _ _ H)].
  intros k. unfold owners. rw (same_tokens _ _ _ H). destruct (bool_decide (_ <= _ < _)%nat); cbn; lia.
Qed.

Lemma same_placed p p' : same p p' -> placed p -> placed p'.
Proof.
  intros [E1 E2 E3 E4 E5 E6 E7 E8 E9] [A1 A2 A3 A4]. split; rw ?E1 ?E2 ?E3 ?E4 ?E5; try done.
  intros k. unfold attached. rw E2 E5 E6. apply A2.
Qed.

Lemma on_pc_same k f p : same p (on_pc k f p).
Proof. split; try done. cbn. apply length_alter. Qed.

Lemma closeTunnel_same k p : same p (closeTunnel k p).
Proof. apply on_pc_same. Qed.

Lemma set_inUse_same b k p : same p (set_inUse b k p).
Proof. apply on_pc_same. Qed.

Lemma on_stats_same f p : same p (on_stats f p).
Proof. by split. Qed.

Lemma closeConnAsync_same k p : same p (closeConnAsync k p).
Proof. by split. Qed.

(** A step that keeps all of this. *)
Definition fine (d : option nat) (p : Pool) (d' : option nat) (p' : Pool) : Prop :=
  lasts d p d' p' /\ (owned_once d p -> placed p -> placed p').

Lemma fine_trans d1 p1 d2 p2 d3 p3 : fine d1 p1 d2 p2 -> fine d2 p2 d3 p3 -> fine d1 p1 d3 p3.
Proof.
  intros [L1 H1] [L2 H2]. split; [by eapply lasts_trans|]. intros Ho Hp. apply H2; [by eapply lasts_once|by apply H1].
Qed.

Lemma fine_id d p : fine d p d p.
Proof. split; [apply lasts_id|done]. Qed.

Lemma same_fine d p p' : same p p' -> fine d p d p'.
Proof. intros H. split; [by apply same_lasts|intros _; by apply same_placed]. Qed.

Lemma fine_drop k d p p' : fine d p (Some k) p' -> fine d p None p'.
Proof. intros [L H]. split; [by eapply lasts_drop|done]. Qed.

(** To show a step fine when the connections and the lock state stay. *)
Lemma fine_tokens d p d' p' : p_conns p' = p_conns p -> p_closed p' = p_closed p -> length (p_pcs p') = length (p_pcs p) ->
  (forall k, owners d' p' k <= owners d p k) -> (owned_once d p -> placed p -> placed p') -> fine d p d' p'.
Proof.
  intros E1 E2 E3 Ho Hp. split; [|done]. split; [|lia|rw E1; by left|by rw E2].
  intros k. specialize (Ho k). destruct (bool_decide (_ <= _ < _)%nat); cbn; lia.
Qed.

Lemma caller_tokens g f c p k : p_callers p !! g = Some c ->
  tokens (p <| p_callers := alter f g (p_callers p) |>) k =
  tokens p k - Z.b2z (bool_decide (in_caller k c)) + Z.b2z (bool_decide (in_caller k (f c))).
Proof. intros Hg. unfold tokens, attached. cbn. rw (len_filter_alter _ _ _ _ _ Hg). lia. Qed.

Lemma hand_caller k c d : carried (ac_stage c) = d -> bool_decide (in_caller k c) = bool_decide (d = Some k).
Proof. intros <-. done. Qed.

Lemma placed_callers p cs : placed p -> placed (p <| p_callers := cs |>).
Proof. intros []. by split. Qed.

(** A caller goes on, from carrying [d] to carrying [d']. *)
Lemma caller_fine g f c p d d' : p_callers p !! g = Some c ->
  carried (ac_stage c) = d -> carried (ac_stage (f c)) = d' -> (d = None \/ d' = None) ->
  fine d' p d (p <| p_callers := alter f g (p_callers p) |>).
Proof.
  intros Hg Hc Hf Hd. apply fine_tokens; [done..| |intros _; apply placed_callers].
  intros k. unfold owners. rw (caller_tokens _ _ _ _ _ Hg) (hand_caller _ _ _ Hc) (hand_caller _ _ _ Hf).
  destruct (bool_decide (d = Some k)), (bool_decide (d' = Some k)); cbn; lia.
Qed.

Lemma finish_fine g c r p d : p_callers p !! g = Some c -> carried (ac_stage c) = d -> fine None p d (finish g r p).
Proof. intros Hg Hc. eapply caller_fine; [done|done| |by right]. by destruct (ac_saved c). Qed.

Lemma set_caller_fine g c st p : p_callers p !! g = Some c -> carried (ac_stage c) = None ->
  fine (carried st) p None (set_caller g st p).
Proof. intros Hg Hc. eapply caller_fine; [done|done|done|by left]. Qed.

Lemma removeConnLocked_fine k p : fine (Some k) p (Some k) (removeConnLocked k p).
Proof.
  assert (Hle : forall x, tokens (removeConnLocked k p) x <= tokens p x).
  { intros x. unfold tokens, attached. cbn. pose proof (remove_first_le x k (p_idle p)). lia. }
  assert (Hne : forall x, owners (Some k) p x = 0 -> x <> k).
  { intros x H ->. unfold owners in H. rw bool_decide_true // in H. pose proof (tokens_nonneg p k). cbn in H. lia. }
  split; [split; [|done| |done]|].
  - intros x. unfold owners. specialize (Hle x). pose proof (b2z_nonneg (bool_decide (length (p_pcs p) <= x < length (p_pcs (removeConnLocked k p)))%nat)). lia.
  - intros x _ Hx Ho. left. apply elem_of_remove_first; [done|by apply Hne].
  - intros [H1 _] [A1 A2 A3 A4]. assert (Hk : attached p k = 0).
    { specialize (H1 k). unfold owners in H1. rw bool_decide_true // in H1. cbn in H1.
      pose proof (attached_tokens p k). pose proof (attached_nonneg p k). lia. }
    split; [| |done|done].
    + intros x Hx%remove_first_sub. apply elem_of_remove_first; [by apply A1|]. intros ->.
      assert (0 < len (filter (fun y => y = k) (p_idle p))) as Hp by (apply len_filter_pos; by exists k).
      unfold attached in Hk. pose proof (len_filter_nonneg (in_chan k) (p_chans p)).
      pose proof (len_filter_nonneg (in_handle k) (p_handles p)). lia.
    + intros x Hx. assert (0 < attached p x) as Hx'.
      { revert Hx. unfold attached. cbn. pose proof (remove_first_le x k (p_idle p)). lia. }
      destruct (A2 x Hx') as [H|H]; [by left|right]. apply elem_of_remove_first; [done|]. intros ->. lia.
Qed.

Lemma handle_tokens k p x : tokens (p <| p_handles := p_handles p ++ [newPoolConn k] |>) x =
  tokens p x + Z.b2z (bool_decide (Some k = Some x)).
Proof.
  unfold tokens, attached. cbn. rw len_filter_snoc.
  rw (bool_decide_ext (in_handle x (newPoolConn k)) (Some k = Some x)); [|lia].
  unfold in_handle. cbn. naive_solver.
Qed.

(** The connection in hand gets a handle, and the caller returns it. *)
Lemma handle_fine k p : (p_closed p = true \/ k ∈ p_conns p) ->
  fine (Some k) p None (p <| p_handles := p_handles p ++ [newPoolConn k] |>).
Proof.
  intros Hk. apply fine_tokens; [done..| |].
  - intros x. unfold owners. rw handle_tokens. rw (bool_decide_false (None = Some x)); [done|]. cbn. lia.
  - intros _ [A1 A2 A3 A4]. split; try done. intros x Hx. cbn. destruct (decide (x = k)) as [->|Hne]; [done|].
    apply A2. revert Hx. unfold attached. cbn. rw len_filter_snoc bool_decide_false; [intros [? _]; by cbn in *|].
    cbn. lia.
Qed.

Lemma finishAcquire_fine g c k st now b p : p_callers p !! g = Some c -> carried (ac_stage c) = None ->
  (p_closed p = true \/ k ∈ p_conns p) -> fine (Some k) p None (finishAcquire g k st now b p).
Proof.
  intros Hg Hc Hk. unfold finishAcquire. eapply fine_trans; [apply same_fine, on_stats_same|].
  eapply fine_trans; [by apply handle_fine|]. by eapply finish_fine.
Qed.

(** ** Idle connections *)

(** Taking the last idle connection. *)
Lemma pop_fine p k : last (p_idle p) = Some k ->
  fine None p (Some k) (p <| p_idle := take (length (p_idle p) - 1) (p_idle p) |>).
Proof.
  intros Hl%last_split. assert (Hf : forall x, len (filter (fun y => y = x) (p_idle p)) =
    len (filter (fun y => y = x) (take (length (p_idle p) - 1) (p_idle p))) + Z.b2z (bool_decide (Some k = Some x))).
  { intros x. rw {1}Hl len_filter_snoc. do 2 f_equal. apply bool_decide_ext. naive_solver. }
  apply fine_tokens; [done..| |].
  - intros x. unfold owners, tokens, attached. cbn. rw (Hf x) (bool_decide_false (None = Some x)); [done|]. cbn. lia.
  - intros _ [A1 A2 A3 A4]. split; try done; cbn.
    + intros x Hx. apply A1. rw Hl. apply elem_of_app. by left.
    + intros x Hx. apply A2. revert Hx. unfold attached. cbn. rw (Hf x).
      pose proof (b2z_nonneg (bool_decide (Some k = Some x))). lia.
Qed.

Lemma tryGetIdle_fine fuel now : forall p p' r, tryGetIdle_loop fuel now p = (p', r) ->
  fine None p r p' /\ (owned_once None p -> placed p -> forall k, r = Some k -> k ∈ p_conns p').
Proof.
  induction fuel as [|fuel IH]; intros p p' r; cbn [tryGetIdle_loop].
  { intros [= <- <-]. split_and!; [apply fine_id|done..]. }
  destruct (last (p_idle p)) as [k|] eqn:Hk; [|intros [= <- <-]; split_and!; [apply fine_id|done..]].
  set p1 := p <| p_idle := _ |>. destruct (isHealthy now p1 k).
  - intros [= <- <-]. split.
    + eapply fine_trans; [by apply pop_fine|]. apply same_fine, on_pc_same.
    + intros _ [A1 _ _ _] x [= <-]. cbn. apply A1. rw (last_split _ _ Hk). apply elem_of_app. right. by left.
  - intros H. apply IH in H as (F & E). set p2 := closeConnAsync k _ in F, E.
    assert (F2 : fine None p None p2).
    { eapply fine_trans; [by apply pop_fine|]. eapply fine_drop.
      eapply fine_trans; [apply removeConnLocked_fine|]. apply same_fine, closeConnAsync_same. }
    split; [by eapply fine_trans|]. intros Ho Hp. destruct F2 as [L HP]. apply E; [by eapply lasts_once|by apply HP].
Qed.

(** What looking for an idle connection leaves alone. *)
Lemma tryGetIdle_rest fuel now : forall p,
  let p' := (tryGetIdle_loop fuel now p).1 in
  p_callers p' = p_callers p /\ p_closed p' = p_closed p /\ p_config p' = p_config p /\
  p_pending p' = p_pending p /\ p_bg p' = p_bg p /\ p_waiters p' = p_waiters p /\ p_chans p' = p_chans p /\
  len (p_conns p') <= len (p_conns p).
Proof.
  induction fuel as [|fuel IH]; intros p; cbn [tryGetIdle_loop]; [by split_and!|].
  destruct (last (p_idle p)) as [k|] eqn:Hk; [|by split_and!]. set p1 := p <| p_idle := _ |>.
  destruct (isHealthy now p1 k); [by split_and!|].
  destruct (IH (closeConnAsync k (removeConnLocked k p1))) as (E1 & E2 & E3 & E4 & E5 & E6 & E7 & E8).
  split_and!; try done. etrans; [exact E8|]. apply remove_first_len.
Qed.

(** With enough fuel the loop ends with a connection or with none left. *)
Lemma tryGetIdle_ends fuel now : forall p, (length (p_idle p) <= fuel)%nat ->
  (tryGetIdle_loop fuel now p).2 = None -> p_idle (tryGetIdle_loop fuel now p).1 = [].
Proof.
  induction fuel as [|fuel IH]; intros p Hl; cbn [tryGetIdle_loop].
  { intros _. cbn. by apply nil_length_inv; lia. }
  destruct (last (p_idle p)) as [k|] eqn:Hk; [|intros _; by apply last_None in Hk].
  destruct (isHealthy now _ k); [done|]. apply IH. cbn.
  assert (forall x l, (length (remove_first x l) <= length l)%nat) as Hr.
  { intros x l. pose proof (remove_first_len x l). unfold len in *. lia. }
  etrans; [apply Hr|]. rw length_take. lia.
Qed.

(** ** Waiters *)

Lemma chan_send_fine ch v p : (forall k, v = Some k -> p_closed p = true \/ k ∈ p_conns p) ->
  p_chans p !! ch = Some (mkWaitChan None false) -> (ch ∈ p_waiters p -> False) -> fine v p None (chan_send ch v p).
Proof.
  intros Hv Hch Hw.
  assert (Hn : forall x, len (filter (in_chan x) (p_chans (chan_send ch v p))) =
                         len (filter (in_chan x) (p_chans p)) + Z.b2z (bool_decide (v = Some x))).
  { intros x. cbn. rw (len_filter_alter _ _ _ _ _ Hch) (bool_decide_false (in_chan x (mkWaitChan None false))); [done|].
    rw (bool_decide_ext (in_chan x (mkWaitChan (Some v) _)) (v = Some x)); [|cbn; lia]. unfold in_chan. cbn. naive_solver. }
  apply fine_tokens; [done..| |].
  - intros x. unfold owners, tokens, attached. rw Hn (bool_decide_false (None = Some x)); [done|]. cbn. lia.
  - intros _ [A1 A2 A3 A4]. split; try done; cbn.
    + intros x. unfold attached. rw Hn. cbn. intros Hx. destruct (decide (v = Some x)) as [->|Hne]; [by apply Hv|].
      apply A2. unfold attached. rw bool_decide_false // in Hx. cbn in Hx. lia.
    + intros c Hc. rw list_lookup_alter_ne; [by intros ->|]. by apply A3.
Qed.

(** The first waiter leaves the queue. *)
Lemma dequeue_fine d ch ws p : p_waiters p = ch :: ws -> fine d p d (p <| p_waiters := ws |>).
Proof.
  intros Hw. apply fine_tokens; [done..|].
  intros _ [A1 A2 A3 A4]. rw Hw in A3, A4. apply NoDup_cons in A4 as [_ A4]. split; try done.
  cbn. intros c Hc. apply A3. by right.
Qed.

(** Sending to it. *)
Lemma wake_fine v ch ws p : owned_once v p -> placed p -> p_waiters p = ch :: ws ->
  (forall k, v = Some k -> p_closed p = true \/ k ∈ p_conns p) ->
  fine v p None (chan_send ch v (p <| p_waiters := ws |>)).
Proof.
  intros Ho Hp Hw Hv. eapply fine_trans; [by apply (dequeue_fine _ ch)|]. apply chan_send_fine; [done| |].
  - cbn. apply (pi_waiters p Hp). rw Hw. by left.
  - cbn. pose proof (pi_queue p Hp) as Hq. rw Hw in Hq. by apply NoDup_cons in Hq as [? _].
Qed.

Definition good (d : option nat) (p : Pool) : Prop := owned_once d p /\ placed p.

Lemma fine_good d p d' p' : fine d p d' p' -> good d p -> good d' p'.
Proof. intros [L H] [Ho Hp]. split; [by eapply lasts_once|by apply H]. Qed.

Lemma fine_then d1 p1 d2 p2 d3 p3 : good d1 p1 -> fine d1 p1 d2 p2 -> (good d2 p2 -> fine d2 p2 d3 p3) -> fine d1 p1 d3 p3.
Proof. intros Hg H1 H2. eapply fine_trans; [exact H1|]. apply H2. by eapply fine_good. Qed.

Lemma wakeWaiterLocked_fine p : good None p -> fine None p None (wakeWaiterLocked p).
Proof.
  intros [Ho Hp]. unfold wakeWaiterLocked. destruct (p_waiters p) as [|ch ws] eqn:Hw; [apply fine_id|].
  by apply (wake_fine None).
Qed.

Lemma release_fine k p : good (Some k) p -> (p_closed p = true \/ k ∈ p_conns p) -> fine (Some k) p None (release k p).
Proof.
  intros Hg Hk. unfold release. destruct (p_closed p) eqn:Hc; [eapply fine_drop, same_fine, closeConnAsync_same|].
  eapply fine_then; [done|apply same_fine, (on_pc_same k (fun pc => pc <| pc_inUse := false |>))|]. intros Hg1.
  set p1 := set_inUse false k p. fold p1 in Hg1. destruct (default false _).
  - eapply fine_then; [done| |apply wakeWaiterLocked_fine]. eapply fine_drop.
    eapply fine_trans; [apply removeConnLocked_fine|]. eapply fine_trans; [apply same_fine, on_stats_same|].
    apply same_fine, closeConnAsync_same.
  - destruct (p_waiters p1) as [|ch ws] eqn:Hw.
    + destruct Hk as [?|Hk]; [done|]. eapply fine_trans; [|apply same_fine, on_stats_same].
      apply fine_tokens; [done..| |].
      * intros x. unfold owners, tokens, attached. cbn. rw len_filter_snoc (bool_decide_false (None = Some x)); [done|].
        rw (bool_decide_ext (k = x) (Some k = Some x)); [naive_solver|]. cbn. lia.
      * intros _ [A1 A2 A3 A4]. split; try done; cbn.
        -- intros x [Hx|Hx%list_elem_of_singleton]%elem_of_app; [by apply A1|by subst].
        -- intros x Hx. destruct (decide (x = k)) as [->|Hne]; [by right|]. apply A2. revert Hx. unfold attached. cbn.
           rw len_filter_snoc bool_decide_false; [done|]. cbn. lia.
    + destruct Hg1 as [Ho1 Hp1]. eapply fine_trans; [apply same_fine, (on_pc_same k (fun pc => pc <| pc_inUse := true |>))|].
      refine (wake_fine (Some k) ch ws (set_inUse true k p1) _ _ Hw _).
      * by eapply lasts_once; [apply same_lasts, on_pc_same|].
      * by eapply same_placed; [apply on_pc_same|].
      * intros x [= <-]. cbn. by rw Hc.
Qed.

(** A handle in use gives its connection to the operation. *)
Lemma handle_taken h c p : p_handles p !! h = Some c -> hd_released c = false ->
  fine None p (Some (hd_pc c)) (p <| p_handles := <[h := mkPoolConn (hd_pc c) true]> (p_handles p) |>).
Proof.
  intros Hh Hr.
  assert (Hn : forall x, len (filter (in_handle x) (<[h := mkPoolConn (hd_pc c) true]> (p_handles p))) =
    len (filter (in_handle x) (p_handles p)) - Z.b2z (bool_decide (Some (hd_pc c) = Some x))).
  { intros x. rw (list_insert_alter (p_handles p)) (len_filter_alter _ _ _ _ _ Hh).
    rw (bool_decide_false (in_handle x (mkPoolConn (hd_pc c) true))); [by intros [_ ?]|].
    rw (bool_decide_ext (in_handle x c) (Some (hd_pc c) = Some x)); [unfold in_handle; naive_solver|]. cbn. lia. }
  apply fine_tokens; [done..| |].
  - intros x. unfold owners, tokens, attached. cbn. rw Hn (bool_decide_false (None = Some x)); [done|]. cbn. lia.
  - intros _ [A1 A2 A3 A4]. split; try done. intros x Hx. apply A2. revert Hx. unfold attached. cbn. rw Hn.
    pose proof (b2z_nonneg (bool_decide (Some (hd_pc c) = Some x))). lia.
Qed.

Lemma give_back_fine h f p : good None p -> fine None p None (give_back h f p).
Proof.
  intros Hg. unfold give_back. destruct (p_handles p !! h) as [c|] eqn:Hh; [|apply fine_id].
  destruct (hd_released c) eqn:Hr; [apply fine_id|].
  eapply fine_then; [done|by apply handle_taken|]. intros Hg1.
  eapply fine_then; [done|apply same_fine, (on_pc_same (hd_pc c) f)|]. intros Hg2. apply release_fine; [done|].
  destruct Hg as [_ [_ A2 _ _]]. apply (A2 (hd_pc c)). unfold attached.
  assert (0 < len (filter (in_handle (hd_pc c)) (p_handles p))) as Hp.
  { apply len_filter_pos. exists c. split; [by eapply list_elem_of_lookup_2|done]. }
  pose proof (len_filter_nonneg (fun x => x = hd_pc c) (p_idle p)). pose proof (len_filter_nonneg (in_chan (hd_pc c)) (p_chans p)). lia.
Qed.

(** ** Callers *)

(** A new channel, at the end of the queue. *)
Lemma enqueue_fine p : placed p ->
  fine None p None (p <| p_chans := p_chans p ++ [mkWaitChan None false] |>
                      <| p_waiters := p_waiters p ++ [length (p_chans p)] |>).
Proof.
  intros Hp0. assert (Hn : forall x, len (filter (in_chan x) (p_chans p ++ [mkWaitChan None false])) = len (filter (in_chan x) (p_chans p))).
  { intros x. rw len_filter_snoc bool_decide_false; [done|]. cbn. lia. }
  apply fine_tokens; [done..| |].
  - intros x. unfold owners, tokens, attached. cbn. by rw Hn.
  - intros _ [A1 A2 A3 A4]. split; try done; cbn.
    + intros x. unfold attached. cbn. rw Hn. apply A2.
    + intros c [Hc|Hc%list_elem_of_singleton]%elem_of_app; [by apply lookup_app_l_Some, A3|subst c].
      by rw lookup_app_r // Nat.sub_diag.
    + apply NoDup_app. split_and!; [done| |by apply NoDup_singleton]. intros c Hc Hc'%list_elem_of_singleton. subst c.
      apply A3, lookup_lt_Some in Hc. lia.
Qed.

Lemma waitForConnection_fine g c st z p : good None p -> p_callers p !! g = Some c -> carried (ac_stage c) = None ->
  fine None p None (waitForConnection g st z p).
Proof.
  intros [Ho Hp] Hg Hc. unfold waitForConnection. destruct (_ =? 0).
  - eapply fine_trans; [apply same_fine, on_stats_same|]. by eapply (finish_fine g c).
  - eapply fine_trans; [by apply enqueue_fine|]. eapply fine_trans; [apply same_fine, on_stats_same|].
    by eapply (set_caller_fine g c (AcWait _ _ _)).
Qed.

Lemma pending_same n p : same p (p <| p_pending := n |>).
Proof. by split. Qed.

Lemma Acquire_fine g c z p : good None p -> p_callers p !! g = Some c -> carried (ac_stage c) = None ->
  fine None p None (Acquire g z p).
Proof.
  intros Hgd Hg Hc. unfold Acquire. destruct (p_closed p) eqn:Hcl; [by eapply (finish_fine g c)|].
  destruct (tryGetIdleLocked (pe_now z) p) as [p1 r] eqn:Ht.
  pose proof (tryGetIdle_rest (length (p_idle p)) (pe_now z) p) as (E1 & _). unfold tryGetIdleLocked in Ht. rw Ht in E1. cbn in E1.
  destruct (tryGetIdle_fine _ _ _ _ _ Ht) as [F Hr]. eapply fine_then; [done|exact F|]. intros Hg1.
  destruct r as [k|].
  - destruct Hgd as [Ho Hp]. eapply finishAcquire_fine; [by rw E1|done|right; by apply Hr].
  - destruct (_ || _).
    + eapply fine_trans; [apply same_fine, pending_same|]. eapply (set_caller_fine g c (AcDial _)); [cbn; by rw E1|done].
    + eapply waitForConnection_fine; [done|by rw E1|done].
Qed.

Lemma dialConn_fine z p p' r : dialConn fips z p = (p', r) ->
  fine None p (match r with Ok k => Some k | _ => None end) p' /\ p_callers p' = p_callers p /\ p_closed p' = p_closed p /\
  p_config p' = p_config p /\ p_pending p' = p_pending p /\ p_bg p' = p_bg p /\ p_conns p' = p_conns p.
Proof.
  unfold dialConn. destruct (createConn _ _ _ _ _) as [d [t|e|]]; intros [= <- <-].
  - split; [|by split_and!]. eapply fine_trans; [|apply same_fine, on_stats_same]. split; [split; cbn; [|rw length_app; lia|by left|done]|].
    + intros k. unfold owners. change (tokens (_ <| p_pcs := _ |>) k) with (tokens p k). rw length_app.
      rw (bool_decide_ext (length (p_pcs p) <= k < length (p_pcs p) + length [newPooledConn t (pe_now z)])%nat
            (Some (length (p_pcs p)) = Some k)); [cbn; split; [intros; f_equal; lia|intros [= <-]; lia]|].
      rw (bool_decide_false (None = Some k)); [done|]. rw Z.add_0_r. apply Z.le_refl.
    + intros _ []. by split.
  - split; [apply fine_id|by split_and!].
  - split; [|by split_and!]. apply same_fine. by split.
Qed.

Lemma add_conn_fine k d p : fine d p d (p <| p_conns := p_conns p ++ [k] |>).
Proof.
  split; [split; [|done| |done]|].
  - intros x. change (owners d (p <| p_conns := _ |>) x) with (owners d p x).
    pose proof (b2z_nonneg (bool_decide (length (p_pcs p) <= x < length (p_pcs (p <| p_conns := p_conns p ++ [k] |>)))%nat)). lia.
  - intros x _ Hx _. left. cbn. apply elem_of_app. by left.
  - intros _ [A1 A2 A3 A4]. split; try done; cbn; intros x Hx.
    + apply elem_of_app. left. by apply A1.
    + destruct (A2 x Hx) as [?|?]; [by left|right]. apply elem_of_app. by left.
Qed.

Lemma createAndAcquire_fine g c st now r p : good None p -> p_callers p !! g = Some c -> ac_stage c = AcDialled st r ->
  fine None p None (createAndAcquire g st now r p).
Proof.
  intros Hgd Hg Hc. unfold createAndAcquire. set p0 := p <| p_pending := _ |>.
  assert (F0 : fine None p None p0) by (apply same_fine, pending_same). pose proof (fine_good _ _ _ _ F0 Hgd) as Hg0.
  destruct r as [k|e|]; [| |apply fine_id]; (eapply fine_trans; [exact F0|]); [|eapply fine_then; [done|by apply wakeWaiterLocked_fine|intros _]].
  - destruct (p_closed p0) eqn:Hcl.
    + eapply fine_drop, fine_trans; [apply same_fine, (closeTunnel_same k)|]. eapply (finish_fine g c); [exact Hg|by rw Hc].
    + set p1 := on_stats _ _. assert (F1 : fine None p0 None p1).
      { eapply fine_trans; [apply same_fine, (set_inUse_same true k)|]. eapply fine_trans; [apply (add_conn_fine k)|].
        apply same_fine, on_stats_same. }
      eapply fine_trans; [exact F1|]. unfold finishAcquire. set p2 := on_stats _ p1.
      apply (fine_trans None p1 None p2); [apply same_fine, on_stats_same|]. apply fine_tokens; [done..| |].
      * intros x. unfold owners, finish.
        assert (Hg2 : p_callers (p2 <| p_handles := p_handles p2 ++ [newPoolConn k] |>) !! g = Some c) by (cbn; exact Hg).
        rw (caller_tokens g _ c _ x Hg2) handle_tokens.
        rw (hand_caller x c (Some k)); [by rw Hc|]. rw (hand_caller x _ None); [by destruct (ac_saved c)|].
        rw (bool_decide_false (None = Some x)); [done|]. cbn. lia.
      * intros _ [A1 A2 A3 A4]. split; try done. intros x Hx. cbn. destruct (decide (x = k)) as [->|Hne].
        { right. apply elem_of_app. right. by left. }
        apply A2. revert Hx. unfold attached. cbn. rw len_filter_snoc bool_decide_false; [intros [? _]; by cbn in *|]. cbn. lia.
  - eapply (finish_fine g c); [|by rw Hc]. unfold wakeWaiterLocked. destruct (p_waiters p0); exact Hg.
Qed.

(** Receiving what a channel holds. *)
Lemma chan_recv_fine ch c v p : p_chans p !! ch = Some c -> ch_buf c = Some v ->
  fine None p v (p <| p_chans := alter (fun c => mkWaitChan None (ch_closed c)) ch (p_chans p) |>).
Proof.
  intros Hch Hb.
  assert (Hn : forall x, len (filter (in_chan x) (alter (fun c => mkWaitChan None (ch_closed c)) ch (p_chans p))) =
                         len (filter (in_chan x) (p_chans p)) - Z.b2z (bool_decide (v = Some x))).
  { intros x. rw (len_filter_alter _ _ _ _ _ Hch) (bool_decide_false (in_chan x (mkWaitChan None _))); [done|].
    rw (bool_decide_ext (in_chan x c) (v = Some x)); [|cbn; lia]. unfold in_chan. rw Hb. naive_solver. }
  apply fine_tokens; [done..| |].
  - intros x. unfold owners, tokens, attached. cbn. rw Hn (bool_decide_false (None = Some x)); [done|]. cbn. lia.
  - intros _ [A1 A2 A3 A4]. split; try done; cbn.
    + intros x Hx. apply A2. revert Hx. unfold attached. cbn. rw Hn. pose proof (b2z_nonneg (bool_decide (v = Some x))). lia.
    + intros c' Hc'. destruct (decide (c' = ch)) as [->|Hne]; [|rw list_lookup_alter_ne //; by apply A3].
      apply A3 in Hc'. rw Hch in Hc'. injection Hc' as ->. done.
Qed.

Lemma handleWaitResult_fine g c st now v p : good v p -> (forall k, v = Some k -> p_closed p = true \/ k ∈ p_conns p) ->
  p_callers p !! g = Some c -> carried (ac_stage c) = None -> fine v p None (handleWaitResult g st now v p).
Proof.
  intros Hgd Hv Hg Hc. unfold handleWaitResult. set p1 := on_stats decrementWaiting p.
  apply (fine_trans v p v p1); [apply same_fine, on_stats_same|]. destruct v as [k|].
  - destruct (negb _).
    + apply (fine_trans _ _ None (closeConnAsync k (removeConnLocked k p1))).
      * eapply fine_drop, fine_trans; [apply removeConnLocked_fine|]. apply same_fine, closeConnAsync_same.
      * by eapply (set_caller_fine g c AcStart).
    + apply (fine_trans _ _ (Some k) (set_inUse true k p1)); [apply same_fine, set_inUse_same|].
      eapply (finishAcquire_fine g c); [done|done|]. by apply (Hv k).
  - by eapply (set_caller_fine g c AcStart).
Qed.

Lemma removeWaiter_fine ch p : fine None p None (removeWaiter ch p).
Proof.
  apply fine_tokens; [done..|]. intros _ [A1 A2 A3 A4]. split; try done; cbn.
  - intros c Hc. apply A3. by eapply remove_first_sub.
  - clear -A4. induction (p_waiters p) as [|x l IH]; [done|]. apply NoDup_cons in A4 as [H1 H2]. cbn [remove_first].
    destruct (Nat.eqb x ch); [done|]. apply NoDup_cons. split; [|by apply IH]. intros H. by apply H1, (remove_first_sub _ ch).
Qed.

Lemma handleWaitTimeout_fine g c ch e p : p_callers p !! g = Some c -> carried (ac_stage c) = None ->
  fine None p None (handleWaitTimeout g ch e p).
Proof.
  intros Hg Hc. unfold handleWaitTimeout. eapply fine_trans; [apply (removeWaiter_fine ch)|].
  eapply fine_trans; [apply same_fine, (on_stats_same decrementWaiting)|].
  eapply fine_trans; [apply same_fine, (on_stats_same recordAcquireTimeout)|]. by eapply (finish_fine g c).
Qed.

Lemma in_chan_attached ch c k p : p_chans p !! ch = Some c -> ch_buf c = Some (Some k) -> 0 < attached p k.
Proof.
  intros Hch Hb. unfold attached. assert (0 < len (filter (in_chan k) (p_chans p))) as Hp.
  { apply len_filter_pos. exists c. split; [by eapply list_elem_of_lookup_2|done]. }
  pose proof (len_filter_nonneg (fun x => x = k) (p_idle p)). pose proof (len_filter_nonneg (in_handle k) (p_handles p)). lia.
Qed.

Lemma wait_step_fine g c st ch dl z p : good None p -> p_callers p !! g = Some c -> carried (ac_stage c) = None ->
  fine None p None (wait_step g st ch dl z p).
Proof.
  intros Hgd Hg Hc. unfold wait_step. destruct (pe_choice z) as [| |e].
  - destruct (p_chans p !! ch) as [w|] eqn:Hch; [|apply fine_id]. destruct (ch_buf w) as [v|] eqn:Hb.
    + eapply fine_then; [done|by eapply chan_recv_fine|]. intros Hgd1. eapply handleWaitResult_fine; [done| |done|done].
      intros k ->. cbn. destruct Hgd as [_ Hp]. apply (pi_conns p Hp). by eapply in_chan_attached.
    + destruct (ch_closed w); [|apply fine_id]. eapply fine_trans; [apply same_fine, (on_stats_same decrementWaiting)|].
      by eapply (finish_fine g c).
  - destruct (_ <=? _); [by eapply handleWaitTimeout_fine|apply fine_id].
  - by eapply handleWaitTimeout_fine.
Qed.

Lemma config_same c p : same p (p <| p_config := c |>).
Proof. by split. Qed.

Lemma runCaller_fine g z p : good None p -> fine None p None (runCaller fips g z p).
Proof.
  intros Hgd. unfold runCaller. destruct (p_callers p !! g) as [c|] eqn:Hg; [|apply fine_id].
  destruct (ac_stage c) as [| |st|st r|st ch dl|r|r] eqn:Hst.
  - unfold TryAcquire_begin. eapply fine_trans; [apply same_fine, (config_same ((p_config p) <| WaitTimeout := 0 |>))|].
    refine (caller_fine g (fun _ => mkCaller (Some (WaitTimeout (p_config p))) AcStart) c _ None None _ _ _ _); [exact Hg|by rw Hst|done|by left].
  - eapply Acquire_fine; [done|done|by rw Hst].
  - destruct (dialConn fips z p) as [p1 r] eqn:Hd. destruct (dialConn_fine _ _ _ _ Hd) as (F & E & _).
    eapply fine_trans; [exact F|].
    replace (match r with Ok k => Some k | _ => None end) with (carried (AcDialled st r)) by (by destruct r).
    eapply (set_caller_fine g c); [by rw E|by rw Hst].
  - by eapply createAndAcquire_fine.
  - eapply wait_step_fine; [done|done|by rw Hst].
  - unfold TryAcquire_end. eapply fine_trans; [apply same_fine, (config_same ((p_config p) <| WaitTimeout := default 0 (ac_saved c) |>))|].
    refine (set_caller_fine g c (AcDone r) _ _ _); [exact Hg|by rw Hst].
  - apply fine_id.
Qed.

(** ** The background goroutine *)

Lemma set_bg_fine b p : fine (bg_carried b) p (bg_carried (p_bg p)) (p <| p_bg := b |>).
Proof.
  apply fine_tokens; [done..| |intros _ []; by split]. intros k. unfold owners, tokens, attached. cbn. lia.
Qed.

Lemma addIdle_fine k p : fine (Some k) p None (addIdle k p).
Proof.
  unfold addIdle. set p1 := p <| p_conns := _ |> <| p_idle := _ |>.
  apply (fine_trans _ _ None p1); [|apply same_fine, on_stats_same].
  assert (Hn : forall x, len (filter (fun y => y = x) (p_idle p1)) =
    len (filter (fun y => y = x) (p_idle p)) + Z.b2z (bool_decide (Some k = Some x))).
  { intros x. unfold p1. cbn. rw len_filter_snoc. do 2 f_equal. apply bool_decide_ext. naive_solver. }
  split; [split; [|done| |done]|].
  - intros x. unfold owners, tokens, attached. rw Hn (bool_decide_false (None = Some x)); [done|].
    rw (bool_decide_false (_ <= _ < _)%nat); [unfold p1; cbn; lia|]. unfold p1. cbn. lia.
  - intros x _ Hx _. left. unfold p1. cbn. apply elem_of_app. by left.
  - intros _ [A1 A2 A3 A4]. split; try done.
    + intros x [Hx|Hx]%elem_of_app; apply elem_of_app; [left; by apply A1|by right].
    + intros x. unfold attached. rw Hn. intros Hx. destruct (decide (x = k)) as [->|Hne].
      { right. apply elem_of_app. right. by left. }
      rw (bool_decide_false (Some k = Some x)) in Hx; [congruence|]. destruct (A2 x) as [?|?]; [|by left|].
      { revert Hx. unfold attached, p1. cbn. lia. }
      right. apply elem_of_app. by left.
Qed.

Lemma removes ks : forall p, let p' := foldl (fun p k => removeConnLocked k p) p ks in
  (forall x, x ∈ p_conns p -> (x ∈ ks -> False) -> x ∈ p_conns p') /\
  (forall x, x ∈ p_idle p' -> x ∈ p_idle p) /\
  (forall x, len (filter (fun y => y = x) (p_idle p')) <= len (filter (fun y => y = x) (p_idle p))) /\
  len (p_conns p') <= len (p_conns p) /\
  p_chans p' = p_chans p /\ p_handles p' = p_handles p /\ p_callers p' = p_callers p /\ p_bg p' = p_bg p /\
  p_waiters p' = p_waiters p /\ p_closed p' = p_closed p /\ p_pcs p' = p_pcs p /\ p_config p' = p_config p /\
  p_pending p' = p_pending p.
Proof.
  induction ks as [|k ks IH]; intros p; cbn [foldl]; [by split_and!|].
  destruct (IH (removeConnLocked k p)) as (H1 & H2 & H3 & H4 & H5). split_and!.
  - intros x Hx Hn. apply H1; [|intros H; apply Hn; by right]. apply elem_of_remove_first; [done|]. intros ->. apply Hn. by left.
  - intros x Hx%H2. exact (remove_first_sub x k _ Hx).
  - intros x. etrans; [apply H3|apply remove_first_le].
  - etrans; [exact H4|apply remove_first_len].
  - apply H5.
  - apply H5.
  - apply H5.
  - apply H5.
  - apply H5.
  - apply H5.
  - apply H5.
  - apply H5.
  - apply H5.
Qed.

Lemma checks_same now ks : forall p p0, same p0 p -> 
  same p0 (foldl (fun p k => on_stats (recordHealthCheck (isHealthy now p k)) p) p ks).
Proof. induction ks as [|k ks IH]; intros p p0 H; [done|]. apply IH. destruct H. by split. Qed.

(** The unhealthy idle connections leave the pool. *)
Lemma purge_fine (Q : nat -> bool) p :
  fine None p None (foldl (fun p k => removeConnLocked k p) (p <| p_idle := filter (fun k => Q k = true) (p_idle p) |>)
                      (filter (fun k => Q k = false) (p_idle p))).
Proof.
  set H := filter (fun k => Q k = true) (p_idle p). set U := filter (fun k => Q k = false) (p_idle p).
  destruct (removes U (p <| p_idle := H |>)) as (R1 & R2 & R3 & R4 & R5 & R6 & R7 & R8 & R9 & R10 & R11 & _).
  set p' := foldl _ _ U in R1, R2, R3, R4, R5, R6, R7, R8, R9, R10, R11 |- *. cbn in R1, R2, R3, R5, R6, R7, R8, R9, R10, R11.
  assert (HH : forall x, len (filter (fun y => y = x) (p_idle p')) <= len (filter (fun y => y = x) (p_idle p))).
  { intros x. etrans; [apply R3|]. apply len_filter_filter. }
  assert (HU : forall x, x ∈ U -> 0 < len (filter (fun y => y = x) (p_idle p)) /\ len (filter (fun y => y = x) (p_idle p')) <= 0).
  { intros x [Hq Hx]%list_elem_of_filter. split; [apply len_filter_pos; by exists x|]. apply Z.nlt_ge.
    intros (y & Hy & ->)%len_filter_pos. apply R2, list_elem_of_filter in Hy as [? _]. congruence. }
  assert (HT : forall x, tokens p' x <= tokens p x).
  { intros x. unfold tokens, attached. rw R5 R6 R7 R8. specialize (HH x). lia. }
  split; [split|].
  - intros x. unfold owners. specialize (HT x). pose proof (b2z_nonneg (bool_decide (length (p_pcs p) <= x < length (p_pcs p'))%nat)). lia.
  - by rw R11.
  - intros x _ Hx Ho. left. apply R1; [done|]. intros [Hp _]%HU. rw owners_None in Ho. unfold tokens, attached in Ho.
    pose proof (len_filter_nonneg (in_chan x) (p_chans p)). pose proof (len_filter_nonneg (in_handle x) (p_handles p)).
    pose proof (len_filter_nonneg (in_caller x) (p_callers p)). pose proof (b2z_nonneg (bool_decide (bg_carried (p_bg p) = Some x))).
    lia.
  - by rw R10.
  - intros [O1 _] [A1 A2 A3 A4]. split; rw ?R5 ?R9; try done.
    + intros x Hx%R2. apply list_elem_of_filter in Hx as [Hq Hx]. apply R1; [by apply A1|].
      intros [? _]%list_elem_of_filter. congruence.
    + intros x Hx. rw R10. assert (attached p' x <= attached p x) as Hle.
      { unfold attached. rw R5 R6. specialize (HH x). lia. }
      destruct (A2 x) as [?|Hc]; [lia|by left|]. right. apply R1; [done|]. intros [Hp Hz]%HU.
      specialize (O1 x). rw owners_None in O1. unfold tokens, attached in O1. unfold attached in Hx. rw R5 R6 in Hx.
      pose proof (len_filter_nonneg (in_caller x) (p_callers p)). pose proof (b2z_nonneg (bool_decide (bg_carried (p_bg p) = Some x))). lia.
Qed.

Lemma runHealthCheck_fine now p : bg_carried (p_bg p) = None -> fine None p None (runHealthCheck now p).
Proof.
  intros Hb. unfold runHealthCheck. destruct (p_closed p).
  { pose proof (set_bg_fine BgEnd p) as F. by rw Hb in F. }
  set p1 := foldl _ p (p_idle p). assert (S1 : same p p1) by (apply checks_same; by split).
  apply (fine_trans _ _ None p1); [by apply same_fine|]. rw -(sm_idle _ _ S1).
  eapply fine_trans; [apply (purge_fine (isHealthy now p))|]. set p2 := foldl _ _ _.
  eapply fine_trans; [apply same_fine, (on_stats_same (setIdleCount (len (p_idle p2))))|].
  pose proof (set_bg_fine (BgClose (filter (fun k => isHealthy now p k = false) (p_idle p1)))
    (on_stats (setIdleCount (len (p_idle p2))) p2)) as F.
  assert (bg_carried (p_bg (on_stats (setIdleCount (len (p_idle p2))) p2)) = None) as E; [|by rw E in F].
  destruct (removes (filter (fun k => isHealthy now p k = false) (p_idle p1))
    (p1 <| p_idle := filter (fun k => isHealthy now p k = true) (p_idle p1) |>)) as (_ & _ & _ & _ & _ & _ & _ & R8 & _).
  fold p2 in R8. cbn in R8 |- *. rw R8. by rw (sm_bg _ _ S1).
Qed.

Lemma closeTunnels_same ks : forall p, same p (foldl (fun p k => closeTunnel k p) p ks).
Proof.
  enough (forall p0 p, same p0 p -> same p0 (foldl (fun p k => closeTunnel k p) p ks)) as H by (intros p; by apply H).
  induction ks as [|k ks IH]; intros p0 p [E1 E2 E3 E4 E5 E6 E7 E8 E9]; [done|]. apply IH. split; try done. cbn. by rw length_alter.
Qed.

(** A stage of the goroutine that starts or ends with nothing in hand. *)
Lemma bg_fine b d p : bg_carried (p_bg p) = None -> bg_carried b = d -> fine d p None (p <| p_bg := b |>).
Proof. intros E <-. pose proof (set_bg_fine b p) as F. by rw E in F. Qed.

Lemma addIdle_bg k b p : (addIdle k p) <| p_bg := b |> = addIdle k (p <| p_bg := b |>).
Proof. reflexivity. Qed.

Lemma runBackground_fine z p : good None p -> fine None p None (runBackground fips z p).
Proof.
  intros Hgd. unfold runBackground. destruct (p_bg p) as [|[|n]|n k| |ks| |[|n]|n k|] eqn:Hb; try apply fine_id;
    try (apply bg_fine; [by rw Hb|by destruct (_ <? _)]); try (apply bg_fine; [by rw Hb|done]).
  - destruct (dialConn fips z p) as [p1 r] eqn:Hd. destruct (dialConn_fine _ _ _ _ Hd) as (F & _ & _ & _ & _ & E & _).
    eapply fine_trans; [exact F|]. destruct r as [k|e|]; apply bg_fine; try done; by rw E Hb.
  - rw addIdle_bg. eapply fine_trans; [|apply addIdle_fine].
    pose proof (set_bg_fine (BgStart n) p) as F. by rw Hb in F.
  - apply runHealthCheck_fine. by rw Hb.
  - eapply fine_trans; [apply same_fine, (closeTunnels_same ks)|]. apply bg_fine; [|done].
    by rw (sm_bg _ _ (closeTunnels_same ks p)) Hb.
  - destruct (dialConn fips z p) as [p1 r] eqn:Hd. destruct (dialConn_fine _ _ _ _ Hd) as (F & _ & _ & _ & _ & E & _).
    eapply fine_trans; [exact F|]. destruct r as [k|e|]; apply bg_fine; try done; by rw E Hb.
  - destruct (p_closed p).
    + eapply fine_trans; [apply same_fine, (closeTunnel_same k)|]. eapply fine_drop.
      pose proof (set_bg_fine BgIdle (closeTunnel k p)) as F.
      change (p_bg (closeTunnel k p)) with (p_bg p) in F. rw Hb in F. exact F.
    + rw addIdle_bg. eapply fine_trans; [|apply addIdle_fine].
      pose proof (set_bg_fine (BgRefill n) p) as F. by rw Hb in F.
Qed.

(** ** Closing *)

Lemma close_chans x ws : forall cs,
  len (filter (in_chan x) (foldl (fun cs ch => alter (fun c => mkWaitChan (ch_buf c) true) ch cs) cs ws)) =
  len (filter (in_chan x) cs).
Proof.
  induction ws as [|ch ws IH]; intros cs; [done|]. cbn [foldl]. rw IH.
  destruct (cs !! ch) as [c|] eqn:Hc; [|rw alter_same //; by rw Hc].
  rw (len_filter_alter _ _ _ _ _ Hc) (bool_decide_ext (in_chan x (mkWaitChan (ch_buf c) true)) (in_chan x c)); [done|lia].
Qed.

Lemma Pool_Close_fine p : fine None p None (Pool_Close p).
Proof.
  unfold Pool_Close. destruct (p_closed p) eqn:Hc; [apply fine_id|].
  assert (HT : forall x p', p' = Pool_Close p -> attached p' x <= attached p x).
  { intros x p' ->. unfold Pool_Close. rw Hc. unfold attached. cbn. rw close_chans ?filter_nil ?len_nil.
    pose proof (len_filter_nonneg (fun y => y = x) (p_idle p)). lia. }
  unfold Pool_Close in HT. rw Hc in HT. set p' := p <| p_closed := true |> <| p_chans := _ |> <| p_waiters := _ |> <| p_async := _ |> <| p_conns := _ |> <| p_idle := _ |> in HT |- *.
  split; [split; [|done|by right|done]|].
  - intros x. specialize (HT x p' eq_refl). rw !owners_None. unfold tokens.
    change (p_callers p') with (p_callers p). change (p_bg p') with (p_bg p).
    pose proof (b2z_nonneg (bool_decide (length (p_pcs p) <= x < length (p_pcs p'))%nat)). lia.
  - intros _ [A1 A2 A3 A4]. split; [by intros x ?%elem_of_nil|by left|by intros x ?%elem_of_nil|by apply NoDup_nil].
Qed.

(** ** Every step *)

Lemma on_tunnel_same {A} h (m : Tr A) p : same p (on_tunnel h m p).1.
Proof.
  unfold on_tunnel. destruct (p_handles p !! h) as [c|]; [|by split]. destruct (hd_released c); [by split|].
  destruct (p_pcs p !! hd_pc c) as [pc|]; [|by split]. destruct (m (pc_tunnel pc)) as [t o]. apply on_pc_same.
Qed.

Lemma new_caller_fine st p : carried st = None -> fine None p None (p <| p_callers := p_callers p ++ [mkCaller None st] |>).
Proof.
  intros Hst. apply fine_tokens; [done..| |intros _; apply placed_callers]. intros x. rw !owners_None. unfold tokens. cbn.
  rw len_filter_snoc bool_decide_false; [unfold in_caller; cbn; by rw Hst|]. cbn. unfold attached. cbn. lia.
Qed.

Lemma pl_step_fine ev p : good None p -> fine None p None (pl_step fips p ev).
Proof.
  intros Hgd. unfold pl_step. destruct (p_crashed p); [apply fine_id|]. destruct ev.
  - by apply new_caller_fine.
  - by apply new_caller_fine.
  - by apply runCaller_fine.
  - apply same_fine, on_tunnel_same.
  - apply same_fine, on_tunnel_same.
  - apply same_fine, on_tunnel_same.
  - by apply give_back_fine.
  - by apply give_back_fine.
  - destruct (p_bg p) eqn:Hb; try apply fine_id. unfold Start. destruct (p_closed p); [apply fine_id|].
    apply bg_fine; [by rw Hb|done].
  - by apply runBackground_fine.
  - apply Pool_Close_fine.
  - destruct (p_async p !! i) as [k|]; [|apply fine_id]. eapply fine_trans; [|apply same_fine, closeTunnel_same].
    apply same_fine. by split.
Qed.

Lemma pl_run_fine evs : forall p, good None p -> fine None p None (pl_run fips p evs).
Proof.
  induction evs as [|ev evs IH]; intros p Hgd; [apply fine_id|].
  eapply fine_then; [done|by apply (pl_step_fine ev)|]. apply IH.
Qed.

Lemma NewPool_good config now p : NewPool config now = Ok p -> good None p.
Proof.
  unfold NewPool. intros H. okinv H. injection H as <-. split; split.
  - intros k. by rw owners_None /tokens /attached.
  - intros k _. by rw owners_None /tokens /attached.
  - by intros k ?%elem_of_nil.
  - done.
  - by intros k ?%elem_of_nil.
  - apply NoDup_nil_2.
Qed.

(** ** What one owner means *)

Lemma len_filter_two {A} (Q : A -> Prop) `{!forall x, Decision (Q x)} (l : list A) i j x y :
  l !! i = Some x -> l !! j = Some y -> Q x -> Q y -> i <> j -> 2 <= len (filter Q l).
Proof.
  revert i j. induction l as [|z l IH]; intros i j Hi Hj Hx Hy Hij; [by rw lookup_nil in Hi|].
  assert (Hpos : forall k w, l !! k = Some w -> Q w -> 1 <= len (filter Q l)).
  { intros k w Hk Hw. enough (0 < len (filter Q l)) by lia. apply len_filter_pos. exists w.
    split; [by eapply list_elem_of_lookup_2|done]. }
  rw filter_cons. destruct i as [|i], j as [|j]; cbn in Hi, Hj; [done| | |].
  - injection Hi as ->. rw decide_True // len_cons. specialize (Hpos _ _ Hj Hy). lia.
  - injection Hj as ->. rw decide_True // len_cons. specialize (Hpos _ _ Hi Hx). lia.
  - assert (2 <= len (filter Q l)) by (eapply IH; [exact Hi|exact Hj|done|done|congruence]).
    case_decide; rw ?len_cons; lia.
Qed.

Lemma good_NoDup_idle p : good None p -> NoDup (p_idle p).
Proof.
  intros [[O1 _] _]. apply NoDup_alt. intros i j x Hi Hj. destruct (decide (i = j)) as [|Hne]; [done|exfalso].
  pose proof (len_filter_two (fun y => y = x) _ i j x x Hi Hj eq_refl eq_refl Hne). specialize (O1 x). rw owners_None in O1.
  pose proof (attached_tokens p x). unfold attached in *. pose proof (len_filter_nonneg (in_chan x) (p_chans p)).
  pose proof (len_filter_nonneg (in_handle x) (p_handles p)). lia.
Qed.

Lemma good_handles p h h' c c' : good None p -> p_handles p !! h = Some c -> p_handles p !! h' = Some c' ->
  hd_released c = false -> hd_released c' = false -> hd_pc c = hd_pc c' -> h = h'.
Proof.
  intros [[O1 _] _] Hh Hh' Hr Hr' He. destruct (decide (h = h')) as [|Hne]; [done|exfalso].
  pose proof (len_filter_two (in_handle (hd_pc c)) _ h h' c c' Hh Hh') as H2.
  specialize (H2 (conj eq_refl Hr) (conj (eq_sym He) Hr') Hne). specialize (O1 (hd_pc c)). rw owners_None in O1.
  pose proof (attached_tokens p (hd_pc c)). unfold attached in *. pose proof (len_filter_nonneg (in_chan (hd_pc c)) (p_chans p)).
  pose proof (len_filter_nonneg (fun y => y = hd_pc c) (p_idle p)). lia.
Qed.

Lemma good_in_use p h c : good None p -> p_handles p !! h = Some c -> hd_released c = false ->
  (hd_pc c ∈ p_idle p -> False) /\ (p_closed p = true \/ hd_pc c ∈ p_conns p).
Proof.
  intros [[O1 _] Hp] Hh Hr. assert (0 < len (filter (in_handle (hd_pc c)) (p_handles p))) as Hpos.
  { apply len_filter_pos. exists c. split; [by eapply list_elem_of_lookup_2|done]. }
  specialize (O1 (hd_pc c)). rw owners_None in O1. pose proof (attached_tokens p (hd_pc c)).
  pose proof (len_filter_nonneg (fun y => y = hd_pc c) (p_idle p)). pose proof (len_filter_nonneg (in_chan (hd_pc c)) (p_chans p)).
  split.
  - intros Hi. assert (0 < len (filter (fun y => y = hd_pc c) (p_idle p))) by (apply len_filter_pos; by exists (hd_pc c)).
    unfold attached in *. lia.
  - apply (pi_conns p Hp). unfold attached. lia.
Qed.

Lemma good_idle_len p : good None p -> len (p_idle p) <= len (p_conns p).
Proof.
  intros Hg. pose proof (good_NoDup_idle p Hg) as Hn. destruct Hg as [_ [A1 _ _ _]]. unfold len. apply inj_le.
  by apply submseteq_length, NoDup_submseteq.
Qed.
End Owners.

(** * Theorems *)

(** C31: whatever callers acquire, try to acquire, give back or close, in any interleaving with the
    health checker and with closing the pool: a pooled connection is never behind two handles in
    use; one in use is not idle, and is counted by the pool until the pool is closed; the idle
    ones are distinct and among the counted ones, so the gauge of connections in use, total less
    idle, is not negative; and every queued waiter has its own empty channel, so handing it a
    connection does not block the pool. *)
Theorem pool_exclusive {P : Primitives} {K : KEMPrimitives} fips config now p0 evs : NewPool config now = Ok p0 ->
  let p := pl_run fips p0 evs in
  (forall h h' c c', p_handles p !! h = Some c -> p_handles p !! h' = Some c' ->
     hd_released c = false -> hd_released c' = false -> hd_pc c = hd_pc c' -> h = h') /\
  (forall h c, p_handles p !! h = Some c -> hd_released c = false ->
     (hd_pc c ∈ p_idle p -> False) /\ (p_closed p = true \/ hd_pc c ∈ p_conns p)) /\
  NoDup (p_idle p) /\ (forall k, k ∈ p_idle p -> k ∈ p_conns p) /\ 0 <= InUseCount p /\
  NoDup (p_waiters p) /\ (forall ch, ch ∈ p_waiters p -> p_chans p !! ch = Some (mkWaitChan None false)).
Proof.
  intros H0 p. assert (Hg : good None p).
  { apply NewPool_good in H0. eapply fine_good; [by apply pl_run_fine|done]. }
  split_and!; [intros *; by apply good_handles|intros *; by apply good_in_use|by apply good_NoDup_idle| | | |].
  - apply Hg.
  - unfold InUseCount. pose proof (good_idle_len p Hg). lia.
  - apply Hg.
  - apply Hg.
Qed.

(** A new pool with the default configuration, and one call that waits for the other's dial. *)
Definition example_pool : Pool := mkPool DefaultPoolConfig [] [] [] false 0 (newPoolStats 0) [] [] [] [] BgNone [] false.

Definition example_one : Pool := example_pool <| p_config := DefaultPoolConfig <| MaxConns := 1 |> |>.

Definition example_penv (e : error) : PEnv := mkPEnv 0 example_lenv (Err e) None WReceive.

Lemma pool_exclusive_witness :
  let p := @pl_run toy toyKEM false example_one [PAcquire; PCaller 0 (example_penv ErrEOF); PAcquire; PCaller 1 (example_penv ErrEOF)] in
  p_waiters p = [0%nat] /\ p_chans p !! 0%nat = Some (mkWaitChan None false).
Proof.
  split; [vm_compute; reflexivity|].
  apply (@pool_exclusive toy toyKEM false (DefaultPoolConfig <| MaxConns := 1 |>) 0 example_one
    [PAcquire; PCaller 0 (example_penv ErrEOF); PAcquire; PCaller 1 (example_penv ErrEOF)]); [reflexivity|].
  vm_compute. by left.
Defined.
