(* ===== verification/PoolBound.v ===== *)
(** How many connections the pool holds.

    [Acquire] reserves a slot before it dials, so its own connections stay within [MaxConns]; the
    connections [Start] and the health checker create are not reserved. *)

From Corelib Require Import ssreflect.
From stdpp Require Import base tactics list numbers strings.
From Stdlib Require Import ZArith Lia.
From S2P Require Import Prelude Base Messages Codec Crypto Chkem Ticket Session Handshake Agreement Admission Endpoint Transport Connect Listener Pool PoolInv.

Local Open Scope Z_scope.
Local Open Scope go_scope.

(** A caller that holds a reserved slot. *)
Definition dialing (c : caller) : Prop :=
  match ac_stage c with AcDial _ | AcDialled _ _ => True | _ => False end.

#[export] Instance dialing_dec c : Decision (dialing c).
Proof. unfold dialing. destruct (ac_stage c); apply _. Defined.

Definition dials (p : Pool) : Z := len (filter dialing (p_callers p)).

(** What the background goroutine will still add. *)
Definition todo (b : background) : Z :=
  match b with
  | BgStart n | BgRefill n => Z.of_nat n
  | BgStarted n _ | BgRefilled n _ => Z.of_nat n + 1
  | _ => 0
  end.

Definition load (p : Pool) : Z := len (p_conns p) + p_pending p + todo (p_bg p).

(** What the background goroutine may add in all, once it runs. *)
Definition extra (p : Pool) : Z := match p_bg p with BgNone => 0 | _ => MinConns (p_config p) end.

Record bounded_by (p : Pool) : Prop := {
  pb_max : 0 < MaxConns (p_config p);
  pb_min : 0 <= MinConns (p_config p);
  pb_dials : p_pending p = dials p;
  pb_pending : p_pending p <= MaxConns (p_config p);
  pb_todo : todo (p_bg p) <= extra p;
  pb_load : load p <= MaxConns (p_config p) + extra p }.

(** A step that adds nothing. *)
Record light (p p' : Pool) : Prop := {
  lt_max : MaxConns (p_config p') = MaxConns (p_config p);
  lt_min : MinConns (p_config p') = MinConns (p_config p);
  lt_dials : p_pending p' - dials p' = p_pending p - dials p;
  lt_pending : p_pending p' <= p_pending p;
  lt_bg : p_bg p' = p_bg p;
  lt_load : load p' <= load p }.

Section Bound.
Context {P : Primitives} {K : KEMPrimitives} (fips : bool).

Lemma light_bounded p p' : light p p' -> bounded_by p -> bounded_by p'.
Proof. intros [L1 L2 L3 L4 L5 L6] []. unfold extra in *. split; rw ?L1 ?L2 ?L5; unfold extra; rw ?L2 ?L5; lia. Qed.

#[local] Instance light_preorder : PreOrder light.
Proof. split; [intros p; by split|]. intros x y z [] []. split; by [lia|etrans]. Qed.

(** Steps that leave callers, reservations and the goroutine alone. *)
Lemma light_rest p p' : p_config p' = p_config p -> p_pending p' = p_pending p -> p_callers p' = p_callers p ->
  p_bg p' = p_bg p -> len (p_conns p') <= len (p_conns p) -> light p p'.
Proof. intros E1 E2 E3 E4 H. split; unfold dials, load; rw ?E1 ?E2 ?E3 ?E4; try done; lia. Qed.

Lemma light_on_pc k f p : light p (on_pc k f p).
Proof. by apply light_rest. Qed.
Lemma light_on_stats f p : light p (on_stats f p).
Proof. by apply light_rest. Qed.
Lemma light_remove k p : light p (removeConnLocked k p).
Proof. apply light_rest; try done. apply remove_first_len. Qed.
Lemma light_async k p : light p (closeConnAsync k p).
Proof. by apply light_rest. Qed.
Lemma light_wake p : light p (wakeWaiterLocked p).
Proof. unfold wakeWaiterLocked. destruct (p_waiters p); by apply light_rest. Qed.

Lemma light_foldl f ks : (forall p (k : nat), light p (f p k)) -> forall p, light p (foldl f p ks).
Proof. intros Hf. induction ks as [|k ks IH]; intros p; [reflexivity|]. cbn [foldl]. etrans; [apply Hf|apply IH]. Qed.

Lemma light_caller g f c p : p_callers p !! g = Some c -> (dialing (f c) <-> dialing c) ->
  light p (p <| p_callers := alter f g (p_callers p) |>).
Proof.
  intros Hg Hd. assert (dials (p <| p_callers := alter f g (p_callers p) |>) = dials p) as E.
  { unfold dials. cbn. rw (len_filter_alter _ _ _ _ _ Hg) (bool_decide_ext _ _ Hd). lia. }
  split; rw ?E; try done.
Qed.

Lemma light_finish g c r p : p_callers p !! g = Some c -> ~ dialing c -> light p (finish g r p).
Proof. intros Hg Hd. eapply light_caller; [done|]. unfold dialing at 1. cbn. by destruct (ac_saved c). Qed.

Lemma light_set_caller g c st p : p_callers p !! g = Some c -> ~ dialing c -> ~ dialing (mkCaller None st) ->
  light p (set_caller g st p).
Proof. intros Hg Hd Hs. eapply light_caller; [done|]. tauto. Qed.

Lemma light_finishAcquire g c k st now b p : p_callers p !! g = Some c -> ~ dialing c ->
  light p (finishAcquire g k st now b p).
Proof.
  intros Hg Hd. unfold finishAcquire. set p1 := on_stats _ p. transitivity p1; [apply light_on_stats|].
  transitivity (p1 <| p_handles := p_handles p1 ++ [newPoolConn k] |>); [by apply light_rest|]. by eapply light_finish.
Qed.

Lemma Acquire_bounded g c z p : bounded_by p -> p_callers p !! g = Some c -> ~ dialing c -> bounded_by (Acquire g z p).
Proof.
  intros HB Hg Hd. unfold Acquire. destruct (p_closed p); [eapply light_bounded; [by eapply light_finish|done]|].
  unfold tryGetIdleLocked. pose proof (tryGetIdle_rest (length (p_idle p)) (pe_now z) p) as (E1 & _ & E3 & E4 & E5 & _ & _ & E8).
  destruct (tryGetIdle_loop _ _ p) as [p1 r]. cbn in E1, E3, E4, E5, E8.
  assert (HB1 : bounded_by p1) by (eapply light_bounded; [by apply light_rest|done]).
  assert (Hg1 : p_callers p1 !! g = Some c) by by rw E1.
  destruct r as [k|]; [eapply light_bounded; [by eapply light_finishAcquire|done]|].
  destruct HB1 as [B1 B2 B3 B4 B5 B6]. destruct (_ || _) eqn:Hcap.
  - apply orb_prop in Hcap as [Hz%Z.eqb_eq|Hlt%Z.ltb_lt]; [lia|]. 
    assert (E : dials (set_caller g (AcDial (pe_now z)) (p1 <| p_pending := p_pending p1 + 1 |>)) = dials p1 + 1).
    { unfold dials. cbn. rw (len_filter_alter _ _ _ _ _ Hg1) (bool_decide_false (dialing c)) // bool_decide_true; [done|]. cbn. lia. }
    pose proof (len_nonneg (p_conns p1)). split; rw ?E; cbn; try done; [lia|lia|]. unfold load, extra in *. cbn. lia.
  - clear Hcap. eapply light_bounded; [|by split]. unfold waitForConnection. destruct (_ =? 0).
    + etrans; [apply (light_on_stats recordAcquireTimeout)|]. by eapply light_finish.
    + set p2 := on_stats _ _. transitivity p2; [by apply light_rest|]. eapply light_set_caller; [done|done|by intros []].
Qed.

Lemma createAndAcquire_bounded g c st now r p : bounded_by p -> p_callers p !! g = Some c ->
  ac_stage c = AcDialled st r -> bounded_by (createAndAcquire g st now r p).
Proof.
  intros [B1 B2 B3 B4 B5 B6] Hg Hst. assert (Hd : dialing c) by (unfold dialing; by rw Hst).
  assert (E : forall q f, p_callers q = p_callers p -> (forall x, ~ dialing (f x)) ->
    dials (q <| p_callers := alter f g (p_callers q) |>) = dials p - 1).
  { intros q f Eq Hf. unfold dials. cbn. rw Eq (len_filter_alter _ _ _ _ _ Hg) (bool_decide_true (dialing c)) //.
    rw bool_decide_false; [apply Hf|]. cbn. lia. }
  assert (Hn : forall r' (x : caller), ~ dialing (mkCaller (ac_saved x) (match ac_saved x with Some _ => AcRestore r' | None => AcDone r' end))).
  { intros r' x. unfold dialing. cbn. destruct (ac_saved x); by intros []. }
  unfold createAndAcquire. set p0 := p <| p_pending := p_pending p - 1 |>. destruct r as [k|e|]; [destruct (p_closed p0)| |by split].
  - split; [exact B1|exact B2| |cbn; lia|exact B5|unfold load, extra in *; cbn; lia]. unfold finish. rw E //. cbn. lia.
  - set p1 := on_stats _ _. unfold finishAcquire. set p2 := on_stats _ p1.
    split; [exact B1|exact B2| |cbn; lia|exact B5|].
    + unfold finish. rw (E (p2 <| p_handles := p_handles p2 ++ [newPoolConn k] |>)) //. cbn. lia.
    + unfold load, extra in *. cbn. rw len_app len_cons len_nil. lia.
  - unfold wakeWaiterLocked. destruct (p_waiters p0);
      (split; [exact B1|exact B2| |cbn; lia|exact B5|unfold load, extra in *; cbn; lia]); unfold finish; rw E //; cbn; lia.
Qed.

Lemma dialConn_light z p p' r : dialConn fips z p = (p', r) -> light p p'.
Proof.
  intros H. destruct (dialConn_fine _ _ _ _ _ H) as (_ & E1 & _ & E2 & E3 & E4 & E5).
  apply light_rest; try done. by rw E5.
Qed.

Lemma wait_step_light g c st ch dl z p : p_callers p !! g = Some c -> ~ dialing c -> light p (wait_step g st ch dl z p).
Proof.
  intros Hg Hd. unfold wait_step.
  assert (HT : forall e, light p (handleWaitTimeout g ch e p)).
  { intros e. unfold handleWaitTimeout. set p1 := recordTimeout _. transitivity p1; [by apply light_rest|]. by eapply light_finish. }
  destruct (pe_choice z) as [| |e]; [|destruct (_ <=? _); [apply HT|reflexivity]|apply HT].
  destruct (p_chans p !! ch) as [w|]; [|reflexivity]. destruct (ch_buf w) as [v|].
  - set p1 := p <| p_chans := _ |>. transitivity p1; [by apply light_rest|]. unfold handleWaitResult.
    set p2 := on_stats _ p1. transitivity p2; [by apply light_rest|]. destruct v as [k|].
    + destruct (negb _).
      * transitivity (closeConnAsync k (removeConnLocked k p2)); [etrans; [apply light_remove|apply light_async]|].
        eapply light_set_caller; [done|done|by intros []].
      * transitivity (set_inUse true k p2); [apply light_on_pc|]. by eapply light_finishAcquire.
    + eapply light_set_caller; [done|done|by intros []].
  - destruct (ch_closed w); [|reflexivity]. set p1 := on_stats _ p. transitivity p1; [apply light_on_stats|].
    by eapply light_finish.
Qed.

Lemma runCaller_bounded g z p : bounded_by p -> bounded_by (runCaller fips g z p).
Proof.
  intros HB. unfold runCaller. destruct (p_callers p !! g) as [c|] eqn:Hg; [|done].
  destruct (ac_stage c) as [| |st|st r|st ch dl|r|r] eqn:Hst;
    try (assert (Hd : ~ dialing c) by (unfold dialing; rw Hst; by intros [])).
  - eapply light_bounded; [|done]. unfold TryAcquire_begin. set p1 := p <| p_config := _ |>.
    transitivity p1; [by split|]. apply (light_caller g _ c p1 Hg). unfold dialing at 1. cbn. tauto.
  - by eapply Acquire_bounded.
  - destruct (dialConn fips z p) as [p1 r] eqn:Hd. pose proof (dialConn_light _ _ _ _ Hd) as L.
    destruct (dialConn_fine _ _ _ _ _ Hd) as (_ & E & _). eapply light_bounded; [|done]. etrans; [exact L|].
    eapply (light_caller g _ c); [by rw E|]. unfold dialing. by rw Hst.
  - by eapply createAndAcquire_bounded.
  - eapply light_bounded; [by eapply wait_step_light|done].
  - eapply light_bounded; [|done]. unfold TryAcquire_end. set p1 := p <| p_config := _ |>.
    transitivity p1; [by split|]. eapply (light_set_caller g c _ p1 Hg); [done|by intros []].
  - done.
Qed.

Lemma give_back_light h f p : light p (give_back h f p).
Proof.
  unfold give_back. destruct (p_handles p !! h) as [c|]; [|reflexivity]. destruct (hd_released c); [reflexivity|].
  set k := hd_pc c. set p1 := on_pc k f _. transitivity p1; [by apply light_rest|]. unfold release.
  destruct (p_closed p1); [apply light_async|]. set p2 := set_inUse false k p1. transitivity p2; [apply light_on_pc|].
  destruct (default false _).
  - etrans; [|apply light_wake]. etrans; [|apply light_async]. etrans; [|apply light_on_stats]. apply light_remove.
  - destruct (p_waiters p2); by apply light_rest.
Qed.

Lemma addIdle_bounded b k p : bounded_by p -> todo (p_bg p) = todo b + 1 -> 0 <= todo b -> b <> BgNone ->
  bounded_by ((addIdle k p) <| p_bg := b |>).
Proof.
  intros [B1 B2 B3 B4 B5 B6] Hb Hn Hne. assert (extra p <= MinConns (p_config p)) by (unfold extra; destruct (p_bg p); done || lia).
  split; try done; unfold extra, load in *; cbn; rw ?len_app ?len_cons ?len_nil; destruct b; done || lia.
Qed.

Lemma set_bg_bounded b p : bounded_by p -> todo b <= todo (p_bg p) -> b <> BgNone -> bounded_by (p <| p_bg := b |>).
Proof.
  intros [B1 B2 B3 B4 B5 B6] Hb Hne. assert (extra p <= MinConns (p_config p)) by (unfold extra; destruct (p_bg p); done || lia).
  split; try done; unfold extra, load in *; cbn; destruct b; done || lia.
Qed.

Lemma dial_bounded z p p' r b : bounded_by p -> dialConn fips z p = (p', r) -> todo b <= todo (p_bg p) -> b <> BgNone ->
  bounded_by (p' <| p_bg := b |>).
Proof.
  intros HB Hd Hb Hne. destruct (dialConn_fine _ _ _ _ _ Hd) as (_ & _ & _ & _ & _ & E & _). apply set_bg_bounded; [|by rw E|done].
  eapply light_bounded; [by eapply dialConn_light|done].
Qed.

Lemma runHealthCheck_bounded now p : bounded_by p -> p_bg p = BgIdle -> bounded_by (runHealthCheck now p).
Proof.
  intros HB Hb. unfold runHealthCheck. destruct (p_closed p); [apply set_bg_bounded; [done|cbn; rw Hb; done|done]|].
  set p1 := foldl _ p (p_idle p).
  assert (light p p1) as L1 by (apply light_foldl; intros; apply light_on_stats).
  set p2 := p1 <| p_idle := _ |>. set U := filter (fun k => isHealthy now p k = false) (p_idle p).
  destruct (removes U p2) as (_ & _ & _ & R4 & _ & _ & R7 & R8 & _ & _ & _ & R12 & R13).
  set p3 := foldl _ p2 U in R4, R7, R8, R12, R13 |- *.
  assert (bounded_by p3) as HB3.
  { eapply light_bounded; [|exact HB]. etrans; [exact L1|]. transitivity p2; [by apply light_rest|]. by apply light_rest. }
  apply set_bg_bounded; [eapply light_bounded; [apply light_on_stats|done]| |done]. cbn. destruct (p_bg p3); cbn; lia.
Qed.

Lemma runBackground_bounded z p : bounded_by p -> bounded_by (runBackground fips z p).
Proof.
  intros HB. unfold runBackground. destruct (p_bg p) as [|[|n]|n k| |ks| |[|n]|n k|] eqn:Hb; try done;
    try (apply set_bg_bounded; [done|rw Hb; cbn; try destruct (_ <? _); cbn; lia|try destruct (_ <? _); done]).
  - destruct (dialConn fips z p) as [p1 r] eqn:Hd. destruct r; (eapply dial_bounded; [done|exact Hd|rw Hb; cbn; lia|done]).
  - apply addIdle_bounded; [done|rw Hb; cbn; lia|cbn; lia|done].
  - by apply runHealthCheck_bounded.
  - assert (light p (foldl (fun p k => closeTunnel k p) p ks)) as L by (apply light_foldl; intros; apply light_on_pc).
    apply set_bg_bounded; [by eapply light_bounded| |done]. rw (lt_bg _ _ L) Hb. done.
  - destruct HB as [B1 B2 B3 B4 B5 B6]. unfold extra, load in *. rw Hb in B5, B6. cbn in B5, B6.
    pose proof (len_nonneg (p_conns p)). split; try done; unfold extra, load; cbn; lia.
  - destruct (dialConn fips z p) as [p1 r] eqn:Hd. destruct r; (eapply dial_bounded; [done|exact Hd|rw Hb; cbn; lia|done]).
  - destruct (p_closed p).
    + apply (set_bg_bounded BgIdle (closeTunnel k p)); [eapply light_bounded; [apply light_on_pc|done]|cbn; rw Hb; cbn; lia|done].
    + apply addIdle_bounded; [done|rw Hb; cbn; lia|cbn; lia|done].
Qed.

Lemma pl_step_bounded ev p : bounded_by p -> bounded_by (pl_step fips p ev).
Proof.
  intros HB. unfold pl_step. destruct (p_crashed p); [done|].
  assert (HN : forall st, ~ dialing (mkCaller None st) -> bounded_by (p <| p_callers := p_callers p ++ [mkCaller None st] |>)).
  { intros st Hst. destruct HB. split; try done. unfold dials in *. cbn. rw len_filter_snoc bool_decide_false //. cbn. lia. }
  assert (HT : forall {A} h (m : Tr A), bounded_by (on_tunnel h m p).1).
  { intros A h m. eapply light_bounded; [|done]. unfold on_tunnel. destruct (p_handles p !! h) as [c|]; [|reflexivity].
    destruct (hd_released c); [reflexivity|]. destruct (p_pcs p !! hd_pc c) as [pc|]; [|reflexivity].
    destruct (m (pc_tunnel pc)). apply light_on_pc. }
  destruct ev; try (apply HN; by intros []); try apply HT.
  - by apply runCaller_bounded.
  - eapply light_bounded; [apply give_back_light|done].
  - eapply light_bounded; [apply give_back_light|done].
  - destruct (p_bg p) eqn:Hb; try done. unfold Start. destruct (p_closed p); [done|].
    destruct HB as [B1 B2 B3 B4 B5 B6]. unfold extra, load in *. rw Hb in B5, B6. cbn in B5, B6.
    split; try done; unfold extra, load; cbn; lia.
  - by apply runBackground_bounded.
  - unfold Pool_Close. destruct (p_closed p); [done|]. destruct HB as [B1 B2 B3 B4 B5 B6].
    pose proof (len_nonneg (p_conns p)). split; try done; unfold extra, load in *; cbn; rw ?len_nil; lia.
  - destruct (p_async p !! i) as [k|]; [|done]. by apply (light_bounded p); [apply light_rest|].
Qed.

Lemma pl_run_bounded evs : forall p, bounded_by p -> bounded_by (pl_run fips p evs).
Proof. induction evs as [|ev evs IH]; intros p HB; [done|]. by apply IH, pl_step_bounded. Qed.

(** The limits themselves do not change: only [TryAcquire] writes the configuration. *)
Definition limits (p : Pool) : Z * Z := (MaxConns (p_config p), MinConns (p_config p)).

Lemma foldl_limits {A} (f : Pool -> A -> Pool) xs : (forall p x, limits (f p x) = limits p) -> forall p, limits (foldl f p xs) = limits p.
Proof. intros Hf. induction xs as [|x xs IH]; intros p; [done|]. cbn [foldl]. by rw IH Hf. Qed.

Lemma dialConn_limits z p : limits (dialConn fips z p).1 = limits p.
Proof. unfold dialConn. by destruct (createConn _ _ _ _ _).2. Qed.

Lemma wake_limits p : limits (wakeWaiterLocked p) = limits p.
Proof. unfold wakeWaiterLocked. by destruct (p_waiters p). Qed.

Lemma release_limits k p : limits (release k p) = limits p.
Proof.
  unfold release. destruct (p_closed p); [done|]. destruct (default false _); [by rw wake_limits|].
  by destruct (p_waiters _).
Qed.

Lemma runCaller_limits g z p : limits (runCaller fips g z p) = limits p.
Proof.
  unfold runCaller. destruct (p_callers p !! g) as [c|]; [|done]. destruct (ac_stage c) as [| |st|st r|st ch dl|r|r]; try done.
  - unfold Acquire, tryGetIdleLocked. destruct (p_closed p); [done|].
    pose proof (tryGetIdle_rest (length (p_idle p)) (pe_now z) p) as (_ & _ & E & _).
    destruct (tryGetIdle_loop _ _ p) as [p1 r]. cbn in E. transitivity (limits p1); [|unfold limits; by rw E].
    destruct r as [k|]; [done|]. destruct (_ || _); [done|]. unfold waitForConnection. by destruct (_ =? 0).
  - pose proof (dialConn_limits z p) as E. by destruct (dialConn fips z p).
  - unfold createAndAcquire. destruct r as [k|e|]; [by destruct (p_closed _)| |done].
    transitivity (limits (wakeWaiterLocked (p <| p_pending := p_pending p - 1 |>))); [done|by rw wake_limits].
  - unfold wait_step. destruct (pe_choice z); [|by destruct (_ <=? _)|done].
    destruct (p_chans p !! ch) as [w|]; [|done]. destruct (ch_buf w) as [v|]; [|by destruct (ch_closed w)].
    unfold handleWaitResult. destruct v as [k|]; [|done]. by destruct (negb _).
Qed.

Lemma pl_step_limits ev p : limits (pl_step fips p ev) = limits p.
Proof.
  unfold pl_step. destruct (p_crashed p); [done|].
  assert (HT : forall {A} h (m : Tr A), limits (on_tunnel h m p).1 = limits p).
  { intros A h m. unfold on_tunnel. destruct (p_handles p !! h) as [c|]; [|done]. destruct (hd_released c); [done|].
    destruct (p_pcs p !! hd_pc c) as [pc|]; [|done]. by destruct (m (pc_tunnel pc)). }
  assert (HG : forall h f, limits (give_back h f p) = limits p).
  { intros h f. unfold give_back. destruct (p_handles p !! h) as [c|]; [|done]. destruct (hd_released c); [done|]. by rw release_limits. }
  destruct ev; try done; try apply HT; try apply HG.
  - apply runCaller_limits.
  - destruct (p_bg p); try done. unfold Start. by destruct (p_closed p).
  - unfold runBackground. pose proof (dialConn_limits z p) as E. destruct (p_bg p) as [|[|n]|n k| |ks| |[|n]|n k|]; try done.
    + by destruct (dialConn fips z p) as [p1 [k|e|]].
    + unfold runHealthCheck. destruct (p_closed p); [done|]. set p1 := foldl _ p (p_idle p).
      assert (limits p1 = limits p) as E1 by by apply foldl_limits. rw -E1. set p2 := p1 <| p_idle := _ |>.
      set U := filter _ (p_idle p). transitivity (limits (foldl (fun p k => removeConnLocked k p) p2 U)); [done|].
      rw foldl_limits; done.
    + transitivity (limits (foldl (fun p k => closeTunnel k p) p ks)); [done|]. by rw foldl_limits.
    + by destruct (dialConn fips z p) as [p1 [k|e|]].
    + by destruct (p_closed p).
  - unfold Pool_Close. by destruct (p_closed p).
  - by destruct (p_async p !! i).
Qed.

Lemma pl_run_limits evs : forall p, limits (pl_run fips p evs) = limits p.
Proof. induction evs as [|ev evs IH]; intros p; [done|]. etrans; [apply IH|apply pl_step_limits]. Qed.

Lemma NewPool_bounded config now p : NewPool config now = Ok p -> bounded_by p /\ p_config p = applyDefaults config.
Proof.
  unfold NewPool. intros H. okinv H. injection H as <-. split; [|done]. unfold PoolConfig_Validate in Hx. okinv Hx. zbool.
  assert (MaxConns (applyDefaults config) <> 0).
  { cbn. unfold or_default. destruct (Z.eqb_spec (MaxConns config) 0); [cbn; lia|done]. }
  split; unfold extra, load, dials; cbn [p_config p_pending p_callers p_bg p_conns todo]; rw ?filter_nil ?len_nil; lia.
Qed.
End Bound.


(** A dial that fails, and the events of an acquire that is refused its connection. *)
Definition example_refused : list PoolEvent :=
  let z := example_penv (ErrExternal "dial") in
  [PAcquire; PCaller 0 z; PAcquire; PCaller 1 z; PCaller 0 z; PCaller 0 z].


(** * [TryAcquire] and the timeout *)

(** All slots taken and nothing idle. *)
Definition exhausted (p : Pool) : Prop :=
  p_crashed p = false /\ p_closed p = false /\ p_idle p = [] /\ 0 < MaxConns (p_config p) <= len (p_conns p) + p_pending p.

Section Timeout.
Context {P : Primitives} {K : KEMPrimitives} (fips : bool) (cs : list caller).

(** An exhausted pool with wait timeout [w], and [k] the calls since those of [cs]. *)
Definition stuck (p : Pool) (w : Z) (k : list caller) : Prop :=
  exhausted p /\ WaitTimeout (p_config p) = w /\ p_callers p = cs ++ k.

Lemma stuck_new st p w k : stuck p w k ->
  stuck (p <| p_callers := p_callers p ++ [mkCaller None st] |>) w (k ++ [mkCaller None st]).
Proof. intros (He & Hw & Hc). split_and!; [exact He|done|]. cbn. by rw Hc -app_assoc. Qed.

Lemma stuck_lookup p w k i : stuck p w k -> p_callers p !! (length cs + i)%nat = k !! i.
Proof. intros (_ & _ & ->). rw lookup_app_r; [lia|]. f_equal. lia. Qed.

Lemma stuck_begin p w k i sv z : stuck p w k -> k !! i = Some (mkCaller sv AcTry) ->
  stuck (pl_step fips p (PCaller (length cs + i) z)) 0 (alter (fun _ => mkCaller (Some w) AcStart) i k).
Proof.
  intros Hs Hi. pose proof (stuck_lookup _ _ _ i Hs) as Hl. destruct Hs as (He & Hw & Hc). pose proof He as (H1 & _).
  unfold pl_step. rw H1. unfold runCaller. rw Hl Hi. cbn [ac_stage]. unfold TryAcquire_begin. split_and!; [exact He|done|].
  cbn. by rw Hw Hc alter_app_r.
Qed.

Lemma stuck_acquire p k i sv z : stuck p 0 k -> k !! i = Some (mkCaller sv AcStart) ->
  stuck (pl_step fips p (PCaller (length cs + i) z)) 0
    (alter (fun c => mkCaller (ac_saved c) (match ac_saved c with
       Some _ => AcRestore (Err ErrPoolExhausted) | None => AcDone (Err ErrPoolExhausted) end)) i k).
Proof.
  intros Hs Hi. pose proof (stuck_lookup _ _ _ i Hs) as Hl. destruct Hs as (He & Hw & Hc). pose proof He as (H1 & H2 & H3 & H4).
  unfold pl_step. rw H1. unfold runCaller. rw Hl Hi. cbn [ac_stage]. unfold Acquire, tryGetIdleLocked. rw H2 H3. cbn [length tryGetIdle_loop].
  replace (MaxConns (p_config p) =? 0) with false by lia. replace (len (p_conns p) + p_pending p <? MaxConns (p_config p)) with false by lia.
  cbn [orb]. unfold waitForConnection. rw Hw. split_and!; [exact He|done|]. cbn. by rw Hc alter_app_r.
Qed.

Lemma stuck_restore p w k i o r z : stuck p w k -> k !! i = Some (mkCaller (Some o) (AcRestore r)) ->
  stuck (pl_step fips p (PCaller (length cs + i) z)) o (alter (fun c => mkCaller (ac_saved c) (AcDone r)) i k).
Proof.
  intros Hs Hi. pose proof (stuck_lookup _ _ _ i Hs) as Hl. destruct Hs as (He & Hw & Hc). pose proof He as (H1 & _).
  unfold pl_step. rw H1. unfold runCaller. rw Hl Hi. cbn [ac_stage]. unfold TryAcquire_end. split_and!; [exact He|done|].
  cbn. by rw Hc alter_app_r.
Qed.
End Timeout.

(** Two overlapping calls of [TryAcquire] on an exhausted pool leave its wait timeout at zero:
    the second saves the zero the first put there and restores it last.  From then on a plain
    [Acquire] does not wait: it returns [ErrPoolExhausted] at once, whatever timeout the pool was
    configured with. *)
Theorem try_acquire_clears_timeout {P : Primitives} {K : KEMPrimitives} fips p z : exhausted p ->
  let a := (length (p_callers p) + 0)%nat in
  let b := (length (p_callers p) + 1)%nat in
  let c := (length (p_callers p) + 2)%nat in
  let p' := pl_run fips p [PTryAcquire; PTryAcquire; PCaller a z; PCaller b z; PCaller a z; PCaller b z;
                           PCaller a z; PCaller b z; PAcquire; PCaller c z] in
  WaitTimeout (p_config p') = 0 /\
  p_callers p' !! a = Some (mkCaller (Some (WaitTimeout (p_config p))) (AcDone (Err ErrPoolExhausted))) /\
  p_callers p' !! b = Some (mkCaller (Some 0) (AcDone (Err ErrPoolExhausted))) /\
  p_callers p' !! c = Some (mkCaller None (AcDone (Err ErrPoolExhausted))).
Proof.
  intros He a b c p'. assert (H0 : stuck (p_callers p) p (WaitTimeout (p_config p)) []) by (split_and!; [done|done|by rw app_nil_r]).
  pose proof He as (Hc & _).
  assert (Hn : forall q w k st ev, stuck (p_callers p) q w k -> ev = (match st with AcTry => PTryAcquire | _ => PAcquire end) ->
    (st = AcTry \/ st = AcStart) -> stuck (p_callers p) (pl_step fips q ev) w (k ++ [mkCaller None st])).
  { intros q w k st ev Hs -> Hst. pose proof Hs as ((Hq & _) & _). unfold pl_step. rw Hq. destruct Hst as [-> | ->]; by apply stuck_new. }
  apply (Hn _ _ _ AcTry PTryAcquire) in H0; [|done|by left]. apply (Hn _ _ _ AcTry PTryAcquire) in H0; [|done|by left].
  apply (stuck_begin fips _ _ _ _ 0 None z) in H0; [|done]. apply (stuck_begin fips _ _ _ _ 1 None z) in H0; [|done].
  eapply (stuck_acquire fips _ _ _ 0 _ z) in H0; [|done]. eapply (stuck_acquire fips _ _ _ 1 _ z) in H0; [|done].
  eapply (stuck_restore fips _ _ _ _ 0 _ _ z) in H0; [|done]. eapply (stuck_restore fips _ _ _ _ 1 _ _ z) in H0; [|done].
  apply (Hn _ _ _ AcStart PAcquire) in H0; [|done|by right]. eapply (stuck_acquire fips _ _ _ 2 _ z) in H0; [|done].
  change (stuck (p_callers p) p' 0 [mkCaller (Some (WaitTimeout (p_config p))) (AcDone (Err ErrPoolExhausted));
    mkCaller (Some 0) (AcDone (Err ErrPoolExhausted)); mkCaller None (AcDone (Err ErrPoolExhausted))]) in H0.
  split; [apply H0|]. split_and!; [exact (stuck_lookup _ _ _ _ 0 H0)|exact (stuck_lookup _ _ _ _ 1 H0)|exact (stuck_lookup _ _ _ _ 2 H0)].
Qed.

(** The one slot of a pool taken by a call that is dialling. *)
Definition example_busy : Pool := @pl_run toy toyKEM false example_one [PAcquire; PCaller 0 (example_penv ErrEOF)].

Lemma try_acquire_clears_timeout_witness :
  WaitTimeout (p_config example_busy) = 30 * Second /\
  WaitTimeout (p_config (@pl_run toy toyKEM false example_busy
    (let z := example_penv ErrEOF in [PTryAcquire; PTryAcquire; PCaller 1 z; PCaller 2 z; PCaller 1 z; PCaller 2 z;
     PCaller 1 z; PCaller 2 z; PAcquire; PCaller 3 z]))) = 0.
Proof.
  split; [reflexivity|]. apply (@try_acquire_clears_timeout toy toyKEM false example_busy (example_penv ErrEOF)).
  split_and!; vm_compute; done.
Defined.

(** * Authentication *)

(** What the pool's transport configuration says about the server's identity has no effect: a
    tunnel the pool dials has neither a pinned server key nor a pre-shared key in its session,
    even when the configuration has both, so the peer of a pooled connection is not
    authenticated. *)
Theorem pool_dials_unauthenticated {P : Primitives} {K : KEMPrimitives} fips z config dial d t :
  createConn fips z config dial (mkDialled None false) = (d, Ok t) ->
  s_PinnedServerKey (t_session t) = None /\ s_PSK (t_session t) = None.
Proof.
  unfold createConn, st_bind, st_lift, st_mod, or_close. destruct dial as [conn|e|]; [|done..].
  destruct (NewSession _ _ _ _) as [s|e|] eqn:Hs; [|done..].
  pose proof (InitiatorHandshake_frame fips (le_hello z) (le_kem z) (le_rnd z) (le_rnd2 z) (le_now z) s conn)
    as (_ & _ & _ & _ & _ & _ & Hpin & Hpsk).
  destruct (InitiatorHandshake _ _ _ _ _ _ _ _) as [[h c] [[]|e|]]; [|done..]. cbn in Hpin, Hpsk.
  unfold NewTransport. destruct (is_state _ _); [|done]. intros [= _ <-]. cbn. rw Hpin Hpsk.
  unfold NewSession in Hs. okinv Hs. injection Hs as <-. done.
Qed.

(** A server without any identity, and what it answers to the pool's first hello. *)
Definition dial_lenv : LEnv :=
  mkLEnv 0 (example_draws [16]%nat) (example_draws [32; 64]%nat) (example_draws []) (example_draws []) hello_rnd kem_rnd true.

Definition dial_session (role : Role) : Session :=
  match @NewSession toy toyKEM (le_id dial_lenv) (le_key dial_lenv) 0 role with
  | Ok s => s
  | _ => example_initiator
  end.

Definition dial_hello : list Z :=
  match (@CreateClientHello toy toyKEM false hello_rnd kem_rnd (NewHandshake (dial_session RoleInitiator))).2 with
  | Ok b => b
  | _ => []
  end.

Definition dial_flight : list Z :=
  concat (cn_out (@ResponderHandshake toy toyKEM false (example_draws []) (example_draws []) hello_rnd kem_rnd 0
    (dial_session RoleResponder) (mkConn dial_hello [] [])).1.2).

Definition pinned_config : TransportConfig :=
  mkTransportConfig 0 0 0 0 (tc_RateLimit DefaultTransportConfig) None (Some (KeyPair_PublicKey example_v1_key)) false
    (Some (replicate 32 5)) (Some [1; 2]) None false.

Definition dial_outcome : Dialled * outcome error Transport :=
  @createConn toy toyKEM false dial_lenv pinned_config (Ok (mkConn dial_flight [] [])) (mkDialled None false).

Lemma dial_succeeds : match dial_outcome.2 with Ok _ => true | _ => false end = true.
Proof. vm_compute. reflexivity. Qed.

Lemma pool_dials_unauthenticated_witness : exists d t, dial_outcome = (d, Ok t) /\
  s_PinnedServerKey (t_session t) = None /\ s_PSK (t_session t) = None.
Proof.
  pose proof dial_succeeds as Hs. destruct dial_outcome as [d [t|e|]] eqn:Hd; [|discriminate Hs..].
  exists d, t. split; [reflexivity|].
  exact (@pool_dials_unauthenticated toy toyKEM false dial_lenv pinned_config (Ok (mkConn dial_flight [] [])) d t Hd).
Defined.

(** A pool of at most one connection that has two: the health checker refills while a caller
    dials. *)
Definition dial_penv : PEnv := mkPEnv 0 dial_lenv (Ok (mkConn dial_flight [] [])) None WReceive.

Lemma pool_exceeds_max :
  MaxConns (p_config example_one) = 1 /\
  Size (@pl_run toy toyKEM false example_one
    ([PStart; PBackground (example_penv ErrEOF); PBackground dial_penv; PBackground dial_penv; PBackground dial_penv; PBackground dial_penv] ++
     [PAcquire; PCaller 0 dial_penv; PBackground dial_penv; PBackground dial_penv; PCaller 0 dial_penv; PCaller 0 dial_penv])) = 2.
Proof. split; [reflexivity|]. vm_compute. reflexivity. Qed.
