(* ===== verification/PoolWait.v ===== *)
(** Waiting for a pooled connection: what becomes of a connection handed to a caller that has just
    given up. *)

From Corelib Require Import ssreflect.
From stdpp Require Import base tactics list numbers strings.
From Stdlib Require Import ZArith Lia.
From S2P Require Import Prelude Base Messages Codec Crypto Chkem Ticket Session Handshake Admission Endpoint Transport Listener Pool PoolInv PoolBound.

Local Open Scope Z_scope.
Local Open Scope go_scope.

(** The channel caller [g] waits on. *)
Definition waits (st : acquireStage) : option nat := match st with AcWait _ ch _ => Some ch | _ => None end.
Definition waiting (p : Pool) (g : nat) : option nat := c ← p_callers p !! g; waits (ac_stage c).

(** A step in which nobody starts to wait, and a channel without waiter keeps what it holds. *)
Record calm (p p' : Pool) : Prop := {
  cm_len : (length (p_chans p) <= length (p_chans p'))%nat;
  cm_waiting : forall g ch, waiting p' g = Some ch -> waiting p g = Some ch;
  cm_waiters : forall ch, ch ∈ p_waiters p' -> ch ∈ p_waiters p \/ (length (p_chans p) <= ch)%nat;
  cm_chan : forall ch c, p_chans p !! ch = Some c -> (ch ∈ p_waiters p -> False) -> (forall g, waiting p g = Some ch -> False) ->
    exists c', p_chans p' !! ch = Some c' /\ ch_buf c' = ch_buf c }.

(** Each waiting caller has a channel of its own. *)
Record one_waiter (p : Pool) : Prop := {
  ow_known : forall g ch, waiting p g = Some ch -> (ch < length (p_chans p))%nat;
  ow_one : forall g g' ch, waiting p g = Some ch -> waiting p g' = Some ch -> g = g' }.

(** A channel nobody will read, and what it holds. *)
Definition abandoned (p : Pool) (ch : nat) (v : option (option nat)) : Prop :=
  (exists c, p_chans p !! ch = Some c /\ ch_buf c = v) /\ (ch ∈ p_waiters p -> False) /\
  (forall g, waiting p g = Some ch -> False).

Section Waiting.
Context {P : Primitives} {K : KEMPrimitives} (fips : bool).

#[local] Instance calm_preorder : PreOrder calm.
Proof.
  split.
  - intros p. split; [done|done|by left|]. intros ch c Hc _ _. by exists c.
  - intros x y z [A1 A2 A3 A4] [B1 B2 B3 B4]. split; [lia|auto| |].
    + intros ch [H%A3|H]%B3; [done|right; lia].
    + intros ch c Hc Hw Hg. destruct (A4 ch c Hc Hw Hg) as (c1 & Hc1 & E1). apply lookup_lt_Some in Hc.
      destruct (B4 ch c1 Hc1) as (c2 & Hc2 & E2); [intros [?|?]%A3; [done|lia]|intros g H; by eapply Hg, A2|].
      exists c2. by rw E2.
Qed.

Lemma calm_rest p p' : p_chans p' = p_chans p -> p_callers p' = p_callers p -> (forall ch, ch ∈ p_waiters p' -> ch ∈ p_waiters p) ->
  calm p p'.
Proof.
  intros E1 E2 H. split; [by rw E1|unfold waiting; by rw E2|by left; auto|].
  intros ch c Hc _ _. exists c. by rw E1.
Qed.

Lemma calm_same p p' : p_chans p' = p_chans p -> p_callers p' = p_callers p -> p_waiters p' = p_waiters p -> calm p p'.
Proof. intros E1 E2 E3. apply calm_rest; [done|done|by rw E3]. Qed.

Lemma calm_caller g f p : (forall c, waits (ac_stage (f c)) = None) -> calm p (p <| p_callers := alter f g (p_callers p) |>).
Proof.
  intros Hf. split; [done| |by left|by intros ch c Hc _ _; exists c].
  intros g' ch. unfold waiting. cbn. rw list_lookup_alter. case_decide as He; [subst g'|done].
  destruct (p_callers p !! g) as [c|]; [|done]. cbn. by rw Hf.
Qed.

Lemma calm_finish g r p : calm p (finish g r p).
Proof. apply calm_caller. intros c. cbn. by destruct (ac_saved c). Qed.

Lemma calm_set_caller g st p : waits st = None -> calm p (set_caller g st p).
Proof. intros Hs. by apply calm_caller. Qed.

Lemma calm_finishAcquire g k st now b p : calm p (finishAcquire g k st now b p).
Proof.
  unfold finishAcquire. set p1 := _ <| p_handles := _ |>. transitivity p1; [by apply calm_same|apply calm_finish].
Qed.

(** Sending to the first waiter. *)
Lemma calm_send ch ws v p : p_waiters p = ch :: ws -> calm p (chan_send ch v (p <| p_waiters := ws |>)).
Proof.
  intros Hw. split; [cbn; by rw length_alter|done|cbn; left; rw Hw; by right|].
  intros ch' c Hc Hn _. exists c. cbn. rw list_lookup_alter_ne; [|done]. intros ->. apply Hn. rw Hw. by left.
Qed.

Lemma calm_wake p : calm p (wakeWaiterLocked p).
Proof. unfold wakeWaiterLocked. destruct (p_waiters p) as [|ch ws] eqn:Hw; [reflexivity|]. by apply calm_send. Qed.

Lemma calm_release k p : calm p (release k p).
Proof.
  unfold release. destruct (p_closed p); [by apply calm_same|]. set p1 := set_inUse false k p.
  transitivity p1; [by apply calm_same|]. destruct (default false _).
  - etrans; [|apply calm_wake]. by apply calm_same.
  - destruct (p_waiters p1) as [|ch ws] eqn:Hw; [by apply calm_same|].
    transitivity (set_inUse true k p1); [by apply calm_same|]. by apply (calm_send ch ws (Some k) (set_inUse true k p1)).
Qed.

Lemma calm_give_back h f p : calm p (give_back h f p).
Proof.
  unfold give_back. destruct (p_handles p !! h) as [c|]; [|reflexivity]. destruct (hd_released c); [reflexivity|].
  etrans; [|apply calm_release]. by apply calm_same.
Qed.

Lemma calm_wait_step g st ch dl z p : waiting p g = Some ch -> calm p (wait_step g st ch dl z p).
Proof.
  intros Hg. unfold wait_step.
  assert (HT : forall e, calm p (handleWaitTimeout g ch e p)).
  { intros e. unfold handleWaitTimeout. etrans; [|apply calm_finish]. apply calm_rest; [done|done|].
    intros c. cbn. apply remove_first_sub. }
  destruct (pe_choice z) as [| |e]; [|destruct (_ <=? _); [apply HT|reflexivity]|apply HT].
  destruct (p_chans p !! ch) as [w|] eqn:Hch; [|reflexivity]. destruct (ch_buf w) as [v|].
  - set p1 := p <| p_chans := _ |>. transitivity p1.
    { split; [cbn; by rw length_alter|done|by left|]. intros ch' c Hc _ Hn. exists c. cbn.
      rw list_lookup_alter_ne; [|done]. intros ->. by eapply Hn. }
    unfold handleWaitResult. set p2 := on_stats _ p1. transitivity p2; [by apply calm_same|]. destruct v as [k|].
    + destruct (negb _).
      * etrans; [|by apply calm_set_caller]. by apply calm_same.
      * etrans; [|apply calm_finishAcquire]. by apply calm_same.
    + by apply calm_set_caller.
  - destruct (ch_closed w); [|reflexivity]. etrans; [|apply calm_finish]. by apply calm_same.
Qed.

Lemma dialConn_calm z p : calm p (dialConn fips z p).1.
Proof. unfold dialConn. destruct (createConn _ _ _ _ _).2; by apply calm_same. Qed.

Lemma createAndAcquire_calm g st now r p : calm p (createAndAcquire g st now r p).
Proof.
  unfold createAndAcquire. set p0 := p <| p_pending := _ |>. destruct r as [k|e|]; [|
    |reflexivity]; (transitivity p0; [by apply calm_same|]).
  - destruct (p_closed p0).
    + etrans; [|apply calm_finish]. by apply calm_same.
    + etrans; [|apply calm_finishAcquire]. by apply calm_same.
  - etrans; [apply calm_wake|]. apply calm_finish.
Qed.

Lemma calm_foldl (f : Pool -> nat -> Pool) ks : (forall p k, calm p (f p k)) -> forall p, calm p (foldl f p ks).
Proof. intros Hf. induction ks as [|k ks IH]; intros p; [reflexivity|]. cbn [foldl]. etrans; [apply Hf|apply IH]. Qed.

Lemma runBackground_calm z p : calm p (runBackground fips z p).
Proof.
  unfold runBackground. pose proof (dialConn_calm z p) as HD.
  destruct (p_bg p) as [|[|n]|n k| |ks| |[|n]|n k|]; try reflexivity; try by apply calm_same.
  - destruct (dialConn fips z p) as [p1 [k|e|]]; cbn in HD; (etrans; [exact HD|by apply calm_same]).
  - unfold runHealthCheck. destruct (p_closed p); [by apply calm_same|]. set p1 := foldl _ p (p_idle p).
    transitivity p1; [apply calm_foldl; intros; by apply calm_same|]. set p2 := p1 <| p_idle := _ |>.
    transitivity p2; [by apply calm_same|]. set p3 := foldl _ p2 _.
    transitivity p3; [apply calm_foldl; intros; by apply calm_same|]. by apply calm_same.
  - set p1 := foldl _ p ks. transitivity p1; [apply calm_foldl; intros; by apply calm_same|]. by apply calm_same.
  - destruct (dialConn fips z p) as [p1 [k|e|]]; cbn in HD; (etrans; [exact HD|by apply calm_same]).
  - destruct (p_closed p); by apply calm_same.
Qed.

Lemma Pool_Close_calm p : calm p (Pool_Close p).
Proof.
  unfold Pool_Close. destruct (p_closed p); [reflexivity|].
  assert (HC : forall ws cs, length (foldl (fun cs ch => alter (fun c => mkWaitChan (ch_buf c) true) ch cs) cs ws) = length cs /\
    forall ch c, cs !! ch = Some c -> exists c', foldl (fun cs ch => alter (fun c => mkWaitChan (ch_buf c) true) ch cs) cs ws !! ch = Some c' /\ ch_buf c' = ch_buf c).
  { induction ws as [|w ws IH]; intros cs; cbn [foldl]; [split; [done|]; intros ch c Hc; by exists c|].
    destruct (IH (alter (fun c => mkWaitChan (ch_buf c) true) w cs)) as [IH1 IH2]. split; [by rw IH1 length_alter|].
    intros ch c Hc. destruct (decide (w = ch)) as [->|Hne].
    - destruct (IH2 ch (mkWaitChan (ch_buf c) true)) as (c' & ? & ?); [by rw list_lookup_alter_eq Hc|by exists c'].
    - destruct (IH2 ch c) as (c' & ? & ?); [by rw list_lookup_alter_ne|by exists c']. }
  destruct (HC (p_waiters p) (p_chans p)) as [HL HB].
  split; [cbn; by rw HL|done|cbn; by intros ch ?%elem_of_nil|]. intros ch c Hc _ _. cbn. by apply HB.
Qed.

(** ** Every step *)

(** Either nobody starts to wait, or one caller does, on a new channel. *)
Definition starts_wait (p p' : Pool) (g : nat) : Prop :=
  let ch := length (p_chans p) in
  length (p_chans p') = S ch /\ waiting p' g = Some ch /\
  (forall g' c, waiting p' g' = Some c -> waiting p g' = Some c \/ (g' = g /\ c = ch)) /\
  (forall c, c ∈ p_waiters p' -> c ∈ p_waiters p \/ c = ch) /\
  (forall i c, p_chans p !! i = Some c -> p_chans p' !! i = Some c).

Lemma Acquire_waits g c z p : p_callers p !! g = Some c -> calm p (Acquire g z p) \/ starts_wait p (Acquire g z p) g.
Proof.
  intros Hg. unfold Acquire, tryGetIdleLocked. destruct (p_closed p); [left; apply calm_finish|].
  pose proof (tryGetIdle_rest (length (p_idle p)) (pe_now z) p) as (E1 & _ & _ & _ & _ & E6 & E7 & _).
  destruct (tryGetIdle_loop _ _ p) as [p1 [k|]]; cbn in E1, E6, E7.
  { left. etrans; [|apply calm_finishAcquire]. by apply calm_same. }
  destruct (_ || _); [left; etrans; [|by apply calm_set_caller]; by apply calm_same|].
  unfold waitForConnection. destruct (_ =? 0); [left; etrans; [|apply calm_finish]; by apply calm_same|].
  right. unfold starts_wait. cbn. rw E1 E6 E7. split_and!.
  - rw length_app. cbn. lia.
  - unfold waiting. cbn. by rw list_lookup_alter_eq Hg.
  - intros g' ch. unfold waiting. cbn. rw list_lookup_alter. case_decide as He; [subst g'; rw Hg|by left].
    cbn. intros [= <-]. by right.
  - intros ch [H|H%list_elem_of_singleton]%elem_of_app; [by left|by right].
  - intros i x Hx. by apply lookup_app_l_Some.
Qed.

Lemma pl_step_waits ev p : calm p (pl_step fips p ev) \/ exists g, starts_wait p (pl_step fips p ev) g.
Proof.
  unfold pl_step. destruct (p_crashed p); [by left|].
  assert (HN : forall st, waits st = None -> calm p (p <| p_callers := p_callers p ++ [mkCaller None st] |>)).
  { intros st Hst. split; [done| |by left|intros ch c Hc _ _; by exists c]. intros g ch. unfold waiting. cbn.
    destruct (decide (g < length (p_callers p))%nat); [by rw lookup_app_l|]. rw lookup_app_r; [lia|].
    destruct (g - length (p_callers p))%nat as [|[|m]]; cbn; by rw ?Hst. }
  assert (HT : forall {A} h (m : Tr A), calm p (on_tunnel h m p).1).
  { intros A h m. unfold on_tunnel. destruct (p_handles p !! h) as [c|]; [|reflexivity]. destruct (hd_released c); [reflexivity|].
    destruct (p_pcs p !! hd_pc c) as [pc|]; [|reflexivity]. destruct (m (pc_tunnel pc)). by apply calm_same. }
  destruct ev; try (left; by apply HN); try (left; apply HT); try (left; apply calm_give_back).
  - unfold runCaller. destruct (p_callers p !! g) as [c|] eqn:Hg; [|by left].
    destruct (ac_stage c) as [| |st|st r|st ch dl|r|r] eqn:Hst; try (by left).
    + left. unfold TryAcquire_begin. set p1 := p <| p_config := _ |>. transitivity p1; [by apply calm_same|].
      by apply (calm_caller g (fun _ => mkCaller (Some (WaitTimeout (p_config p))) AcStart) p1).
    + destruct (Acquire_waits g c z p Hg) as [H|H]; [by left|right; by exists g].
    + left. pose proof (dialConn_calm z p) as HD. destruct (dialConn fips z p) as [p1 r]. etrans; [exact HD|]. by apply calm_set_caller.
    + left. apply createAndAcquire_calm.
    + left. apply calm_wait_step. unfold waiting. rw Hg. cbn. by rw Hst.
    + left. unfold TryAcquire_end. etrans; [|by apply calm_set_caller]. by apply calm_same.
  - left. destruct (p_bg p); try reflexivity. unfold Start. destruct (p_closed p); by apply calm_same.
  - left. apply runBackground_calm.
  - left. apply Pool_Close_calm.
  - left. destruct (p_async p !! i); by apply calm_same.
Qed.

Lemma step_one_waiter ev p : one_waiter p -> one_waiter (pl_step fips p ev).
Proof.
  intros [O1 O2]. destruct (pl_step_waits ev p) as [[C1 C2 C3 C4]|(g & S1 & S2 & S3 & S4 & S5)]; split.
  - intros g ch H%C2%O1. lia.
  - intros g g' ch H%C2 H'%C2. by eapply O2.
  - intros g' ch [H%O1|[-> ->]]%S3; lia.
  - intros g1 g2 ch [H1|[-> ->]]%S3 [H2|[-> E]]%S3; [by eapply O2| | |done].
    + apply O1 in H1. subst ch. lia.
    + apply O1 in H2. lia.
Qed.

Lemma step_abandoned ev p ch v : abandoned p ch v -> abandoned (pl_step fips p ev) ch v.
Proof.
  intros ((c & Hc & Hv) & Hw & Hg). pose proof (lookup_lt_Some _ _ _ Hc) as Hlt.
  destruct (pl_step_waits ev p) as [[C1 C2 C3 C4]|(g & S1 & S2 & S3 & S4 & S5)]; split_and!.
  - destruct (C4 ch c Hc Hw Hg) as (c' & Hc' & E). exists c'. by rw E.
  - intros [?|?]%C3; [done|lia].
  - intros g H%C2. by eapply Hg.
  - exists c. split; [by apply S5|done].
  - intros [?|?]%S4; [done|lia].
  - intros g' [H|[-> ?]]%S3; [by eapply Hg|lia].
Qed.

Lemma run_abandoned evs : forall p ch v, abandoned p ch v -> abandoned (pl_run fips p evs) ch v.
Proof. induction evs as [|ev evs IH]; intros p ch v H; [done|]. by apply IH, step_abandoned. Qed.

Lemma run_one_waiter evs : forall p, one_waiter p -> one_waiter (pl_run fips p evs).
Proof. induction evs as [|ev evs IH]; intros p H; [done|]. by apply IH, step_one_waiter. Qed.

(** ** The race *)

(** Giving the connection back hands it to the first waiter. *)
Lemma release_hands h c k pc now ch ws p : good None p -> p_crashed p = false -> p_closed p = false ->
  p_handles p !! h = Some c -> hd_released c = false -> hd_pc c = k -> p_pcs p !! k = Some pc -> pc_unhealthy pc = false ->
  p_waiters p = ch :: ws ->
  let p1 := pl_step fips p (PRelease h now) in
  p_chans p1 !! ch = Some (mkWaitChan (Some (Some k)) false) /\ p_waiters p1 = ws /\ p_callers p1 = p_callers p /\
  p_crashed p1 = false.
Proof.
  intros Hgd Hcr Hcl Hh Hr Hk Hpc Hu Hw p1. unfold p1, pl_step. rw Hcr. unfold PoolConn_Release, give_back. rw Hh Hr Hk.
  unfold release. cbn. rw Hcl. cbn. rw !list_lookup_alter_eq Hpc. cbn. rw Hu Hw. cbn.
  destruct Hgd as [_ Hp]. rw list_lookup_alter_eq (pi_waiters p Hp ch); [rw Hw; by left|]. done.
Qed.

(** The waiter gives up: its channel, and what is in it, are left behind. *)
Lemma giving_up_abandons g c st ch dl z e v p : one_waiter p -> p_crashed p = false ->
  p_callers p !! g = Some c -> ac_stage c = AcWait st ch dl -> pe_choice z = WContext e ->
  (exists w, p_chans p !! ch = Some w /\ ch_buf w = v) -> (ch ∈ p_waiters p -> False) ->
  abandoned (pl_step fips p (PCaller g z)) ch v.
Proof.
  intros [_ O2] Hcr Hg Hst He Hch Hw. assert (Hwg : waiting p g = Some ch) by (unfold waiting; rw Hg; cbn; by rw Hst).
  unfold pl_step. rw Hcr. unfold runCaller. rw Hg Hst. unfold wait_step. rw He. unfold abandoned, handleWaitTimeout, finish. cbn.
  split_and!; [done| |].
  - intros H. by eapply Hw, remove_first_sub.
  - intros g'. unfold waiting. cbn. rw list_lookup_alter. case_decide as E; [subst g'; rw Hg; cbn; by destruct (ac_saved c)|].
    intros H. apply E. by eapply O2.
Qed.
End Waiting.

Lemma NewPool_one_waiter config now p : NewPool config now = Ok p -> one_waiter p.
Proof. unfold NewPool. intros H. okinv H. injection H as <-. by split. Qed.

(** A connection that is given back is lost for good if the waiter it is handed to gives up at
    the same time.  [release] puts the connection in the waiter's channel; when the waiter's
    context ends (or its timer fires) the select may take that case although the channel is ready,
    and nobody looks into the channel again.  From then on, whatever happens, and until the pool is
    closed, the connection counts against the limit, is not idle, and no handle in use leads to it. *)
Theorem handoff_lost {P : Primitives} {K : KEMPrimitives} fips config t0 p0 evs0 h c pc now ch ws g sv st dl z e :
  NewPool config t0 = Ok p0 ->
  let p := pl_run fips p0 evs0 in
  p_crashed p = false -> p_closed p = false ->
  p_handles p !! h = Some c -> hd_released c = false -> p_pcs p !! hd_pc c = Some pc -> pc_unhealthy pc = false ->
  p_waiters p = ch :: ws -> p_callers p !! g = Some (mkCaller sv (AcWait st ch dl)) -> pe_choice z = WContext e ->
  forall evs, let q := pl_run fips p (PRelease h now :: PCaller g z :: evs) in
  p_closed q = true \/
  (hd_pc c ∈ p_conns q /\ (hd_pc c ∈ p_idle q -> False) /\
   forall h' c', p_handles q !! h' = Some c' -> hd_pc c' = hd_pc c -> hd_released c' = true).
Proof.
  intros H0 p Hcr Hcl Hh Hr Hpc Hu Hw Hg He evs q.
  assert (Hgd : good None p) by (eapply fine_good; [apply pl_run_fine|]; by eapply NewPool_good).
  assert (Ho : one_waiter p) by (eapply run_one_waiter, NewPool_one_waiter, H0).
  destruct (release_hands fips h c (hd_pc c) pc now ch ws p Hgd Hcr Hcl Hh Hr eq_refl Hpc Hu Hw) as (A1 & A2 & A3 & A4).
  assert (Hq : abandoned q ch (Some (Some (hd_pc c)))).
  { change q with (pl_run fips (pl_step fips (pl_step fips p (PRelease h now)) (PCaller g z)) evs). apply run_abandoned.
    eapply (giving_up_abandons fips g); [by apply step_one_waiter|done|by rw A3|done|done|by eexists|].
    rw A2. pose proof (pi_queue p (proj2 Hgd)) as Hq. rw Hw in Hq. by apply NoDup_cons in Hq as [? _]. }
  assert (Hgq : good None q) by (eapply fine_good; [by apply pl_run_fine|done]).
  destruct Hq as ((w & Hch & Hb) & _). destruct Hgq as [[O1 _] Hp]. pose proof (in_chan_attached ch w (hd_pc c) q Hch Hb) as Hpos.
  destruct (pi_conns q Hp _ Hpos) as [?|Hin]; [by left|right]. split; [done|].
  specialize (O1 (hd_pc c)). rw owners_None in O1. pose proof (attached_tokens q (hd_pc c)) as Hle. unfold attached in Hle.
  assert (0 < len (filter (in_chan (hd_pc c)) (p_chans q))) as H1.
  { apply len_filter_pos. exists w. split; [by eapply list_elem_of_lookup_2|done]. }
  pose proof (len_filter_nonneg (fun y => y = hd_pc c) (p_idle q)) as H2. pose proof (len_filter_nonneg (in_handle (hd_pc c)) (p_handles q)) as H3.
  split.
  - intros Hi. assert (0 < len (filter (fun y => y = hd_pc c) (p_idle q))) by (apply len_filter_pos; by exists (hd_pc c)). lia.
  - intros h' c' Hh' E. destruct (hd_released c') eqn:Hr'; [done|exfalso].
    assert (0 < len (filter (in_handle (hd_pc c)) (p_handles q))); [|lia]. apply len_filter_pos. exists c'.
    split; [by eapply list_elem_of_lookup_2|done].
Qed.

(** A pool of one connection, in use, and a second caller that waits for it. *)
Definition example_contended : list PoolEvent :=
  [PAcquire; PCaller 0 dial_penv; PCaller 0 dial_penv; PCaller 0 dial_penv; PAcquire; PCaller 1 dial_penv].

Lemma handoff_lost_witness :
  let q := @pl_run toy toyKEM false (@pl_run toy toyKEM false example_one example_contended)
    [PRelease 0 0; PCaller 1 (mkPEnv 0 dial_lenv (Err ErrEOF) None (WContext ErrTimeout))] in
  p_closed q = true \/
  (0%nat ∈ p_conns q /\ (0%nat ∈ p_idle q -> False) /\
   forall h' c', p_handles q !! h' = Some c' -> hd_pc c' = 0%nat -> hd_released c' = true).
Proof.
  destruct (p_pcs (@pl_run toy toyKEM false example_one example_contended) !! 0%nat) as [pc|] eqn:Hpc.
  - refine (@handoff_lost toy toyKEM false (DefaultPoolConfig <| MaxConns := 1 |>) 0 example_one example_contended
      0%nat (mkPoolConn 0 false) pc 0 0%nat [] 1%nat None 0 (30 * Second)
      (mkPEnv 0 dial_lenv (Err ErrEOF) None (WContext ErrTimeout)) ErrTimeout _ _ _ _ _ Hpc _ _ _ _ []).
    + reflexivity.
    + vm_compute. reflexivity.
    + vm_compute. reflexivity.
    + vm_compute. reflexivity.
    + reflexivity.
    + enough (pc_unhealthy <$> (p_pcs (@pl_run toy toyKEM false example_one example_contended) !! 0%nat) = Some false) as E.
      { rw Hpc in E. by injection E. }
      vm_compute. reflexivity.
    + vm_compute. reflexivity.
    + vm_compute. reflexivity.
    + reflexivity.
  - exfalso. enough (is_Some (p_pcs (@pl_run toy toyKEM false example_one example_contended) !! 0%nat)) as [x E].
    { rw Hpc in E. discriminate E. }
    apply lookup_lt_is_Some. vm_compute. lia.
Defined.
