(* ===== verification/Conn.v ===== *)
(** The application's side of a datagram endpoint: [Send], [SendBatch], [Recv], [Close] and
    [Accept] of [pkg/tunnel/dgram_conn.go], and the initiator's rekey loop [Rekey] of
    [pkg/tunnel/dgram_rekey.go].

    [writeGSO] is the platform's: a function that says whether the kernel took a segmented send,
    in which case the datagrams on the wire are the consecutive segments of the buffer. *)

From Corelib Require Import ssreflect.
From stdpp Require Import base tactics list numbers strings gmap.
From Stdlib Require Import ZArith Lia.
From S2P Require Import Prelude Base Messages Codec DatagramCodec Replay Reassembly Fragment Crypto Chkem.
From S2P Require Import Ticket Session DgramSession Handshake DgramFSM Sha256 Admission Registry Endpoint.

Local Open Scope Z_scope.
Local Open Scope go_scope.

Definition errEndpointClosed : error := ErrExternal "tunnel: datagram endpoint closed".
Definition errRekeyTimeout : error := ErrExternal "tunnel: datagram rekey timed out".

(** * Sealing *)

Section Seal.
Context {P : Primitives}.

(** One DATA frame appended to [buf]: the header is both the frame's prefix and its AAD.  The
    frame's sequence number is returned with the grown buffer. *)
Definition seal_frame (coarse peerIndex : Z) (buf p : list Z) : ST Session error (list Z * Z) :=
  do! seq := nextDatagramSeq in
  do! s := st_get in
  do! epoch := st_lift (datagramSendEpoch s) in
  do! header := st_lift (AppendDatagramDataHeader buf (mkDatagramHeader 0 epoch peerIndex seq)) in
  do! aad := st_lift (slice_from header (len buf)) in
  do! frame := DatagramSealTo coarse header aad seq p in
  st_ret (frame, seq).

(** The frames of a batch back to back, the offset at which each ends, and the last sequence
    number. *)
Fixpoint seal_batch (coarse peerIndex : Z) (payloads : list (list Z)) (buf : list Z) (ends : list Z)
    (lastSeq : Z) : ST Session error (list Z * list Z * Z) :=
  match payloads with
  | [] => st_ret (buf, ends, lastSeq)
  | p :: payloads =>
      do! '(buf, seq) := seal_frame coarse peerIndex buf p in
      seal_batch coarse peerIndex payloads buf (ends ++ [len buf]) seq
  end.

(** [s.BytesSent.Add] and [s.PacketsSent.Add]. *)
Definition count_sent (bytes packets : Z) : ST Session error unit :=
  st_mod (fun s => s <| s_BytesSent := i64 (s_BytesSent s + bytes) |>
                     <| s_PacketsSent := i64 (s_PacketsSent s + packets) |>).
End Seal.

(** * Segmented sends *)

Definition maxGSOSegments : Z := 64.
Definition maxGSOBytes : Z := 65507.

(** The scan for a run of frames of one size, the last perhaps shorter: [prev] is where the
    frame before ends, [rest] the ends still to look at. *)
Fixpoint gso_run (segSize start prev runEnd n : Z) (rest : list Z) : Z * Z :=
  match rest with
  | [] => (runEnd, n)
  | e :: rest =>
      if n <? maxGSOSegments then
        let size := e - prev in
        if (segSize <? size) || (maxGSOBytes <? runEnd + size - start) then (runEnd, n)
        else if size <? segSize then (e, n + 1)
        else gso_run segSize start e e (n + 1) rest
      else (runEnd, n)
  end.

(** What the kernel sends for one segmented write. *)
Fixpoint segments (fuel : nat) (segSize : Z) (b : list Z) : list (list Z) :=
  match fuel, b with
  | O, _ | _, [] => []
  | S fuel, _ => take (Z.to_nat segSize) b :: segments fuel segSize (drop (Z.to_nat segSize) b)
  end.

Section Batch.
(** [writeGSO(buf, segSize, dst)]. *)
Variable writeGSO : list Z -> Z -> bool.

(** [for i := 0; i < len(ends); ]: [ends] is what is left of the slice from [i] on, [fuel] bounds
    the rounds by the number of frames. *)
Fixpoint send_runs (fuel : nat) (buf : list Z) (start : Z) (ends : list Z)
    : outcome error (list (list Z)) :=
  match ends, fuel with
  | [], _ => Ok []
  | _, O => Panic
  | e :: rest, S fuel =>
      let segSize := e - start in
      let '(runEnd, n) := gso_run segSize start e e 1 rest in
      let! run := slice buf start runEnd in
      if (1 <? n) && writeGSO run segSize then
        let! out := send_runs fuel buf runEnd (drop (Z.to_nat n) ends) in
        Ok (segments (Z.to_nat n) segSize run ++ out)
      else
        let! frame := slice buf start e in
        let! out := send_runs fuel buf e rest in
        Ok (frame :: out)
  end.
End Batch.

(** * The connection *)

Section Conn.
Context {P : Primitives} {K : KEMPrimitives} (fips : bool).

(** Runs on the established session of [s]; the code dereferences it. *)
Definition with_sess {A} (s : ref) (m : ST Session error A) : EP A :=
  do! e := st_get in
  match ep_store e !! s with
  | Some ds => match x_sess ds with
               | Some sess => on_sess s sess m
               | None => st_lift Panic
               end
  | None => st_lift Panic
  end.

Definition get_ds (s : ref) : EP dgSession :=
  do! e := st_get in
  st_lift (match ep_store e !! s with Some ds => Ok ds | None => Panic end).

(** The rekey that a send may start in the background. *)
Definition rekey_wanted (z : EEnv) (s : ref) (seq : Z) : EP bool :=
  do! ds := get_ds s in
  with_sess s (fun sess =>
    if bool_decide (s_Role sess = RoleInitiator) && negb (x_rekeyActive ds)
    then st_lift (datagramRekeyDue (z_now z) seq sess) sess
    else st_ret false sess).

(** [Send]: whether it started a rekey. *)
Definition Send (z : EEnv) (s : ref) (p : list Z) : EP bool :=
  check! negb (DatagramMaxDataPayload <? len p) else ErrMessageTooLarge in
  do! ds := get_ds s in
  do! '(frame, seq) := with_sess s (seal_frame (z_coarse z) (x_peerIndex ds) [] p) in
  do! _ := writePeer [frame] s in
  do! _ := with_sess s (count_sent (len p) 1) in
  rekey_wanted z s seq.

Definition SendBatch (writeGSO : list Z -> Z -> bool) (z : EEnv) (s : ref) (payloads : list (list Z)) : EP bool :=
  if len payloads =? 0 then st_ret false
  else
    check! forallb (fun p => negb (DatagramMaxDataPayload <? len p)) payloads else ErrMessageTooLarge in
    do! ds := get_ds s in
    do! '(buf, ends, lastSeq) := with_sess s (seal_batch (z_coarse z) (x_peerIndex ds) payloads [] [] 0) in
    do! out := st_lift (send_runs writeGSO (length ends) buf 0 ends) in
    do! _ := writePeer out s in
    do! _ := with_sess s (count_sent (foldl Z.add 0 (map len payloads)) (len payloads)) in
    rekey_wanted z s lastSeq.

(** [Recv]: a payload, or the error of a closed session or endpoint; [None] is a call that would
    still block.  [select] may take either of two ready cases: [data] is its choice. *)
Definition Recv (data : bool) (done : bool) (s : ref) : EP (option (list Z)) :=
  do! ds := get_ds s in
  match x_recvCh ds with
  | b :: rest =>
      if data || negb (x_closed ds || done)
      then do! _ := mod_ds s (fun ds => ds <| x_recvCh := rest |>) in st_ret (Some b)
      else st_err (if x_closed ds then ErrTunnelClosed else errEndpointClosed)
  | [] =>
      if x_closed ds then st_err ErrTunnelClosed
      else if done then st_err errEndpointClosed
      else st_ret None
  end.

(** [Close]: one sealed CLOSE, then the session is torn down. *)
Definition CloseConn (z : EEnv) (s : ref) : EP unit :=
  do! ds := get_ds s in
  do! _ := match x_sess ds with
           | None => st_ret tt
           | Some _ =>
               do! seq := with_sess s nextDatagramSeq in
               do! epoch := with_sess s (fun sess => (sess, datagramSendEpoch sess)) in
               do! header := st_lift (EncodeDatagramHeader
                 (mkDatagramHeader DatagramFrameClose epoch (x_peerIndex ds) seq)) in
               do! tag := (fun e => match with_sess s (DatagramSeal (z_coarse z) header seq []) e with
                                    | (e, Ok tag) => (e, Ok (Some tag))
                                    | (e, Err _) => (e, Ok None)
                                    | (e, Panic) => (e, Panic)
                                    end) in
               do! _ := match tag with Some tag => writePeer [header ++ tag] s | None => st_ret tt end in
               with_sess s Close
           end in
  teardown s.

(** [Accept], when a session is waiting. *)
Definition Accept : EP (option ref) :=
  do! e := st_get in
  match ep_acceptCh e with
  | s :: rest => do! _ := st_mod (fun e => e <| ep_acceptCh := rest |>) in st_ret (Some s)
  | [] => st_ret None
  end.

(** ** The rekey loop *)

Record rekeyLoop := mkRekey {
  k_kp : KeyPair;
  k_epoch : Z;
  k_frames : list (list Z);
  k_rto : Z;
  k_attempts : Z }.

Definition retryCeiling (c : Config) : Z :=
  if 0 <? c_maxRetries c then c_maxRetries c else DatagramHandshakeMaxRetries.

(** [Rekey] up to its loop. *)
Definition Rekey (z : EEnv) (s : ref) : EP rekeyLoop :=
  do! e := st_get in
  do! ds := get_ds s in
  do! sess := with_sess s st_get in
  check! bool_decide (s_Role sess = RoleInitiator) else ErrInvalidState in
  check! negb (x_rekeyActive ds) else ErrRekeyInProgress in
  do! kp := st_lift (s_GenerateKeyPair (s_kemSuite sess) (z_rekeyrnd z)) in
  do! '(body, epoch) := with_sess s (buildDatagramRekeyInit kp) in
  do! frames := st_lift (fragmentRekey (mkDgramSession (x_index ds) (x_peerIndex ds) sess (x_rekeyRespValid ds)
    (x_rekeyRespFrom ds) (x_rekeyRespFrames ds)) epoch MessageTypeDatagramRekeyInit body
    (c_padHandshake (ep_config e))) in
  do! _ := mod_ds s (fun ds => ds <| x_rekeyActive := true |>
                                  <| x_rekeyInbox := option_map tail (x_rekeyInbox ds) |>) in
  st_ret (mkRekey kp epoch frames (c_rtoInitial (ep_config e)) 0).

(** The loop's timer: the frames again, or the end. *)
Definition rekey_timer (s : ref) (k : rekeyLoop) : EP rekeyLoop :=
  do! e := st_get in
  check! negb (retryCeiling (ep_config e) <? k_attempts k) else errRekeyTimeout in
  do! _ := writePeer (k_frames k) s in
  let rto := i64 (k_rto k * 2) in
  st_ret (mkRekey (k_kp k) (k_epoch k) (k_frames k)
    (if c_rtoMax (ep_config e) <? rto then c_rtoMax (ep_config e) else rto) (k_attempts k + 1)).

(** A response: [true] completes the rekey; one that does not authenticate is ignored. *)
Definition rekey_response (z : EEnv) (s : ref) (k : rekeyLoop) : EP bool :=
  do! ds := get_ds s in
  match x_rekeyInbox ds with
  | Some (resp :: rest) =>
      do! _ := mod_ds s (fun ds => ds <| x_rekeyInbox := Some rest |>) in
      fun e => match with_sess s (completeDatagramRekey fips (z_now z) (k_epoch k) resp (k_kp k)) e with
               | (e, Ok _) => (e, Ok true)
               | (e, Err _) => (e, Ok false)
               | (e, Panic) => (e, Panic)
               end
  | _ => st_ret false
  end.

(** [defer c.ds.endRekey()] *)
Definition endRekey (s : ref) : EP unit := mod_ds s (fun ds => ds <| x_rekeyActive := false |>).

End Conn.

(** * A batch is its frames, one by one *)

Section BatchProofs.

(** Where frames laid out from [start] end. *)
Fixpoint ends_of (start : Z) (fs : list (list Z)) : list Z :=
  match fs with
  | [] => []
  | f :: fs => start + len f :: ends_of (start + len f) fs
  end.

(** Frames of one size, the last perhaps shorter. *)
Fixpoint uniform (seg : Z) (fs : list (list Z)) : Prop :=
  match fs with
  | [] => True
  | [f] => len f <= seg
  | f :: fs => len f = seg /\ uniform seg fs
  end.

Definition nonempty (f : list Z) : Prop := 0 < len f.

Lemma segments_uniform seg fs : uniform seg fs -> Forall nonempty fs -> 0 < seg ->
  segments (length fs) seg (concat fs) = fs.
Proof.
  intros Hu Hn Hs. induction fs as [|f fs IH]; [done|]. inversion Hn as [|? ? Hf Hfs]; subst. clear Hn.
  destruct f as [|b f]; [done|]. cbn [length concat segments app].
  change (b :: f ++ concat fs) with ((b :: f) ++ concat fs).
  assert (Hc : fs = [] /\ len (b :: f) <= seg \/ len (b :: f) = seg /\ uniform seg fs).
  { destruct fs; [by left|by right]. }
  destruct Hc as [[-> Hle]|[Hl Hu']].
  - cbn [concat]. rw app_nil_r take_ge; [unfold len in Hle; lia|]. done.
  - assert (Hl' : length (b :: f) = Z.to_nat seg) by (unfold len in Hl; lia).
    rw take_app_length' // drop_app_length' //. by rw IH.
Qed.

(** The run found from [runEnd] on is the first [k] frames: segments of one size within the
    kernel's limits. *)
Definition run_of (seg start runEnd n : Z) (fs : list (list Z)) (r : Z * Z) (k : nat) : Prop :=
  (k <= length fs)%nat /\
  r = (runEnd + len (concat (take k fs)), n + Z.of_nat k) /\
  uniform seg (take k fs) /\
  (n <= maxGSOSegments -> n + Z.of_nat k <= maxGSOSegments) /\
  (runEnd - start <= maxGSOBytes -> runEnd + len (concat (take k fs)) - start <= maxGSOBytes).

Lemma run_stops seg start runEnd n fs : exists k, run_of seg start runEnd n fs (runEnd, n) k.
Proof.
  exists 0%nat. unfold run_of. cbn [take concat]. change (len []) with 0. rw !Z.add_0_r.
  split_and!; [lia|done|done|lia|lia].
Qed.

Lemma gso_run_spec seg start fs : forall runEnd n, Forall nonempty fs ->
  exists k, run_of seg start runEnd n fs (gso_run seg start runEnd runEnd n (ends_of runEnd fs)) k.
Proof.
  induction fs as [|f fs IH]; intros runEnd n Hn; [by apply run_stops|].
  inversion Hn as [|? ? Hf Hfs]; subst. cbn [ends_of gso_run].
  destruct (Z.ltb_spec n maxGSOSegments); [|by apply run_stops].
  replace (runEnd + len f - runEnd) with (len f) by lia.
  destruct (Z.ltb_spec seg (len f)); [by apply run_stops|]. cbn [orb].
  destruct (Z.ltb_spec maxGSOBytes (runEnd + len f - start)); [by apply run_stops|].
  destruct (Z.ltb_spec (len f) seg); unfold run_of in *.
  - exists 1%nat. split; [cbn; lia|]. cbn [take concat]. rw app_nil_r. split_and!; [done|assumption|lia|lia].
  - destruct (IH (runEnd + len f) (n + 1) Hfs) as (k & Hk & -> & Hu & Hb1 & Hb2). exists (S k).
    cbn [take concat]. rw len_app. split_and!; [cbn; lia|f_equal; lia| |lia|lia].
    destruct (take k fs); cbn [uniform]; [lia|]. split; [lia|done].
Qed.

Lemma drop_ends k fs : forall start,
  drop k (ends_of start fs) = ends_of (start + len (concat (take k fs))) (drop k fs).
Proof.
  revert fs. induction k as [|k IH]; intros fs start; cbn; [by rw Z.add_0_r|].
  destruct fs as [|f fs]; [done|]. cbn [ends_of drop take concat]. rw IH len_app. f_equal. lia.
Qed.

Lemma length_ends fs : forall start, length (ends_of start fs) = length fs.
Proof. induction fs as [|f fs IH]; intros start; cbn; [done|]. by rw IH. Qed.

(** Whatever the kernel takes as one segmented send, the datagrams are the frames, in order. *)
Lemma send_runs_frames gso fuel : forall fs pre, (length fs <= fuel)%nat -> Forall nonempty fs ->
  send_runs gso fuel (pre ++ concat fs) (len pre) (ends_of (len pre) fs) = Ok fs.
Proof.
  induction fuel as [|fuel IH]; intros fs pre Hl Hn; [by destruct fs; [|cbn in Hl; lia]|].
  destruct fs as [|f fs]; [done|]. inversion Hn as [|? ? Hf Hfs]; subst. cbn [ends_of send_runs length] in *.
  replace (len pre + len f - len pre) with (len f) by lia.
  destruct (gso_run_spec (len f) (len pre) fs (len pre + len f) 1 Hfs) as (k & Hk & -> & Hu & _ & _).
  set (run := f ++ concat (take k fs)).
  assert (Hbuf : pre ++ concat (f :: fs) = (pre ++ run) ++ concat (drop k fs)).
  { unfold run. cbn [concat]. by rw -!app_assoc -concat_app take_drop. }
  assert (Hr : len (pre ++ run) = len pre + len f + len (concat (take k fs))).
  { unfold run. rw !len_app. lia. }
  assert (Hrun : slice (pre ++ concat (f :: fs)) (len pre) (len pre + len f + len (concat (take k fs)))
    = Ok (E := error) run).
  { apply (slice_at_eq _ (len pre) run (concat (drop k fs))); [|done|rw len_app in Hr; lia].
    rw Hbuf -app_assoc. apply at_off_pre. }
  rw Hrun. cbn [obind]. destruct (_ && _).
  - rw -Hr Hbuf. replace (Z.to_nat (1 + Z.of_nat k)) with (S k) by lia.
    cbn [drop]. rw drop_ends. rw len_app. 
    replace (len pre + len f + len (concat (take k fs))) with (len (pre ++ run)) by lia.
    rw -(len_app pre run). rw IH; [rw length_drop; lia|by apply Forall_drop|]. cbn [obind]. do 2 f_equal.
    assert (Hlen : length (f :: take k fs) = S k) by (cbn; rw length_take; lia).
    rw -Hlen. change run with (concat (f :: take k fs)).
    rw segments_uniform; [|constructor; [done|by apply Forall_take]|done|by cbn; rw take_drop].
    destruct (take k fs); cbn [uniform]; [lia|done].
  - rw (slice_at_eq _ (len pre) f (concat fs)); [apply at_off_pre|done|done|]. cbn [obind].
    rw -len_app. cbn [concat]. rw app_assoc. rw IH; [lia|done|done].
Qed.

(** ** The session's side *)

Context {P : Primitives}.

(** What one sealing does to a session in epoch [cur]. *)
Definition sealed (coarse : Z) (s : Session) : Session :=
  s <| s_sendSeq := u64_add (s_sendSeq s) 1 |> <| s_lastActivityNanos := coarse |>.

Definition data_header (peerIndex : Z) (s : Session) (cur : datagramEpoch) : list Z :=
  wire_DatagramHeader (mkDatagramHeader DatagramFrameData (de_epoch cur) peerIndex (s_sendSeq s)).

Definition data_frame (peerIndex : Z) (s : Session) (cur : datagramEpoch) (c : AEAD) (p : list Z) : list Z :=
  data_header peerIndex s cur ++
  aead_seal (ae_suite c) (ae_key c) (stream_nonce (s_sendNoncePrefix s) (s_sendSeq s)) p
    (data_header peerIndex s cur).

(** The epoch has budget left for the next sequence number. *)
Definition can_seal (s : Session) (cur : datagramEpoch) (c : AEAD) : Prop :=
  send_epoch s = Ok (cur, c) /\
  (MaxPacketsBeforeRekey <=? u64_sub (s_sendSeq s) (de_startSeq cur)) = false.

Lemma send_epoch_cur s cur c : send_epoch s = Ok (cur, c) ->
  cur_epoch s = Ok (Some cur) /\ datagramSendEpoch s = Ok (de_epoch cur).
Proof.
  unfold send_epoch, datagramSendEpoch. destruct (cur_epoch s) as [[e|]| |]; cbn; try done.
  destruct (de_sendCipher e); [|done]. intros [= -> _]. done.
Qed.

Lemma seal_frame_ok coarse pi buf p s cur c : can_seal s cur c ->
  seal_frame coarse pi buf p s = (sealed coarse s, Ok (buf ++ data_frame pi s cur c p, s_sendSeq s)).
Proof.
  intros [Hs Hg]. destruct (send_epoch_cur _ _ _ Hs) as [Hc He]. unfold seal_frame.
  set (s1 := s <| s_sendSeq := u64_add (s_sendSeq s) 1 |>).
  rw (st_bind_ok nextDatagramSeq _ s s1 (s_sendSeq s)); [done|]. rw st_bind_get.
  rw (st_bind_lift (de_epoch cur)); [done|].
  erewrite st_bind_lift; [|apply AppendDatagramDataHeader_wire]. cbn [with_Type dh_Epoch dh_RecvIndex dh_Seq].
  fold (data_header pi s cur). erewrite st_bind_lift; [|apply slice_from_at, at_off_pre].
  unfold DatagramSealTo. unfold st_bind at 1. rw st_bind_get.
  change (send_epoch s1) with (send_epoch s). rw (st_bind_lift _ _ _ _ Hs).
  cbv beta iota. rw Hg. cbn [negb]. change (s_sendNoncePrefix s1) with (s_sendNoncePrefix s).
  rw buildAEADNonce_eq. erewrite st_bind_lift; [|reflexivity].
  fold (stream_nonce (s_sendNoncePrefix s) (s_sendSeq s)). unfold SealWithNonceTo.
  rw len_stream_nonce. erewrite st_bind_lift; [|reflexivity]. rw st_bind_mod. cbv [st_ret].
  rw -app_assoc. done.
Qed.

Lemma seal_frame_inv coarse pi buf p s s' r : seal_frame coarse pi buf p s = (s', Ok r) ->
  exists cur c, can_seal s cur c.
Proof.
  unfold seal_frame. intros H. stinv H. injection Hm as <-. clear H.
  unfold DatagramSealTo in Hm3. stinv Hm3. exists d, a.
  split; [exact Hm|]. by apply negb_true_iff.
Qed.

(** [fs] are the frames of [ps] sealed one by one, each in a buffer of its own. *)
Fixpoint seals (coarse pi : Z) (ps : list (list Z)) (s : Session) (last : Z) (fs : list (list Z)) (s' : Session)
    (last' : Z) : Prop :=
  match ps, fs with
  | [], [] => s' = s /\ last' = last
  | p :: ps, f :: fs => exists cur c, can_seal s cur c /\ f = data_frame pi s cur c p /\
      seals coarse pi ps (sealed coarse s) (s_sendSeq s) fs s' last'
  | _, _ => False
  end.

Lemma data_frame_nonempty pi s cur c p : nonempty (data_frame pi s cur c p).
Proof.
  unfold nonempty, data_frame, data_header. rw len_app len_wire_DatagramHeader.
  pose proof (len_nonneg (aead_seal (ae_suite c) (ae_key c) (stream_nonce (s_sendNoncePrefix s) (s_sendSeq s)) p
    (data_header pi s cur))) as H. unfold data_header in H. lia.
Qed.

Lemma seal_batch_seals coarse pi ps : forall buf ends last s s' buf' ends' last',
  seal_batch coarse pi ps buf ends last s = (s', Ok (buf', ends', last')) ->
  exists fs, buf' = buf ++ concat fs /\ ends' = ends ++ ends_of (len buf) fs /\
    Forall nonempty fs /\ seals coarse pi ps s last fs s' last'.
Proof.
  induction ps as [|p ps IH]; intros buf ends last s s' buf' ends' last'; cbn [seal_batch].
  { intros [= <- <- <- <-]. exists []. cbn. rw !app_nil_r. done. }
  intros H. apply st_bind_inv in H as (s1 & [b q] & Hm & H).
  destruct (seal_frame_inv _ _ _ _ _ _ _ Hm) as (cur & c & Hc).
  rw (seal_frame_ok _ _ _ _ _ _ _ Hc) in Hm. injection Hm as <- <- <-.
  apply IH in H as (fs & -> & -> & Hn & Hs). exists (data_frame pi s cur c p :: fs). cbn [concat ends_of].
  rw len_app -!app_assoc. split_and!; [done|done|by constructor; [apply data_frame_nonempty|]|].
  by exists cur, c.
Qed.

Definition counted (bytes packets : Z) (s : Session) : Session :=
  s <| s_BytesSent := i64 (s_BytesSent s + bytes) |> <| s_PacketsSent := i64 (s_PacketsSent s + packets) |>.

Lemma seals_counted coarse pi b n ps : forall s last fs s' last',
  seals coarse pi ps s last fs s' last' ->
  seals coarse pi ps (counted b n s) last fs (counted b n s') last'.
Proof.
  induction ps as [|p ps IH]; intros s last [|f fs] s' last'; cbn [seals]; try done; [by intros [-> ->]|].
  intros (cur & c & Hc & -> & H). exists cur, c. split_and!; [exact Hc|done|].
  change (sealed coarse (counted b n s)) with (counted b n (sealed coarse s)). by apply IH.
Qed.

Lemma i64_add_l a b : i64 (i64 a + b) = i64 (a + b).
Proof.
  unfold i64. f_equal. replace ((a + 2 ^ 63) mod 2 ^ 64 - 2 ^ 63 + b + 2 ^ 63) with ((a + 2 ^ 63) mod 2 ^ 64 + b) by lia.
  rw Zplus_mod_idemp_l. f_equal. lia.
Qed.

Lemma counted_counted b n b' n' s : counted b' n' (counted b n s) = counted (b + b') (n + n') s.
Proof. unfold counted. cbn. rw !i64_add_l. by rw !Z.add_assoc. Qed.

(** ** The endpoint's side *)

(** [e] with session [r] at [ds] and [out] sent since. *)
Definition upd (e : Endpoint) (r : ref) (ds : dgSession) (out : list (list Z * string)) : Endpoint :=
  e <| ep_store := <[r := ds]> (ep_store e) |> <| ep_sent := ep_sent e ++ out |>.

Definition with_session (ds : dgSession) (sess : Session) : dgSession := ds <| x_sess := Some sess |>.

Lemma upd_id e r ds : ep_store e !! r = Some ds -> upd e r ds [] = e.
Proof.
  destruct e. cbn. intros H. unfold upd. cbn. rw insert_id //. by rw app_nil_r.
Qed.

Lemma with_session_id ds sess : x_sess ds = Some sess -> with_session ds sess = ds.
Proof. destruct ds. cbn. by intros ->. Qed.

Lemma upd_lookup e r ds out : ep_store (upd e r ds out) !! r = Some ds.
Proof. apply lookup_insert_eq. Qed.

Lemma with_sess_upd {A} e r ds out sess (m : ST Session error A) :
  with_sess r m (upd e r (with_session ds sess) out)
  = (upd e r (with_session ds (m sess).1) out, (m sess).2).
Proof.
  unfold with_sess. rw st_bind_get upd_lookup. change (x_sess (with_session ds sess)) with (Some sess). unfold on_sess.
  destruct (m sess) as [sess' o]. unfold upd. cbn. f_equal. f_equal. rw alter_insert_eq. done.
Qed.

Lemma get_ds_upd e r ds out : get_ds r (upd e r ds out) = (upd e r ds out, Ok ds).
Proof. unfold get_ds. by rw st_bind_get upd_lookup. Qed.

(** [fs] addressed to where the peer is. *)
Definition to_peer (ds : dgSession) (fs : list (list Z)) : list (list Z * string) :=
  match x_peerAddr ds with Some dst => map (fun f => (f, dst)) fs | None => [] end.

Lemma to_peer_app ds fs gs : to_peer ds (fs ++ gs) = to_peer ds fs ++ to_peer ds gs.
Proof. unfold to_peer. destruct (x_peerAddr ds); [apply map_app|done]. Qed.

Lemma writePeer_upd e r ds out fs :
  writePeer fs r (upd e r ds out) = (upd e r ds (out ++ to_peer ds fs), Ok tt).
Proof.
  unfold writePeer, to_peer. rw st_bind_get upd_lookup.
  destruct (x_peerAddr ds); [|by rw app_nil_r]. unfold writeAll, st_mod, upd. cbn. by rw app_assoc.
Qed.

Lemma rekey_wanted_upd z e r ds out sess seq c : cur_epoch sess = Ok c ->
  exists b, rekey_wanted z r seq (upd e r (with_session ds sess) out)
            = (upd e r (with_session ds sess) out, Ok b).
Proof.
  intros Hc. unfold rekey_wanted. erewrite st_bind_ok; [|apply get_ds_upd]. rw with_sess_upd.
  destruct (_ && _); [|by eexists]. unfold st_lift, datagramRekeyDue. rw Hc. cbn [obind fst snd].
  destruct c; by eexists.
Qed.

Lemma count_sent_upd e r ds sess out b n :
  with_sess r (count_sent b n) (upd e r (with_session ds sess) out)
  = (upd e r (with_session ds (counted b n sess)) out, Ok tt).
Proof. by rw with_sess_upd. Qed.

(** What one [Send] leaves behind. *)
Lemma send_upd z e r ds out sess p cur c :
  len p <= DatagramMaxDataPayload -> can_seal sess cur c ->
  let e' := upd e r (with_session ds (counted (len p) 1 (sealed (z_coarse z) sess)))
              (out ++ to_peer ds [data_frame (x_peerIndex ds) sess cur c p]) in
  exists b, Send z r p (upd e r (with_session ds sess) out) = (e', Ok b) /\
    rekey_wanted z r (s_sendSeq sess) e' = (e', Ok b).
Proof.
  intros Hp Hc e'. destruct (send_epoch_cur _ _ _ (proj1 Hc)) as [He _].
  destruct (rekey_wanted_upd z e r ds (out ++ to_peer ds [data_frame (x_peerIndex ds) sess cur c p])
    (counted (len p) 1 (sealed (z_coarse z) sess)) (s_sendSeq sess) (Some cur) He) as [b Hb].
  exists b. split; [|exact Hb]. unfold Send. replace (_ <? _) with false by blia. cbn [negb].
  erewrite st_bind_ok; [|apply get_ds_upd].
  erewrite st_bind_ok; [|rw with_sess_upd (seal_frame_ok _ _ _ _ _ _ _ Hc); reflexivity]. cbn [fst snd].
  erewrite st_bind_ok; [|apply writePeer_upd].
  erewrite st_bind_ok; [|apply count_sent_upd]. exact Hb.
Qed.

(** [Send] for each payload in turn. *)
Fixpoint sends (z : EEnv) (r : ref) (ps : list (list Z)) : EP (list bool) :=
  match ps with
  | [] => st_ret []
  | p :: ps => do! b := Send z r p in do! bs := sends z r ps in st_ret (b :: bs)
  end.

Definition count_all (ps : list (list Z)) (sess : Session) : Session :=
  foldl (fun s p => counted (len p) 1 s) sess ps.

Lemma count_all_counted ps b n sess :
  count_all ps (counted b n sess) = counted (foldl Z.add b (map len ps)) (n + len ps) sess.
Proof.
  revert b n sess. induction ps as [|p ps IH]; intros b n sess; cbn [count_all foldl map].
  { change (len []) with 0. by rw Z.add_0_r. }
  rw counted_counted. unfold count_all in IH. rw IH. f_equal. rw len_cons. lia.
Qed.

Lemma count_all_swap ps b n sess : count_all ps (counted b n sess) = counted b n (count_all ps sess).
Proof.
  revert sess. induction ps as [|p ps IH]; intros sess; [done|]. cbn [count_all foldl].
  unfold count_all in IH. rw -IH !counted_counted. by rw (Z.add_comm b) (Z.add_comm n).
Qed.

Lemma sends_seals z e r ds ps : forall out sess last fs sess' last',
  Forall (fun p => len p <= DatagramMaxDataPayload) ps ->
  seals (z_coarse z) (x_peerIndex ds) ps sess last fs sess' last' ->
  let e' := upd e r (with_session ds (count_all ps sess')) (out ++ to_peer ds fs) in
  exists bs, sends z r ps (upd e r (with_session ds sess) out) = (e', Ok bs) /\
    (ps <> [] -> exists b, list.last bs = Some b /\ rekey_wanted z r last' e' = (e', Ok b)).
Proof.
  induction ps as [|p ps IH]; intros out sess last [|f fs] sess' last' Hp; cbn [seals]; try done.
  { intros [-> ->]. exists []. split; [|done]. unfold to_peer. destruct (x_peerAddr ds); by rw app_nil_r. }
  intros (cur & c & Hc & -> & Hs). apply Forall_cons in Hp as [Hp Hps].
  destruct (send_upd z e r ds out sess p cur c Hp Hc) as (b & Hb & Hr).
  apply (seals_counted _ _ (len p) 1) in Hs as Hs'.
  specialize (IH (out ++ to_peer ds [data_frame (x_peerIndex ds) sess cur c p]) _ _ _ _ _ Hps Hs').
  cbn zeta in IH. rw -app_assoc -to_peer_app in IH.
  destruct IH as (bs & Hbs & Hl). exists (b :: bs). cbn [sends].
  rw (st_bind_ok _ _ _ _ _ Hb) (st_bind_ok _ _ _ _ _ Hbs). split; [done|]. intros _.
  destruct ps as [|p' ps].
  - apply (f_equal snd) in Hbs. injection Hbs as <-. destruct fs; [|done]. destruct Hs as [-> ->]. by exists b.
  - destruct (Hl ltac:(done)) as (b' & Hb' & Hr'). exists b'. split; [|exact Hr'].
    by destruct bs.
Qed.

Lemma sendbatch_session gso z r ps e e' b : ps <> [] -> SendBatch gso z r ps e = (e', Ok b) ->
  exists ds sess, e = upd e r (with_session ds sess) [] /\
    Forall (fun p => len p <= DatagramMaxDataPayload) ps.
Proof.
  intros Hne H. unfold SendBatch in H. destruct (len ps =? 0) eqn:H0; [by destruct ps|].
  stinv_step H. rw forallb_forall in Hb.
  apply st_bind_inv in H as (e1 & ds & Hm & H). unfold get_ds in Hm. rw st_bind_get in Hm.
  destruct (ep_store e !! r) as [ds0|] eqn:Hds; [|done]. injection Hm as <- <-.
  apply st_bind_inv in H as (e2 & x & Hm & _).
  unfold with_sess in Hm. rw st_bind_get Hds in Hm. destruct (x_sess ds0) as [sess|] eqn:Hss; [|done].
  exists ds0, sess. rw with_session_id // upd_id //. split; [done|].
  apply Forall_forall. intros p Hp. apply list_elem_of_In, Hb in Hp. blia.
Qed.

(** C25: a batch is its sends.  When [SendBatch] returns, the endpoint is in exactly the state that
    sending the payloads one by one leaves: the same frames on the wire in the same order, whatever
    runs the kernel took as one segmented send, the same session and counters, and the same
    decision to rekey as after the last [Send]. *)
Theorem sendbatch_equiv writeGSO z r ps e e' b :
  ps <> [] -> SendBatch writeGSO z r ps e = (e', Ok b) ->
  exists bs, sends z r ps e = (e', Ok bs) /\ list.last bs = Some b.
Proof.
  intros Hne H. destruct (sendbatch_session _ _ _ _ _ _ _ Hne H) as (ds & sess & He & Hps). rw He in H |- *.
  unfold SendBatch in H. destruct (len ps =? 0) eqn:H0; [by destruct ps|]. stinv_step H.
  rw (st_bind_ok _ _ _ _ _ (get_ds_upd _ _ _ _)) in H.
  apply st_bind_inv in H as (e2 & [[buf ends] last] & Hm & H).
  rw with_sess_upd in Hm. destruct (seal_batch _ _ _ _ _ _ sess) as [sess' o] eqn:Hsb. cbn [fst snd] in Hm.
  injection Hm as <- ->. apply seal_batch_seals in Hsb as (fs & -> & -> & Hn & Hs).
  destruct (sends_seals z e r ds ps [] sess 0 fs sess' last Hps Hs) as (bs & Hbs & Hl).
  destruct (Hl Hne) as (b' & Hb' & Hr). exists bs. cbn [app] in *.
  rw length_ends (send_runs_frames _ _ fs []) // in H. unfold st_lift in H. unfold st_bind at 1 in H.
  rw (st_bind_ok _ _ _ _ _ (writePeer_upd _ _ _ _ _)) in H.
  rw (st_bind_ok _ _ _ _ _ (count_sent_upd _ _ _ _ _ _ _)) in H.
  replace (counted _ _ sess') with (count_all ps sess') in H.
  2: { destruct ps as [|p ps]; [done|]. rw len_cons. cbn [count_all foldl map]. apply count_all_counted. }
  change (to_peer (with_session ds sess') fs) with (to_peer ds fs) in H. cbn [app] in *.
  rw Hr in H. injection H as <- ->. by split.
Qed.
End BatchProofs.

(** * Example: an endpoint with one established session *)

Definition example_env : EEnv :=
  mkEEnv 5 5 (fun _ => None) (fun _ => None) (fun _ => None) (fun _ => None)
    (mkEnv (fun _ => None) (fun _ => None) (fun _ => None) 5) (fun _ => []).

Definition example_conn (sess : Session) : dgSession :=
  (new_ds "peer" false) <| x_sess := Some sess |> <| x_index := 7 |> <| x_peerIndex := 9 |>.

Definition example_endpoint (sess : Session) : Endpoint :=
  mkEndpoint (newConnRegistry 8) (NewReassembler 0 0 0) [] (Cookie.mkCookieSigner []) 4 default_config
    {[ 0%nat := example_conn sess ]} 1%nat ∅ [].

(** The initiator of the example about to send its last frame of the epoch. *)
Definition example_last : Session :=
  (example_dgram RoleInitiator) <| s_sendSeq := MaxPacketsBeforeRekey - 1 |>.

Lemma sendbatch_equiv_witness :
  exists bs, (@sends toy example_env 0%nat [[1; 2]; [3; 4]; [5]] (example_endpoint (example_dgram RoleInitiator))).2
             = Ok bs /\ list.last bs = Some false.
Proof.
  pose (e := example_endpoint (example_dgram RoleInitiator)).
  assert (Hb : (@SendBatch toy (fun _ _ => true) example_env 0%nat [[1; 2]; [3; 4]; [5]] e).2 = Ok false)
    by (vm_compute; reflexivity).
  destruct (@sendbatch_equiv toy (fun _ _ => true) example_env 0%nat [[1; 2]; [3; 4]; [5]] e _ false
    ltac:(discriminate) (run_pair _ _ Hb)) as (bs & Hs & Hl).
  exists bs. split; [exact (f_equal snd Hs)|exact Hl].
Defined.

(** A batch that runs out of the epoch's budget sends nothing, not the payloads before the error:
    all are sealed before the first is written. *)
Example batch_error_sends_nothing :
  let e := example_endpoint example_last in
  let batch := @SendBatch toy (fun _ _ => true) example_env 0%nat [[1]; [2]] e in
  let each := @sends toy example_env 0%nat [[1]; [2]] e in
  batch.2 = Err ErrNonceExhausted /\ each.2 = Err ErrNonceExhausted /\
  len (ep_sent batch.1) = 0 /\ len (ep_sent each.1) = 1.
Proof. vm_compute. split_and!; reflexivity. Qed.
