(* ===== verification/EndpointInv.v ===== *)
(** What every reachable state of a datagram endpoint satisfies, whatever its peers, its
    application and its clock do: the memory it holds for strangers is bounded, every half-open
    slot belongs to a running handshake, and no closed session can be reached by a datagram.

    The invariant is preserved by each operation of [Endpoint.v] and [Conn.v]; the theorems read
    its consequences off for any sequence of events on a new endpoint. *)

From Corelib Require Import ssreflect.
From stdpp Require Import base tactics list numbers strings gmap.
From Stdlib Require Import ZArith Lia.
From S2P Require Import Prelude Base Messages Codec DatagramCodec Replay Reassembly Fragment Crypto Chkem.
From S2P Require Import Ticket Session DgramSession Handshake DgramFSM Sha256 Admission Registry Endpoint Conn.

Local Open Scope Z_scope.
Local Open Scope go_scope.

(** * The invariant *)

Definition chan_le {A} (cap : Z) (ch : option (list A)) : Prop :=
  match ch with Some l => len l <= cap | None => True end.

(** A session's queues are within their capacities; what was stashed is small and came off the
    wire. *)
Record ds_ok (ds : dgSession) : Prop := {
  dk_early : len (x_early ds) <= earlyDatagramCap;
  dk_stash : Forall (fun d => len d.1 <= DatagramMTU /\ is_bytes d.1) (x_early ds);
  dk_inbox : len (x_inbox ds) <= inboxCap;
  dk_recv : len (x_recvCh ds) <= dataInboxCap;
  dk_rekey : chan_le rekeyInboxCap (x_rekeyInbox ds);
  dk_retry : chan_le retryCap (x_retryCh ds) }.

(** A responder that has not surfaced yet. *)
Definition half_open (l : handshakeLoop) (src : string) : Prop :=
  l_src l = src /\ is_Some (l_first l) /\ l_surfaced l = false.

Create HintDb endpoint.

Section Invariant.
(** The endpoint's half-open ceiling. *)
Context (ceiling : Z).

(** [xs] is a source whose slot may have no loop, and [xl] a loop that may be established without
    having surfaced: both only within an operation. *)
Record inv (xs : option string) (xl : option ref) (e : Endpoint) : Prop := {
  iv_registry : registry_ok (ep_registry e);
  iv_slots : forall src, halfOpen (ep_registry e) !! src = (fun _ => 1) <$> bySource (ep_registry e) !! src;
  iv_reasm : reasm_ok (ep_reasm e);
  iv_limits : maxHalfOpen (ep_registry e) = ceiling /\ r_maxSources (ep_reasm e) = ceiling /\
    r_maxConcurrentPerSource (ep_reasm e) = DatagramMaxConcurrentReassembly /\
    r_maxMessageSize (ep_reasm e) = DatagramMaxHandshakeMessageSize;
  iv_accept : len (ep_acceptCh e) <= acceptCap;
  iv_store : map_Forall (fun _ => ds_ok) (ep_store e);
  iv_next : forall s, (ep_next e <= s)%nat -> ep_store e !! s = None /\ ep_loops e !! s = None;
  iv_index : forall i s, byIndex (ep_registry e) !! i = Some s ->
    exists ds, ep_store e !! s = Some ds /\ x_index ds = i /\ x_closed ds = false;
  iv_owner : forall src s, bySource (ep_registry e) !! src = Some s -> xs <> Some src ->
    exists l, ep_loops e !! s = Some l /\ half_open l src;
  iv_surfaced : forall s l, ep_loops e !! s = Some l -> xl <> Some s ->
    established (l_driver l) = true -> l_surfaced l = true }.

Abbreviation inv0 := (inv None None).

(** ** One component at a time *)

Section Frames.
Context (xs : option string) (xl : option ref).

Lemma inv_sent e x : inv xs xl e -> inv xs xl (e <| ep_sent := x |>).
Proof. by intros []; constructor. Qed.

Lemma inv_weaken_slot e src : inv None xl e -> inv (Some src) xl e.
Proof. intros []; constructor; try done. intros. by eauto. Qed.

Lemma inv_weaken_loop e s : inv xs None e -> inv xs (Some s) e.
Proof. intros []; constructor; try done. intros. by eauto. Qed.

Lemma inv_accept e ch : inv xs xl e -> len ch <= acceptCap -> inv xs xl (e <| ep_acceptCh := ch |>).
Proof. by intros []; constructor. Qed.

Lemma inv_reasm e r : inv xs xl e -> reasm_ok r -> r_maxSources r = r_maxSources (ep_reasm e) ->
  r_maxConcurrentPerSource r = r_maxConcurrentPerSource (ep_reasm e) ->
  r_maxMessageSize r = r_maxMessageSize (ep_reasm e) -> inv xs xl (e <| ep_reasm := r |>).
Proof. intros [] ? H1 H2 H3; constructor; try done. cbn. by rw H1 H2 H3. Qed.

(** A change of the cache of hellos. *)
Lemma inv_hellos e r : inv xs xl e -> registry_ok r -> byIndex r = byIndex (ep_registry e) ->
  bySource r = bySource (ep_registry e) -> halfOpen r = halfOpen (ep_registry e) ->
  maxHalfOpen r = maxHalfOpen (ep_registry e) -> inv xs xl (e <| ep_registry := r |>).
Proof. intros [] ? H1 H2 H3 H4; constructor; cbn; rw ?H1 ?H2 ?H3 ?H4; done. Qed.

Lemma inv_remove e i : inv xs xl e -> inv xs xl (e <| ep_registry := remove i (ep_registry e) |>).
Proof.
  intros []; constructor; try done; cbn; [by apply remove_ok|].
  intros j s H. apply lookup_delete_Some in H as [_ H]. by eauto.
Qed.

(** A change of one session that leaves its index and its being open. *)
Definition ds_step (f : dgSession -> dgSession) : Prop := forall ds, ds_ok ds ->
  ds_ok (f ds) /\ x_index (f ds) = x_index ds /\ x_closed (f ds) = x_closed ds.

Lemma inv_mod_ds e s f : inv xs xl e -> ds_step f -> inv xs xl (e <| ep_store := alter f s (ep_store e) |>).
Proof.
  intros [] Hf; constructor; try done; cbn.
  - intros s' ds H. destruct (decide (s' = s)) as [->|Hne].
    + rw lookup_alter_eq in H. apply fmap_Some in H as (ds0 & H & ->). by eapply Hf, iv_store0.
    + rw lookup_alter_ne // in H. by eauto.
  - intros s' Hs. destruct (iv_next0 s' Hs) as [H1 H2]. split; [|done]. by apply lookup_alter_None.
  - intros i s' H. destruct (iv_index0 _ _ H) as (ds & Hd & Hi & Hc). destruct (decide (s' = s)) as [->|Hne].
    + exists (f ds). rw lookup_alter_eq Hd. destruct (Hf ds) as (_ & -> & ->); [by eapply iv_store0|done].
    + exists ds. by rw lookup_alter_ne.
Qed.

(** A change of one loop that leaves whose it is and whether it surfaced. *)
Definition loop_step (f : handshakeLoop -> handshakeLoop) : Prop := forall l,
  l_src (f l) = l_src l /\ l_first (f l) = l_first l /\ l_surfaced (f l) = l_surfaced l.

Lemma inv_mod_loop e s f : inv xs xl e -> loop_step f ->
  (forall l, xl <> Some s -> ep_loops e !! s = Some l -> established (l_driver (f l)) = true ->
     l_surfaced l = true) ->
  inv xs xl (e <| ep_loops := alter f s (ep_loops e) |>).
Proof.
  intros [] Hf He; constructor; try done; cbn.
  - intros s' Hs. destruct (iv_next0 s' Hs) as [H1 H2]. split; [done|]. by apply lookup_alter_None.
  - intros src s' H Hx. destruct (iv_owner0 _ _ H Hx) as (l & Hl & Ho). destruct (decide (s' = s)) as [->|Hne].
    + exists (f l). rw lookup_alter_eq Hl. split; [done|]. unfold half_open. by destruct (Hf l) as (-> & -> & ->).
    + exists l. by rw lookup_alter_ne.
  - intros s' l H Hx Hes. destruct (decide (s' = s)) as [->|Hne].
    + rw lookup_alter_eq in H. apply fmap_Some in H as (l0 & H & ->).
      destruct (Hf l0) as (_ & _ & ->). by eauto.
    + rw lookup_alter_ne // in H. by eauto.
Qed.
End Frames.

(** ** Slots *)

Lemma releaseHalfOpen_lookup src r n : halfOpen r !! src = Some n -> n <> 0 ->
  releaseHalfOpen src r = r <| halfOpen := if 1 <? n then <[src := n - 1]> (halfOpen r) else delete src (halfOpen r) |>
                            <| halfOpenTotal := halfOpenTotal r - 1 |>.
Proof. intros H Hn. unfold releaseHalfOpen. rw H. cbn. by replace (n =? 0) with false by lia. Qed.

Lemma releaseHalfOpen_absent src r : halfOpen r !! src = None -> releaseHalfOpen src r = r.
Proof. intros H. unfold releaseHalfOpen. by rw H. Qed.

(** Giving a source's slot back. *)
Definition unwound (src : string) (r : connRegistry) : connRegistry := releaseHalfOpen src (removeSource src r).

Lemma unwound_fields src r : halfOpen r !! src = (fun _ => 1) <$> bySource r !! src ->
  byIndex (unwound src r) = byIndex r /\ maxHalfOpen (unwound src r) = maxHalfOpen r /\
  bySource (unwound src r) = delete src (bySource r) /\ halfOpen (unwound src r) = delete src (halfOpen r).
Proof.
  intros Hs. unfold unwound.
  destruct (bySource r !! src) eqn:Hb; cbn in Hs.
  - rw (releaseHalfOpen_lookup src (removeSource src r) 1 Hs); [lia|]. done.
  - rw releaseHalfOpen_absent //. cbn. by rw (delete_id (halfOpen r)).
Qed.

Lemma inv_unwind xl e src : inv (Some src) xl e -> inv None xl (e <| ep_registry := unwound src (ep_registry e) |>).
Proof.
  intros []. destruct (unwound_fields src (ep_registry e) (iv_slots0 src)) as (H1 & H2 & H3 & H4).
  constructor; try done; cbn; rw ?H1 ?H2 ?H3 ?H4 //.
  - by apply releaseHalfOpen_ok, removeSource_ok.
  - intros src'. destruct (decide (src' = src)) as [->|Hne]; [by rw !lookup_delete_eq|by rw !lookup_delete_ne].
  - intros src' s H _. apply lookup_delete_Some in H as [Hne H]. eapply iv_owner0; [done|by intros [= ->]].
Qed.

Lemma unwind_run src e : unwind src e = (e <| ep_registry := unwound src (ep_registry e) |>, Ok tt).
Proof. done. Qed.

(** A new source takes a slot, for a session that is still to be allocated. *)
Lemma inv_reserve xl e src r : inv None xl e -> reserveSource src (ep_next e) (ep_registry e) = (r, Reserved) ->
  inv (Some src) xl (e <| ep_registry := r |>) /\ bySource r !! src = Some (ep_next e).
Proof.
  intros Hi H. pose proof (reserveSource_ok src (ep_next e) _ (iv_registry _ _ _ Hi)) as Hok. rw H in Hok.
  destruct Hi. unfold reserveSource in H. destruct (bySource (ep_registry e) !! src) eqn:Hb; [done|].
  unfold addHalfOpenLocked in H. destruct (_ <=? _); [done|]. injection H as <-.
  split; [|by cbn; rw lookup_insert_eq]. pose proof (iv_slots0 src) as Hsl. rw Hb in Hsl. cbn in Hsl.
  constructor; try done; cbn.
  - intros src'. rw Hsl. cbn. destruct (decide (src' = src)) as [->|Hne]; [by rw !lookup_insert_eq|by rw !lookup_insert_ne].
  - intros src' s H Hx. assert (src' <> src) by (by intros ->). rw lookup_insert_ne // in H. by eauto.
Qed.

(** ** Sessions and loops *)

Definition allocated (ds : dgSession) (e : Endpoint) : Endpoint :=
  e <| ep_store := <[ep_next e := ds]> (ep_store e) |> <| ep_next := S (ep_next e) |>.

Lemma inv_alloc xs xl e ds : inv xs xl e -> ds_ok ds -> inv xs xl (allocated ds e).
Proof.
  intros [] Hd; constructor; try done; cbn.
  - by apply map_Forall_insert_2.
  - intros s Hs. destruct (iv_next0 s) as [H1 H2]; [lia|]. split; [|done]. rw lookup_insert_ne //. lia.
  - intros i s H. destruct (iv_index0 _ _ H) as (ds' & Hd' & Hi). exists ds'. rw lookup_insert_ne //.
    intros Hs. destruct (iv_next0 s) as [H1 _]; [lia|]. unfold ref in *. by rw Hd' in H1.
Qed.

(** The session [s] gets an index. *)
Definition indexed (s : ref) (idx : Z) (r : connRegistry) (e : Endpoint) : Endpoint :=
  e <| ep_registry := r |> <| ep_store := alter (fun ds => ds <| x_index := idx |>) s (ep_store e) |>.

Lemma inv_index_add xs xl e s ds rnd r idx : inv xs xl e -> ep_store e !! s = Some ds -> x_closed ds = false ->
  (forall i, byIndex (ep_registry e) !! i <> Some s) -> add rnd s (ep_registry e) = (r, Ok idx) ->
  inv xs xl (indexed s idx r e).
Proof.
  intros Hi Hd Hcl Hf Ha. pose proof (add_ok rnd s _ (iv_registry _ _ _ Hi)) as Hok. rw Ha in Hok.
  pose proof (add_spec rnd s (ep_registry e)) as Hs. rw Ha in Hs.
  destruct Hs as (_ & _ & ->). destruct Hi; constructor; try done; cbn.
  - intros s' ds' H. apply lookup_alter_Some in H as [(-> & ds0 & H & ->)|[_ H]]; [|by eauto].
    apply iv_store0 in H. by destruct H; constructor.
  - intros s' Hs. destruct (iv_next0 s' Hs) as [H1 H2]. split; [|done]. by apply lookup_alter_None.
  - intros i s' H. apply lookup_insert_Some in H as [[<- <-]|[Hne H]].
    + exists (ds <| x_index := idx |>). by rw lookup_alter_eq Hd.
    + destruct (iv_index0 _ _ H) as (ds' & Hd' & Hi'). exists ds'. rw lookup_alter_ne //.
      intros <-. by apply (Hf i).
Qed.

(** A session no longer reachable through its index can be closed. *)
Lemma inv_closed xs xl e s ds : inv xs xl e -> ep_store e !! s = Some ds ->
  inv xs xl (e <| ep_registry := remove (x_index ds) (ep_registry e) |>
               <| ep_store := alter (fun ds => ds <| x_closed := true |>) s (ep_store e) |>).
Proof.
  intros Hi Hd. apply (inv_remove _ _ _ (x_index ds)) in Hi as Hr. destruct Hr; constructor; try done; cbn.
  - intros s' ds' H. apply lookup_alter_Some in H as [(-> & ds0 & H & ->)|[_ H]]; [|by eauto].
    apply iv_store0 in H. by destruct H; constructor.
  - intros s' Hs. destruct (iv_next0 s' Hs) as [H1 H2]. split; [|done]. by apply lookup_alter_None.
  - intros i s' H. destruct (iv_index0 _ _ H) as (ds' & Hd' & Hi' & Hc). exists ds'. cbn in *.
    rw lookup_alter_ne //. intros <-. rw Hd in Hd'. injection Hd' as <-. rw Hi' lookup_delete_eq in H. done.
Qed.

(** A handshake starts: it is not established, and a source waiting for its loop gets it. *)
Lemma inv_loop_start xs xl e s l : inv xs xl e -> established (l_driver l) = false -> ep_loops e !! s = None ->
  (s < ep_next e)%nat ->
  (forall src, xs = Some src -> half_open l src /\ forall s', bySource (ep_registry e) !! src = Some s' -> s' = s) ->
  inv None xl (e <| ep_loops := <[s := l]> (ep_loops e) |>).
Proof.
  intros [] He Hn Hlt Ho; constructor; try done; cbn.
  - intros s' Hs. destruct (iv_next0 s' Hs) as [H1 H2]. split; [done|]. rw lookup_insert_ne //. lia.
  - intros src s' H _. destruct (decide (xs = Some src)) as [Hx|Hx].
    + destruct (Ho src Hx) as [Hh Hu]. specialize (Hu _ H) as ->. exists l. by rw lookup_insert_eq.
    + destruct (iv_owner0 _ _ H Hx) as (l' & Hl & Hh). exists l'. rw lookup_insert_ne //.
      intros <-. unfold ref in *. by rw Hn in Hl.
  - intros s' l' H Hx Hes. apply lookup_insert_Some in H as [[<- <-]|[_ H]]; [congruence|by eauto].
Qed.

(** A handshake ends: no source waits for it any more. *)
Lemma inv_loop_end xs xl e s : inv xs xl e ->
  (forall src, bySource (ep_registry e) !! src = Some s -> xs = Some src) ->
  inv xs xl (e <| ep_loops := delete s (ep_loops e) |>).
Proof.
  intros [] Ho; constructor; try done; cbn.
  - intros s' Hs. destruct (iv_next0 s' Hs) as [H1 H2]. split; [done|]. apply lookup_delete_None. by right.
  - intros src s' H Hx. destruct (iv_owner0 _ _ H Hx) as (l & Hl & Hh). exists l.
    rw lookup_delete_ne //. intros <-. by apply Hx, Ho.
  - intros s' l H Hx He. apply lookup_delete_Some in H as [_ H]. by eauto.
Qed.

(** * What an operation leaves *)

(** [Q] when the operation returns a value, the invariant when it returns an error. *)
Definition post {A} (r : Endpoint * outcome error A) (Q : A -> Endpoint -> Prop) : Prop :=
  match r with
  | (e, Ok a) => Q a e
  | (e, Err _) => inv0 e
  | (_, Panic) => True
  end.

Lemma post_bind {A B} (m : EP A) (f : A -> EP B) e Q R :
  post (m e) Q -> (forall a e', Q a e' -> post (f a e') R) -> post (st_bind m f e) R.
Proof. unfold st_bind. destruct (m e) as [e' [a| |]]; cbn; by auto. Qed.

Lemma post_lift {A} (o : outcome error A) e (Q : A -> Endpoint -> Prop) :
  inv0 e -> (forall a, o = Ok a -> Q a e) -> post (st_lift o e) Q.
Proof. destruct o; cbn; by auto. Qed.

Lemma post_imp {A} (r : Endpoint * outcome error A) (Q Q' : A -> Endpoint -> Prop) :
  post r Q -> (forall a e, Q a e -> Q' a e) -> post r Q'.
Proof. destruct r as [e [a| |]]; cbn; by auto. Qed.

(** [stays m]: the operation keeps the invariant. *)
Definition stays {A} (m : EP A) : Prop := forall e, inv0 e -> post (m e) (fun _ => inv0).

Lemma stays_bind {A B} (m : EP A) (f : A -> EP B) : stays m -> (forall a, stays (f a)) -> stays (st_bind m f).
Proof. intros Hm Hf e He. eapply post_bind; [by apply Hm|]. intros a e' He'. by apply Hf. Qed.

Lemma stays_ret {A} (a : A) : stays (st_ret a).
Proof. by intros e He. Qed.

Lemma stays_err {A} err : stays (A := A) (st_err err).
Proof. by intros e He. Qed.

Lemma stays_get : stays st_get.
Proof. by intros e He. Qed.

Lemma stays_lift {A} (o : outcome error A) : stays (st_lift o).
Proof. intros e He. by apply post_lift. Qed.

Lemma stays_parse {A B} (o : outcome error A) (f : A -> EP B) : (forall a, o = Ok a -> stays (f a)) ->
  stays (st_bind (st_lift o) f).
Proof. intros Hf e He. destruct o; cbn; [by apply Hf|done..]. Qed.

(** An operation that looks at the state first. *)
Lemma stays_look {A} (f : Endpoint -> EP A) : (forall e, inv0 e -> post (f e e) (fun _ => inv0)) ->
  stays (st_bind st_get f).
Proof. intros Hf e He. rw st_bind_get. by apply Hf. Qed.

#[local] Hint Resolve stays_ret stays_err stays_get stays_lift : endpoint.

(** Splits an operation at its bindings, branches and matches. *)
Ltac stays_step :=
  cbv beta zeta;
  lazymatch goal with
  | |- stays (st_bind _ _) => apply stays_bind; [|intros ?]
  | |- stays (match ?x with _ => _ end) => destruct x
  | |- stays _ => solve [eauto with endpoint]
  end.
Ltac stays_auto := repeat stays_step.

(** ** Queues *)

Lemma try_push_le {A} cap (x : A) ch : len ch <= cap -> len (try_push cap x ch) <= cap.
Proof. unfold try_push. destruct (Z.ltb_spec (len ch) cap); [|done]. rw len_app. change (len [x]) with 1. lia. Qed.

Lemma try_push_opt_le {A} cap (x : A) ch : chan_le cap ch -> chan_le cap (try_push_opt cap x ch).
Proof. destruct ch; [apply try_push_le|done]. Qed.

Lemma tail_le {A} cap (ch : option (list A)) : chan_le cap ch -> chan_le cap (option_map tail ch).
Proof.
  destruct ch as [[|x l]|]; cbn; try done. rw len_cons. lia.
Qed.

#[local] Hint Resolve try_push_le try_push_opt_le tail_le : endpoint.

Ltac ds_auto := intros ? []; split_and!; [constructor; cbn; eauto with endpoint|done|done].

Lemma stash_step data src : is_bytes data -> ds_step (fun ds => (stashEarly data src ds).1).
Proof.
  intros Hb ds Hd. unfold stashEarly. destruct (x_earlyDone ds); [done|].
  destruct ((len (x_early ds) <? earlyDatagramCap) && _) eqn:Hc; [|done]. zbool.
  destruct Hd; split_and!; [constructor; cbn; try done|done|done].
  - rw len_app. change (len [(data, src)]) with 1. lia.
  - apply Forall_app. split; [done|]. by constructor; [|constructor].
Qed.

Lemma stays_mod_ds s f : ds_step f -> stays (mod_ds s f).
Proof. intros Hf e He. by apply inv_mod_ds. Qed.

Lemma stays_writeAll fs dst : stays (writeAll fs dst).
Proof. intros e He. by apply inv_sent. Qed.

Lemma stays_writePeer fs s : stays (writePeer fs s).
Proof.
  apply stays_look. intros e He. destruct (ep_store e !! s) as [ds|]; [|done].
  destruct (x_peerAddr ds); [by apply stays_writeAll|done].
Qed.

Lemma stays_trySend s m : stays (trySend s m).
Proof. apply stays_mod_ds. ds_auto. Qed.

Lemma stays_on_sess {A} s sess (m : ST Session error A) : stays (on_sess s sess m).
Proof.
  intros e He. unfold on_sess. destruct (m sess) as [sess' o].
  assert (Hi : inv0 (e <| ep_store := alter (fun ds => ds <| x_sess := Some sess' |>) s (ep_store e) |>)).
  { apply inv_mod_ds; [done|]. ds_auto. }
  by destruct o.
Qed.

Lemma stays_teardown s : stays (teardown s).
Proof.
  apply stays_look. intros e He. destruct (ep_store e !! s) as [ds|] eqn:Hd; [|done].
  exact (inv_closed _ _ _ _ _ He Hd).
Qed.

Lemma stays_unwind src : stays (unwind src).
Proof. intros e He. rw unwind_run. by apply inv_unwind, inv_weaken_slot. Qed.

#[local] Hint Resolve stays_writeAll stays_writePeer stays_trySend stays_on_sess stays_teardown stays_unwind : endpoint.

(** * The receive path *)

Section RouteInv.
Context {P : Primitives} {K : KEMPrimitives} (fips : bool).

Lemma stays_route_data z src data : is_bytes data -> stays (route_data z src data).
Proof.
  intros Hb. unfold route_data. stays_auto.
  - apply stays_mod_ds. ds_auto.
  - by apply stays_mod_ds, stash_step.
Qed.

Lemma stays_set_sess s (f : dgSession -> option Session) : stays (mod_ds s (fun ds => ds <| x_sess := f ds |>)).
Proof. apply stays_mod_ds. ds_auto. Qed.

Lemma stays_route_close z data : stays (route_close z data).
Proof. unfold route_close. pose proof stays_set_sess. stays_auto. Qed.

Lemma stays_route_retry data : stays (route_retry data).
Proof. unfold route_retry. stays_auto. apply stays_mod_ds. ds_auto. Qed.

Lemma stays_handleRekey z h body : stays (handleRekey fips z h body).
Proof. unfold handleRekey. stays_auto; apply stays_mod_ds; ds_auto. Qed.

Lemma registry_hellos xs xl e source hello now : inv xs xl e ->
  inv xs xl (e <| ep_registry := (wasEstablished source hello now (ep_registry e)).1 |>) /\
  inv xs xl (e <| ep_registry := noteEstablished source hello now (ep_registry e) |>).
Proof.
  intros Hi. pose proof (iv_registry _ _ _ Hi) as Hr. split.
  - pose proof (wasEstablished_ok source hello now _ Hr). apply inv_hellos; [done|done|..];
      unfold wasEstablished; destruct (_ !! _); try done; by destruct (expired _ _).
  - apply inv_hellos; [done|by apply noteEstablished_ok|..]; unfold noteEstablished, expire_hellos;
      by repeat destruct (_ <=? _).
Qed.

Lemma stays_wasEstablished source hello now : stays (on_registry (wasEstablished source hello now)).
Proof.
  intros e He. unfold on_registry. destruct (registry_hellos _ _ _ source hello now He) as [H _].
  by destruct (wasEstablished _ _ _ _).
Qed.

Lemma stays_noteEstablished source hello now : stays (mod_registry (noteEstablished source hello now)).
Proof. intros e He. by apply registry_hellos. Qed.

(** A driver just created has not completed. *)
Lemma newDriver_running c session : established (newDriver c session) = false.
Proof. unfold newDriver. by destruct (0 <? _). Qed.

(** A reserved source ends with a running responder or without its slot. *)
Lemma startResponder_post z src s first e : inv (Some src) None e -> (s < ep_next e)%nat ->
  (exists ds, ep_store e !! s = Some ds /\ x_closed ds = false) -> ep_loops e !! s = None ->
  (forall i, byIndex (ep_registry e) !! i <> Some s) ->
  bySource (ep_registry e) !! src = Some s ->
  post (startResponder z src s first e) (fun _ => inv0).
Proof.
  intros Hi Hlt (ds & Hd & Hc) Hl Hf Hb. unfold startResponder. rw st_bind_get.
  destruct (NewSession _ _ _ _) as [session| |]; [|by rw unwind_run; apply inv_unwind|done].
  unfold st_bind at 1. unfold on_registry. pose proof (add_spec (z_idxrnd z) s (ep_registry e)) as Hs.
  destruct (add (z_idxrnd z) s (ep_registry e)) as [r [idx|err|]] eqn:Ha; [|subst r|done].
  - assert (H : inv (Some src) None (indexed s idx r e)) by by eapply inv_index_add.
    destruct Hs as (_ & _ & Hr). apply (stays_trySend s first). unfold st_mod.
    eapply inv_loop_start; [exact H|apply newDriver_running|exact Hl|exact Hlt|].
    intros src' [= <-]. split; [by split_and!|]. cbn. rw Hr. cbn. rw Hb. by intros s' [= <-].
  - cbv beta iota. rw unwind_run. apply inv_unwind. by apply inv_hellos; [|apply iv_registry in Hi|..].
Qed.

(** [deliverHandshake] at a source without responder. *)
Lemma reserved_post z src first e r : inv0 e -> reserveSource src (ep_next e) (ep_registry e) = (r, Reserved) ->
  post ((do! s := alloc (new_ds src false) in startResponder z src s first) (e <| ep_registry := r |>)) (fun _ => inv0).
Proof.
  intros Hi H. destruct (inv_reserve _ _ _ _ Hi H) as [Hr Hb].
  apply startResponder_post.
  - apply inv_alloc; [done|]. by constructor; cbn; try done; constructor.
  - cbn. lia.
  - eexists. cbn. rw lookup_insert_eq. done.
  - destruct (iv_next _ _ _ Hi (ep_next e)) as [_ Hl]; [lia|]. exact Hl.
  - intros i Hx. destruct (iv_index _ _ _ Hr i (ep_next e) Hx) as (ds & Hd & _).
    destruct (iv_next _ _ _ Hi (ep_next e)) as [Hn _]; [lia|]. cbn in Hd. by rw Hn in Hd.
  - exact Hb.
Qed.

Lemma stays_deliverHandshake fuel z src h msg : stays (deliverHandshake fuel z src h msg).
Proof.
  induction fuel as [|fuel IH]; cbn [deliverHandshake]; [by apply stays_ret|]. cbv zeta.
  apply stays_bind; [apply stays_get|intros e0]. destruct (negb (_ =? 0)); [stays_auto|].
  destruct (negb (_ =? _)); [stays_auto|].
  apply stays_bind; [apply stays_wasEstablished|intros was]. destruct was; [stays_auto|].
  apply stays_look. intros e He. unfold st_bind at 1. unfold on_registry.
  destruct (reserveSource src (ep_next e) (ep_registry e)) as [r [|s|]] eqn:Hr; [by apply reserved_post|..].
  - assert (Hs : inv0 (e <| ep_registry := r |>)).
    { unfold reserveSource in Hr. destruct (bySource _ !! _) eqn:Hb; [|by destruct (addHalfOpenLocked _ _) as [? [|]]].
      injection Hr as <- _. apply inv_hellos; [done|by apply iv_registry in He|done..]. }
    revert Hs. apply (stays_bind (trySend s _)); [apply stays_trySend|intros _]. stays_auto.
  - unfold reserveSource in Hr. destruct (bySource _ !! _) eqn:Hb; [done|].
    unfold addHalfOpenLocked in Hr. destruct (_ <=? _); [|done].
    injection Hr as <-. apply inv_hellos; [done|by apply iv_registry in He|done..].
Qed.

(** Go's order over a map is some order of its entries. *)
Definition env_ok (z : EEnv) : Prop := forall m, z_range z m ≡ₚ map_to_list m.

Lemma stays_cookieGate z src h data : stays (cookieGateRejects z src h data).
Proof. unfold cookieGateRejects. stays_auto. Qed.

Lemma Add_limits range now t src h fragment r : let r' := (Add range now t src h fragment r).1 in
  r_maxSources r' = r_maxSources r /\ r_maxConcurrentPerSource r' = r_maxConcurrentPerSource r /\
  r_maxMessageSize r' = r_maxMessageSize r.
Proof.
  pose (R := fun r r' : Reassembler => r_maxSources r' = r_maxSources r /\
    r_maxConcurrentPerSource r' = r_maxConcurrentPerSource r /\ r_maxMessageSize r' = r_maxMessageSize r).
  assert (PreOrder R) by (split; [by intros ?|intros ? ? ? (?&?&?) (?&?&?); by split_and!; etrans]).
  assert (Ha : forall bufs, keeps R (add_to_source range t src h fragment bufs)).
  { intros bufs. unfold add_to_source. keeps_auto; done. }
  assert (keeps R (Add range now t src h fragment)) as Hk by (unfold Add; keeps_auto; try apply Ha; done).
  apply Hk.
Qed.

Lemma stays_reasm z src h fragment : env_ok z -> fragment_ok h fragment ->
  stays (on_reasm (Add (z_range z) (z_now z) (z_now z) src h fragment)).
Proof.
  intros Hz Hf e He. unfold on_reasm.
  pose proof (Add_ok (z_range z) Hz (z_now z) (z_now z) src h fragment _ (iv_reasm _ _ _ He) Hf) as [Hok _].
  pose proof (Add_limits (z_range z) (z_now z) (z_now z) src h fragment (ep_reasm e)) as (H1 & H2 & H3).
  destruct (Add _ _ _ _ _ _ _) as [r [o|err|]]; cbn in *; [by apply inv_reasm..|done].
Qed.

Lemma stays_route_handshake z src data : env_ok z -> is_bytes data -> stays (route_handshake fips z src data).
Proof.
  intros Hz Hb. unfold route_handshake. apply stays_parse. intros [h fragment] Hp.
  pose proof (ParseDatagramHandshake_nopanic data Hb) as Hh. rw Hp in Hh.
  destruct Hh as (Hh & _ & _ & Hl & _). assert (Hf : fragment_ok h fragment).
  { split; [|rw -Hl; apply len_nonneg]. apply hho_off in Hh. apply Hh. }
  pose proof (stays_reasm z src h fragment Hz Hf). pose proof stays_cookieGate.
  pose proof stays_handleRekey. pose proof stays_deliverHandshake. stays_auto.
Qed.

Lemma stays_routeDatagram z src data : env_ok z -> is_bytes data -> stays (routeDatagram fips z src data).
Proof.
  intros Hz Hb. unfold routeDatagram. pose proof (stays_route_handshake z src data Hz Hb).
  pose proof (stays_route_data z src data Hb). pose proof stays_route_close. pose proof stays_route_retry.
  stays_auto.
Qed.

Lemma stays_route_all z ps : env_ok z -> Forall (fun d => is_bytes d.1) ps -> stays (route_all fips z ps).
Proof.
  intros Hz. induction 1 as [|[data src] ps Hd Hps IH]; cbn [route_all]; [apply stays_ret|].
  intros e He. pose proof (stays_routeDatagram z src data Hz Hd e He) as Hr.
  destruct (routeDatagram _ _ _ _ e) as [e' [u|err|]]; cbn in Hr |- *; [by apply IH..|done].
Qed.

Lemma stays_flushEarly z s : env_ok z -> stays (flushEarly fips z s).
Proof.
  intros Hz. unfold flushEarly. apply stays_look. intros e He.
  destruct (ep_store e !! s) as [ds|] eqn:Hd; [|done].
  pose proof (dk_stash _ (iv_store _ _ _ He _ _ Hd)) as Hs. revert e He Hd.
  enough (H : stays (do! _ := mod_ds s (fun ds => ds <| x_early := [] |> <| x_earlyDone := true |>) in
    route_all fips z (x_early ds))) by (intros; by apply H).
  apply stays_bind; [|intros _].
  - apply stays_mod_ds. intros ds' []. split_and!; [constructor; cbn; by try constructor|done|done].
  - apply stays_route_all; [done|]. eapply Forall_impl; [exact Hs|]. by intros d [_ ?].
Qed.

(** * The handshake loops *)

Lemma inv_settled xs e s : inv xs (Some s) e ->
  (forall l, ep_loops e !! s = Some l -> established (l_driver l) = true -> l_surfaced l = true) -> inv xs None e.
Proof.
  intros [] Hs; constructor; try done. intros s' l Hl _ He. destruct (decide (s' = s)) as [->|Hne]; [by eauto|].
  eapply iv_surfaced0; [done| |done]. by intros [= ->].
Qed.

(** The loop surfaces; the slot of its source is to be given back. *)
Lemma inv_surface e s l : inv None (Some s) e -> ep_loops e !! s = Some l ->
  inv (Some (l_src l)) None (e <| ep_loops := alter (fun l => l <| l_surfaced := true |>) s (ep_loops e) |>).
Proof.
  intros [] Hl; constructor; try done; cbn.
  - intros s' Hs. destruct (iv_next0 s' Hs) as [H1 H2]. split; [done|]. by apply lookup_alter_None.
  - intros src s' H Hx. destruct (iv_owner0 _ _ H ltac:(done)) as (l' & Hl' & Hh).
    exists l'. rw lookup_alter_ne //. intros <-. rw Hl in Hl'. injection Hl' as <-.
    destruct Hh as [Hsrc _]. by apply Hx; rw Hsrc.
  - intros s' l' H _ He. apply lookup_alter_Some in H as [(-> & l0 & H & ->)|[Hne H]]; [done|].
    eapply iv_surfaced0; [done| |done]. by intros [= ->].
Qed.

Lemma loop_send_post xs xl s ms : forall e, inv xs xl e -> post (loop_send s ms e) (fun _ => inv xs xl).
Proof.
  induction ms as [|m ms IH]; intros e He; cbn [loop_send]; [done|]. rw st_bind_get.
  destruct (ep_loops e !! s) as [l|] eqn:Hl; [|done]. destruct (fragmentHandshake _ _ _) as [frames|err|]; [|done..].
  unfold writeAll, mod_loop. rw !st_bind_mod. apply IH. apply inv_mod_loop; [by apply inv_sent|done|].
  intros l' Hx Hl' Hes. by eapply iv_surfaced.
Qed.

Lemma maybeSurface_post z s e : env_ok z -> inv None (Some s) e -> post (maybeSurface fips z s e) (fun _ => inv0).
Proof.
  intros Hz He. unfold maybeSurface. rw st_bind_get. destruct (ep_loops e !! s) as [l|] eqn:Hl.
  2: { eapply inv_settled; [exact He|]. intros l. by rw Hl. }
  destruct (l_surfaced l || negb (established (l_driver l))) eqn:Hc.
  { eapply inv_settled; [exact He|]. intros l' Hl' Hes. rw Hl in Hl'. injection Hl' as <-.
    rw Hes orb_false_r in Hc. done. }
  unfold mod_loop, mod_ds. rw 2!st_bind_mod. rw (st_bind_ok _ _ _ _ _ (unwind_run _ _)).
  pose proof (stays_flushEarly z s Hz). pose proof stays_noteEstablished.
  assert (stays (do! _ := flushEarly fips z s in
    match l_first l with
    | None => st_ret tt
    | Some hello => do! _ := mod_registry (noteEstablished (l_src l) hello (z_now z)) in
        st_mod (fun e => e <| ep_acceptCh := try_push acceptCap s (ep_acceptCh e) |>)
    end)) as Hst.
  { stays_auto. intros e' He'. apply inv_accept; [done|]. apply try_push_le. by destruct He'. }
  apply Hst, inv_unwind, inv_mod_ds; [by apply inv_surface|]. ds_auto.
Qed.

Lemma drive_loop_stays z s m : env_ok z ->
  (forall d d' err, m d = (d', Err err) -> v_status d' = v_status d) -> stays (drive_loop fips z s m).
Proof.
  intros Hz Hm. unfold drive_loop. apply stays_look. intros e He.
  destruct (ep_loops e !! s) as [l|] eqn:Hl; [|done]. destruct (m (l_driver l)) as [d o] eqn:Hd.
  unfold mod_loop. rw st_bind_mod. destruct o as [out|err|]; [| |done].
  - rw (st_bind_lift out) //.
    apply (post_bind _ _ _ (fun _ => inv None (Some s))); [|intros u e' He'; by apply maybeSurface_post].
    apply loop_send_post, inv_mod_loop; [by apply inv_weaken_loop|done|]. by intros l' Hx.
  - apply inv_mod_loop; [done|done|]. intros l' _ Hl' Hes. rw Hl in Hl'. injection Hl' as <-.
    eapply iv_surfaced; [done|exact Hl|done|]. unfold established in *. by rw (Hm _ _ _ Hd) in Hes.
Qed.

Lemma onInbound_err env typ body d d' err :
  onInbound fips env typ body d = (d', Err err) -> v_status d' = v_status d.
Proof.
  intros H. pose proof (on_fsm_quiet fips env typ body d) as Hq.
  unfold onInbound in H. rw st_bind_get in H. case_bool_decide; [done|].
  destruct (established d && negb (lingering d)); [done|]. unfold st_bind at 1 in H.
  destruct (on_fsm _ d) as [d1 [[out complete]|err'|]]; cbn in Hq; [|by injection H as <- _; apply (q_fields _ _ Hq)|done].
  exfalso. rw st_bind_get in H. cbv beta zeta in H. destruct (_ && _ && _); [done|].
  destruct complete; [unfold onComplete in H; rw st_bind_mod st_bind_get in H; by case_bool_decide|].
  destruct (negb _); [done|]. destruct (lingering d1); [|done]. by destruct (_ <=? 0).
Qed.

Lemma stays_mod_loop s f : loop_step f -> (forall l, l_driver (f l) = l_driver l) -> stays (mod_loop s f).
Proof.
  intros Hf Hd e He. apply inv_mod_loop; [done|done|]. intros l Hx Hl. rw Hd. by eapply iv_surfaced.
Qed.

Lemma stays_maybeSurface z s : env_ok z -> stays (maybeSurface fips z s).
Proof. intros Hz e He. by apply maybeSurface_post, inv_weaken_loop. Qed.

Lemma stays_loop_send s ms : stays (loop_send s ms).
Proof. intros e He. by apply loop_send_post. Qed.

Lemma stays_loop_inbound z s : env_ok z -> stays (loop_inbound fips z s).
Proof.
  intros Hz. unfold loop_inbound. apply stays_look. intros e He.
  destruct (ep_store e !! s) as [ds|] eqn:Hd; [|done]. destruct (x_inbox ds) as [|m rest] eqn:Hi; [done|].
  pose proof (dk_inbox _ (iv_store _ _ _ He _ _ Hd)) as Hin. rw Hi len_cons in Hin.
  assert (Hdr : stays (drive_loop fips z s (onInbound fips (z_env z) (in_typ m) (in_body m))))
    by (apply drive_loop_stays; [done|intros *; apply onInbound_err]).
  assert (Hpi : stays (mod_loop s (fun l => l <| l_peerIndex := in_sender m |>))) by by apply stays_mod_loop.
  revert e He Hd. refine (fun e He _ => _ e He). apply stays_bind; [|intros _; stays_auto].
  apply stays_mod_ds. intros ds' []. split_and!; [constructor; cbn; try done; lia|done|done].
Qed.

Lemma stays_loop_timer z s : env_ok z -> stays (loop_timer fips z s).
Proof. intros Hz. apply drive_loop_stays; [done|]. intros d d' err H. by destruct (onTimeout _ _). Qed.

Lemma stays_onRetry s cookie : stays (onRetry s cookie).
Proof.
  pose proof stays_loop_send. unfold onRetry. stays_auto. by apply stays_mod_loop.
Qed.

Lemma stays_loop_retry z s : env_ok z -> stays (loop_retry fips z s).
Proof.
  intros Hz. unfold loop_retry. apply stays_look. intros e He.
  destruct (ep_store e !! s) as [ds|] eqn:Hd; [|done].
  destruct (x_retryCh ds) as [[|cookie rest]|] eqn:Hi; [done| |done].
  pose proof (dk_retry _ (iv_store _ _ _ He _ _ Hd)) as Hin. rw Hi in Hin. cbn in Hin. rw len_cons in Hin.
  pose proof (stays_maybeSurface z s Hz). pose proof stays_onRetry.
  revert e He Hd. refine (fun e He _ => _ e He). apply stays_bind; [|intros _; stays_auto].
  apply stays_mod_ds. intros ds' []. split_and!; [constructor; cbn; try done; lia|done|done].
Qed.

Lemma stays_redeliver z src ms : stays (redeliverHellos z src ms).
Proof. pose proof stays_deliverHandshake. induction ms; cbn [redeliverHellos]; stays_auto. Qed.

(** A loop that is done leaves no slot behind. *)
Lemma finished_slot e s l : inv0 e -> ep_loops e !! s = Some l -> DgramFSM.done (l_driver l) = true ->
  inv0 (if failed (l_driver l)
        then e <| ep_registry := remove (l_localIndex l) (unwound (l_src l) (ep_registry e)) |>
               <| ep_loops := delete s (ep_loops e) |>
        else e <| ep_loops := delete s (ep_loops e) |>).
Proof.
  intros He Hl Hd. unfold DgramFSM.done in Hd. destruct (failed (l_driver l)).
  - apply (inv_weaken_slot _ _ (l_src l)), inv_unwind in He as Hu.
    apply (inv_remove _ _ _ (l_localIndex l)) in Hu as Hr. apply (inv_loop_end _ _ _ s Hr).
    intros src Hb. destruct (iv_owner _ _ _ Hr src s Hb) as (l' & Hl' & Hh); [done|].
    change (ep_loops e !! s = Some l') in Hl'. rw Hl in Hl'. injection Hl' as <-. destruct Hh as [<- _].
    destruct (unwound_fields (l_src l) (ep_registry e) (iv_slots _ _ _ He _)) as (_ & _ & H & _).
    cbn in Hb. by rw H lookup_delete_eq in Hb.
  - cbn in Hd. apply andb_prop in Hd as [Hd _]. apply inv_loop_end; [done|]. intros src Hb.
    destruct (iv_owner _ _ _ He src s Hb) as (l' & Hl' & Hh); [done|]. rw Hl in Hl'. injection Hl' as <-.
    destruct Hh as (_ & _ & Hs). by rw (iv_surfaced _ _ _ He s l Hl) in Hs.
Qed.

Lemma stays_loop_end z s : stays (loop_end z s).
Proof.
  apply stays_look. intros e He. destruct (ep_loops e !! s) as [l|] eqn:Hl; [|done].
  destruct (DgramFSM.done (l_driver l)) eqn:Hd; [|done]. cbn [negb].
  pose proof (finished_slot e s l He Hl Hd) as Hf.
  assert (Hst : stays (match l_first l, ep_store e !! s with
    | Some _, Some ds => do! _ := mod_ds s (fun ds => ds <| x_inbox := [] |>) in
                         redeliverHellos z (l_src l) (x_inbox ds)
    | _, _ => st_ret tt
    end)).
  { pose proof stays_redeliver. stays_auto. apply stays_mod_ds. by ds_auto. }
  destruct (failed (l_driver l)); [|exact (Hst _ Hf)].
  exact (Hst _ Hf).
Qed.

Lemma stays_loop_turn s turn : stays turn -> stays (loop_turn s turn).
Proof. intros Ht. unfold loop_turn. stays_auto. Qed.

(** * Dialling and reaping *)

(** A dialled session before its loop runs. *)
Lemma dialled_inv e rnd dst r idx : inv0 e -> add rnd (ep_next e) (ep_registry e) = (r, Ok idx) ->
  inv0 (indexed (ep_next e) idx r (allocated (new_ds dst true) e)).
Proof.
  intros He Ha. eapply (inv_index_add _ _ (allocated (new_ds dst true) e) _ (new_ds dst true)); [| |done| |exact Ha].
  - apply inv_alloc; [done|]. by constructor; cbn; try done; constructor.
  - cbn. apply lookup_insert_eq.
  - intros i Hi. destruct (iv_index _ _ _ He i _ Hi) as (ds & Hds & _).
    destruct (iv_next _ _ _ He (ep_next e)) as [Hn _]; [lia|]. by rw Hn in Hds.
Qed.

Lemma driver_start_running env c session d ms :
  driver_start fips env (newDriver c session) = (d, Ok ms) -> established d = false.
Proof.
  intros H. unfold driver_start in H. apply st_bind_inv in H as (d1 & a & Hm & H). rw st_bind_mod in H.
  injection H as <- _. unfold on_fsm in Hm. destruct (start _ _ _) as [f o]. injection Hm as <- _.
  apply (newDriver_running c session).
Qed.

Lemma stays_Dial z dst : stays (DialDatagram fips z dst).
Proof.
  unfold DialDatagram. apply stays_look. intros e He. cbv zeta.
  destruct (NewSession _ _ _ _) as [session| |]; [|done..]. rw (st_bind_lift session) //.
  set (session' := session <| s_PinnedServerKey := _ |> <| s_PSK := _ |> <| s_PSKIdentity := _ |>).
  rw (st_bind_ok (alloc _) _ e (allocated (new_ds dst true) e) (ep_next e)) //.
  unfold st_bind at 1. unfold on_registry. change (ep_registry (allocated _ e)) with (ep_registry e).
  pose proof (add_spec (z_idxrnd z) (ep_next e) (ep_registry e)) as Hs.
  assert (Hal : inv0 (allocated (new_ds dst true) e)).
  { apply inv_alloc; [done|]. by constructor; cbn; try done; constructor. }
  destruct (add (z_idxrnd z) (ep_next e) (ep_registry e)) as [r [idx|err|]] eqn:Ha; [|subst r|done].
  2: { apply inv_hellos; [done|by apply iv_registry in He|done..]. }
  rw (st_bind_lift idx) //. unfold mod_ds. rw st_bind_mod.
  pose proof (dialled_inv _ _ dst _ _ He Ha) as Hi. unfold indexed in Hi.
  destruct (driver_start _ _ _) as [d [msgs|err|]] eqn:Hd; [| |done].
  - rw st_bind_mod. apply (post_bind _ _ _ (fun _ => inv0)); [apply loop_send_post|by intros u e' He'].
    eapply (inv_loop_start None); [exact Hi|by apply driver_start_running in Hd| |cbn; lia|done].
    destruct (iv_next _ _ _ He (ep_next e)) as [_ Hl]; [lia|]. exact Hl.
  - unfold mod_registry. rw st_bind_mod. apply inv_remove. exact Hi.
Qed.

Lemma stays_reap ss : stays (reap ss).
Proof. pose proof stays_set_sess. induction ss; cbn [reap]; stays_auto. Qed.

Lemma stays_reapIdle z : stays (reapIdle z).
Proof. apply stays_look. intros e He. by apply stays_reap. Qed.

(** * The application's side *)

Lemma stays_get_ds s : stays (get_ds s).
Proof. unfold get_ds. stays_auto. Qed.

Lemma stays_with_sess {A} s (m : ST Session error A) : stays (with_sess s m).
Proof. unfold with_sess. stays_auto. Qed.

#[local] Hint Resolve stays_get_ds stays_with_sess : endpoint.

Lemma stays_rekey_wanted z s seq : stays (rekey_wanted z s seq).
Proof. unfold rekey_wanted. stays_auto. Qed.

Lemma stays_Send z s p : stays (Send z s p).
Proof. pose proof stays_rekey_wanted. unfold Send. stays_auto. Qed.

Lemma stays_SendBatch gso z s ps : stays (SendBatch gso z s ps).
Proof. pose proof stays_rekey_wanted. unfold SendBatch. stays_auto. Qed.

Lemma stays_Recv data done s : stays (Recv data done s).
Proof.
  unfold Recv. intros e He. unfold get_ds, st_bind. cbn.
  destruct (ep_store e !! s) as [ds|] eqn:Hd; cbn; [|done].
  pose proof (dk_recv _ (iv_store _ _ _ He _ _ Hd)) as Hin.
  destruct (x_recvCh ds) as [|b rest] eqn:Hr; [by destruct (x_closed ds); [|destruct done]|].
  destruct (_ || _); [|done]. apply inv_mod_ds; [done|]. rw len_cons in Hin.
  intros ds' []. split_and!; [constructor; cbn; try done; lia|done|done].
Qed.

(** An operation whose error is dropped. *)
Lemma stays_try {A B} (m : EP A) (f : A -> B) (b : B) : stays m ->
  stays (fun e => match m e with (e, Ok a) => (e, Ok (f a)) | (e, Err _) => (e, Ok b) | (e, Panic) => (e, Panic) end).
Proof. intros Hm e He. specialize (Hm e He). by destruct (m e) as [e' [a| |]]. Qed.

Lemma stays_CloseConn z s : stays (CloseConn z s).
Proof.
  unfold CloseConn. stays_auto. by apply (stays_try _ Some None), stays_with_sess.
Qed.

Lemma stays_Accept : stays Accept.
Proof.
  apply stays_look. intros e He. destruct (ep_acceptCh e) as [|s rest] eqn:Ha; [done|].
  apply inv_accept; [done|]. destruct He. rw Ha len_cons in iv_accept0. lia.
Qed.

Lemma stays_Rekey z s : stays (Rekey z s).
Proof. unfold Rekey. stays_auto. apply stays_mod_ds. ds_auto. Qed.

Lemma stays_rekey_timer s k : stays (rekey_timer s k).
Proof. unfold rekey_timer. stays_auto. Qed.

Lemma stays_rekey_response z s k : stays (rekey_response fips z s k).
Proof.
  unfold rekey_response. intros e He. unfold get_ds. unfold st_bind at 1. cbn.
  destruct (ep_store e !! s) as [ds|] eqn:Hd; cbn; [|done].
  pose proof (dk_rekey _ (iv_store _ _ _ He _ _ Hd)) as Hin.
  destruct (x_rekeyInbox ds) as [[|resp rest]|] eqn:Hr; [done| |done]. cbn in Hin. rw len_cons in Hin.
  revert e He Hd. refine (fun e He _ => _ e He). apply stays_bind; [apply stays_mod_ds|intros _].
  - intros ds' []. split_and!; [constructor; cbn; try done; lia|done|done].
  - by apply (stays_try _ (fun _ => true) false), stays_with_sess.
Qed.

Lemma stays_endRekey s : stays (endRekey s).
Proof. apply stays_mod_ds. ds_auto. Qed.
End RouteInv.

End Invariant.

(** * Any history *)

(** What can happen at an endpoint: a datagram from anyone, a turn of a handshake loop, a tick of
    the reaper, or a call of the application. *)
Inductive ep_event :=
  | EpDatagram (z : EEnv) (src : string) (data : list Z)
  | EpInbound (z : EEnv) (s : ref)
  | EpTimer (z : EEnv) (s : ref)
  | EpRetry (z : EEnv) (s : ref)
  | EpEnd (z : EEnv) (s : ref)
  | EpReap (z : EEnv)
  | EpDial (z : EEnv) (dst : string)
  | EpAccept
  | EpSend (z : EEnv) (s : ref) (p : list Z)
  | EpSendBatch (writeGSO : list Z -> Z -> bool) (z : EEnv) (s : ref) (ps : list (list Z))
  | EpRecv (data done : bool) (s : ref)
  | EpClose (z : EEnv) (s : ref)
  | EpRekey (z : EEnv) (s : ref)
  | EpRekeyTimer (s : ref) (k : rekeyLoop)
  | EpRekeyResponse (z : EEnv) (s : ref) (k : rekeyLoop)
  | EpEndRekey (s : ref).

Definition ignore {A} (m : EP A) : EP unit := do! _ := m in st_ret tt.

Section History.
Context {P : Primitives} {K : KEMPrimitives} (fips : bool).

Definition ep_step (ev : ep_event) : EP unit :=
  match ev with
  | EpDatagram z src data => routeDatagram fips z src data
  | EpInbound z s => loop_turn s (loop_inbound fips z s)
  | EpTimer z s => loop_turn s (loop_timer fips z s)
  | EpRetry z s => loop_turn s (loop_retry fips z s)
  | EpEnd z s => loop_end z s
  | EpReap z => reapIdle z
  | EpDial z dst => ignore (DialDatagram fips z dst)
  | EpAccept => ignore Accept
  | EpSend z s p => ignore (Send z s p)
  | EpSendBatch gso z s ps => ignore (SendBatch gso z s ps)
  | EpRecv data done s => ignore (Recv data done s)
  | EpClose z s => CloseConn z s
  | EpRekey z s => ignore (Rekey z s)
  | EpRekeyTimer s k => ignore (rekey_timer s k)
  | EpRekeyResponse z s k => ignore (rekey_response fips z s k)
  | EpEndRekey s => endRekey s
  end.

(** A history, to its end or to a panic. *)
Fixpoint ep_run (evs : list ep_event) (e : Endpoint) : option Endpoint :=
  match evs with
  | [] => Some e
  | ev :: evs => match ep_step ev e with
                 | (_, Panic) => None
                 | (e, _) => ep_run evs e
                 end
  end.

(** Datagrams are bytes, and Go's map order is an order. *)
Definition event_ok (ev : ep_event) : Prop :=
  match ev with
  | EpDatagram z _ data => env_ok z /\ is_bytes data
  | EpInbound z _ | EpTimer z _ | EpRetry z _ => env_ok z
  | _ => True
  end.

Lemma stays_ignore {A} n (m : EP A) : stays n m -> stays n (ignore m).
Proof. intros Hm. apply stays_bind; [done|intros _; apply stays_ret]. Qed.

Lemma stays_step n ev : event_ok ev -> stays n (ep_step ev).
Proof.
  destruct ev; cbn [event_ok ep_step]; intros Hok.
  - by apply stays_routeDatagram; destruct Hok.
  - by apply stays_loop_turn, stays_loop_inbound.
  - by apply stays_loop_turn, stays_loop_timer.
  - by apply stays_loop_turn, stays_loop_retry.
  - apply stays_loop_end.
  - apply stays_reapIdle.
  - apply stays_ignore, stays_Dial.
  - apply stays_ignore, stays_Accept.
  - apply stays_ignore, stays_Send.
  - apply stays_ignore, stays_SendBatch.
  - apply stays_ignore, stays_Recv.
  - apply stays_CloseConn.
  - apply stays_ignore, stays_Rekey.
  - apply stays_ignore, stays_rekey_timer.
  - apply stays_ignore, stays_rekey_response.
  - apply stays_endRekey.
Qed.

Lemma ep_run_inv n evs : forall e e', inv n None None e -> Forall event_ok evs -> ep_run evs e = Some e' ->
  inv n None None e'.
Proof.
  induction evs as [|ev evs IH]; intros e e' He Hok H; cbn in H; [by injection H as <-|].
  apply Forall_cons in Hok as [Hev Hok]. pose proof (stays_step n ev Hev e He) as Hs.
  destruct (ep_step ev e) as [e1 [u|err|]]; [by eapply IH..|done].
Qed.

Lemma clamp_floor cores : DatagramMaxHalfOpenFloor <= clampMaxHalfOpen cores <= DatagramMaxHalfOpenCeiling.
Proof.
  unfold clampMaxHalfOpen. destruct (Z.ltb_spec (cores * DatagramMaxHalfOpenPerCore) DatagramMaxHalfOpenFloor); [done|].
  destruct (Z.ltb_spec DatagramMaxHalfOpenCeiling (cores * DatagramMaxHalfOpenPerCore)); [done|]. lia.
Qed.

Lemma newEndpoint_inv rnd cores opts e : newEndpoint rnd cores opts = Ok e ->
  inv (maxHalfOpen (ep_registry e)) None None e /\ 1 <= maxHalfOpen (ep_registry e).
Proof.
  intros H. unfold newEndpoint in H. okinv H. clear Hx Hx0 Hx1 Hb.
  set (c := fold_left _ opts default_config) in H.
  assert (Hn : 1 <= c_maxHalfOpen (if c_maxHalfOpen c <? 1 then c <| c_maxHalfOpen := clampMaxHalfOpen cores |> else c)).
  { destruct (Z.ltb_spec (c_maxHalfOpen c) 1); [|done]. cbn. pose proof (clamp_floor cores). unfold DatagramMaxHalfOpenFloor in *. lia. }
  set (n := c_maxHalfOpen _) in H, Hn. injection H as <-. split; [|exact Hn].
  constructor; cbn; try done; [apply registry_new|].
  destruct (NewReassembler_ok 0 0 0). constructor; cbn; [done| |apply map_Forall_empty].
  unfold map_len. rw map_size_empty. lia.
Qed.

Lemma map_sum_ones {A} `{Countable A} {B} (m : gmap A B) :
  map_sum (fun n => n) ((fun _ => 1) <$> m) = map_len m.
Proof.
  unfold map_sum, map_len. rw map_fold_fmap. induction m as [|k v m Hk IH] using map_ind.
  - by rw map_fold_empty map_size_empty.
  - rw (map_fold_insert_L (fun _ _ a => a + 1)) //. rw IH map_size_insert_None //. lia.
Qed.

Lemma slots_len n e : inv n None None e -> map_len (bySource (ep_registry e)) = halfOpenTotal (ep_registry e).
Proof.
  intros []. destruct iv_registry0. rw rg_sum. rw -map_sum_ones. f_equal.
  apply map_eq. intros src. by rw lookup_fmap iv_slots0.
Qed.
End History.

(** C12: what strangers can make an endpoint hold is bounded.  After any history of a new endpoint,
    whatever datagrams came from wherever: at most [n] handshakes are half open, [n] the ceiling it
    was created with; the partial messages of all sources together are at most [n * 4 * 4096]
    bytes; at most 4096 finished hellos are remembered and 16 sessions wait to be accepted; and the
    queues of every session are within their capacities. *)
Theorem endpoint_bounded (P : Primitives) (K : KEMPrimitives) fips rnd cores opts e evs e' :
  newEndpoint rnd cores opts = Ok e -> Forall event_ok evs -> ep_run fips evs e = Some e' ->
  let n := maxHalfOpen (ep_registry e) in
  map_len (bySource (ep_registry e')) <= n /\
  buffered (ep_reasm e') <= n * (DatagramMaxConcurrentReassembly * DatagramMaxHandshakeMessageSize) /\
  map_len (recentHellos (ep_registry e')) <= maxRecentHellos /\
  len (ep_acceptCh e') <= acceptCap /\
  map_Forall (fun _ => ds_ok) (ep_store e').
Proof.
  intros Hn Hok Hr n. destruct (newEndpoint_inv _ _ _ _ Hn) as [He H1]. fold n in He, H1.
  apply (ep_run_inv fips _ _ _ _ He Hok) in Hr as Hi. pose proof (slots_len _ _ Hi) as Hl.
  pose proof (buffered_bound _ (iv_reasm _ _ _ _ Hi)) as Hb.
  destruct Hi. destruct iv_registry0, iv_limits0 as (L1 & L2 & L3 & L4). rw L2 L3 L4 in Hb.
  split_and!; [|by apply Hb|done..]. rw L1 in rg_ceiling. lia.
Qed.


(** ** An endpoint at work *)

Local Abbreviation example_z := (mkEEnv 5 5 (example_draws [16%nat]) (example_draws []) (example_draws [4%nat])
  (example_draws []) (mkEnv (example_draws []) (example_draws []) (example_draws []) 5) map_to_list).

(** A hello in one fragment, one byte long. *)
Definition example_hello : DatagramHandshakeHeader :=
  mkDatagramHandshakeHeader (mkDatagramHeader DatagramFrameHandshake 0 0 0) 1 MessageTypeClientHello 0 1 1 [].

Definition example_history : list ep_event :=
  [EpDatagram example_z "a" (wire_DatagramHandshake example_hello [0]); EpInbound example_z 0%nat;
   EpDatagram example_z "b" [2; 0; 1]; EpReap example_z; EpAccept].

(** A new endpoint after a hello: one half-open responder. *)
Lemma example_history_runs : exists e e', newEndpoint (example_draws [32%nat]) 8 [] = Ok e /\
  @ep_run toy toyKEM false example_history e = Some e' /\
  halfOpenTotal (ep_registry e') = 1 /\ is_Some (bySource (ep_registry e') !! "a"%string).
Proof.
  assert (H : match newEndpoint (example_draws [32%nat]) 8 [] with
    | Ok e => match @ep_run toy toyKEM false example_history e with
              | Some e' => (halfOpenTotal (ep_registry e') =? 1) &&
                           bool_decide (is_Some (bySource (ep_registry e') !! "a"%string))
              | None => false
              end
    | _ => false
    end = true) by (vm_compute; reflexivity).
  destruct (newEndpoint _ _ _) as [e| |]; [|done..]. exists e.
  destruct (ep_run _ _ _) as [e'|]; [|done]. exists e'. apply andb_prop in H as [H1 H2].
  split_and!; [done|done|by apply Z.eqb_eq|by apply bool_decide_eq_true in H2].
Qed.

Lemma example_history_ok : Forall event_ok example_history.
Proof.
  assert (Hz : env_ok example_z) by (by intros m).
  repeat (apply Forall_cons; split); try (split; [exact Hz|by apply is_bytesb_ok]); try exact Hz; by constructor.
Qed.

Lemma endpoint_bounded_witness : exists e e', newEndpoint (example_draws [32%nat]) 8 [] = Ok e /\
  @ep_run toy toyKEM false example_history e = Some e' /\
  map_len (bySource (ep_registry e')) <= maxHalfOpen (ep_registry e).
Proof.
  destruct example_history_runs as (e & e' & He & Hr & _). exists e, e'. split; [exact He|split; [exact Hr|]].
  apply (endpoint_bounded toy toyKEM false _ _ _ e example_history e' He example_history_ok Hr).
Defined.

