(* ===== verification/EndpointData.v ===== *)
(** What datagrams can do to an endpoint: a sent payload is delivered, once; a DATA or CLOSE frame
    that the peer did not seal does nothing; and under load a stranger's HANDSHAKE frame leaves no
    state behind, while its sender is told how to come back. *)

From Corelib Require Import ssreflect.
From stdpp Require Import base tactics list numbers strings gmap.
From Stdlib Require Import ZArith Lia.
From S2P Require Import Prelude Base Messages Codec DatagramCodec Replay Reassembly Fragment Crypto Chkem.
From S2P Require Import Ticket Session DgramSession Handshake DgramFSM Sha256 Admission Registry Endpoint Conn.

Local Open Scope Z_scope.
Local Open Scope go_scope.

Section DataPath.
Context {P : Primitives} {K : KEMPrimitives} (fips : bool).

(** * Frames that are not the peer's *)

(** The frame [data] is one that the peer of [sess] sealed: its body is a ciphertext under the key
    of the epoch it names, its header is the additional data, and its number is not a replay. *)
Definition authentic (z : EEnv) (sess : Session) (hdr : DatagramHeader) (body data : list Z) : Prop :=
  exists c pt w, datagramRecvCipherLocked (z_now z) (dh_Epoch hdr) sess = Some c /\
    body = aead_seal (ae_suite c) (ae_key c) (stream_nonce (s_recvNoncePrefix sess) (dh_Seq hdr)) pt
             (take 14 data) /\
    s_dgramReplay sess = Some w /\ Admissible w (dh_Seq hdr) = Ok true.

Lemma DatagramAAD_take data aad : DatagramAAD data = Ok aad -> aad = take 14 data.
Proof. intros H. apply slice_inv in H as (_ & _ & ->). done. Qed.

Lemma DatagramOpen_cases (PL : PrimitivesLaws P) now coarse epoch seq ct aad s s' o :
  DatagramOpen now coarse epoch seq ct aad s = (s', o) ->
  (s' = s /\ forall pt, o <> Ok pt) \/
  exists c pt, datagramRecvCipherLocked now epoch s = Some c /\
    ct = aead_seal (ae_suite c) (ae_key c) (stream_nonce (s_recvNoncePrefix s) seq) pt aad.
Proof.
  unfold DatagramOpen. rw st_bind_get. destruct (datagramRecvCipherLocked now epoch s) as [c|]; [|by intros [= <- <-]; left].
  rw buildAEADNonce_eq (st_bind_lift _ _ _ _ eq_refl). unfold OpenWithNonce.
  destruct (_ =? _); [|by intros [= <- <-]; left]. destruct (negb _); [|by intros [= <- <-]; left]. cbv beta iota.
  destruct (aead_open _ _ _ _ _) as [pt|] eqn:Hop; [|by intros [= <- <-]; left].
  intros _. right. apply aead_open_only in Hop. by exists c, pt.
Qed.

Lemma authenticate_cases (PL : PrimitivesLaws P) z hdr body data sess sess' o :
  authenticate z hdr body data sess = (sess', o) ->
  authentic z sess hdr body data \/ (sess' = sess /\ match o with Ok (Some _) => False | _ => True end).
Proof.
  intros H. unfold authenticate in H. rw st_bind_get in H.
  destruct (s_dgramReplay sess) as [w|] eqn:Hw; [|by right; injection H as <- <-].
  rw (st_bind_lift w) // in H.
  destruct (Admissible w (dh_Seq hdr)) as [adm|err|] eqn:Ha; [|by right; injection H as <- <-..].
  rw (st_bind_lift adm) // in H. destruct adm; cbn [negb] in H; [|by right; injection H as <- <-].
  destruct (DatagramAAD data) as [aad|err|] eqn:Hd; [|by right; injection H as <- <-..].
  rw (st_bind_lift aad) // in H. apply DatagramAAD_take in Hd as ->.
  destruct (DatagramOpen _ _ _ _ _ _ sess) as [s1 o1] eqn:Ho.
  destruct (DatagramOpen_cases PL _ _ _ _ _ _ _ _ _ Ho) as [[-> Hf]|(c & pt & Hc & Hct)]; [right|left; by exists c, pt, w].
  destruct o1 as [pt|err|]; [by destruct (Hf pt)|..]; by injection H as <- <-.
Qed.

(** A method that leaves the session alone leaves the endpoint alone. *)
Lemma on_sess_same {A} s ds sess (m : ST Session error A) e o : ep_store e !! s = Some ds ->
  x_sess ds = Some sess -> m sess = (sess, o) -> on_sess s sess m e = (e, o).
Proof.
  intros Hd Hs Hm. unfold on_sess. rw Hm. f_equal.
  rw -{3}(upd_id e s ds Hd) /upd. destruct e; cbn in *. rw app_nil_r. f_equal.
  rw -(with_session_id ds sess Hs). apply map_eq. intros s'. destruct (decide (s' = s)) as [->|Hne].
  - by rw lookup_alter_eq Hd lookup_insert_eq.
  - by rw lookup_alter_ne // lookup_insert_ne.
Qed.

Definition data_or_close (data : list Z) : Prop :=
  PeekDatagramType data = Ok DatagramFrameData \/ PeekDatagramType data = Ok DatagramFrameClose.

(** Where a frame is routed. *)
Definition routed (e : Endpoint) (data : list Z) (hdr : DatagramHeader) (body : list Z) (s : ref) (ds : dgSession) : Prop :=
  ParseDatagramHeader data = Ok (hdr, body) /\ lookup_index (dh_RecvIndex hdr) (ep_registry e) = Some s /\
  ep_store e !! s = Some ds.

Definition route_frame (ft : Z) (z : EEnv) (src : string) (data : list Z) : EP unit :=
  if ft =? DatagramFrameData then route_data z src data else route_close z data.

Lemma route_frame_eq ft z src data : PeekDatagramType data = Ok ft ->
  ft = DatagramFrameData \/ ft = DatagramFrameClose -> forall e,
  routeDatagram fips z src data e = route_frame ft z src data e.
Proof. intros Hp Hft e. unfold routeDatagram. rw (st_bind_lift _ _ _ _ Hp). by destruct Hft as [-> | ->]. Qed.

(** What a DATA or CLOSE frame did: nothing, or it was stashed for a handshake that is not done, or
    it is authentic. *)
Definition effect (z : EEnv) (src : string) (data : list Z) (e e' : Endpoint) : Prop :=
  e' = e \/ exists hdr body s ds, routed e data hdr body s ds /\
    match x_sess ds with
    | Some sess => authentic z sess hdr body data
    | None => e' = e <| ep_store := alter (fun ds => (stashEarly data src ds).1) s (ep_store e) |>
    end.

Lemma route_frame_effect (PL : PrimitivesLaws P) ft z src data e e' o :
  route_frame ft z src data e = (e', o) -> effect z src data e e'.
Proof.
  intros H. unfold route_frame, route_data, route_close in H.
  destruct (ParseDatagramHeader data) as [[hdr body]|err|] eqn:Hp;
    [|left; by destruct (ft =? _); injection H as <- _..].
  destruct (lookup_index (dh_RecvIndex hdr) (ep_registry e)) as [s|] eqn:Hs;
    [|left; destruct (ft =? _); rw (st_bind_lift (hdr, body)) // st_bind_get Hs in H; by injection H as <- _].
  destruct (ep_store e !! s) as [ds|] eqn:Hd;
    [|left; destruct (ft =? _); rw (st_bind_lift (hdr, body)) // st_bind_get Hs Hd in H; by injection H as <- _].
  assert (Hr : routed e data hdr body s ds) by by split_and!.
  destruct (x_sess ds) as [sess|] eqn:Hss.
  - destruct (authenticate z hdr body data sess) as [sess' r] eqn:Ha.
    destruct (authenticate_cases PL _ _ _ _ _ _ _ Ha) as [Hau|[-> Hn]];
      [right; exists hdr, body, s, ds; by rw Hss|left].
    pose proof (on_sess_same _ _ _ _ _ _ Hd Hss Ha) as Ho.
    destruct (ft =? _); rw (st_bind_lift (hdr, body)) // st_bind_get Hs Hd Hss in H; unfold st_bind at 1 in H;
      rw Ho in H; destruct r as [[pt|]| |]; try done; by injection H as <- _.
  - destruct (ft =? _); rw (st_bind_lift (hdr, body)) // st_bind_get Hs Hd Hss in H; injection H as <- _;
      [right; exists hdr, body, s, ds; by rw Hss|by left].
Qed.

(** * Delivery *)

(** A number just checked in is no longer admissible. *)
Lemma Check_then_replay w acc seq : window_of w acc -> is_u64 seq -> spec_accepts (w_size w) acc seq = true ->
  exists w', Admissible w seq = Ok true /\ Check_seq w seq = (w', Ok true) /\ Admissible w' seq = Ok false.
Proof.
  intros Hw Hq Hs. destruct (Check_refines w acc seq Hw Hq) as (w' & Hc & Hz & Hw'). rw Hs in Hc, Hw'.
  exists w'. rw (Admissible_predicts_Check w acc seq) // Hc. split_and!; [done|done|].
  rw (Admissible_predicts_Check w' (seq :: acc) seq) //.
  destruct (Check_refines w' (seq :: acc) seq Hw' Hq) as (w2 & -> & _). cbn. f_equal.
  unfold spec_accepts. by rw bool_decide_true; [left|].
Qed.

(** The receiver's session once it accepted a number. *)
Definition accepted_at (coarse : Z) (w : DatagramReplayWindow) (b : Session) : Session :=
  b <| s_lastActivityNanos := coarse |> <| s_dgramReplay := Some w |>.

Lemma authenticate_linked (PL : PrimitivesLaws P) z pi a b cur c p w w' :
  can_seal a cur c -> dgram_linked (z_now z) a b -> s_dgramReplay b = Some w ->
  Admissible w (s_sendSeq a) = Ok true -> Check_seq w (s_sendSeq a) = (w', Ok true) ->
  authenticate z (mkDatagramHeader DatagramFrameData (de_epoch cur) pi (s_sendSeq a))
    (drop 14 (data_frame pi a cur c p)) (data_frame pi a cur c p) b
  = (accepted_at (z_coarse z) w' b, Ok (Some p)).
Proof.
  intros [Hs _] (cur' & c' & rc & Hs' & Hrc & Hcs & Hk & Hpre) Hw Ha Hc. rw Hs in Hs'. injection Hs' as <- <-.
  assert (H14 : length (data_header pi a cur) = 14%nat).
  { pose proof (len_wire_DatagramHeader (mkDatagramHeader DatagramFrameData (de_epoch cur) pi (s_sendSeq a))) as H.
    unfold len in H. fold (data_header pi a cur) in H. lia. }
  unfold authenticate. rw st_bind_get Hw (st_bind_lift w) // (st_bind_lift true) //. cbn [negb dh_Epoch dh_Seq].
  assert (Haad : DatagramAAD (data_frame pi a cur c p) = Ok (data_header pi a cur)).
  { unfold DatagramAAD, data_frame. apply (slice_at _ 0 _ _ 14 (at_off_0 _)). unfold len. lia. }
  rw (st_bind_lift _ _ _ _ Haad). unfold data_frame at 1. rw drop_app_length' //.
  unfold DatagramOpen. rw st_bind_get Hrc buildAEADNonce_eq (st_bind_lift _ _ _ _ eq_refl) Hpre.
  fold (stream_nonce (s_sendNoncePrefix a) (s_sendSeq a)).
  rw (st_bind_lift p); [by apply OpenWithNonce_peer; [..|apply len_stream_nonce]|].
  rw st_bind_mod. cbn [st_ret s_dgramReplay]. unfold st_ret. cbn. rw Hw Hc. done.
Qed.

Lemma authenticate_replay z hdr body data b w : s_dgramReplay b = Some w -> Admissible w (dh_Seq hdr) = Ok false ->
  authenticate z hdr body data b = (b, Ok None).
Proof. intros Hw Ha. unfold authenticate. by rw st_bind_get Hw (st_bind_lift w) // Ha. Qed.

(** What a delivered payload does to its session. *)
Definition received (src : string) (p : list Z) (b : Session) (ds : dgSession) : dgSession :=
  ds <| x_peerAddr := Some src |>
     <| x_sess := Some (b <| s_BytesReceived := i64 (s_BytesReceived b + len p) |>
                          <| s_PacketsRecv := i64 (s_PacketsRecv b + 1) |>) |>
     <| x_recvCh := try_push dataInboxCap p (x_recvCh ds) |>.

Lemma on_sess_upd {A} e r ds out sess (m : ST Session error A) sess' o : m sess = (sess', o) ->
  on_sess r sess m (upd e r ds out) = (upd e r (with_session ds sess') out, o).
Proof.
  intros Hm. unfold on_sess. rw Hm. f_equal. unfold upd. cbn. f_equal. by rw alter_insert_eq.
Qed.

Lemma roam addr src : (if addrEqual addr (Some src) then addr else Some src) = Some src.
Proof. unfold addrEqual. by case_bool_decide. Qed.

Lemma data_frame_peek pi a cur c p : PeekDatagramType (data_frame pi a cur c p) = Ok DatagramFrameData.
Proof.
  unfold PeekDatagramType, data_frame, data_header. rw len_app len_wire_DatagramHeader.
  set (ct := aead_seal _ _ _ _ _). pose proof (len_nonneg ct).
  destruct (Z.ltb_spec (14 + len ct) DatagramHeaderSize) as [Hlt|_]; [golia|done].
Qed.

Lemma data_frame_parse pi a cur c p :
  let h := mkDatagramHeader DatagramFrameData (de_epoch cur) pi (s_sendSeq a) in DatagramHeader_ok h ->
  ParseDatagramHeader (data_frame pi a cur c p) = Ok (h, drop 14 (data_frame pi a cur c p)).
Proof.
  intros h Hh. unfold data_frame. by rw ParseDatagramHeader_wire.
Qed.

Lemma route_delivers (PL : PrimitivesLaws P) z src pi a b cur c p w w' e s ds :
  DatagramHeader_ok (mkDatagramHeader DatagramFrameData (de_epoch cur) pi (s_sendSeq a)) ->
  can_seal a cur c -> dgram_linked (z_now z) a b -> s_dgramReplay b = Some w ->
  Admissible w (s_sendSeq a) = Ok true -> Check_seq w (s_sendSeq a) = (w', Ok true) ->
  lookup_index pi (ep_registry e) = Some s -> ep_store e !! s = Some ds -> x_sess ds = Some b ->
  routeDatagram fips z src (data_frame pi a cur c p) e
  = (upd e s (received src p (accepted_at (z_coarse z) w' b) ds) [], Ok tt).
Proof.
  intros Hh Hc Hl Hw Ha Hck Hi Hd Hb. rw (route_frame_eq DatagramFrameData _ _ _ (data_frame_peek _ _ _ _ _)); [by left|].
  unfold route_frame, route_data. cbn [Z.eqb]. rw Z.eqb_refl.
  erewrite st_bind_lift; [|by apply data_frame_parse]. cbv beta iota. rw st_bind_get. cbn [dh_RecvIndex]. rw Hi Hd Hb.
  rw -{1}(upd_id e s ds Hd).
  erewrite st_bind_ok; [|apply on_sess_upd; by eapply authenticate_linked].
  unfold mod_ds, st_mod. f_equal. unfold upd. cbn. f_equal. rw alter_insert_eq. f_equal. unfold received. cbn.
  by rw roam.
Qed.

Lemma route_replays z src pi a b cur c p w e s ds :
  DatagramHeader_ok (mkDatagramHeader DatagramFrameData (de_epoch cur) pi (s_sendSeq a)) ->
  s_dgramReplay b = Some w -> Admissible w (s_sendSeq a) = Ok false ->
  lookup_index pi (ep_registry e) = Some s -> ep_store e !! s = Some ds -> x_sess ds = Some b ->
  routeDatagram fips z src (data_frame pi a cur c p) e = (e, Ok tt).
Proof.
  intros Hh Hw Ha Hi Hd Hb. rw (route_frame_eq DatagramFrameData _ _ _ (data_frame_peek _ _ _ _ _)); [by left|].
  unfold route_frame, route_data. rw Z.eqb_refl.
  erewrite st_bind_lift; [|by apply data_frame_parse]. cbv beta iota. rw st_bind_get. cbn [dh_RecvIndex]. rw Hi Hd Hb.
  erewrite st_bind_ok; [|eapply on_sess_same; [exact Hd|exact Hb|by eapply authenticate_replay]]. done.
Qed.

Lemma Send_inv z s p e e' r ds sess : Send z s p e = (e', Ok r) -> ep_store e !! s = Some ds ->
  x_sess ds = Some sess -> exists cur c, len p <= DatagramMaxDataPayload /\ can_seal sess cur c /\
    ep_sent e' = ep_sent e ++ to_peer ds [data_frame (x_peerIndex ds) sess cur c p].
Proof.
  intros H Hd Hs. assert (Hp : len p <= DatagramMaxDataPayload).
  { unfold Send in H. destruct (Z.ltb_spec DatagramMaxDataPayload (len p)); [done|lia]. }
  rw -(upd_id e s ds Hd) -(with_session_id ds sess Hs) in H.
  assert (Hc : exists cur c, can_seal sess cur c).
  { unfold Send in H. stinv_step H. rw (st_bind_ok _ _ _ _ _ (get_ds_upd _ _ _ _)) in H.
    apply st_bind_inv in H as (e1 & x & Hm & _). rw with_sess_upd in Hm.
    destruct (seal_frame _ _ _ _ _) as [s1 o] eqn:Hf. injection Hm as _ ->. by eapply seal_frame_inv. }
  destruct Hc as (cur & c & Hc). exists cur, c. split_and!; [done|done|].
  destruct (send_upd z e s ds [] sess p cur c Hp Hc) as (b & Hsend & _). rw Hsend in H. by injection H as <- _.
Qed.
End DataPath.

(** * The cookie gate *)

Lemma issue_verifies cs t now addr : - 2 ^ 63 <= t < 2 ^ 63 -> 0 <= now - t <= Cookie.cookieLifetime ->
  Cookie.verify cs now addr (Cookie.issue cs t addr) = true.
Proof.
  intros Ht Hw. unfold Cookie.issue. rw CookieProofs.verify_split; [by rw len_be_put|exact: CookieProofs.mac_len|].
  rw be_val_put Z.mod_small; [apply Z.mod_pos_bound; lia|]. rw CookieProofs.i64_u64 //.
  rw andb_true_iff CookieProofs.within_lifetime bool_decide_eq_true. done.
Qed.

Lemma issue_len cs t addr : len (Cookie.issue cs t addr) = 40.
Proof. unfold Cookie.issue. by rw len_app len_be_put CookieProofs.mac_len. Qed.

Lemma gate_passes z src h data e : Cookie.verify (ep_cookie e) (z_now z) src (hh_Cookie h) = true ->
  cookieGateRejects z src h data e = (e, Ok false).
Proof.
  intros Hv. unfold cookieGateRejects. rw st_bind_get. destruct (negb _); [done|].
  destruct (knownSource _ _ _); [done|]. by rw Hv.
Qed.

Lemma upd_sent_nil e : e <| ep_sent := ep_sent e ++ [] |> = e.
Proof. destruct e. cbn. by rw app_nil_r. Qed.

(** C14: a frame the peer did not seal does nothing.  Whatever DATA or CLOSE datagram arrives, from
    whatever address, either the endpoint is left exactly as it was, or the frame was held back for
    a session whose handshake is still running, or its body is a ciphertext under the receive key
    of the session and epoch it names, with its own header as additional data, and its number was
    not seen before: only such a frame can deliver data, move the peer's address or close the
    session. *)
Theorem unauthentic_inert (P : Primitives) (PL : PrimitivesLaws P) (K : KEMPrimitives) fips z src data e e' o :
  data_or_close data -> routeDatagram fips z src data e = (e', o) -> effect z src data e e'.
Proof.
  intros [Hp|Hp] H; (erewrite (route_frame_eq fips) in H; [|exact Hp|by auto]); by eapply route_frame_effect.
Qed.


(** C16: under load a stranger leaves no state behind.  When the endpoint is under pressure, a
    HANDSHAKE datagram from a source it does not know, without a valid cookie, changes nothing but
    that one RETRY of 54 bytes may be sent back to where it came from, if it is the first fragment
    of a ClientHello and not shorter than that: the answer never amplifies.  The RETRY carries a
    cookie, and for ten seconds any frame from the same source that echoes it passes the gate. *)
Theorem cookie_gate (P : Primitives) (K : KEMPrimitives) fips z src data e h fragment :
  is_bytes data -> PeekDatagramType data = Ok DatagramFrameHandshake ->
  ParseDatagramHandshake data = Ok (h, fragment) -> underCookiePressure e = true ->
  knownSource (dh_RecvIndex (hh_Header h)) src (ep_registry e) = false ->
  Cookie.verify (ep_cookie e) (z_now z) src (hh_Cookie h) = false -> - 2 ^ 63 <= z_now z < 2 ^ 63 ->
  exists retry ck, len retry = 54 /\ ParseDatagramRetry retry = Ok (hh_SenderIndex h, ck) /\
    routeDatagram fips z src data e
    = (e <| ep_sent := ep_sent e ++ (if (hh_MsgType h =? MessageTypeClientHello) && (hh_FragOffset h =? 0) &&
                                        (len retry <=? len data) then [(retry, src)] else []) |>, Ok tt) /\
    forall z' h' data' e', ep_cookie e' = ep_cookie e -> hh_Cookie h' = ck ->
      0 <= z_now z' - z_now z <= Cookie.cookieLifetime ->
      cookieGateRejects z' src h' data' e' = (e', Ok false).
Proof.
  intros Hby Hp Hh Hpr Hk Hv Ht. pose proof (ParseDatagramHandshake_nopanic data Hby) as Hok. rw Hh in Hok.
  destruct Hok as (Hok & _). apply hho_sender in Hok.
  set (hdr := mkDatagramHeader DatagramFrameRetry 0 (hh_SenderIndex h) 0).
  set (ck := Cookie.issue (ep_cookie e) (z_now z) src).
  exists (wire_DatagramHeader hdr ++ ck), ck. split_and!.
  - by rw len_app len_wire_DatagramHeader issue_len.
  - unfold ParseDatagramRetry. rw ParseDatagramHeader_wire; [by split|]. done.
  - unfold routeDatagram. rw (st_bind_lift _ _ _ _ Hp). rw Z.eqb_refl. unfold route_handshake.
    rw (st_bind_lift _ _ _ _ Hh). cbv beta iota. unfold cookieGateRejects, st_bind at 1. rw st_bind_get Hpr Hk Hv. cbn [negb].
    rw (st_bind_lift _ _ _ _ (EncodeDatagramRetry_wire _ _)). fold hdr ck.
    destruct (_ && _); [done|]. by rw upd_sent_nil.
  - intros z' h' data' e' Hc Hck Hw. apply gate_passes. rw Hc Hck. by apply issue_verifies.
Qed.

(** ** Example *)

(** The endpoint of the responder, which gave its session the index 9. *)
Definition example_receiver : Endpoint :=
  let e := example_endpoint (example_dgram RoleResponder) in
  e <| ep_registry := (ep_registry e) <| byIndex := {[ 9 := 0%nat ]} |> |>.

(** A DATA frame for it with a body that no one sealed. *)
Definition example_forged : list Z :=
  wire_DatagramHeader (mkDatagramHeader DatagramFrameData 0 9 5) ++ replicate 20 1.

Lemma unauthentic_inert_witness :
  data_or_close example_forged /\
  @effect toy example_env "mallory" example_forged example_receiver
    (@routeDatagram toy toyKEM false example_env "mallory" example_forged example_receiver).1.
Proof.
  assert (Hd : data_or_close example_forged) by (left; vm_compute; reflexivity). split; [exact Hd|].
  exact (unauthentic_inert toy toy_laws toyKEM false example_env "mallory" example_forged example_receiver _ _
    Hd (surjective_pairing _)).
Defined.


(** The first fragment of a hello, at an endpoint under pressure. *)
Definition example_first : DatagramHandshakeHeader :=
  mkDatagramHandshakeHeader (mkDatagramHeader DatagramFrameHandshake 0 0 0) 77 MessageTypeClientHello 0 40 90 [].

Lemma cookie_gate_witness :
  let e := example_receiver <| ep_highWater := 0 |> in
  exists retry ck, len retry = 54 /\ ParseDatagramRetry retry = Ok (77, ck) /\
    (@routeDatagram toy toyKEM false example_env "b" (wire_DatagramHandshake example_first (replicate 40 2)) e).1
    = e <| ep_sent := [(retry, "b"%string)] |>.
Proof.
  intros e.
  destruct (cookie_gate toy toyKEM false example_env "b" (wire_DatagramHandshake example_first (replicate 40 2)) e
    example_first (replicate 40 2)) as (retry & ck & Hl & Hp & Hr & _).
  - apply is_bytesb_ok. reflexivity.
  - reflexivity.
  - vm_compute. reflexivity.
  - reflexivity.
  - reflexivity.
  - reflexivity.
  - vm_compute. split; [discriminate|reflexivity].
  - exists retry, ck. split; [exact Hl|split; [exact Hp|]]. rw Hr Hl. reflexivity.
Defined.
