(* ===== verification/Batch.v ===== *)
(** Sockets and their receive loops: the batched reads and writes of [pkg/tunnel/dgram_batch.go]
    and [dgram_batch_linux.go], the sockets of [dgram_reuseport_linux.go], [ListenDatagram], [Serve]
    and [Close] of [datagram.go], and the clock of [coarsetime.go].

    A system call is its result, an argument.  A socket is its number in the order of opening; what
    is done to sockets is a trace of opens and closes.  [ParseSocketControlMessage] and the byte
    order of the machine are parameters. *)

From Corelib Require Import ssreflect.
From stdpp Require Import base tactics list numbers strings gmap relations sorting.
From Stdlib Require Import ZArith Lia.
From S2P Require Import Prelude Base Reassembly Crypto Chkem Session Endpoint Conn EndpointInv.

Local Open Scope Z_scope.
Local Open Scope go_scope.

(** * Batched reads and writes *)

Definition DatagramBatchSize : Z := 32.
Definition groReadBufferSize : Z := 65536.
Definition groBatchSize : Z := 8.

(** A received [ipv4.Message]: [Buffers[0][:N]], [OOB[:NN]] and the source. *)
Record message := mkMessage {
  m_data : list Z;
  m_oob : list Z;
  m_addr : string }.

(** A control message: level, type and data. *)
Record cmsg := mkCmsg { cm_level : Z; cm_type : Z; cm_data : list Z }.

Definition SOL_UDP : Z := 17.
Definition UDP_SEGMENT : Z := 103.
Definition UDP_GRO : Z := 104.

(** The two implementations of [batchIO]; [gso] is the atomic flag of the second. *)
Inductive batchIO :=
  | fallbackIO
  | linuxBatchIO (gro gso : bool).

(** [newBatchIO]: whether the connection is a UDP socket and what the two probes answer. *)
Definition newBatchIO (udp gro enableGRO probeGSO : bool) : batchIO :=
  if udp then linuxBatchIO (gro && enableGRO) (gro && probeGSO) else fallbackIO.

(** The number of slots and the size of their buffers. *)
Definition read_slots (b : batchIO) : Z * Z :=
  match b with
  | fallbackIO => (1, DatagramMTU + 512)
  | linuxBatchIO true _ => (groBatchSize, groReadBufferSize)
  | linuxBatchIO false _ => (DatagramBatchSize, DatagramMTU + 512)
  end.

(** [for off := 0; off < len(data); off += segSize], at most once per byte. *)
Fixpoint split_loop (fuel : nat) (data : list Z) (segSize off : Z) : outcome error (list (list Z)) :=
  if off <? len data then
    match fuel with
    | O => Panic
    | S fuel =>
        let e := off + segSize in
        let e := if len data <? e then len data else e in
        let! seg := slice data off e in
        let! r := split_loop fuel data segSize (off + segSize) in
        Ok (seg :: r)
    end
  else Ok [].

Definition splitSegments (data : list Z) (segSize : Z) : outcome error (list (list Z)) :=
  if (segSize <=? 0) || (len data <=? segSize) then Ok [data]
  else split_loop (length data) data segSize 0.

Section Sockets.
Context (ParseSocketControlMessage : list Z -> option (list cmsg)) (native_Uint32 : list Z -> Z).

Definition groSegmentSize (oob : list Z) : Z :=
  if len oob =? 0 then 0
  else
    match ParseSocketControlMessage oob with
    | None => 0
    | Some msgs =>
        match List.find (fun m => (cm_level m =? SOL_UDP) && (cm_type m =? UDP_GRO) && (4 <=? len (cm_data m))) msgs with
        | Some m => native_Uint32 (cm_data m)
        | None => 0
        end
    end.

(** The calls of [dispatch] for one message, and for the messages of one read, in order. *)
Definition dispatch_message (gro : bool) (m : message) : outcome error (list (string * list Z)) :=
  let segSize := if gro then groSegmentSize (m_oob m) else 0 in
  let! segs := splitSegments (m_data m) segSize in
  Ok (map (pair (m_addr m)) segs).

Fixpoint dispatch_messages (gro : bool) (ms : list message) : outcome error (list (string * list Z)) :=
  match ms with
  | [] => Ok []
  | m :: ms =>
      let! ds := dispatch_message gro m in
      let! r := dispatch_messages gro ms in
      Ok (ds ++ r)
  end.

Definition recv (b : batchIO) (ms : list message) : outcome error (list (string * list Z)) :=
  match b with
  | fallbackIO => Ok (map (fun m => (m_addr m, m_data m)) (take 1 ms))
  | linuxBatchIO gro _ => dispatch_messages gro ms
  end.
End Sockets.

(** The errors that say that segmentation is unsupported, and the others. *)
Inductive errno := EIO | EINVAL | ENOPROTOOPT | EOPNOTSUPP | EOther.

(** [writeGSO]: what it leaves of the flag and what it reports, from the result of [WriteBatch];
    [None] where it does not call it. *)
Definition gso_allowed (b : batchIO) (segSize : Z) : bool :=
  match b with
  | fallbackIO => false
  | linuxBatchIO _ gso => gso && (0 <? segSize) && (segSize <=? 0xFFFF)
  end.

Definition writeGSO (b : batchIO) (segSize n : Z) (err : option errno) : batchIO * bool :=
  if negb (gso_allowed b segSize) then (b, false)
  else
    match b, err with
    | linuxBatchIO _ _, None => (b, n =? 1)
    | linuxBatchIO gro _, Some (EIO | EINVAL | ENOPROTOOPT | EOPNOTSUPP) => (linuxBatchIO gro false, false)
    | _, _ => (b, false)
    end.

(** * Opening and closing *)

Definition DatagramMaxReceiveSockets : Z := 8.

Inductive socket_op := Opened (s : nat) (addr : string) | Closed (s : nat).

(** [listenReusePort]: [bind s addr] is the address socket [s] is bound to when asked for [addr], or
    the error; [n] more sockets, the next one [s], those open and the trace so far. *)
Fixpoint bind_sockets (bind : nat -> string -> string + error) (n s : nat) (addr : string) (conns : list nat)
    (trace : list socket_op) : list socket_op * outcome error (list nat) :=
  match n with
  | O => (trace, Ok conns)
  | S n =>
      match bind s addr with
      | inr err => (trace ++ map Closed conns, Err err)
      | inl bound => bind_sockets bind n (S s) bound (conns ++ [s]) (trace ++ [Opened s bound])
      end
  end.

Definition listenReusePort (bind : nat -> string -> string + error) (addr : string) (n : nat)
    : list socket_op * outcome error (list nat) := bind_sockets bind n 0 addr [] [].

Definition receive_sockets (wanted cores : Z) : Z :=
  let n := if wanted <=? 0 then cores else wanted in
  let n := if DatagramMaxReceiveSockets <? n then DatagramMaxReceiveSockets else n in
  if n <? 1 then 1 else n.

Definition ListenDatagram (bind : nat -> string -> string + error) (addr : string) (wanted : Z)
    (rnd : Draws) (cores : Z) (opts : list (Config -> Config))
    : list socket_op * outcome error (Endpoint * list nat) :=
  match listenReusePort bind addr (Z.to_nat (receive_sockets wanted cores)) with
  | (trace, Ok conns) =>
      match newEndpoint rnd cores opts with
      | Ok e => (trace, Ok (e, conns))
      | Err err => (trace ++ map Closed conns, Err err)
      | Panic => (trace, Panic)
      end
  | (trace, Err err) => (trace, Err err)
  | (trace, Panic) => (trace, Panic)
  end.

(** The first error in order. *)
Definition first_error (errs : list (option error)) : option error := head (omap id errs).

(** [Close]: [closed] is [closeOnce], [close_err] what closing each socket returns. *)
Definition Close_endpoint (close_err : nat -> option error) (conns : list nat) (st : bool * list socket_op)
    : (bool * list socket_op) * option error :=
  if st.1 then (st, None)
  else ((true, st.2 ++ map Closed conns), first_error (map close_err conns)).

(** * Serving *)

(** One receive goroutine: what it read, what it has dispatched, what is left of the batch it is in;
    it has returned when [lp_live] is false. *)
Record recvLoop := mkRecvLoop {
  lp_io : batchIO;
  lp_live : bool;
  lp_pending : list (string * list Z);
  lp_read : list (string * list Z);
  lp_done : list (string * list Z) }.

Record Serving := mkServing { sv_ep : Endpoint; sv_loops : list recvLoop }.

(** [Serve] starts one loop per socket. *)
Definition Serve (ios : list batchIO) (e : Endpoint) : Serving :=
  mkServing e (map (fun b => mkRecvLoop b true [] [] []) ios).

Definition Serve_returned (sv : Serving) : bool := forallb (fun l => negb (lp_live l)) (sv_loops sv).

Section Serving.
Context {P : Primitives} {K : KEMPrimitives} (fips : bool).
Context (parse : list Z -> option (list cmsg)) (native : list Z -> Z).

(** The turns of the goroutines: a read that returns a batch, a read that fails, one [dispatch]
    with its error ignored, and whatever else happens to the endpoint. *)
Inductive serve_step : Serving -> Serving -> Prop :=
  | serve_read sv i l ms ds : sv_loops sv !! i = Some l -> lp_live l = true -> lp_pending l = [] ->
      Forall (fun m => is_bytes (m_data m)) ms -> recv parse native (lp_io l) ms = Ok ds ->
      serve_step sv (mkServing (sv_ep sv)
        (<[i := mkRecvLoop (lp_io l) true ds (lp_read l ++ ds) (lp_done l)]> (sv_loops sv)))
  | serve_error sv i l : sv_loops sv !! i = Some l -> lp_live l = true -> lp_pending l = [] ->
      serve_step sv (mkServing (sv_ep sv)
        (<[i := mkRecvLoop (lp_io l) false [] (lp_read l) (lp_done l)]> (sv_loops sv)))
  | serve_dispatch sv i l z src data rest e o : sv_loops sv !! i = Some l -> lp_pending l = (src, data) :: rest ->
      env_ok z -> routeDatagram fips z src data (sv_ep sv) = (e, o) -> o <> Panic ->
      serve_step sv (mkServing e
        (<[i := mkRecvLoop (lp_io l) (lp_live l) rest (lp_read l) (lp_done l ++ [(src, data)])]> (sv_loops sv)))
  | serve_event sv ev e o : event_ok ev -> ep_step fips ev (sv_ep sv) = (e, o) -> o <> Panic ->
      serve_step sv (mkServing e (sv_loops sv)).
End Serving.

(** * The coarse clock *)

(** [coarseOnce] and [coarseNanos]. *)
Record coarseClock := mkCoarse { cc_started : bool; cc_nanos : Z }.

Definition startCoarseClock (now : Z) : coarseClock := mkCoarse true now.

Definition coarseTimeNanos (now : Z) (c : coarseClock) : coarseClock * Z :=
  let c := if cc_started c then c else startCoarseClock now in
  (c, cc_nanos c).

(** The ticker's goroutine, which the start has created. *)
Definition coarse_tick (now : Z) (c : coarseClock) : coarseClock :=
  if cc_started c then mkCoarse true now else c.

(** * Splitting *)

Lemma slice_take (d : list Z) a b : 0 <= a <= b /\ b <= len d ->
  slice d a b = Ok (E := error) (take (Z.to_nat (b - a)) (drop (Z.to_nat a) d)).
Proof. intros H. unfold slice. by replace ((0 <=? a) && (a <=? b) && (b <=? len d)) with true by blia. Qed.

Lemma split_loop_segments data seg : 0 < seg -> forall fuel off, 0 <= off -> len data - off <= Z.of_nat fuel ->
  split_loop fuel data seg off = Ok (segments fuel seg (drop (Z.to_nat off) data)).
Proof.
  intros Hs. induction fuel as [|fuel IH]; intros off Ho Hf; cbn [split_loop segments].
  { destruct (Z.ltb_spec off (len data)); [lia|done]. }
  destruct (Z.ltb_spec off (len data)) as [H|H].
  - set (e := if len data <? off + seg then len data else off + seg).
    assert (He : off <= e <= len data /\ e <= off + seg /\ (e = off + seg \/ e = len data)).
    { unfold e. destruct (Z.ltb_spec (len data) (off + seg)); lia. }
    rw slice_take; [lia|]. cbn [obind]. rw IH; [lia..|]. cbn [obind].
    destruct (drop (Z.to_nat off) data) as [|x r] eqn:D.
    { exfalso. apply (f_equal length) in D. rw length_drop in D. cbn in D. unfold len in *. lia. }
    do 2 f_equal. 2: { rw -D drop_drop. do 2 f_equal. lia. }
    rw -D. destruct He as (_ & Hle & [E|E]); rw E; [by replace (off + seg - off) with seg by lia|].
    rw E in Hle. by rw !take_ge; [rw length_drop; unfold len in *; lia..|].
  - rw (drop_ge data); [unfold len in H; lia|done].
Qed.

(** Segments in order are the data: none is lost, repeated or cut. *)
Lemma segments_concat seg : 0 < seg -> forall fuel b, (length b <= fuel)%nat -> concat (segments fuel seg b) = b.
Proof.
  intros Hs. induction fuel as [|fuel IH]; intros [|x b] H; cbn [segments concat]; [done|cbn in H; lia|done|].
  rw IH; [rw length_drop; cbn [length] in *; lia|]. apply take_drop.
Qed.

Lemma segments_enough seg fs : uniform seg fs -> Forall nonempty fs -> 0 < seg -> forall fuel,
  (length fs <= fuel)%nat -> segments fuel seg (concat fs) = fs.
Proof.
  intros Hu Hn Hs. induction fs as [|f fs IH]; intros fuel Hf; [by destruct fuel|].
  inversion Hn as [|? ? Hf1 Hfs]; subst. destruct fuel as [|fuel]; [cbn in Hf; lia|]. destruct f as [|b f]; [done|].
  cbn [concat segments app]. change (b :: f ++ concat fs) with ((b :: f) ++ concat fs).
  assert (Hc : fs = [] /\ len (b :: f) <= seg \/ len (b :: f) = seg /\ uniform seg fs).
  { destruct fs; [by left|by right]. }
  cbn [length] in Hf. destruct Hc as [[-> Hle]|[Hl Hu']].
  - cbn [concat]. rw app_nil_r take_ge ?drop_ge; [unfold len in Hle; lia..|]. by destruct fuel.
  - assert (Hl' : length (b :: f) = Z.to_nat seg) by (unfold len in Hl; lia).
    rw take_app_length' // drop_app_length' //. by rw IH; [done|done|lia|].
Qed.

Lemma splitSegments_frames seg fs : fs <> [] -> uniform seg fs -> Forall nonempty fs -> 0 < seg ->
  splitSegments (concat fs) seg = Ok fs.
Proof.
  intros Hne Hu Hn Hs. unfold splitSegments. replace (seg <=? 0) with false by blia. cbn [orb].
  destruct (Z.leb_spec (len (concat fs)) seg) as [Hl|Hl].
  - destruct fs as [|f [|g fs]]; [done|by cbn; rw app_nil_r|]. exfalso. destruct Hu as [Hf _].
    apply Forall_cons in Hn as [_ Hn]. apply Forall_cons in Hn as [Hg _]. unfold nonempty in Hg. cbn [concat] in Hl.
    rw !len_app in Hl. pose proof (len_nonneg (concat fs)). lia.
  - rw split_loop_segments; [done|lia|unfold len; lia|]. cbn [drop]. rw segments_enough //.
    clear -Hn. induction Hn as [|f fs Hf _ IH]; [done|]. cbn. rw length_app. unfold nonempty, len in Hf. lia.
Qed.

(** Whatever the control message says, the split loses nothing. *)
Lemma splitSegments_total data seg : exists segs, splitSegments data seg = Ok segs /\ concat segs = data.
Proof.
  unfold splitSegments. destruct (Z.leb_spec seg 0) as [|Hs]; [exists [data]; cbn; by rw app_nil_r|].
  destruct (Z.leb_spec (len data) seg); cbn [orb]; [exists [data]; cbn; by rw app_nil_r|].
  rw split_loop_segments; [done|lia|unfold len; lia|]. eexists. split; [done|]. by apply segments_concat.
Qed.

(** A message that the kernel made of the datagrams [fs] of one source: one of them as it is, or
    several of the size it reports, the last perhaps shorter. *)
Definition coalesced (parse : list Z -> option (list cmsg)) (native : list Z -> Z) (m : message)
    (fs : list (list Z)) : Prop :=
  fs <> [] /\ Forall nonempty fs /\ m_data m = concat fs
  /\ (groSegmentSize parse native (m_oob m) <= 0 /\ length fs = 1%nat
      \/ 0 < groSegmentSize parse native (m_oob m) /\ uniform (groSegmentSize parse native (m_oob m)) fs).

Definition datagrams_of (m : message) (fs : list (list Z)) : list (string * list Z) := map (pair (m_addr m)) fs.

(** Receive offload is transparent.  When the kernel coalesces the datagrams of each flow into
    batches of messages, the receive loop dispatches exactly the datagrams that arrived, each with
    its source, in order and at their boundaries. *)
Theorem offload_transparent parse native gso ms fss : Forall2 (coalesced parse native) ms fss ->
  recv parse native (linuxBatchIO true gso) ms = Ok (concat (zip_with datagrams_of ms fss)).
Proof.
  cbn [recv]. induction 1 as [|m fs ms fss (Hne & Hn & Hd & Hc) _ IH]; [done|]. cbn [dispatch_messages].
  rw IH. unfold dispatch_message.
  assert (E : splitSegments (m_data m) (groSegmentSize parse native (m_oob m)) = Ok fs).
  { rw Hd. destruct Hc as [[Hs Hl]|[Hs Hu]]; [|by apply splitSegments_frames].
    unfold splitSegments. replace (groSegmentSize parse native (m_oob m) <=? 0) with true by blia.
    destruct fs as [|f [|]]; [done| |done]. cbn. by rw app_nil_r. }
  by rw E.
Qed.

Definition example_parse (oob : list Z) : option (list cmsg) := Some [mkCmsg SOL_UDP UDP_GRO oob].

Definition example_native (b : list Z) : Z := nth 0 b 0.

Lemma offload_transparent_witness :
  recv example_parse example_native (linuxBatchIO true true)
    [mkMessage [1; 2; 3; 4; 5] [2; 0; 0; 0] "a"; mkMessage [6; 7] [] "b"]
  = Ok [("a", [1; 2]); ("a", [3; 4]); ("a", [5]); ("b", [6; 7])].
Proof.
  apply (offload_transparent example_parse example_native true
    [mkMessage [1; 2; 3; 4; 5] [2; 0; 0; 0] "a"; mkMessage [6; 7] [] "b"] [[[1; 2]; [3; 4]; [5]]; [[6; 7]]]).
  apply Forall2_cons. split; [|apply Forall2_cons; split; [|done]]; (split; [done|]).
  - split; [by repeat (apply Forall_cons; split)|]. split; [done|]. right. by vm_compute.
  - split; [by repeat (apply Forall_cons; split)|]. split; [done|]. left. by vm_compute.
Defined.

(** * The receive loops refine the endpoint's histories *)

Section ServeProofs.
Context {P : Primitives} {K : KEMPrimitives} (fips : bool).
Context (parse : list Z -> option (list cmsg)) (native : list Z -> Z).

Definition payloads_ok (ds : list (string * list Z)) : Prop := Forall (fun d => is_bytes d.2) ds.

Lemma dispatch_message_ok gro m ds : is_bytes (m_data m) ->
  dispatch_message parse native gro m = Ok ds -> payloads_ok ds.
Proof.
  intros Hb H. unfold dispatch_message in H.
  destruct (splitSegments_total (m_data m) (if gro then groSegmentSize parse native (m_oob m) else 0)) as (segs & E & Hc).
  rw E in H. injection H as <-. unfold payloads_ok. apply Forall_map. cbn.
  unfold is_bytes in Hb. rw -Hc in Hb. by apply Forall_concat in Hb.
Qed.

Lemma recv_ok b ms ds : Forall (fun m => is_bytes (m_data m)) ms -> recv parse native b ms = Ok ds -> payloads_ok ds.
Proof.
  intros Hb H. destruct b as [|gro gso]; cbn in H.
  { injection H as <-. apply Forall_map. cbn. by apply Forall_take. }
  revert ds H. induction Hb as [|m ms Hm _ IH]; intros ds H; cbn in H; [injection H as <-; constructor|].
  destruct (dispatch_message parse native gro m) as [x| |] eqn:E; [|done..].
  destruct (dispatch_messages parse native gro ms) as [y| |]; [|done..]. injection H as <-.
  apply Forall_app. split; [by eapply dispatch_message_ok|by apply IH].
Qed.

Lemma ep_run_snoc evs ev e e1 e2 o : ep_run fips evs e = Some e1 -> ep_step fips ev e1 = (e2, o) -> o <> Panic ->
  ep_run fips (evs ++ [ev]) e = Some e2.
Proof.
  revert e. induction evs as [|x evs IH]; intros e H Hs Ho; cbn in H |- *.
  - injection H as ->. rw Hs. by destruct o.
  - destruct (ep_step fips x e) as [e' [u|err|]]; [by apply IH..|done].
Qed.

Definition loop_ok (l : recvLoop) : Prop :=
  lp_read l = lp_done l ++ lp_pending l /\ (lp_live l = false -> lp_pending l = []) /\ payloads_ok (lp_pending l).

Definition serving_ok (e0 : Endpoint) (sv : Serving) : Prop :=
  Forall loop_ok (sv_loops sv) /\ exists evs, Forall event_ok evs /\ ep_run fips evs e0 = Some (sv_ep sv).

Lemma serve_step_ok e0 sv sv' : serving_ok e0 sv -> serve_step fips parse native sv sv' -> serving_ok e0 sv'.
Proof.
  intros (Hl & evs & Hev & Hr) H. inversion H as [? i l ms ds Hi Hlive Hp Hb Hds|? i l Hi Hlive Hp
    |? i l z src data rest e o Hi Hp Hz He Ho|? ev e o Hok He Ho]; subst; unfold serving_ok; cbn [sv_loops sv_ep].
  - pose proof (Forall_lookup_1 _ _ _ _ Hl Hi) as [E _]. rw Hp app_nil_r in E. split; [|by exists evs].
    apply Forall_insert; [done|]. split_and!; cbn; [by rw E|done|by eapply recv_ok].
  - pose proof (Forall_lookup_1 _ _ _ _ Hl Hi) as [E _]. rw Hp in E. split; [|by exists evs].
    apply Forall_insert; [done|]. split_and!; [done..|constructor].
  - pose proof (Forall_lookup_1 _ _ _ _ Hl Hi) as (E & Hd0 & Hb). rw Hp in E Hd0 Hb. apply Forall_cons in Hb as [Hd Hb]. split.
    + apply Forall_insert; [done|]. split_and!; cbn; [by rw E -app_assoc|by intros ?%Hd0|done].
    + exists (evs ++ [EpDatagram z src data]). split; [by apply Forall_app; split; [|apply Forall_singleton]|].
      by eapply ep_run_snoc.
  - split; [done|]. exists (evs ++ [ev]). split; [by apply Forall_app; split; [|apply Forall_singleton]|].
    by eapply ep_run_snoc.
Qed.

Lemma serve_run_ok e0 sv sv' : serving_ok e0 sv -> rtc (serve_step fips parse native) sv sv' -> serving_ok e0 sv'.
Proof. intros H Hr. induction Hr as [|? ? ? Hs _ IH]; [done|]. by apply IH; eapply serve_step_ok. Qed.
End ServeProofs.


Definition example_serve_env : EEnv :=
  mkEEnv 5 5 (example_draws []) (example_draws []) (example_draws []) (example_draws [])
    (DgramFSM.mkEnv (example_draws []) (example_draws []) (example_draws []) 5) map_to_list.

(** Two sockets: the first delivers a datagram that is too short for a header and is closed. *)
Definition example_served (e : Endpoint) : Serving :=
  mkServing e [mkRecvLoop (linuxBatchIO true true) false [] [("a", [9; 9])] [("a", [9; 9])];
               mkRecvLoop (linuxBatchIO true true) true [] [] []].

Lemma example_serve_runs e : rtc (serve_step (P := toy) (K := toyKEM) false example_parse example_native)
  (Serve [linuxBatchIO true true; linuxBatchIO true true] e) (example_served e).
Proof.
  eapply rtc_l.
  { apply (serve_read _ _ _ _ 0%nat (mkRecvLoop (linuxBatchIO true true) true [] [] [])
      [mkMessage [9; 9] [] "a"] [("a", [9; 9])]); try reflexivity. repeat constructor; done. }
  eapply rtc_l.
  { eapply (serve_dispatch _ _ _ _ 0%nat _ example_serve_env); [reflexivity..|by intros m|reflexivity|done]. }
  eapply rtc_l; [|apply rtc_refl].
  exact (serve_error (P := toy) (K := toyKEM) false example_parse example_native
    (mkServing e [mkRecvLoop (linuxBatchIO true true) true [] [("a", [9; 9])] [("a", [9; 9])];
                  mkRecvLoop (linuxBatchIO true true) true [] [] []]) 0%nat _ eq_refl eq_refl eq_refl).
Qed.


(** * Sockets are not leaked *)

(** The sockets that are open after a trace, oldest first. *)
Definition open_sockets (trace : list socket_op) : list nat :=
  foldl (fun open op => match op with
                        | Opened s _ => open ++ [s]
                        | Closed s => filter (fun x => x <> s) open
                        end) [] trace.

Lemma open_snoc trace op : open_sockets (trace ++ [op]) =
  match op with Opened s _ => open_sockets trace ++ [s] | Closed s => filter (fun x => x <> s) (open_sockets trace) end.
Proof. unfold open_sockets. by rw foldl_app. Qed.

Lemma open_close_all trace cs :
  open_sockets (trace ++ map Closed cs) = filter (fun x => x ∉ cs) (open_sockets trace).
Proof.
  revert trace. induction cs as [|c cs IH]; intros trace; cbn [map].
  - rw app_nil_r. symmetry. induction (open_sockets trace) as [|x l IHl]; [done|].
    rw filter_cons_True; [apply not_elem_of_nil|]. by rw IHl.
  - rw (app_assoc trace [_]) IH open_snoc list_filter_filter. apply list_filter_iff. intros x.
    rw not_elem_of_cons. tauto.
Qed.

Lemma close_open trace : open_sockets (trace ++ map Closed (open_sockets trace)) = [].
Proof.
  rw open_close_all. apply elem_of_nil_inv. intros x Hx. by apply list_elem_of_filter in Hx as [Hx ?].
Qed.

Section Listen.
Context (bind : nat -> string -> string + error).

Lemma bind_sockets_spec n : forall s addr conns trace, open_sockets trace = conns ->
  match bind_sockets bind n s addr conns trace with
  | (trace', Ok conns') => open_sockets trace' = conns' /\ conns' = conns ++ seq s n
  | (trace', Err _) => open_sockets trace' = []
  | (_, Panic) => False
  end.
Proof.
  induction n as [|n IH]; intros s addr conns trace H; cbn [bind_sockets seq]; [by rw app_nil_r|].
  destruct (bind s addr) as [bound|err]; [|rw -H; apply close_open].
  pose proof (IH (S s) bound (conns ++ [s]) (trace ++ [Opened s bound])) as IH'.
  rw open_snoc H -app_assoc in IH'. exact (IH' eq_refl).
Qed.

(** A socket asked for the address another is bound to is bound to it. *)
Hypothesis bind_concrete : forall s s' a a' b, bind s a = inl a' -> bind s' a' = inl b -> b = a'.

Definition bound_to (addr : string) (op : socket_op) : Prop :=
  match op with Opened _ a => a = addr | Closed _ => True end.

Lemma bind_sockets_addr n : forall s s0 a0 addr conns trace, bind s0 a0 = inl addr -> Forall (bound_to addr) trace ->
  Forall (bound_to addr) (bind_sockets bind n s addr conns trace).1.
Proof.
  induction n as [|n IH]; intros s s0 a0 addr conns trace H0 Ht; cbn [bind_sockets]; [done|].
  destruct (bind s addr) as [bound|err] eqn:E.
  - pose proof (bind_concrete _ _ _ _ _ H0 E) as ->. eapply IH; [done|].
    apply Forall_app. by split; [|apply Forall_singleton].
  - apply Forall_app. split; [done|]. apply Forall_map. by apply Forall_true.
Qed.

Lemma listenReusePort_addr addr n :
  exists a, Forall (bound_to a) (listenReusePort bind addr n).1.
Proof.
  unfold listenReusePort. destruct n as [|n]; cbn [bind_sockets]; [by exists addr|].
  destruct (bind 0%nat addr) as [bound|err] eqn:E; [|by exists addr]. exists bound.
  eapply bind_sockets_addr; [done|]. by apply Forall_singleton.
Qed.
End Listen.

Lemma receive_sockets_bounds wanted cores : 1 <= receive_sockets wanted cores <= DatagramMaxReceiveSockets.
Proof. unfold receive_sockets, DatagramMaxReceiveSockets. repeat case_match; blia. Qed.

(** No socket is leaked.  When [ListenDatagram] succeeds, the sockets it has open are those of the
    endpoint, between one and eight, all on one address; [Close] closes each of them and reports the
    first error, and closing again does nothing.  When it fails, at whichever bind or in the
    endpoint's options, every socket it had opened is closed. *)
Theorem sockets_not_leaked bind addr wanted rnd cores opts close_err :
  (forall s s' a a' b, bind s a = inl a' -> bind s' a' = inl b -> b = a') ->
  match ListenDatagram bind addr wanted rnd cores opts with
  | (trace, Ok (e, conns)) =>
      newEndpoint rnd cores opts = Ok e /\ open_sockets trace = conns
      /\ len conns = receive_sockets wanted cores /\ 1 <= len conns <= DatagramMaxReceiveSockets
      /\ (exists a, Forall (bound_to a) trace)
      /\ let '(st, err) := Close_endpoint close_err conns (false, trace) in
         open_sockets st.2 = [] /\ err = first_error (map close_err conns)
         /\ Close_endpoint close_err conns st = (st, None)
  | (trace, Err _) => open_sockets trace = []
  | (_, Panic) => newEndpoint rnd cores opts = Panic
  end.
Proof.
  intros Hb. unfold ListenDatagram.
  destruct (listenReusePort_addr bind Hb addr (Z.to_nat (receive_sockets wanted cores))) as [a Ha].
  pose proof (bind_sockets_spec bind (Z.to_nat (receive_sockets wanted cores)) 0 addr [] [] eq_refl) as Hs.
  fold (listenReusePort bind addr (Z.to_nat (receive_sockets wanted cores))) in Hs.
  destruct (listenReusePort _ _ _) as [trace [conns|err|]]; [|done..]. destruct Hs as [Ho Hc].
  destruct (newEndpoint rnd cores opts) as [e|err|]; [|by rw -Ho; apply close_open|done].
  pose proof (receive_sockets_bounds wanted cores).
  assert (Hl : len conns = receive_sockets wanted cores) by (rw Hc; unfold len; rw length_seq; lia).
  rw Hl. split_and!; [done..|lia|lia|by exists a|]. cbn. split_and!; [|done|done].
  rw -Ho. apply close_open.
Qed.

Definition example_bind (s : nat) (addr : string) : string + error :=
  if (s <? 2)%nat then inl "[::]:4433" else inr (ErrExternal "bind").

Lemma sockets_not_leaked_witness :
  open_sockets (ListenDatagram example_bind "[::]:0" 3 (example_draws [32%nat]) 8 []).1 = []
  /\ (ListenDatagram example_bind "[::]:0" 3 (example_draws [32%nat]) 8 []).2 = Err (ErrExternal "bind").
Proof.
  pose proof (sockets_not_leaked example_bind "[::]:0" 3 (example_draws [32%nat]) 8 [] (fun _ => None)) as H.
  split; [|vm_compute; reflexivity].
  apply H. intros s s' a a' b. unfold example_bind. destruct (s <? 2)%nat, (s' <? 2)%nat; congruence.
Defined.

(** * The segmentation flag *)

(** A segmented send is reported only when the kernel took its one message, and once the kernel has
    said that it does not segment, none is tried again. *)
Lemma writeGSO_spec b seg n err :
  let '(b', sent) := writeGSO b seg n err in
  (sent = true -> gso_allowed b seg = true /\ n = 1 /\ err = None /\ b' = b)
  /\ (b' <> b -> forall seg', gso_allowed b' seg' = false).
Proof.
  unfold writeGSO. destruct (gso_allowed b seg) eqn:E; cbn [negb]; [|by split].
  destruct b as [|gro gso]; [done|]. destruct err as [[]|]; split; try done.
  by intros ->%Z.eqb_eq.
Qed.

(** * The clock *)

(** Reads and ticks with the time at which each happens, and what the reads return. *)
Fixpoint coarse_run (evs : list (bool * Z)) (c : coarseClock) : list (Z * Z) :=
  match evs with
  | [] => []
  | (true, now) :: evs => let '(c, v) := coarseTimeNanos now c in (now, v) :: coarse_run evs c
  | (false, now) :: evs => coarse_run evs (coarse_tick now c)
  end.

(** On a clock that does not go back no read is ahead of the time, or behind [lo], the last
    refresh before the run. *)
Lemma coarse_run_bounds evs : forall c lo, (cc_started c = true -> cc_nanos c = lo) ->
  Sorted Z.le (lo :: map snd evs) -> Forall (fun r => lo <= r.2 <= r.1) (coarse_run evs c).
Proof.
  induction evs as [|[read now] evs IH]; intros c lo Hc Hs; cbn [coarse_run]; [constructor|].
  cbn [map snd] in Hs. apply Sorted_inv in Hs as [Hs Hd]. apply HdRel_inv in Hd.
  assert (Hw : Forall (fun r : Z * Z => now <= r.2 <= r.1) (coarse_run evs (mkCoarse true now)) ->
    Forall (fun r : Z * Z => lo <= r.2 <= r.1) (coarse_run evs (mkCoarse true now))).
  { intros H. eapply Forall_impl; [exact H|]. cbn. lia. }
  assert (Hs' : Sorted Z.le (lo :: map snd evs)).
  { apply Sorted_inv in Hs as [Hs Hd']. constructor; [done|]. destruct (map snd evs); constructor.
    apply HdRel_inv in Hd'. lia. }
  destruct c as [[|] v]; cbn in Hc.
  - rw Hc //. destruct read; cbn; [|by apply Hw, IH]. constructor; [cbn; lia|]. by apply IH.
  - destruct read; cbn; [|by apply IH]. constructor; [cbn; lia|]. by apply Hw, IH.
Qed.
