(* ===== verification/Encoding.v ===== *)
(** Strings and the text encodings of the standard library: [encoding/hex] and [encoding/base64].

    A Go string is a sequence of bytes; [bytes_string] and [string_bytes] are the conversions
    between [string] and [[]byte]. *)

From Corelib Require Import ssreflect.
From stdpp Require Import base tactics list numbers strings.
From Stdlib Require Import ZArith Lia Ascii.
From S2P Require Import Prelude.

Local Open Scope Z_scope.
Local Open Scope go_scope.

(** * Bytes and strings *)

Definition chr (n : nat) : ascii := ascii_of_nat n.
Definition str (c : ascii) : string := String c EmptyString.
Definition newline : string := str (chr 10).
Definition quote : string := str (chr 34).

Definition byte_chr (b : Z) : ascii := chr (Z.to_nat b).
Definition chr_byte (c : ascii) : Z := Z.of_nat (nat_of_ascii c).

Fixpoint bytes_string (bs : list Z) : string :=
  match bs with [] => "" | b :: bs => String (byte_chr b) (bytes_string bs) end.

Fixpoint string_to_bytes (s : string) : list Z :=
  match s with "" => [] | String c s => chr_byte c :: string_to_bytes s end.

Lemma chr_byte_chr b : 0 <= b < 256 -> chr_byte (byte_chr b) = b.
Proof. intros H. unfold chr_byte, byte_chr, chr. rw nat_ascii_embedding; lia. Qed.

Lemma byte_chr_byte c : byte_chr (chr_byte c) = c.
Proof. unfold chr_byte, byte_chr, chr. by rw Nat2Z.id ascii_nat_embedding. Qed.

Lemma chr_byte_range c : 0 <= chr_byte c < 256.
Proof. unfold chr_byte. pose proof (nat_ascii_bounded c). lia. Qed.

Lemma string_to_bytes_string bs : is_bytes bs -> string_to_bytes (bytes_string bs) = bs.
Proof.
  induction bs as [|b bs IH]; [done|]. intros [Hb Hbs]%Forall_cons. cbn. rw chr_byte_chr //. by rw IH.
Qed.

Lemma bytes_string_to_bytes s : bytes_string (string_to_bytes s) = s.
Proof. induction s as [|c s IH]; [done|]. cbn. by rw byte_chr_byte IH. Qed.

(** * Hexadecimal *)

Definition hex_digit (n : Z) : ascii := chr (Z.to_nat (if n <? 10 then 48 + n else 87 + n)).

Fixpoint EncodeToString (bs : list Z) : string :=
  match bs with
  | [] => ""
  | b :: bs => String (hex_digit (b / 16)) (String (hex_digit (b mod 16)) (EncodeToString bs))
  end.

Definition from_hex (c : ascii) : option Z :=
  let n := chr_byte c in
  if (48 <=? n) && (n <=? 57) then Some (n - 48)
  else if (97 <=? n) && (n <=? 102) then Some (n - 87)
  else if (65 <=? n) && (n <=? 70) then Some (n - 55)
  else None.

Fixpoint DecodeString (s : string) : option (list Z) :=
  match s with
  | "" => Some []
  | String a (String b s) =>
      x ← from_hex a; y ← from_hex b; l ← DecodeString s; Some (16 * x + y :: l)
  | _ => None
  end.

(** * Base 64, with the padded and the raw standard alphabet *)

Definition b64_digit (n : Z) : ascii :=
  byte_chr (if n <? 26 then 65 + n
            else if n <? 52 then 71 + n
            else if n <? 62 then n - 4
            else if n =? 62 then 43
            else 47).

Definition b64_value (c : ascii) : option Z :=
  let n := chr_byte c in
  if (65 <=? n) && (n <=? 90) then Some (n - 65)
  else if (97 <=? n) && (n <=? 122) then Some (n - 71)
  else if (48 <=? n) && (n <=? 57) then Some (n + 4)
  else if n =? 43 then Some 62
  else if n =? 47 then Some 63
  else None.

Definition padChar : ascii := "="%char.

(** Three bytes at a time; [padded] says whether the last group is filled up. *)
Fixpoint b64_encode (padded : bool) (bs : list Z) : string :=
  match bs with
  | [] => ""
  | [a] =>
      String (b64_digit (a / 4)) (String (b64_digit (a mod 4 * 16)) (if padded then String padChar (String padChar "") else ""))
  | [a; b] =>
      String (b64_digit (a / 4)) (String (b64_digit (a mod 4 * 16 + b / 16))
        (String (b64_digit (b mod 16 * 4)) (if padded then String padChar "" else "")))
  | a :: b :: c :: bs =>
      String (b64_digit (a / 4)) (String (b64_digit (a mod 4 * 16 + b / 16))
        (String (b64_digit (b mod 16 * 4 + c / 64)) (String (b64_digit (c mod 64)) (b64_encode padded bs))))
  end.

(** [base64.StdEncoding.DecodeString]: line ends are skipped, and the bits of the last digit that
    are left over are not looked at, as [Strict] is not set. *)
Fixpoint b64_groups (cs : list ascii) : option (list Z) :=
  match cs with
  | [] => Some []
  | a :: b :: c :: d :: cs =>
      x ← b64_value a; y ← b64_value b;
      if bool_decide (c = padChar) then
        if bool_decide (d = padChar /\ cs = []) then Some [4 * x + y / 16] else None
      else
        z ← b64_value c;
        if bool_decide (d = padChar) then
          if bool_decide (cs = []) then Some [4 * x + y / 16; y mod 16 * 16 + z / 4] else None
        else
          w ← b64_value d; l ← b64_groups cs;
          Some (4 * x + y / 16 :: y mod 16 * 16 + z / 4 :: z mod 4 * 64 + w :: l)
  | _ => None
  end.

Definition is_line_end (c : ascii) : bool := bool_decide (c = chr 10) || bool_decide (c = chr 13).

Definition b64_decode (s : string) : option (list Z) :=
  b64_groups (filter (fun c => is_line_end c = false) (String.list_ascii_of_string s)).

(** * [strings.TrimSpace] *)

(** The UTF-8 encodings of the runes that are white space. *)
Definition spaces : list (list Z) :=
  (fun b => [b]) <$> [9; 10; 11; 12; 13; 32].
Definition unicode_spaces : list (list Z) :=
  [[194; 133]; [194; 160]; [225; 154; 128]; [226; 128; 168]; [226; 128; 169]; [226; 128; 175]; [226; 129; 159];
   [227; 128; 128]] ++ ((fun i => [226; 128; 128 + Z.of_nat i]) <$> seq 0 11).

Fixpoint strip_prefix (p l : list Z) : option (list Z) :=
  match p, l with
  | [], _ => Some l
  | x :: p, y :: l => if x =? y then strip_prefix p l else None
  | _ :: _, [] => None
  end.

(** Every turn removes at least one byte, so as many turns as bytes are enough. *)
Fixpoint trim_left (fuel : nat) (sps : list (list Z)) (l : list Z) : list Z :=
  match fuel with
  | O => l
  | S fuel =>
      match head (omap (fun sp => strip_prefix sp l) sps) with
      | Some rest => trim_left fuel sps rest
      | None => l
      end
  end.

Definition TrimSpace (l : list Z) : list Z :=
  let sps := spaces ++ unicode_spaces in
  let l := trim_left (length l) sps l in
  reverse (trim_left (length l) (reverse <$> sps) (reverse l)).

(** * Round trips *)

(** A fact about all values below [n], by trying them. *)
Lemma below_ind (Q : Z -> bool) n : forallb (fun i => Q (Z.of_nat i)) (seq 0 n) = true ->
  forall z, 0 <= z < Z.of_nat n -> Q z = true.
Proof.
  intros H z Hz. rw forallb_forall in H. specialize (H (Z.to_nat z)). rw Z2Nat.id in H; [lia|].
  apply H, in_seq. lia.
Qed.

Definition digit_ok (n : Z) : bool :=
  bool_decide (b64_value (b64_digit n) = Some n) && negb (bool_decide (b64_digit n = padChar)) &&
  negb (is_line_end (b64_digit n)) && (43 <=? chr_byte (b64_digit n)) && (chr_byte (b64_digit n) <=? 122).

Lemma b64_digit_ok n : 0 <= n < 64 -> b64_value (b64_digit n) = Some n /\ b64_digit n <> padChar /\
  is_line_end (b64_digit n) = false /\ 43 <= chr_byte (b64_digit n) <= 122.
Proof.
  intros Hn. pose proof (below_ind digit_ok 64 ltac:(vm_compute; reflexivity) n Hn) as H.
  unfold digit_ok in H. rw !andb_true_iff !negb_true_iff !Z.leb_le bool_decide_eq_true bool_decide_eq_false in H.
  destruct H as ((((? & ?) & ?) & ?) & ?). by split_and!.
Qed.

(** Induction on a list by groups of three. *)
Lemma triples_ind (Q : list Z -> Prop) : Q [] -> (forall a, Q [a]) -> (forall a b, Q [a; b]) ->
  (forall a b c l, Q l -> Q (a :: b :: c :: l)) -> forall l, Q l.
Proof. intros H0 H1 H2 H3. fix IH 1. intros [|a [|b [|c l]]]; [done..|]. apply H3, IH. Qed.

Ltac divlia := Z.to_euclidean_division_equations; lia.

Ltac b64_facts :=
  unfold is_u8 in *;
  repeat match goal with
  | |- context [b64_value (b64_digit ?n)] =>
      let H := fresh in destruct (b64_digit_ok n ltac:(divlia)) as (H & _); rw H; clear H
  | |- context [bool_decide (b64_digit ?n = padChar)] =>
      let H := fresh in destruct (b64_digit_ok n ltac:(divlia)) as (_ & H & _);
      rw (bool_decide_eq_false_2 _ H); clear H
  end.

Lemma b64_groups_encode bs : is_bytes bs ->
  b64_groups (String.list_ascii_of_string (b64_encode true bs)) = Some bs.
Proof.
  induction bs as [|a|a b|a b c bs IH] using triples_ind; unfold is_bytes; rw ?Forall_cons; [done|..].
  - intros (Ha & _). cbn [b64_encode String.list_ascii_of_string b64_groups].
    assert (0 <= a mod 4 * 16 < 64) by divlia. b64_facts. cbn. f_equal. f_equal. divlia.
  - intros (Ha & Hb & _). cbn [b64_encode String.list_ascii_of_string b64_groups]. b64_facts. cbn. do 2 f_equal; [divlia|]. f_equal. divlia.
  - intros (Ha & Hb & Hc & Hbs). cbn [b64_encode String.list_ascii_of_string b64_groups]. b64_facts. cbn. rw (IH Hbs). cbn.
    do 2 f_equal; [divlia|]. f_equal; [divlia|]. f_equal. divlia.
Qed.

(** The characters of an encoding: between [+] and [z], none of them white space. *)
Lemma b64_encode_chars p bs : is_bytes bs ->
  Forall (fun c => is_line_end c = false /\ 43 <= chr_byte c <= 122) (String.list_ascii_of_string (b64_encode p bs)).
Proof.
  assert (Hd : forall n, 0 <= n < 64 -> is_line_end (b64_digit n) = false /\ 43 <= chr_byte (b64_digit n) <= 122).
  { intros n Hn. by destruct (b64_digit_ok n Hn) as (_ & _ & ?). }
  induction bs as [|a|a b|a b c bs IH] using triples_ind; unfold is_bytes; rw ?Forall_cons; [by constructor|..];
    unfold is_u8 in *.
  - intros (Ha & _). destruct p; cbn; repeat constructor; try done; try apply Hd; divlia.
  - intros (Ha & Hb & _). destruct p; cbn; repeat constructor; try done; try apply Hd; divlia.
  - intros (Ha & Hb & Hc & Hbs). cbn. repeat (constructor; [apply Hd; divlia|]). by apply IH.
Qed.

Lemma filter_all {A} (Q : A -> Prop) `{forall x, Decision (Q x)} l : Forall Q l -> filter Q l = l.
Proof. induction 1 as [|x l Hx _ IH]; [done|]. by rw filter_cons decide_True // IH. Qed.

Lemma b64_roundtrip bs : is_bytes bs -> b64_decode (b64_encode true bs) = Some bs.
Proof.
  intros Hbs. unfold b64_decode. rw filter_all; [|by apply b64_groups_encode].
  eapply Forall_impl; [exact (b64_encode_chars true bs Hbs)|]. by intros c [? _].
Qed.

(** Trimming stops at a byte that starts no white space. *)
Lemma trim_left_stop fuel sps b l : forallb (fun sp => match sp with x :: _ => negb (x =? b) | [] => false end) sps = true ->
  trim_left fuel sps (b :: l) = b :: l.
Proof.
  destruct fuel as [|fuel]; [done|]. intros H. cbn [trim_left].
  assert (omap (fun sp => strip_prefix sp (b :: l)) sps = []) as ->; [|done].
  induction sps as [|[|x sp] sps IH]; [done|done|]. cbn in H |- *. apply andb_true_iff in H as [Hx H].
  destruct (x =? b); [done|]. by apply IH.
Qed.

Definition graphic (b : Z) : bool :=
  forallb (fun sp => match sp with x :: _ => negb (x =? b) | [] => false end) (spaces ++ unicode_spaces) &&
  forallb (fun sp => match sp with x :: _ => negb (x =? b) | [] => false end) (reverse <$> (spaces ++ unicode_spaces)).

Lemma graphic_range b : 43 <= b <= 122 -> graphic b = true.
Proof.
  intros Hb. assert (H : forall z, 0 <= z < 123 -> (z <? 43) || graphic z = true).
  { apply (below_ind (fun z => (z <? 43) || graphic z) 123). vm_compute. reflexivity. }
  specialize (H b ltac:(lia)). by replace (b <? 43) with false in H by blia.
Qed.

Lemma trim_left_step fuel sps l rest : head (omap (fun sp => strip_prefix sp l) sps) = Some rest ->
  trim_left (S fuel) sps l = trim_left fuel sps rest.
Proof. intros H. cbn [trim_left]. by rw H. Qed.

(** A line of graphic characters loses only its line end. *)
Lemma TrimSpace_line l : l <> [] -> Forall (fun b => 43 <= b <= 122) l -> TrimSpace (l ++ [10]) = l.
Proof.
  intros Hne Hl. destruct l as [|b l]; [done|]. unfold TrimSpace. set (sps := spaces ++ unicode_spaces).
  assert (Hg : Forall (fun b => graphic b = true) (b :: l)) by (eapply Forall_impl; [exact Hl|]; apply graphic_range).
  assert (H1 : forall n, trim_left n sps ((b :: l) ++ [10]) = (b :: l) ++ [10]).
  { intros n. apply trim_left_stop. apply Forall_cons in Hg as [Hb _]. unfold graphic in Hb.
    by apply andb_true_iff in Hb as [? _]. }
  rw H1 reverse_app length_app Nat.add_comm. change (reverse [10] ++ reverse (b :: l)) with (10 :: reverse (b :: l)).
  rw (trim_left_step _ _ _ (reverse (b :: l))); [reflexivity|].
  apply (Forall_reverse (fun b => graphic b = true)) in Hg. rw -{3}(reverse_involutive (b :: l)).
  destruct (reverse (b :: l)) as [|c r] eqn:E; [by apply (f_equal reverse) in E; rw reverse_involutive in E|].
  f_equal. apply trim_left_stop. apply Forall_cons in Hg as [Hc _]. unfold graphic in Hc. by apply andb_true_iff in Hc as [_ ?].
Qed.

Lemma list_ascii_bytes s : string_to_bytes s = chr_byte <$> String.list_ascii_of_string s.
Proof. induction s as [|c s IH]; [done|]. cbn. by rw IH. Qed.

(** A line of base 64 in a file decodes to the bytes it was made of. *)
Lemma b64_line_roundtrip bs : bs <> [] -> is_bytes bs ->
  b64_decode (bytes_string (TrimSpace (string_to_bytes (b64_encode true bs +:+ newline)))) = Some bs.
Proof.
  intros Hne Hbs. assert (Happ : forall s t, string_to_bytes (s +:+ t) = string_to_bytes s ++ string_to_bytes t).
  { intros s t. induction s as [|c s IH]; [done|]. change (String c s +:+ t) with (String c (s +:+ t)). cbn. by rw IH. }
  rw Happ. change (string_to_bytes newline) with [10]. rw TrimSpace_line.
  - by destruct bs as [|a [|b [|c bs]]].
  - rw list_ascii_bytes. apply Forall_fmap. eapply Forall_impl; [exact (b64_encode_chars true bs Hbs)|]. by intros c [_ ?].
  - rw bytes_string_to_bytes. by apply b64_roundtrip.
Qed.
