(* ===== verification/Histogram.v ===== *)
(** Latency histograms: [pkg/metrics/histogram.go].

    A [float64] is a [spec_float], as in [Admission]; [sort.Float64s] and [sort.SearchFloat64s] are
    written out as the Go documentation specifies them.  An index out of range is a [Panic]. *)

From Corelib Require Import ssreflect.
From stdpp Require Import base tactics list numbers strings sorting.
From Stdlib Require Import ZArith Lia Floats.SpecFloat.
From S2P Require Import Prelude Base Admission.

Import TokenBucket.

Local Open Scope Z_scope.
Local Open Scope go_scope.

(** * [float64] comparisons and sorting *)

Definition is_NaN (x : f64) : bool := match x with S754_nan => true | _ => false end.
Definition Inf : f64 := S754_infinity false.
Definition MaxFloat64 : f64 := S754_finite false 9007199254740991 971.
Definition f64_opp (x : f64) : f64 := SFopp x.

(** The order of [sort.Float64s]: ascending, with NaNs first. *)
Definition f64_before (x y : f64) : Prop := SFleb x y || is_NaN x = true.

#[export] Instance f64_before_dec : RelDecision f64_before.
Proof. intros x y. unfold f64_before. apply _. Defined.

Definition sort_Float64s (l : list f64) : list f64 := merge_sort f64_before l.

(** [sort.SearchFloat64s]: the binary search for the first [a[h] >= x]. *)
Fixpoint search_loop (fuel i j : nat) (a : list f64) (x : f64) : nat :=
  match fuel with
  | O => i
  | S fuel =>
      if (i <? j)%nat then
        let h := ((i + j) / 2)%nat in
        if match a !! h with Some b => SFleb x b | None => true end
        then search_loop fuel i h a x
        else search_loop fuel (S h) j a x
      else i
  end.

Definition SearchFloat64s (a : list f64) (x : f64) : nat := search_loop (length a) 0 (length a) a x.

(** * The histogram *)

Record Histogram := mkHistogram {
  buckets : list f64;
  counts : list Z;
  sum : f64;
  count : Z;
  h_min : f64;
  h_max : f64 }.

#[export] Instance Histogram_eta : Eta Histogram := {| eta := fun h =>
  mkHistogram (buckets h) (counts h) (sum h) (count h) (h_min h) (h_max h) |}.

Definition NewHistogram (bounds : list f64) : Histogram :=
  let b := sort_Float64s bounds in
  mkHistogram b (replicate (length b + 1) 0) (f64_of_Z 0) 0 MaxFloat64 (f64_opp MaxFloat64).

Definition Observe (v : f64) (h : Histogram) : outcome error Histogram :=
  let idx := SearchFloat64s (buckets h) v in
  match counts h !! idx with
  | None => Panic
  | Some c =>
      let h := h <| counts := <[idx := u64_add c 1]> (counts h) |> in
      let h := h <| sum := f64_add (sum h) v |> <| count := u64_add (count h) 1 |> in
      let h := if SFltb v (h_min h) then h <| h_min := v |> else h in
      let h := if SFltb (h_max h) v then h <| h_max := v |> else h in
      Ok h
  end.

Record BucketCount := mkBucketCount { UpperBound : f64; Count : Z }.

Record HistogramSummary := mkHistogramSummary {
  hs_Count : Z;
  hs_Sum : f64;
  hs_Min : f64;
  hs_Max : f64;
  hs_Mean : f64;
  hs_Buckets : list BucketCount;
  hs_Percentiles : list (f64 * f64) }.

(** The cumulative bucket counts, the overflow bucket last. *)
Fixpoint cumulate (cumulative : Z) (bounds : list f64) (cs : list Z) : outcome error (list BucketCount) :=
  match cs with
  | [] => Panic
  | c :: cs =>
      let cumulative := u64_add cumulative c in
      match bounds with
      | [] => Ok [mkBucketCount Inf cumulative]
      | bound :: bounds =>
          let! rest := cumulate cumulative bounds cs in
          Ok (mkBucketCount bound cumulative :: rest)
      end
  end.

(** The search for one percentile from bucket [i] on; [None] is a rank no bucket reaches. *)
Fixpoint percentile_loop (h : Histogram) (rank : f64) (i : nat) (cumulative : Z) (cs : list Z)
    : outcome error (option f64) :=
  match cs with
  | [] => Ok None
  | c :: cs =>
      let cumulative := u64_add cumulative c in
      if SFleb rank (f64_of_Z cumulative) then
        if (i =? 0)%nat then
          match buckets h !! 0%nat with
          | None => Panic
          | Some b => Ok (Some (f64_div b (f64_of_Z 2)))
          end
        else if (length (buckets h) <=? i)%nat then Ok (Some (h_max h))
        else
          match buckets h !! (i - 1)%nat, buckets h !! i with
          | Some lower, Some upper =>
              let prevCumulative := u64_sub cumulative c in
              let fraction := f64_div (f64_sub rank (f64_of_Z prevCumulative)) (f64_of_Z c) in
              Ok (Some (f64_add lower (f64_mul fraction (f64_sub upper lower))))
          | _, _ => Panic
          end
      else percentile_loop h rank (S i) cumulative cs
  end.

Fixpoint percentiles_loop (h : Histogram) (ps : list f64) : outcome error (list (f64 * f64)) :=
  match ps with
  | [] => Ok []
  | p :: ps =>
      let! r := percentile_loop h (f64_mul p (f64_of_Z (count h))) 0 0 (counts h) in
      let! rest := percentiles_loop h ps in
      Ok (match r with Some v => (p, v) :: rest | None => rest end)
  end.

Definition calculatePercentiles (ps : list f64) (h : Histogram) : outcome error (list (f64 * f64)) :=
  if count h =? 0 then Ok [] else percentiles_loop h ps.

Definition hundredths (n : Z) : f64 := f64_div (f64_of_Z n) (f64_of_Z 100).

Definition emptySummary : HistogramSummary :=
  mkHistogramSummary 0 (f64_of_Z 0) (f64_of_Z 0) (f64_of_Z 0) (f64_of_Z 0) [] [].

Definition Summary (h : Histogram) : outcome error HistogramSummary :=
  if count h =? 0 then Ok emptySummary
  else
    let! bs := cumulate 0 (buckets h) (counts h) in
    let! percentiles := calculatePercentiles (hundredths <$> [50; 90; 95; 99]) h in
    Ok (mkHistogramSummary (count h) (sum h) (h_min h) (h_max h) (f64_div (sum h) (f64_of_Z (count h))) bs percentiles).

Definition Reset (h : Histogram) : Histogram :=
  mkHistogram (buckets h) ((fun _ => 0) <$> counts h) (f64_of_Z 0) 0 MaxFloat64 (f64_opp MaxFloat64).

Definition Mean (h : Histogram) : f64 :=
  if count h =? 0 then f64_of_Z 0 else f64_div (sum h) (f64_of_Z (count h)).

(** Recording a list of values, in order. *)
Fixpoint Observe_all (vs : list f64) (h : Histogram) : outcome error Histogram :=
  match vs with
  | [] => Ok h
  | v :: vs => let! h := Observe v h in Observe_all vs h
  end.

(** * The order of floats *)

(** Floats compare as these keys do lexicographically. *)
Definition f64_key (x : f64) : Z * Z * Z :=
  match x with
  | S754_infinity true => (0, 0, 0)
  | S754_finite true m e => (1, - e, - Z.pos m)
  | S754_zero _ => (2, 0, 0)
  | S754_finite false m e => (3, e, Z.pos m)
  | S754_infinity false => (4, 0, 0)
  | S754_nan => (5, 0, 0)
  end.

Definition key_le (k l : Z * Z * Z) : Prop :=
  let '(a, b, c) := k in let '(a', b', c') := l in
  a < a' \/ (a = a' /\ (b < b' \/ (b = b' /\ c <= c'))).

Lemma SFleb_key x y : is_NaN x = false -> is_NaN y = false -> SFleb x y = true <-> key_le (f64_key x) (f64_key y).
Proof.
  intros Hx Hy. unfold SFleb, SFcompare.
  destruct x as [sx|sx| |sx mx ex], y as [sy|sy| |sy my ey]; try done; try destruct sx; try destruct sy; cbn;
    try (split; [lia | done]); try (split; [done | lia]);
    change (Pos.compare_cont Eq mx my) with (Pos.compare mx my);
    destruct (Z.compare_spec ex ey); try (split; [lia | done]); try (split; [done | lia]);
    destruct (Pos.compare_spec mx my); cbn; split; try done; lia.
Qed.

Lemma SFleb_NaN x y : SFleb x y = true -> is_NaN x = false /\ is_NaN y = false.
Proof. destruct x as [[]|[]| |[] ? ?], y as [[]|[]| |[] ? ?]; done. Qed.

Lemma SFleb_trans x y z : SFleb x y = true -> SFleb y z = true -> SFleb x z = true.
Proof.
  intros H1 H2. destruct (SFleb_NaN _ _ H1), (SFleb_NaN _ _ H2). move: H1 H2. rw !SFleb_key //.
  destruct (f64_key x) as [[??]?], (f64_key y) as [[??]?], (f64_key z) as [[??]?]. cbn. lia.
Qed.

Lemma SFleb_total x y : is_NaN x = false -> is_NaN y = false -> SFleb x y = true \/ SFleb y x = true.
Proof.
  intros Hx Hy. rw !SFleb_key //. destruct (f64_key x) as [[??]?], (f64_key y) as [[??]?]. cbn. lia.
Qed.

#[export] Instance f64_before_trans : Transitive f64_before.
Proof.
  intros x y z. unfold f64_before. rw !orb_true_iff. intros [H1|H1] [H2|H2]; auto.
  - left. by eapply SFleb_trans.
  - by rw (proj2 (SFleb_NaN _ _ H1)) in H2.
Qed.

#[export] Instance f64_before_total : Total f64_before.
Proof.
  intros x y. unfold f64_before. rw !orb_true_iff.
  destruct (is_NaN x) eqn:Hx; [by auto|]. destruct (is_NaN y) eqn:Hy; [by auto|].
  destruct (SFleb_total x y Hx Hy); auto.
Qed.

(** * Searching *)

Lemma sorted_lookup {A} (R : relation A) l i j x y : StronglySorted R l -> (i < j)%nat ->
  l !! i = Some x -> l !! j = Some y -> R x y.
Proof.
  intros Hs. revert i j. induction Hs as [|a l Hs IH Ha]; intros i j Hij Hi Hj; [done|].
  destruct j as [|j]; [lia|]. destruct i as [|i]; cbn in *.
  - injection Hi as ->. eapply Forall_forall; [exact Ha|]. by eapply list_elem_of_lookup_2.
  - apply (IH i j); [lia|done|done].
Qed.

(** Bucket bounds: sorted, and all of them numbers. *)
Definition sane (a : list f64) : Prop := StronglySorted f64_before a /\ Forall (fun b => is_NaN b = false) a.

Lemma sane_mono a i j b c x : sane a -> (i <= j)%nat -> a !! i = Some b -> a !! j = Some c ->
  SFleb x b = true -> SFleb x c = true.
Proof.
  intros [Hs Hn] Hij Hi Hj Hx. destruct (decide (i = j)) as [->|]; [congruence|].
  assert (Hb : f64_before b c) by (eapply sorted_lookup; [done| |done|done]; lia).
  unfold f64_before in Hb. move: Hb. rw (Forall_lookup_1 _ _ _ _ Hn Hi) orb_false_r.
  intros. by eapply SFleb_trans.
Qed.

Lemma search_loop_le fuel a x i j : (i <= j)%nat -> (i <= search_loop fuel i j a x <= j)%nat.
Proof.
  revert i j. induction fuel as [|fuel IH]; intros i j Hij; cbn [search_loop]; [lia|].
  destruct (Nat.ltb_spec i j); [|lia].
  assert (i <= (i + j) / 2)%nat by (apply Nat.div_le_lower_bound; lia).
  assert ((i + j) / 2 < j)%nat by (apply Nat.Div0.div_lt_upper_bound; lia).
  case_match.
  - pose proof (IH i ((i + j) / 2)%nat ltac:(lia)). lia.
  - pose proof (IH (S ((i + j) / 2)) j ltac:(lia)). lia.
Qed.

Lemma search_loop_spec fuel a x i j : sane a -> (j <= length a)%nat -> (j - i <= fuel)%nat -> (i <= j)%nat ->
  (forall k b, a !! k = Some b -> (k < i)%nat -> SFleb x b = false) ->
  (forall k b, a !! k = Some b -> (j <= k)%nat -> SFleb x b = true) ->
  forall k b, a !! k = Some b -> SFleb x b = true <-> (search_loop fuel i j a x <= k)%nat.
Proof.
  intros Ha. revert i j. induction fuel as [|fuel IH]; intros i j Hj Hf Hij Hlo Hhi k b Hk; cbn [search_loop].
  { split; intros; [|apply (Hhi k); [done|lia]].
    destruct (decide (i <= k)%nat); [done|]. pose proof (Hlo k b Hk ltac:(lia)). congruence. }
  destruct (Nat.ltb_spec i j).
  - assert (i <= (i + j) / 2)%nat by (apply Nat.div_le_lower_bound; lia).
    assert ((i + j) / 2 < j)%nat by (apply Nat.Div0.div_lt_upper_bound; lia).
    destruct (a !! ((i + j) / 2)%nat) as [c|] eqn:Hc; [|apply lookup_ge_None in Hc; unfold f64 in *; lia].
    destruct (SFleb x c) eqn:Hx.
    + apply IH; try lia; [done| |done]. intros k' b' Hk' Hle. by eapply sane_mono; [| |exact Hc|exact Hk'|].
    + apply IH; try lia; [|done|done]. intros k' b' Hk' Hle. apply not_true_iff_false. intros Hb'.
      pose proof (sane_mono a k' ((i + j) / 2)%nat b' c x Ha ltac:(lia) Hk' Hc Hb'). congruence.
  - split; intros; [|apply (Hhi k); [done|lia]].
    destruct (decide (i <= k)%nat); [done|]. pose proof (Hlo k b Hk ltac:(lia)). congruence.
Qed.

Lemma SearchFloat64s_le a x : (SearchFloat64s a x <= length a)%nat.
Proof. apply search_loop_le. lia. Qed.

Lemma SearchFloat64s_spec a x k b : sane a -> a !! k = Some b -> SFleb x b = true <-> (SearchFloat64s a x <= k)%nat.
Proof.
  intros Ha Hk. apply search_loop_spec; try done; try lia. intros k' b' Hk' Hle. apply lookup_lt_Some in Hk'.
  unfold f64 in *. lia.
Qed.

Lemma sane_sort bounds : Forall (fun b => is_NaN b = false) bounds -> sane (sort_Float64s bounds).
Proof.
  intros H. split; [apply StronglySorted_merge_sort; apply _|]. unfold sort_Float64s.
  by rw merge_sort_Permutation.
Qed.

(** * Well-typed histograms *)

(** One counter per bound and one for the overflow, all of them [uint64]s. *)
Definition hist_ok (h : Histogram) : Prop :=
  length (counts h) = S (length (buckets h)) /\ Forall (fun c => 0 <= c < 2 ^ 64) (counts h) /\ 0 <= count h < 2 ^ 64.

Lemma NewHistogram_ok bounds : hist_ok (NewHistogram bounds).
Proof. split_and!; cbn; [rw length_replicate; lia | apply Forall_replicate; lia | lia..]. Qed.

Lemma Observe_Ok v h : hist_ok h -> exists h', Observe v h = Ok h' /\ hist_ok h' /\ buckets h' = buckets h /\
  count h' = u64_add (count h) 1 /\
  counts h' = alter (fun c => u64_add c 1) (SearchFloat64s (buckets h) v) (counts h).
Proof.
  intros (Hl & Hc & Hn). unfold Observe. pose proof (SearchFloat64s_le (buckets h) v).
  destruct (counts h !! SearchFloat64s (buckets h) v) as [c|] eqn:Hlk; [|apply lookup_ge_None in Hlk; lia].
  assert (Ha : alter (fun c => u64_add c 1) (SearchFloat64s (buckets h) v) (counts h) =
               <[SearchFloat64s (buckets h) v := u64_add c 1]> (counts h)).
  { apply list_eq. intros i. destruct (decide (i = SearchFloat64s (buckets h) v)) as [->|].
    - rw list_lookup_alter_eq Hlk list_lookup_insert_eq //. by eapply lookup_lt_Some.
    - by rw list_lookup_alter_ne // list_lookup_insert_ne. }
  assert (Hr : forall z, 0 <= u64 z < 2 ^ 64) by (intros; apply Z.mod_pos_bound; lia).
  assert (hist_ok (h <| counts := <[SearchFloat64s (buckets h) v := u64_add c 1]> (counts h) |>
                     <| sum := f64_add (sum h) v |> <| count := u64_add (count h) 1 |>)) as (? & ? & ?).
  { split_and!; cbn; [by rw length_insert | apply Forall_insert; [done | apply Hr] | apply Hr..]. }
  eexists. split; [done|]. rw Ha. by case_match; case_match; split_and!.
Qed.

Lemma Observe_all_Ok vs h : hist_ok h -> exists h', Observe_all vs h = Ok h' /\ hist_ok h' /\ buckets h' = buckets h.
Proof.
  revert h. induction vs as [|v vs IH]; intros h Hh; [by exists h|].
  destruct (Observe_Ok v h Hh) as (h1 & E & H1 & Hb & _). destruct (IH h1 H1) as (h2 & E2 & H2 & Hb2).
  exists h2. cbn. rw E. split_and!; [done..|congruence].
Qed.

Lemma cumulate_Ok cum bounds cs : length cs = S (length bounds) ->
  exists bs, cumulate cum bounds cs = Ok bs /\ UpperBound <$> bs = bounds ++ [Inf].
Proof.
  revert cum cs. induction bounds as [|b bounds IH]; intros cum [|c cs] Hl; try done; cbn.
  - by eexists.
  - destruct (IH (u64_add cum c) cs) as (bs & -> & Hb); [cbn in Hl; lia|]. eexists. split; [done|]. cbn. by rw Hb.
Qed.

Lemma percentile_loop_Ok h rank i cum cs : buckets h <> [] -> exists r, percentile_loop h rank i cum cs = Ok r.
Proof.
  intros Hb. revert i cum. induction cs as [|c cs IH]; intros i cum; cbn; [by eexists|].
  case_match; [|apply IH]. destruct (buckets h) as [|b bs] eqn:Eb; [done|].
  destruct (Nat.eqb_spec i 0); [by eexists|]. destruct (Nat.leb_spec (length (b :: bs)) i); [by eexists|].
  destruct (lookup_lt_is_Some_2 (b :: bs) (i - 1)) as [? ->]; [lia|].
  destruct (lookup_lt_is_Some_2 (b :: bs) i) as [? ->]; [lia|]. by eexists.
Qed.

Lemma percentiles_loop_Ok h ps : buckets h <> [] -> exists r, percentiles_loop h ps = Ok r.
Proof.
  intros Hb. induction ps as [|p ps [r IH]]; cbn; [by eexists|].
  destruct (percentile_loop_Ok h (f64_mul p (f64_of_Z (count h))) 0 0 (counts h) Hb) as [r' ->]. cbn. rw IH. by eexists.
Qed.

Lemma Summary_Ok h : hist_ok h -> buckets h <> [] -> exists s, Summary h = Ok s /\ hs_Count s = count h /\
  (count h <> 0 -> Ok (hs_Buckets s) = cumulate 0 (buckets h) (counts h)).
Proof.
  intros (Hl & _) Hb. unfold Summary, calculatePercentiles. destruct (Z.eqb_spec (count h) 0) as [->|Hc]; [by eexists|].
  destruct (cumulate_Ok 0 _ _ Hl) as (bs & E & _). rw E.
  destruct (percentiles_loop_Ok h (hundredths <$> [50; 90; 95; 99]) Hb) as [r Er]. cbn [obind]. rw Er. by eexists.
Qed.

(** * Counting *)

Section Counting.
Context (b : list f64) (vs : list f64) (Hlen : len vs < 2 ^ 64).

(** The values that fall into bucket [k], and into a bucket before [k]. *)
Local Definition tally (k : nat) : Z := len (filter (fun v => SearchFloat64s b v = k) vs).
Local Definition below (k : nat) : Z := len (filter (fun v => (SearchFloat64s b v < k)%nat) vs).

Lemma below_S k : below (S k) = below k + tally k.
Proof using.
  unfold below, tally. clear Hlen. induction vs as [|v l IH]; [done|]. rw !filter_cons.
  destruct (Nat.lt_trichotomy (SearchFloat64s b v) k) as [H|[H|H]];
    repeat (case_decide; [try lia|try lia]); rw ?len_cons; lia.
Qed.

Lemma below_bound k : 0 <= below k <= len vs.
Proof using.
  unfold below, len. pose proof (length_filter (fun v => (SearchFloat64s b v < k)%nat) vs). lia.
Qed.

Lemma cumulate_below bounds k : cumulate (below k) bounds (tally <$> seq k (S (length bounds))) =
  Ok (imap (fun i x => mkBucketCount x (below (S (k + i)))) bounds ++ [mkBucketCount Inf (below (S (k + length bounds)))]).
Proof using Hlen.
  revert k. induction bounds as [|x bounds IH]; intros k; cbn -[seq tally below];
    (assert (Hu : u64_add (below k) (tally k) = below (S k));
     [unfold u64_add; rw -below_S; apply u64_small; pose proof (below_bound (S k)); lia|]).
  - cbn -[tally below]. by rw Hu Nat.add_0_r.
  - change (seq k (S (S (length bounds)))) with (k :: seq (S k) (S (length bounds))). cbn -[seq tally below].
    rw Hu IH. cbn -[below]. rw Nat.add_0_r. do 2 f_equal. apply f_equal2; [|by rw Nat.add_succ_r].
    apply imap_ext. intros i y _. cbn -[below]. by rw Nat.add_succ_r.
Qed.
End Counting.

Lemma Observe_all_counts vs h h' : hist_ok h -> Observe_all vs h = Ok h' ->
  count h' = u64 (count h + len vs) /\
  forall i c, counts h !! i = Some c -> counts h' !! i = Some (u64 (c + tally (buckets h) vs i)).
Proof.
  revert h. induction vs as [|v vs IH]; intros h Hh; cbn.
  - intros [= <-]. destruct Hh as (_ & Hc & Hn). unfold tally. cbn. rw Z.add_0_r. split; [by rw u64_small|].
    intros i c Hi. rw Hi Z.add_0_r u64_small //. by apply (Forall_lookup_1 _ _ _ _ Hc Hi).
  - destruct (Observe_Ok v h Hh) as (h1 & -> & H1 & Hb & Hn & Hc). cbn. intros E. destruct (IH h1 H1 E) as [IHn IHc].
    split; [rw IHn Hn len_cons; unfold u64_add, u64; rw Zplus_mod_idemp_l; f_equal; lia|].
    intros i c Hi. rw Hb in IHc. unfold tally. rw filter_cons. case_decide as Hd.
    + rw (IHc i (u64_add c 1)); [by rw Hc -Hd list_lookup_alter_eq Hd Hi|].
      rw len_cons /tally. unfold u64_add, u64. rw Zplus_mod_idemp_l. do 2 f_equal. lia.
    + rw (IHc i c) //. by rw Hc list_lookup_alter_ne.
Qed.

(** Recording [vs] into a fresh histogram leaves the tallies in its counters. *)
Lemma fresh_counts bounds vs h : len vs < 2 ^ 64 -> Observe_all vs (NewHistogram bounds) = Ok h ->
  count h = len vs /\ buckets h = sort_Float64s bounds /\
  counts h = tally (sort_Float64s bounds) vs <$> seq 0 (S (length (sort_Float64s bounds))).
Proof.
  intros Hlen E. destruct (Observe_all_Ok vs _ (NewHistogram_ok bounds)) as (h' & E' & (Hl & _) & Hb).
  rw E in E'. injection E' as <-. destruct (Observe_all_counts vs _ h (NewHistogram_ok bounds) E) as [Hn Hc].
  split_and!; [rw Hn u64_small //; unfold len in *; cbn; lia | by rw Hb |].
  apply list_eq_same_length with (n := S (length (sort_Float64s bounds))); [by rw length_fmap length_seq | by rw Hl Hb |].
  intros i x y Hi Hx Hy. apply list_lookup_fmap_Some in Hy as (k & -> & Hk). apply lookup_seq in Hk as [-> _].
  rw (Hc i 0) in Hx; [cbn; apply lookup_replicate_2; lia|]. injection Hx as <-. cbn. rw u64_small //.
  unfold tally, len in *. pose proof (length_filter (fun v => SearchFloat64s (sort_Float64s bounds) v = i) vs). lia.
Qed.

Lemma below_leb a vs k x : sane a -> a !! k = Some x -> below a vs (S k) = len (filter (fun v => SFleb v x = true) vs).
Proof.
  intros Ha Hk. unfold below. f_equal. apply list_filter_iff. intros v.
  rw (SearchFloat64s_spec a v k x Ha Hk). lia.
Qed.

Lemma below_all a vs : below a vs (S (length a)) = len vs.
Proof.
  unfold below. induction vs as [|v vs IH]; [done|]. rw filter_cons. case_decide as Hd.
  - by rw !len_cons IH.
  - pose proof (SearchFloat64s_le a v). lia.
Qed.

Lemma sort_nonempty bounds : bounds <> [] -> sort_Float64s bounds <> [].
Proof.
  intros H E. apply H. apply Permutation_nil_r. rw -E. symmetry. apply merge_sort_Permutation.
Qed.

(** * Properties *)

(** C40: A histogram stays well typed: whatever values are recorded, NaN included, no access to the
    counters is out of range, there is one [uint64] per bound and one for the overflow, the bounds
    are the sorted ones it was made with, and a summary of a histogram with at least one bound is
    produced without a panic; resetting it gives the histogram it was made as. *)
Theorem histogram_typed bounds vs :
  exists h, Observe_all vs (NewHistogram bounds) = Ok h /\ hist_ok h /\ buckets h = sort_Float64s bounds /\
    Reset h = NewHistogram bounds /\ (bounds = [] \/ exists s, Summary h = Ok s).
Proof.
  destruct (Observe_all_Ok vs _ (NewHistogram_ok bounds)) as (h & E & Hh & Hb). exists h. split_and!; [done..| |].
  - destruct Hh as (Hl & _). unfold Reset, NewHistogram. rw Hb. f_equal. rw Hb in Hl. move: Hl. cbn. intros Hl.
    apply list_eq_same_length with (n := length (counts h)); [by rw length_replicate Hl; lia | by rw length_fmap |].
    intros i x y _ Hx Hy. apply list_lookup_fmap_Some in Hx as (? & -> & _). by apply lookup_replicate in Hy as [-> _].
  - destruct bounds as [|x bounds]; [by left|right]. destruct (Summary_Ok h Hh) as (s & Es & _); [|by exists s].
    rw Hb. by apply sort_nonempty.
Qed.

(** A summary tells the distribution: of the values recorded, the bucket of every bound counts
    exactly those at most the bound, cumulatively and in ascending order of the bounds, the last
    bucket counts all of them, and so does the total. *)
Theorem histogram_summary bounds vs : bounds <> [] -> vs <> [] -> len vs < 2 ^ 64 ->
  Forall (fun b => is_NaN b = false) bounds ->
  exists h s, Observe_all vs (NewHistogram bounds) = Ok h /\ Summary h = Ok s /\ hs_Count s = len vs /\
    hs_Buckets s =
      ((fun b => mkBucketCount b (len (filter (fun v => SFleb v b = true) vs))) <$> sort_Float64s bounds)
      ++ [mkBucketCount Inf (len vs)].
Proof.
  intros Hb Hv Hlen Hn. destruct (Observe_all_Ok vs _ (NewHistogram_ok bounds)) as (h & E & Hh & Hbk).
  destruct (fresh_counts bounds vs h Hlen E) as (Hc & _ & Hcs).
  destruct (Summary_Ok h Hh) as (s & Es & Hsc & Hsb); [rw Hbk; by apply sort_nonempty|].
  exists h, s. split_and!; [done..|congruence|].
  assert (count h <> 0) as Hne by (rw Hc; destruct vs; [done | rw len_cons; pose proof (len_nonneg vs); lia]).
  specialize (Hsb Hne). rw Hbk Hcs in Hsb. cbn [buckets NewHistogram] in Hsb.
  change 0 with (below (sort_Float64s bounds) [] 0) in Hsb.
  assert (H0 : below (sort_Float64s bounds) vs 0 = 0).
  { unfold below. clear. induction vs as [|v vs IH]; [done|]. rw filter_cons. case_decide; [lia|done]. }
  change (below (sort_Float64s bounds) [] 0) with 0 in Hsb. rw -{1}H0 cumulate_below // in Hsb. injection Hsb as ->.
  f_equal; [|by rw below_all]. apply list_eq. intros i. rw list_lookup_imap list_lookup_fmap.
  destruct (sort_Float64s bounds !! i) as [x|] eqn:Hi; [|done]. cbn. f_equal. f_equal.
  apply below_leb; [by apply sane_sort | done].
Qed.

Lemma histogram_summary_witness : exists h s,
  Observe_all (f64_of_Z <$> [3; 10; 10; 400; 26; 9000]) (NewHistogram (f64_of_Z <$> [25; 10; 100])) = Ok h /\
  Summary h = Ok s /\ hs_Count s = 6 /\ Count <$> hs_Buckets s = [3; 3; 4; 6].
Proof.
  destruct (histogram_summary (f64_of_Z <$> [25; 10; 100]) (f64_of_Z <$> [3; 10; 10; 400; 26; 9000]))
    as (h & s & E & Es & Hc & Hb); [done | done | vm_compute; done | by repeat constructor |].
  exists h, s. split_and!; [done..|]. rw Hb. vm_compute. reflexivity.
Defined.

(** A histogram without bounds cannot be summarised once it has recorded a value. *)
Lemma no_bounds_panics : (let! h := Observe (f64_of_Z 1) (NewHistogram []) in Summary h) = Panic.
Proof. vm_compute. reflexivity. Qed.

(** With most values in the first bucket, the median is estimated as half its bound. *)
Lemma median_example :
  (let! h := Observe_all (f64_of_Z <$> [1; 2; 3; 300]) (NewHistogram (f64_of_Z <$> [10; 100])) in
   let! s := Summary h in Ok (take 1 (hs_Percentiles s))) = Ok [(hundredths 50, f64_of_Z 5)].
Proof. vm_compute. reflexivity. Qed.
