(* ===== verification/Logger.v ===== *)
(** Structured logging: [pkg/metrics/logger.go].

    A logger is a value; what it writes is a list of chunks for its [io.Writer].  The value of a
    field keeps its Go type.  Clock readings come formatted, and the text Go gives a [float64] and
    the JSON it gives an entry are arguments of the functions that use them. *)

From Corelib Require Import ssreflect.
From stdpp Require Import base tactics list numbers strings gmap sorting pretty.
From Stdlib Require Import ZArith Lia Ascii.
From S2P Require Import Prelude Base Admission Encoding.

Local Open Scope Z_scope.
Local Open Scope go_scope.

(** * Strings *)

Fixpoint concat_strings (l : list string) : string :=
  match l with [] => "" | s :: l => s +:+ concat_strings l end.

(** [strings.Join]. *)
Fixpoint join (sep : string) (l : list string) : string :=
  match l with
  | [] => ""
  | [s] => s
  | s :: l => s +:+ sep +:+ join sep l
  end.

(** [sort.Strings] on the keys of a map. *)
Definition sorted_keys {A} (m : gmap string A) : list string := merge_sort String.le ((map_to_list m).*1).

(** * Levels *)

Definition Level := Z.
Definition LevelDebug : Level := 0.
Definition LevelInfo : Level := 1.
Definition LevelWarn : Level := 2.
Definition LevelError : Level := 3.
Definition LevelSilent : Level := 4.

Definition Level_String (l : Level) : string :=
  if l =? LevelDebug then "DEBUG"
  else if l =? LevelInfo then "INFO"
  else if l =? LevelWarn then "WARN"
  else if l =? LevelError then "ERROR"
  else if l =? LevelSilent then "SILENT"
  else "UNKNOWN".

(** [strings.ToUpper], as far as a comparison with an ASCII word can tell: the ASCII letters, and
    the two other runes whose upper case is ASCII, the dotless i and the long s. *)
Fixpoint ToUpper (s : string) : string :=
  match s with
  | "" => ""
  | String c s' =>
      let n := nat_of_ascii c in
      match s' with
      | String d s'' =>
          if ((n =? 196) && (nat_of_ascii d =? 177))%nat then String "I" (ToUpper s'')
          else if ((n =? 197) && (nat_of_ascii d =? 191))%nat then String "S" (ToUpper s'')
          else String (if ((97 <=? n) && (n <=? 122))%nat then chr (n - 32) else c) (ToUpper s')
      | "" => String (if ((97 <=? n) && (n <=? 122))%nat then chr (n - 32) else c) ""
      end
  end.

Definition ParseLevel (s : string) : Level :=
  let s := ToUpper s in
  if bool_decide (s = "DEBUG") then LevelDebug
  else if bool_decide (s = "INFO") then LevelInfo
  else if bool_decide (s ∈ ["WARN"; "WARNING"]) then LevelWarn
  else if bool_decide (s = "ERROR") then LevelError
  else if bool_decide (s ∈ ["SILENT"; "OFF"; "NONE"]) then LevelSilent
  else LevelInfo.

(** * Loggers *)

Inductive any := AString (s : string) | AInt (z : Z) | ABool (b : bool) | AFloat (f : TokenBucket.f64).

Definition Fields := gmap string any.

Inductive Format := FormatText | FormatJSON.

Record Logger := mkLogger {
  lg_level : Level;
  lg_format : Format;
  lg_fields : Fields;
  lg_name : string }.

#[export] Instance Logger_eta : Eta Logger := {| eta := fun l =>
  mkLogger (lg_level l) (lg_format l) (lg_fields l) (lg_name l) |}.

Definition LoggerOption := Logger -> Logger.
Definition WithLevel (level : Level) : LoggerOption := fun l => l <| lg_level := level |>.
Definition WithFormat (format : Format) : LoggerOption := fun l => l <| lg_format := format |>.
Definition WithFields (fields : Fields) : LoggerOption := fun l => l <| lg_fields := fields |>.
Definition WithName (name : string) : LoggerOption := fun l => l <| lg_name := name |>.

Definition NewLogger (opts : list LoggerOption) : Logger :=
  foldl (fun l opt => opt l) (mkLogger LevelInfo FormatText ∅ "") opts.

(** Later fields win. *)
Definition merge (base extra : Fields) : Fields := extra ∪ base.

Definition With (fields : Fields) (l : Logger) : Logger := l <| lg_fields := merge (lg_fields l) fields |>.

Definition Named (name : string) (l : Logger) : Logger :=
  l <| lg_name := if bool_decide (lg_name l = "") then name else lg_name l +:+ "." +:+ name |>.

Definition SetLevel (level : Level) (l : Logger) : Logger := l <| lg_level := level |>.

Definition NullLogger : Logger := NewLogger [WithLevel LevelSilent].
Definition TestLogger : Logger := NewLogger [WithLevel LevelDebug; WithFormat FormatText].
Definition ProductionLogger : Logger := NewLogger [WithLevel LevelInfo; WithFormat FormatJSON].

(** * Writing an entry *)

Section Writing.
(** The text of a [float64] under [%v], and [json.Marshal], which may fail with an error. *)
Context (fmt_v : TokenBucket.f64 -> string) (Marshal : Fields -> string + string).

(** The clock, as [RFC3339Nano] and as [15:04:05.000]. *)
Record stamp := mkStamp { st_rfc : string; st_clock : string }.

Definition show_any (v : any) : string :=
  match v with
  | AString s => s
  | AInt z => pretty z
  | ABool b => if b then "true" else "false"
  | AFloat f => fmt_v f
  end.

Definition formatFields (fields : Fields) : string :=
  join " " ((fun k => k +:+ "=" +:+ from_option show_any "" (fields !! k)) <$> sorted_keys fields).

Definition escape (code : string) : string := str (chr 27) +:+ "[" +:+ code +:+ "m".

Definition levelColor (level : Level) : string :=
  if level =? LevelDebug then escape "90"
  else if level =? LevelInfo then escape "34"
  else if level =? LevelWarn then escape "33"
  else if level =? LevelError then escape "31"
  else "".

(** [%-5s]. *)
Definition pad5 (s : string) : string := s +:+ concat_strings (replicate (5 - String.length s) " ").

Definition writeText (t : stamp) (level : Level) (msg : string) (fields : Fields) (l : Logger) : list string :=
  [st_clock t +:+ " " +:+ levelColor level +:+ pad5 (Level_String level) +:+ escape "0" +:+ " "
   +:+ (if bool_decide (lg_name l = "") then "" else "[" +:+ lg_name l +:+ "] ")
   +:+ msg
   +:+ (if bool_decide (fields = ∅) then "" else " " +:+ formatFields fields)
   +:+ newline].

Definition json_entry (t : stamp) (level : Level) (msg : string) (fields : Fields) (l : Logger) : Fields :=
  let entry : Fields := <["time" := AString (st_rfc t)]> ∅ in
  let entry : Fields := <["level" := AString (Level_String level)]> entry in
  let entry : Fields := <["msg" := AString msg]> entry in
  let entry : Fields := if bool_decide (lg_name l = "") then entry else <["logger" := AString (lg_name l)]> entry in
  merge entry fields.

Definition writeJSON (t : stamp) (level : Level) (msg : string) (fields : Fields) (l : Logger) : list string :=
  match Marshal (json_entry t level msg fields l) with
  | inl data => [data; newline]
  | inr err => ["LOG_ERROR: " +:+ err +:+ newline]
  end.

Definition log (t : stamp) (level : Level) (msg : string) (extraFields : list Fields) (l : Logger) : list string :=
  if level <? lg_level l then []
  else
    let allFields := foldl merge (lg_fields l) extraFields in
    match lg_format l with
    | FormatJSON => writeJSON t level msg allFields l
    | FormatText => writeText t level msg allFields l
    end.

(** Extra fields are as good as fields of the logger. *)
Lemma log_With t level msg f fs l : log t level msg (f :: fs) l = log t level msg fs (With f l).
Proof. reflexivity. Qed.

(** An entry is written exactly when its level reaches the logger's. *)
Lemma log_written t level msg fs l : log t level msg fs l = [] <-> level < lg_level l.
Proof.
  unfold log, writeJSON, writeText. destruct (Z.ltb_spec level (lg_level l)); [done|].
  split; [|lia]. destruct (lg_format l); [done|]. by case_match.
Qed.

Lemma NullLogger_silent t level msg fs : level <= LevelError -> log t level msg fs NullLogger = [].
Proof. intros. apply log_written. cbn. unfold LevelError, LevelSilent in *. lia. Qed.

(** In a JSON entry a field replaces the entry's own value of that name, also its level. *)
Lemma json_entry_field t level msg (fields : Fields) l k v : fields !! k = Some v ->
  json_entry t level msg fields l !! k = Some v.
Proof. intros H. unfold json_entry, merge. by apply lookup_union_Some_l. Qed.
End Writing.

Lemma ParseLevel_String l : LevelDebug <= l <= LevelSilent -> ParseLevel (Level_String l) = l.
Proof.
  unfold LevelDebug, LevelSilent. intros H. assert (l = 0 \/ l = 1 \/ l = 2 \/ l = 3 \/ l = 4) as Hl by lia.
  destruct Hl as [->|[->|[->|[->| ->]]]]; reflexivity.
Qed.
