(* ===== verification/Metrics.v ===== *)
(** The metrics collector and the observers that feed it: [pkg/metrics/metrics.go], [tunnel.go],
    [pool_observer.go], [rate_limit_observer.go] and [tracing.go].

    The methods of [Collector] are the constructors of [CollectorOp]; [Collector_do] runs one, each
    an atomic access to the counters.  A method of an observer is the list of effects it has: on
    the collector, on the log and on the tracer. *)

From Corelib Require Import ssreflect.
From stdpp Require Import base tactics list numbers strings gmap pretty.
From Stdlib Require Import ZArith Lia Ascii Floats.SpecFloat.
From S2P Require Import Prelude Base Ticket Admission Pool Encoding Histogram Logger.

Import TokenBucket.

Local Open Scope Z_scope.
Local Open Scope go_scope.

(** * Durations *)

Definition Milliseconds (d : Z) : Z := Z.quot d 1000000.
Definition Microseconds (d : Z) : Z := Z.quot d 1000.

(** [Duration.String] of the standard library. *)
Fixpoint fmtFrac (prec : nat) (v : Z) (acc : string) (print : bool) : string * Z :=
  match prec with
  | O => (if print then "." +:+ acc else acc, v)
  | S prec =>
      let digit := v mod 10 in
      let print := print || negb (digit =? 0) in
      fmtFrac prec (v / 10) (if print then pretty digit +:+ acc else acc) print
  end.

Definition Duration_String (d : Z) : string :=
  let u := Z.abs d in
  let text :=
    if u =? 0 then "0s"
    else if u <? Second then
      let '(prec, unit) :=
        if u <? 1000 then (0%nat, "ns")
        else if u <? 1000000 then (3%nat, str (chr 194) +:+ str (chr 181) +:+ "s")
        else (6%nat, "ms") in
      let '(frac, v) := fmtFrac prec u "" false in
      pretty v +:+ frac +:+ unit
    else
      let '(frac, s) := fmtFrac 9 u "" false in
      let m := s / 60 in
      (if 0 <? m / 60 then pretty (m / 60) +:+ "h" else "")
      +:+ (if 0 <? m then pretty (m mod 60) +:+ "m" else "")
      +:+ pretty (s mod 60) +:+ frac +:+ "s" in
  if d <? 0 then "-" +:+ text else text.

(** * The collector *)

Definition Labels := gmap string string.

Record Collector := mkCollector {
  sessionsActive : Z;
  sessionsTotal : Z;
  sessionsFailed : Z;
  handshakeLatency : Histogram;
  bytesSent : Z;
  bytesReceived : Z;
  packetsSent : Z;
  packetsRecv : Z;
  replayAttacksBlocked : Z;
  authFailures : Z;
  rekeysInitiated : Z;
  rekeysCompleted : Z;
  rekeysFailed : Z;
  encryptErrors : Z;
  decryptErrors : Z;
  protocolErrors : Z;
  connectionRateLimits : Z;
  handshakeRateLimits : Z;
  encryptLatency : Histogram;
  decryptLatency : Histogram;
  c_createdAt : Z;
  labels : Labels }.

#[export] Instance Collector_eta : Eta Collector := {| eta := fun c =>
  mkCollector (sessionsActive c) (sessionsTotal c) (sessionsFailed c) (handshakeLatency c) (bytesSent c)
    (bytesReceived c) (packetsSent c) (packetsRecv c) (replayAttacksBlocked c) (authFailures c)
    (rekeysInitiated c) (rekeysCompleted c) (rekeysFailed c) (encryptErrors c) (decryptErrors c)
    (protocolErrors c) (connectionRateLimits c) (handshakeRateLimits c) (encryptLatency c) (decryptLatency c)
    (c_createdAt c) (labels c) |}.

Definition HandshakeLatencyBuckets : list f64 := f64_of_Z <$> [10; 25; 50; 100; 250; 500; 1000; 2500; 5000].
Definition LatencyBuckets : list f64 := f64_of_Z <$> [1; 5; 10; 25; 50; 100; 250; 500; 1000].

(** A [nil] map of labels becomes an empty one. *)
Definition NewCollector (lbls : option Labels) (now : Z) : Collector :=
  mkCollector 0 0 0 (NewHistogram HandshakeLatencyBuckets) 0 0 0 0 0 0 0 0 0 0 0 0 0 0
    (NewHistogram LatencyBuckets) (NewHistogram LatencyBuckets) now (default ∅ lbls).

Inductive CollectorOp :=
  | SessionStarted
  | SessionEnded
  | SessionFailed
  | RecordHandshakeLatency (d : Z)
  | RecordBytesSent (n : Z)
  | RecordBytesReceived (n : Z)
  | RecordPacketSent
  | RecordPacketReceived
  | RecordReplayBlocked
  | RecordAuthFailure
  | RecordRekeyInitiated
  | RecordRekeyCompleted
  | RecordRekeyFailed
  | RecordEncryptError
  | RecordDecryptError
  | RecordProtocolError
  | RecordConnectionRateLimit
  | RecordHandshakeRateLimit
  | RecordEncryptLatency (d : Z)
  | RecordDecryptLatency (d : Z).

Definition Collector_do (o : CollectorOp) (c : Collector) : outcome error Collector :=
  match o with
  | SessionStarted =>
      Ok (c <| sessionsActive := i64_add (sessionsActive c) 1 |> <| sessionsTotal := i64_add (sessionsTotal c) 1 |>)
  | SessionEnded =>
      let current := sessionsActive c in
      if current <=? 0 then Ok c else Ok (c <| sessionsActive := i64_add current (-1) |>)
  | SessionFailed => Ok (c <| sessionsFailed := i64_add (sessionsFailed c) 1 |>)
  | RecordHandshakeLatency d =>
      let! h := Observe (f64_of_Z (Milliseconds d)) (handshakeLatency c) in
      Ok (c <| handshakeLatency := h |>)
  | RecordBytesSent n => if n <? 0 then Ok c else Ok (c <| bytesSent := i64_add (bytesSent c) n |>)
  | RecordBytesReceived n => if n <? 0 then Ok c else Ok (c <| bytesReceived := i64_add (bytesReceived c) n |>)
  | RecordPacketSent => Ok (c <| packetsSent := i64_add (packetsSent c) 1 |>)
  | RecordPacketReceived => Ok (c <| packetsRecv := i64_add (packetsRecv c) 1 |>)
  | RecordReplayBlocked => Ok (c <| replayAttacksBlocked := i64_add (replayAttacksBlocked c) 1 |>)
  | RecordAuthFailure => Ok (c <| authFailures := i64_add (authFailures c) 1 |>)
  | RecordRekeyInitiated => Ok (c <| rekeysInitiated := i64_add (rekeysInitiated c) 1 |>)
  | RecordRekeyCompleted => Ok (c <| rekeysCompleted := i64_add (rekeysCompleted c) 1 |>)
  | RecordRekeyFailed => Ok (c <| rekeysFailed := i64_add (rekeysFailed c) 1 |>)
  | RecordEncryptError => Ok (c <| encryptErrors := i64_add (encryptErrors c) 1 |>)
  | RecordDecryptError => Ok (c <| decryptErrors := i64_add (decryptErrors c) 1 |>)
  | RecordProtocolError => Ok (c <| protocolErrors := i64_add (protocolErrors c) 1 |>)
  | RecordConnectionRateLimit => Ok (c <| connectionRateLimits := i64_add (connectionRateLimits c) 1 |>)
  | RecordHandshakeRateLimit => Ok (c <| handshakeRateLimits := i64_add (handshakeRateLimits c) 1 |>)
  | RecordEncryptLatency d =>
      let! h := Observe (f64_of_Z (Microseconds d)) (encryptLatency c) in
      Ok (c <| encryptLatency := h |>)
  | RecordDecryptLatency d =>
      let! h := Observe (f64_of_Z (Microseconds d)) (decryptLatency c) in
      Ok (c <| decryptLatency := h |>)
  end.

Fixpoint Collector_run (ops : list CollectorOp) (c : Collector) : outcome error Collector :=
  match ops with
  | [] => Ok c
  | o :: ops => let! c := Collector_do o c in Collector_run ops c
  end.

(** A snapshot: the counters as they stand, and a summary of each histogram. *)
Record MetricsSnapshot := mkMetricsSnapshot {
  ms_Timestamp : Z;
  ms_Uptime : Z;
  ms_counters : Collector;
  ms_HandshakeLatency : HistogramSummary;
  ms_EncryptLatency : HistogramSummary;
  ms_DecryptLatency : HistogramSummary }.

Definition Collector_Snapshot (now : Z) (c : Collector) : outcome error MetricsSnapshot :=
  let! h := Summary (handshakeLatency c) in
  let! e := Summary (encryptLatency c) in
  let! d := Summary (decryptLatency c) in
  Ok (mkMetricsSnapshot now (time_Since now (c_createdAt c)) c h e d).

Definition Collector_Reset (now : Z) (c : Collector) : Collector :=
  mkCollector 0 0 0 (Reset (handshakeLatency c)) 0 0 0 0 0 0 0 0 0 0 0 0 0 0
    (Reset (encryptLatency c)) (Reset (decryptLatency c)) now (labels c).

(** * Effects of an observer *)

Inductive SpanKind := SpanKindInternal | SpanKindServer | SpanKindClient.

Inductive observer_effect :=
  | EMetric (o : CollectorOp)
  | ELog (level : Level) (msg : string) (fields : list Fields)
  | ESpanStart (name : string) (kind : SpanKind)
  | ESpanEnd (err : option string).

(** What a list of effects does to the collector. *)
Definition metric_of (e : observer_effect) : option CollectorOp := match e with EMetric o => Some o | _ => None end.
Definition metrics_of (es : list observer_effect) : list CollectorOp := omap metric_of es.

Definition field (k v : string) : Fields := {[ k := AString v ]}.

(** * The tunnel observer *)

Record TunnelObserver := mkTunnelObserver {
  o_logger : Logger;
  o_sessionID : string;
  o_role : string }.

(** The logger defaults to the global one. *)
Definition NewTunnelObserver (globalLogger : Logger) (logger : option Logger) (SessionID : list Z) (role : string)
    : TunnelObserver :=
  let sessionID := if 0 <? len SessionID then EncodeToString (take 8 SessionID) else "" in
  mkTunnelObserver
    (With (<["role" := AString role]> (field "session_id" sessionID)) (Named "tunnel" (default globalLogger logger)))
    sessionID role.

Definition SpanHandshakeInitiator : string := "quantum.handshake.initiator".
Definition SpanHandshakeResponder : string := "quantum.handshake.responder".
Definition SpanEncrypt : string := "quantum.encrypt".
Definition SpanDecrypt : string := "quantum.decrypt".
Definition SpanRekey : string := "quantum.rekey".

(** The callbacks; those that return a function to call when the operation ends have a [Done]. *)
Inductive TunnelObserverEvent :=
  | OnSessionStart
  | OnSessionEnd
  | OnSessionFailed (err : string)
  | OnHandshakeStart
  | HandshakeDone (duration : Z) (err : option string)
  | OnEncrypt
  | EncryptDone (plaintextLen duration : Z) (err : option string)
  | OnDecrypt
  | DecryptDone (ciphertextLen duration : Z) (err : option string)
  | OnReplayDetected
  | OnAuthFailure
  | OnRekeyStart
  | RekeyDone (err : option string)
  | OnProtocolError (err : string).

Definition TunnelObserver_on (ev : TunnelObserverEvent) (o : TunnelObserver) : list observer_effect :=
  match ev with
  | OnSessionStart => [EMetric SessionStarted; ELog LevelInfo "session started" []]
  | OnSessionEnd => [EMetric SessionEnded; ELog LevelInfo "session ended" []]
  | OnSessionFailed err => [EMetric SessionFailed; ELog LevelError "session failed" [field "error" err]]
  | OnHandshakeStart =>
      [ESpanStart (if bool_decide (o_role o = "responder") then SpanHandshakeResponder else SpanHandshakeInitiator)
         SpanKindServer;
       ELog LevelDebug "handshake started" []]
  | HandshakeDone duration err =>
      EMetric (RecordHandshakeLatency duration) ::
      match err with
      | Some e => [ELog LevelError "handshake failed"
                     [<["duration" := AString (Duration_String duration)]> (field "error" e)]]
      | None => [ELog LevelInfo "handshake completed" [field "duration" (Duration_String duration)]]
      end ++ [ESpanEnd err]
  | OnEncrypt => [ESpanStart SpanEncrypt SpanKindInternal]
  | EncryptDone plaintextLen duration err =>
      EMetric (RecordEncryptLatency duration) ::
      match err with
      | Some e => [EMetric RecordEncryptError; ELog LevelDebug "encrypt failed" [field "error" e]]
      | None => [EMetric (RecordBytesSent plaintextLen); EMetric RecordPacketSent]
      end ++ [ESpanEnd err]
  | OnDecrypt => [ESpanStart SpanDecrypt SpanKindInternal]
  | DecryptDone ciphertextLen duration err =>
      EMetric (RecordDecryptLatency duration) ::
      match err with
      | Some e => [EMetric RecordDecryptError; ELog LevelDebug "decrypt failed" [field "error" e]]
      | None => [EMetric (RecordBytesReceived ciphertextLen); EMetric RecordPacketReceived]
      end ++ [ESpanEnd err]
  | OnReplayDetected => [EMetric RecordReplayBlocked; ELog LevelWarn "replay attack blocked" []]
  | OnAuthFailure => [EMetric RecordAuthFailure; ELog LevelWarn "authentication failed" []]
  | OnRekeyStart =>
      [EMetric RecordRekeyInitiated; ESpanStart SpanRekey SpanKindInternal; ELog LevelDebug "rekey initiated" []]
  | RekeyDone err =>
      match err with
      | Some e => [EMetric RecordRekeyFailed; ELog LevelError "rekey failed" [field "error" e]]
      | None => [EMetric RecordRekeyCompleted; ELog LevelInfo "rekey completed" []]
      end ++ [ESpanEnd err]
  | OnProtocolError err => [EMetric RecordProtocolError; ELog LevelError "protocol error" [field "error" err]]
  end.

(** [InstrumentedSession.WrapEncrypt]: [fn] returned [err] after [duration]. *)
Definition WrapEncrypt (plaintextLen duration : Z) (err : option string) (o : TunnelObserver) : list observer_effect :=
  TunnelObserver_on OnEncrypt o ++ TunnelObserver_on (EncryptDone plaintextLen duration err) o.

Definition WrapDecrypt (ciphertextLen duration : Z) (err : option string) (o : TunnelObserver) : list observer_effect :=
  TunnelObserver_on OnDecrypt o ++ TunnelObserver_on (DecryptDone ciphertextLen duration err) o.

(** * The rate limit observer *)

(** [strings.LastIndex] and [strings.Count] of a byte. *)
Fixpoint LastIndex (c : ascii) (s : string) : option nat :=
  match s with
  | "" => None
  | String d s =>
      match LastIndex c s with
      | Some i => Some (S i)
      | None => if bool_decide (d = c) then Some 0%nat else None
      end
  end.

Fixpoint count_char (c : ascii) (s : string) : nat :=
  match s with "" => 0%nat | String d s => ((if bool_decide (d = c) then 1 else 0) + count_char c s)%nat end.

(** [s[lo:hi]]. *)
Definition slice_string (s : string) (lo hi : nat) : outcome error string :=
  if ((lo <=? hi) && (hi <=? String.length s))%nat then Ok (String.substring lo (hi - lo) s) else Panic.

Definition maskIP (ip : string) : outcome error string :=
  let! host :=
    match LastIndex ":" ip with
    | Some idx =>
        match LastIndex "]" ip with
        | Some bracket => slice_string ip 1 bracket
        | None => if (count_char ":" ip =? 1)%nat then slice_string ip 0 idx else Ok ip
        end
    | None => Ok ip
    end in
  let n := String.length host in
  if (n <? 6)%nat then Ok "***"
  else
    let! a := slice_string host 0 3 in
    let! b := slice_string host (n - 3) n in
    Ok (a +:+ "***" +:+ b).

Definition rate_limit_log (msg remoteIP : string) : outcome error (list observer_effect) :=
  if bool_decide (remoteIP = "") then Ok [ELog LevelWarn msg []]
  else let! m := maskIP remoteIP in Ok [ELog LevelWarn msg [field "remote_ip" m]].

Definition OnConnectionRateLimit (remoteIP : string) : outcome error (list observer_effect) :=
  let! l := rate_limit_log "connection rate limit exceeded" remoteIP in
  Ok (EMetric RecordConnectionRateLimit :: l).

Definition OnHandshakeRateLimit (remoteIP : string) : outcome error (list observer_effect) :=
  let! l := rate_limit_log "handshake rate limit exceeded" remoteIP in
  Ok (EMetric RecordHandshakeRateLimit :: l).

(** * The simple tracer *)

Record RecordedSpan := mkRecordedSpan {
  sp_Name : string;
  sp_StartTime : Z;
  sp_EndTime : Z;
  sp_Duration : Z;
  sp_Kind : SpanKind;
  sp_Attributes : Fields;
  sp_Error : option string;
  sp_TraceID : string;
  sp_SpanID : string;
  sp_ParentID : string }.

Record spanConfig := mkSpanConfig { sc_kind : SpanKind; sc_attributes : Fields }.
Definition SpanOption := spanConfig -> spanConfig.
Definition WithSpanKind (kind : SpanKind) : SpanOption := fun c => mkSpanConfig kind (sc_attributes c).
Definition WithAttributes (attrs : Fields) : SpanOption := fun c => mkSpanConfig (sc_kind c) attrs.

(** [StartSpan]: the span the context now holds.  The span in the context it was called with, if
    any, is the parent; [traceID] and [spanID] are two results of [generateID]. *)
Definition StartSpan (ctx : option RecordedSpan) (name : string) (opts : list SpanOption) (now : Z)
    (traceID spanID : string) : RecordedSpan :=
  let cfg := foldl (fun c opt => opt c) (mkSpanConfig SpanKindInternal ∅) opts in
  let '(parent, trace) := match ctx with Some p => (sp_SpanID p, sp_TraceID p) | None => ("", traceID) end in
  mkRecordedSpan name now 0 0 (sc_kind cfg) (sc_attributes cfg) None trace spanID parent.

(** The returned [SpanEnder]: the finished span goes onto the tracer's list. *)
Definition EndSpan (now : Z) (err : option string) (span : RecordedSpan) (spans : list RecordedSpan) : list RecordedSpan :=
  spans ++ [mkRecordedSpan (sp_Name span) (sp_StartTime span) now (time_Since now (sp_StartTime span)) (sp_Kind span)
              (sp_Attributes span) err (sp_TraceID span) (sp_SpanID span) (sp_ParentID span)].

Record SpanAttributes := mkSpanAttributes {
  sa_SessionID : string;
  sa_Role : string;
  sa_CipherSuite : string;
  sa_BytesSent : Z;
  sa_BytesRecv : Z;
  sa_Error : string }.

Definition set_string (k v : string) (m : Fields) : Fields :=
  if bool_decide (v = "") then m else <[k := AString v]> m.
Definition set_positive (k : string) (v : Z) (m : Fields) : Fields := if 0 <? v then <[k := AInt v]> m else m.

Definition ToMap (a : SpanAttributes) : Fields :=
  set_string "error.message" (sa_Error a)
    (set_positive "network.bytes_received" (sa_BytesRecv a)
       (set_positive "network.bytes_sent" (sa_BytesSent a)
          (set_string "crypto.cipher_suite" (sa_CipherSuite a)
             (set_string "session.role" (sa_Role a) (set_string "session.id" (sa_SessionID a) ∅))))).

(** * The pool observer *)

Record PoolMetricsObserver := mkPoolMetricsObserver {
  pm_connectionsTotal : Z;
  pm_connectionsIdle : Z;
  pm_connectionsInUse : Z;
  pm_waitingCount : Z;
  pm_acquiresTotal : Z;
  pm_acquireTimeoutsTotal : Z;
  pm_connectionsCreated : Z;
  pm_connectionsClosed : Z;
  pm_healthChecksTotal : Z;
  pm_healthChecksFailed : Z;
  pm_acquireLatency : Histogram;
  pm_dialLatency : Histogram;
  pm_logger : Logger;
  pm_poolName : string }.

#[export] Instance PoolMetricsObserver_eta : Eta PoolMetricsObserver := {| eta := fun o =>
  mkPoolMetricsObserver (pm_connectionsTotal o) (pm_connectionsIdle o) (pm_connectionsInUse o) (pm_waitingCount o)
    (pm_acquiresTotal o) (pm_acquireTimeoutsTotal o) (pm_connectionsCreated o) (pm_connectionsClosed o)
    (pm_healthChecksTotal o) (pm_healthChecksFailed o) (pm_acquireLatency o) (pm_dialLatency o) (pm_logger o)
    (pm_poolName o) |}.

Definition PoolAcquireLatencyBuckets : list f64 := f64_of_Z <$> [1; 5; 10; 25; 50; 100; 250; 500; 1000; 5000].
Definition PoolDialLatencyBuckets : list f64 := f64_of_Z <$> [10; 25; 50; 100; 250; 500; 1000; 2500; 5000; 10000].

Definition NewPoolMetricsObserver (globalLogger : Logger) (logger : option Logger) (poolName : string)
    : PoolMetricsObserver :=
  let poolName := if bool_decide (poolName = "") then "default" else poolName in
  mkPoolMetricsObserver 0 0 0 0 0 0 0 0 0 0 (NewHistogram PoolAcquireLatencyBuckets)
    (NewHistogram PoolDialLatencyBuckets)
    (With (field "pool" poolName) (Named "pool" (default globalLogger logger))) poolName.

Inductive PoolObserverEvent :=
  | OnAcquire (waitDuration : Z) (reused : bool)
  | OnAcquireTimeout
  | OnRelease
  | OnConnectionCreated (dialDuration : Z)
  | OnConnectionClosed (reason : string)
  | OnHealthCheck (healthy : bool)
  | OnPoolStats (stats : PoolStatsSnapshot).

Definition ifield (k : string) (z : Z) (m : Fields) : Fields := <[k := AInt z]> m.

Definition PoolMetricsObserver_on (ev : PoolObserverEvent) (o : PoolMetricsObserver)
    : outcome error (PoolMetricsObserver * list observer_effect) :=
  match ev with
  | OnAcquire waitDuration reused =>
      let! h := Observe (f64_of_Z (Milliseconds waitDuration)) (pm_acquireLatency o) in
      let o := o <| pm_acquiresTotal := u64_add (pm_acquiresTotal o) 1 |> <| pm_acquireLatency := h |>
                 <| pm_connectionsInUse := i64_add (pm_connectionsInUse o) 1 |> in
      let o := if reused then o <| pm_connectionsIdle := i64_add (pm_connectionsIdle o) (-1) |> else o in
      Ok (o, [ELog LevelDebug "connection acquired"
                [ifield "wait_ms" (Milliseconds waitDuration) {[ "reused" := ABool reused ]}]])
  | OnAcquireTimeout =>
      Ok (o <| pm_acquireTimeoutsTotal := u64_add (pm_acquireTimeoutsTotal o) 1 |>, [ELog LevelWarn "acquire timed out" []])
  | OnRelease =>
      let current := i64_add (pm_connectionsInUse o) (-1) in
      Ok (o <| pm_connectionsInUse := if current <? 0 then 0 else current |>
            <| pm_connectionsIdle := i64_add (pm_connectionsIdle o) 1 |>, [ELog LevelDebug "connection released" []])
  | OnConnectionCreated dialDuration =>
      let! h := Observe (f64_of_Z (Milliseconds dialDuration)) (pm_dialLatency o) in
      Ok (o <| pm_connectionsCreated := u64_add (pm_connectionsCreated o) 1 |>
            <| pm_connectionsTotal := i64_add (pm_connectionsTotal o) 1 |> <| pm_dialLatency := h |>,
          [ELog LevelInfo "connection created" [ifield "dial_ms" (Milliseconds dialDuration) ∅]])
  | OnConnectionClosed reason =>
      Ok (o <| pm_connectionsClosed := u64_add (pm_connectionsClosed o) 1 |>
            <| pm_connectionsTotal := i64_add (pm_connectionsTotal o) (-1) |>,
          [ELog LevelInfo "connection closed" [field "reason" reason]])
  | OnHealthCheck healthy =>
      let o := o <| pm_healthChecksTotal := u64_add (pm_healthChecksTotal o) 1 |> in
      Ok (if healthy then (o, [])
          else (o <| pm_healthChecksFailed := u64_add (pm_healthChecksFailed o) 1 |>,
                [ELog LevelWarn "health check failed" []]))
  | OnPoolStats stats =>
      let s := sn_Stats stats in
      Ok (o <| pm_connectionsTotal := sn_ConnectionsTotal stats |> <| pm_connectionsIdle := sn_ConnectionsIdle stats |>
            <| pm_connectionsInUse := sn_ConnectionsInUse stats |> <| pm_waitingCount := waitingCount s |>,
          [ELog LevelDebug "pool stats"
             [ifield "total" (sn_ConnectionsTotal stats) (ifield "idle" (sn_ConnectionsIdle stats)
               (ifield "in_use" (sn_ConnectionsInUse stats) (ifield "waiting" (waitingCount s)
                 (ifield "acquires" (acquiresTotal s) (ifield "timeouts" (acquireTimeoutsTotal s)
                   (ifield "created" (connectionsCreated s) (ifield "closed" (connectionsClosed s)
                     {[ "uptime_sec" := AFloat (Seconds (sn_Uptime stats)) ]})))))))]])
  end.

Record PoolMetricsSnapshot := mkPoolMetricsSnapshot {
  ps_counters : PoolMetricsObserver;
  ps_AcquireLatency : HistogramSummary;
  ps_DialLatency : HistogramSummary }.

Definition PoolMetrics_Snapshot (o : PoolMetricsObserver) : outcome error PoolMetricsSnapshot :=
  let! a := Summary (pm_acquireLatency o) in
  let! d := Summary (pm_dialLatency o) in
  Ok (mkPoolMetricsSnapshot o a d).

Definition PoolMetrics_Reset (o : PoolMetricsObserver) : PoolMetricsObserver :=
  mkPoolMetricsObserver 0 0 0 0 0 0 0 0 0 0 (Reset (pm_acquireLatency o)) (Reset (pm_dialLatency o)) (pm_logger o)
    (pm_poolName o).

(** * What the counters count *)

Inductive counter :=
  | KTotal | KFailed | KBytesSent | KBytesReceived | KPacketsSent | KPacketsRecv | KReplays | KAuthFailures
  | KRekeysInitiated | KRekeysCompleted | KRekeysFailed | KEncryptErrors | KDecryptErrors | KProtocolErrors
  | KConnectionLimits | KHandshakeLimits.

Definition read (k : counter) (c : Collector) : Z :=
  match k with
  | KTotal => sessionsTotal c | KFailed => sessionsFailed c
  | KBytesSent => bytesSent c | KBytesReceived => bytesReceived c
  | KPacketsSent => packetsSent c | KPacketsRecv => packetsRecv c
  | KReplays => replayAttacksBlocked c | KAuthFailures => authFailures c
  | KRekeysInitiated => rekeysInitiated c | KRekeysCompleted => rekeysCompleted c | KRekeysFailed => rekeysFailed c
  | KEncryptErrors => encryptErrors c | KDecryptErrors => decryptErrors c | KProtocolErrors => protocolErrors c
  | KConnectionLimits => connectionRateLimits c | KHandshakeLimits => handshakeRateLimits c
  end.

(** What a call is documented to add to a counter. *)
Definition adds (k : counter) (o : CollectorOp) : Z :=
  match k, o with
  | KTotal, SessionStarted | KFailed, SessionFailed | KPacketsSent, RecordPacketSent
  | KPacketsRecv, RecordPacketReceived | KReplays, RecordReplayBlocked | KAuthFailures, RecordAuthFailure
  | KRekeysInitiated, RecordRekeyInitiated | KRekeysCompleted, RecordRekeyCompleted
  | KRekeysFailed, RecordRekeyFailed | KEncryptErrors, RecordEncryptError | KDecryptErrors, RecordDecryptError
  | KProtocolErrors, RecordProtocolError | KConnectionLimits, RecordConnectionRateLimit
  | KHandshakeLimits, RecordHandshakeRateLimit => 1
  | KBytesSent, RecordBytesSent n | KBytesReceived, RecordBytesReceived n => Z.max 0 n
  | _, _ => 0
  end.

Fixpoint total (k : counter) (ops : list CollectorOp) : Z :=
  match ops with [] => 0 | o :: ops => adds k o + total k ops end.

(** How many sessions are running: an end without a start does not count. *)
Fixpoint running (n : Z) (ops : list CollectorOp) : Z :=
  match ops with
  | [] => n
  | SessionStarted :: ops => running (n + 1) ops
  | SessionEnded :: ops => running (Z.max 0 (n - 1)) ops
  | _ :: ops => running n ops
  end.

(** The values a run hands to each histogram. *)
Definition handshake_ms (o : CollectorOp) : option f64 :=
  match o with RecordHandshakeLatency d => Some (f64_of_Z (Milliseconds d)) | _ => None end.
Definition encrypt_us (o : CollectorOp) : option f64 :=
  match o with RecordEncryptLatency d => Some (f64_of_Z (Microseconds d)) | _ => None end.
Definition decrypt_us (o : CollectorOp) : option f64 :=
  match o with RecordDecryptLatency d => Some (f64_of_Z (Microseconds d)) | _ => None end.

Definition hists_ok (c : Collector) : Prop :=
  hist_ok (handshakeLatency c) /\ hist_ok (encryptLatency c) /\ hist_ok (decryptLatency c).

Lemma NewCollector_ok lbls now : hists_ok (NewCollector lbls now).
Proof. split_and!; apply NewHistogram_ok. Qed.

Definition counters_ok (c : Collector) : Prop := (forall k, 0 <= read k c) /\ 0 <= sessionsActive c <= sessionsTotal c.

Lemma Observe_one v h h' : Observe v h = Ok h' -> Observe_all [v] h = Ok h'.
Proof. intros H. cbn. by rw H. Qed.

Lemma Collector_do_Ok o c : hists_ok c -> counters_ok c -> (forall k, read k c + adds k o < 2 ^ 63) ->
  exists c', Collector_do o c = Ok c' /\ hists_ok c' /\ (forall k, read k c' = read k c + adds k o) /\
  sessionsActive c' = running (sessionsActive c) [o] /\
  Observe_all (option_list (handshake_ms o)) (handshakeLatency c) = Ok (handshakeLatency c') /\
  Observe_all (option_list (encrypt_us o)) (encryptLatency c) = Ok (encryptLatency c') /\
  Observe_all (option_list (decrypt_us o)) (decryptLatency c) = Ok (decryptLatency c').
Proof.
  intros (Hh & He & Hd) [Hnn Hact] Hlt.
  assert (Hcases : forall c', Collector_do o c = Ok c' ->
    (forall k, read k c' = read k c + adds k o) /\ sessionsActive c' = running (sessionsActive c) [o]).
  { intros c' E. split; [intros k; specialize (Hlt k); specialize (Hnn k)|specialize (Hlt KTotal)];
      destruct o; cbn in E; okinv E; repeat case_match; zbool; injection E as <-; try (destruct k);
      cbn in *; unfold i64_add; rw ?i64_small; lia. }
  assert (Hex : exists c', Collector_do o c = Ok c' /\ hists_ok c' /\
    Observe_all (option_list (handshake_ms o)) (handshakeLatency c) = Ok (handshakeLatency c') /\
    Observe_all (option_list (encrypt_us o)) (encryptLatency c) = Ok (encryptLatency c') /\
    Observe_all (option_list (decrypt_us o)) (decryptLatency c) = Ok (decryptLatency c')).
  { unfold hists_ok. destruct o; cbn [Collector_do];
      try (case_match; eexists; by split_and!); try (eexists; by split_and!).
    - destruct (Observe_Ok (f64_of_Z (Milliseconds d)) _ Hh) as (h' & E & ? & _). rw E. eexists.
      split_and!; [done..|by apply Observe_one|done|done].
    - destruct (Observe_Ok (f64_of_Z (Microseconds d)) _ He) as (h' & E & ? & _). rw E. eexists.
      split_and!; [done..|by apply Observe_one|done].
    - destruct (Observe_Ok (f64_of_Z (Microseconds d)) _ Hd) as (h' & E & ? & _). rw E. eexists.
      split_and!; [done..|by apply Observe_one]. }
  destruct Hex as (c' & E & ? & ?). destruct (Hcases c' E). by exists c'.
Qed.

Lemma Observe_all_app vs ws h : Observe_all (vs ++ ws) h = (let! h := Observe_all vs h in Observe_all ws h).
Proof. revert h. induction vs as [|v vs IH]; intros h; cbn; [done|]. destruct (Observe v h); cbn; auto. Qed.

Lemma omap_step {A B} (f : A -> option B) x l : omap f (x :: l) = option_list (f x) ++ omap f l.
Proof. cbn. by destruct (f x). Qed.

Lemma total_nonneg k ops : 0 <= total k ops.
Proof. induction ops as [|o ops IH]; cbn; [lia|]. assert (0 <= adds k o) by (destruct k, o; cbn; lia). lia. Qed.

Lemma running_app n o ops : running n (o :: ops) = running (running n [o]) ops.
Proof. by destruct o. Qed.

Lemma running_step n o : 0 <= n -> 0 <= running n [o] <= n + adds KTotal o.
Proof. destruct o; cbn; lia. Qed.

Lemma running_bound n ops : 0 <= n -> 0 <= running n ops <= n + total KTotal ops.
Proof.
  revert n. induction ops as [|o ops IH]; intros n Hn; [cbn; lia|]. rw running_app. cbn [total].
  pose proof (running_step n o Hn). pose proof (IH (running n [o]) ltac:(lia)). lia.
Qed.

Lemma Collector_run_Ok ops c : hists_ok c -> counters_ok c -> (forall k, read k c + total k ops < 2 ^ 63) ->
  exists c', Collector_run ops c = Ok c' /\ (forall k, read k c' = read k c + total k ops) /\
  sessionsActive c' = running (sessionsActive c) ops /\
  Observe_all (omap handshake_ms ops) (handshakeLatency c) = Ok (handshakeLatency c') /\
  Observe_all (omap encrypt_us ops) (encryptLatency c) = Ok (encryptLatency c') /\
  Observe_all (omap decrypt_us ops) (decryptLatency c) = Ok (decryptLatency c').
Proof.
  revert c. induction ops as [|o ops IH]; intros c Hh Hc Hlt.
  { exists c. split_and!; try done. intros k. cbn. lia. }
  destruct (Collector_do_Ok o c Hh Hc) as (c1 & E & Hh1 & Hk & Ha & H1 & H2 & H3).
  { intros k. specialize (Hlt k). cbn in Hlt. pose proof (total_nonneg k ops). lia. }
  destruct (IH c1 Hh1) as (c2 & E2 & Hk2 & Ha2 & F1 & F2 & F3).
  { destruct Hc as [Hnn Hact]. split.
    - intros k. rw Hk. specialize (Hnn k). assert (0 <= adds k o) by (destruct k, o; cbn; lia). lia.
    - change (sessionsTotal c1) with (read KTotal c1). rw Ha Hk. cbn [read].
      pose proof (running_step (sessionsActive c) o ltac:(lia)). lia. }
  { intros k. rw Hk. specialize (Hlt k). cbn in Hlt. lia. }
  exists c2. rw !omap_step !Observe_all_app H1 H2 H3 running_app -Ha. cbn [Collector_run obind]. rw E.
  split_and!; try done. intros k. rw Hk2 Hk. cbn. lia.
Qed.


Definition example_ops : list CollectorOp :=
  [SessionStarted; RecordHandshakeLatency 12000000; RecordBytesSent 100; RecordPacketSent; RecordBytesSent (-3);
   SessionEnded; SessionEnded; SessionStarted].


(** An address with four one-digit parts is all there after masking: only its middle dot is hidden. *)
Lemma mask_reveals a b c d : a <> "]"%char -> b <> "]"%char -> c <> "]"%char -> d <> "]"%char ->
  a <> ":"%char -> b <> ":"%char -> c <> ":"%char -> d <> ":"%char ->
  maskIP (String a (String "." (String b (String "." (String c (String "." (str d))))))) =
  Ok (String a (String "." (str b)) +:+ "***" +:+ String c (String "." (str d))).
Proof.
  intros. unfold maskIP. cbn [LastIndex str]. rw !bool_decide_eq_false_2 //.
Qed.

(** A closing bracket in front makes the masking slice out of range. *)
Lemma mask_panics : maskIP "]:" = Panic.
Proof. reflexivity. Qed.

(** Ending a span under a parent records the parent's identity. *)
Lemma child_span ctx name opts now t i now' err spans :
  exists s, EndSpan now' err (StartSpan (Some ctx) name opts now t i) spans = spans ++ [s] /\
    sp_ParentID s = sp_SpanID ctx /\ sp_TraceID s = sp_TraceID ctx /\ sp_SpanID s = i /\ sp_Error s = err /\
    sp_Duration s = time_Since now' now.
Proof. by eexists. Qed.

(** * Snapshots *)

(** What a collector's histograms are: well typed, and with their bounds. *)
Definition collector_ok (c : Collector) : Prop :=
  hists_ok c /\ buckets (handshakeLatency c) <> [] /\ buckets (encryptLatency c) <> [] /\
  buckets (decryptLatency c) <> [].

Lemma NewCollector_collector_ok lbls now : collector_ok (NewCollector lbls now).
Proof. split; [apply NewCollector_ok|]. split_and!; apply sort_nonempty; discriminate. Qed.

Lemma Collector_do_collector_ok o c : collector_ok c -> exists c', Collector_do o c = Ok c' /\ collector_ok c'.
Proof.
  intros ((Hh & He & Hd) & Bh & Be & Bd). unfold collector_ok, hists_ok.
  destruct o; cbn [Collector_do]; try (case_match; eexists; by split_and!); try (eexists; by split_and!).
  - destruct (Observe_Ok (f64_of_Z (Milliseconds d)) _ Hh) as (h' & E & ? & Hb & _). rw E. eexists.
    split; [done|]. cbn. rw Hb. by split_and!.
  - destruct (Observe_Ok (f64_of_Z (Microseconds d)) _ He) as (h' & E & ? & Hb & _). rw E. eexists.
    split; [done|]. cbn. rw Hb. by split_and!.
  - destruct (Observe_Ok (f64_of_Z (Microseconds d)) _ Hd) as (h' & E & ? & Hb & _). rw E. eexists.
    split; [done|]. cbn. rw Hb. by split_and!.
Qed.

Lemma Collector_run_collector_ok ops c : collector_ok c -> exists c', Collector_run ops c = Ok c' /\ collector_ok c'.
Proof.
  revert c. induction ops as [|o ops IH]; intros c Hc; [by exists c|].
  destruct (Collector_do_collector_ok o c Hc) as (c1 & E & H1). destruct (IH c1 H1) as (c2 & E2 & H2).
  exists c2. cbn. by rw E.
Qed.

Lemma Collector_Snapshot_Ok now c : collector_ok c -> exists s, Collector_Snapshot now c = Ok s /\ ms_counters s = c.
Proof.
  intros ((Hh & He & Hd) & Bh & Be & Bd). unfold Collector_Snapshot.
  destruct (Summary_Ok _ Hh Bh) as (a & -> & _), (Summary_Ok _ He Be) as (b & -> & _), (Summary_Ok _ Hd Bd) as (d & -> & _).
  by eexists.
Qed.
