(* ===== verification/Exposition.v ===== *)
(** The Prometheus exporter: [pkg/metrics/prometheus.go].

    [WriteMetrics] is the list of chunks it hands to the writer, one per [writef]; the text Go
    gives a [float64] under [%g] is an argument.  [parse_labels] is the reader's side of the label
    syntax, written from the text format. *)

From Corelib Require Import ssreflect.
From stdpp Require Import base tactics list numbers strings gmap sorting pretty.
From Stdlib Require Import ZArith Lia Ascii Floats.SpecFloat.
From S2P Require Import Prelude Base Admission Encoding Histogram Logger Metrics.

Import TokenBucket.

Local Open Scope Z_scope.
Local Open Scope go_scope.

(** * Labels *)

(** [strings.ReplaceAll] of a one-byte string. *)
Fixpoint replace_char (c : ascii) (r : string) (s : string) : string :=
  match s with
  | "" => ""
  | String d s => (if bool_decide (d = c) then r else str d) +:+ replace_char c r s
  end.

Definition backslash : string := str (chr 92).

Definition escapePromValue (s : string) : string :=
  let s := replace_char (chr 92) (backslash +:+ backslash) s in
  let s := replace_char (chr 34) (backslash +:+ quote) s in
  replace_char (chr 10) (backslash +:+ "n") s.

Definition formatLabel (k v : string) : string := k +:+ "=" +:+ quote +:+ escapePromValue v +:+ quote.

Definition formatLabels (lbls : Labels) : string :=
  join "," ((fun k => formatLabel k (default "" (lbls !! k))) <$> sorted_keys lbls).

(** * Writing *)

(** [promWriter]: after the first write that fails nothing more is written. *)
Fixpoint pw_write (fails : nat -> bool) (n : nat) (chunks : list string) : list string :=
  match chunks with
  | [] => []
  | c :: chunks => if fails n then [] else c :: pw_write fails (S n) chunks
  end.

Section Exporter.
Context (fmt_g : f64 -> string) (namespace : string).

Definition writeHelp (name help : string) : string :=
  "# HELP " +:+ namespace +:+ "_" +:+ name +:+ " " +:+ help +:+ newline.

Definition writeType (name typ : string) : string :=
  "# TYPE " +:+ namespace +:+ "_" +:+ name +:+ " " +:+ typ +:+ newline.

(** [{labels}], or nothing without labels. *)
Definition braces (lbls : string) : string := if bool_decide (lbls = "") then "" else "{" +:+ lbls +:+ "}".

Definition writeMetric (name lbls : string) (value : f64) : string :=
  namespace +:+ "_" +:+ name +:+ braces lbls +:+ " " +:+ fmt_g value +:+ newline.

Definition writeBucket (fullName lbls : string) (b : BucketCount) : string :=
  let le := match UpperBound b with S754_infinity false => "+Inf" | x => fmt_g x end in
  fullName +:+ "_bucket{" +:+ (if bool_decide (lbls = "") then "" else lbls +:+ ",") +:+ "le=" +:+ quote +:+ le
  +:+ quote +:+ "} " +:+ pretty (Count b) +:+ newline.

Definition writeHistogram (name help lbls : string) (h : HistogramSummary) : list string :=
  let fullName := namespace +:+ "_" +:+ name in
  [writeHelp name help; writeType name "histogram"] ++ (writeBucket fullName lbls <$> hs_Buckets h) ++
  [fullName +:+ "_sum" +:+ braces lbls +:+ " " +:+ fmt_g (hs_Sum h) +:+ newline;
   fullName +:+ "_count" +:+ braces lbls +:+ " " +:+ pretty (hs_Count h) +:+ newline].

(** The three lines of a metric with one sample. *)
Definition family (lbls name help typ : string) (value : f64) : list string :=
  [writeHelp name help; writeType name typ; writeMetric name lbls value].

Definition WriteMetrics (now : Z) (c : Collector) : outcome error (list string) :=
  let! snap := Collector_Snapshot now c in
  let lbls := formatLabels (labels c) in
  let gauge name help v := family lbls name help "gauge" v in
  let counter name help v := family lbls name help "counter" (f64_of_Z v) in
  Ok (gauge "sessions_active" "Number of currently active sessions" (f64_of_Z (sessionsActive c))
      ++ counter "sessions_total" "Total number of sessions created" (sessionsTotal c)
      ++ counter "sessions_failed_total" "Total number of failed session attempts" (sessionsFailed c)
      ++ counter "bytes_sent_total" "Total bytes sent" (bytesSent c)
      ++ counter "bytes_received_total" "Total bytes received" (bytesReceived c)
      ++ counter "packets_sent_total" "Total packets sent" (packetsSent c)
      ++ counter "packets_received_total" "Total packets received" (packetsRecv c)
      ++ counter "replay_attacks_blocked_total" "Total replay attacks blocked" (replayAttacksBlocked c)
      ++ counter "auth_failures_total" "Total authentication failures" (authFailures c)
      ++ counter "rekeys_initiated_total" "Total rekey operations initiated" (rekeysInitiated c)
      ++ counter "rekeys_completed_total" "Total rekey operations completed successfully" (rekeysCompleted c)
      ++ counter "rekeys_failed_total" "Total rekey operations that failed" (rekeysFailed c)
      ++ counter "encrypt_errors_total" "Total encryption errors" (encryptErrors c)
      ++ counter "decrypt_errors_total" "Total decryption errors" (decryptErrors c)
      ++ counter "protocol_errors_total" "Total protocol errors" (protocolErrors c)
      ++ counter "rate_limit_connections_total" "Total connections rejected due to rate limiting"
           (connectionRateLimits c)
      ++ counter "rate_limit_handshakes_total" "Total handshakes rejected due to rate limiting"
           (handshakeRateLimits c)
      ++ gauge "uptime_seconds" "Time since the collector was created" (Seconds (ms_Uptime snap))
      ++ writeHistogram "handshake_duration_milliseconds" "Handshake duration in milliseconds" lbls
           (ms_HandshakeLatency snap)
      ++ writeHistogram "encrypt_duration_microseconds" "Encryption duration in microseconds" lbls
           (ms_EncryptLatency snap)
      ++ writeHistogram "decrypt_duration_microseconds" "Decryption duration in microseconds" lbls
           (ms_DecryptLatency snap)).

Definition WritePoolMetrics (pool : option PoolMetricsObserver) : outcome error (list string) :=
  match pool with
  | None => Ok []
  | Some o =>
      let! snap := PoolMetrics_Snapshot o in
      let lbls := formatLabels {[ "pool" := pm_poolName o ]} in
      let gauge name help v := family lbls name help "gauge" (f64_of_Z v) in
      let counter name help v := family lbls name help "counter" (f64_of_Z v) in
      Ok (gauge "pool_connections_total" "Total number of connections in the pool" (pm_connectionsTotal o)
          ++ gauge "pool_connections_idle" "Number of idle connections in the pool" (pm_connectionsIdle o)
          ++ gauge "pool_connections_in_use" "Number of in-use connections in the pool" (pm_connectionsInUse o)
          ++ gauge "pool_waiting_count" "Number of goroutines waiting for a connection" (pm_waitingCount o)
          ++ counter "pool_acquires_total" "Total number of successful connection acquires" (pm_acquiresTotal o)
          ++ counter "pool_acquire_timeouts_total" "Total number of acquire timeouts" (pm_acquireTimeoutsTotal o)
          ++ counter "pool_connections_created_total" "Total number of connections created" (pm_connectionsCreated o)
          ++ counter "pool_connections_closed_total" "Total number of connections closed" (pm_connectionsClosed o)
          ++ counter "pool_health_checks_total" "Total number of health checks performed" (pm_healthChecksTotal o)
          ++ counter "pool_health_checks_failed_total" "Total number of failed health checks"
               (pm_healthChecksFailed o)
          ++ writeHistogram "pool_acquire_duration_milliseconds" "Time to acquire a connection in milliseconds" lbls
               (ps_AcquireLatency snap)
          ++ writeHistogram "pool_dial_duration_milliseconds" "Time to establish new connection in milliseconds" lbls
               (ps_DialLatency snap))
  end.

End Exporter.

(** * Reading labels *)

(** A label name: up to the equals sign. *)
Fixpoint read_name (s : string) : option (string * string) :=
  match s with
  | "" => None
  | String c s =>
      if bool_decide (c = "="%char) then Some ("", s)
      else '(k, rest) ← read_name s; Some (String c k, rest)
  end.

(** A quoted value, after its opening quote: up to the first quote that is not escaped. *)
Fixpoint read_value (s : string) : option (string * string) :=
  match s with
  | "" => None
  | String c s =>
      if bool_decide (c = chr 34) then Some ("", s)
      else if bool_decide (c = chr 92) then
        match s with
        | "" => None
        | String d s => '(v, rest) ← read_value s; Some (String (if bool_decide (d = "n"%char) then chr 10 else d) v, rest)
        end
      else '(v, rest) ← read_value s; Some (String c v, rest)
  end.

Fixpoint parse_labels (fuel : nat) (s : string) : option (list (string * string)) :=
  match fuel, s with
  | _, "" => Some []
  | O, _ => None
  | S fuel, _ =>
      '(k, rest) ← read_name s;
      match rest with
      | String q rest =>
          if bool_decide (q = chr 34) then
            '(v, rest) ← read_value rest;
            match rest with
            | "" => Some [(k, v)]
            | String c rest =>
                if bool_decide (c = ","%char) then l ← parse_labels fuel rest; Some ((k, v) :: l) else None
            end
          else None
      | "" => None
      end
  end.

(** * The reader gets the labels back *)

Lemma sapp_cons c s t : String c s +:+ t = String c (s +:+ t).
Proof. reflexivity. Qed.

Lemma sapp_nil_r s : s +:+ "" = s.
Proof. induction s as [|c s IH]; [done|]. by rw sapp_cons IH. Qed.

Lemma sapp_assoc s t u : (s +:+ t) +:+ u = s +:+ t +:+ u.
Proof. induction s as [|c s IH]; [done|]. by rw !sapp_cons IH. Qed.

Lemma replace_char_app c r s t : replace_char c r (s +:+ t) = replace_char c r s +:+ replace_char c r t.
Proof. induction s as [|d s IH]; [done|]. rw sapp_cons. cbn. by rw IH sapp_assoc. Qed.

(** The three passes of [escapePromValue] are one. *)
Definition escape_char (c : ascii) : string :=
  if bool_decide (c = chr 92) then backslash +:+ backslash
  else if bool_decide (c = chr 34) then backslash +:+ quote
  else if bool_decide (c = chr 10) then backslash +:+ "n"
  else str c.

Lemma escape_cons c s : escapePromValue (String c s) = escape_char c +:+ escapePromValue s.
Proof.
  unfold escapePromValue, escape_char. cbn [replace_char]. rw !replace_char_app. f_equal.
  case_bool_decide; [done|]. cbn [replace_char str]. case_bool_decide; [done|].
  rw sapp_nil_r. cbn [replace_char str]. by rw sapp_nil_r.
Qed.

Lemma read_value_escaped d s v rest : read_value s = Some (v, rest) ->
  read_value (String (chr 92) (String d s)) = Some (String (if bool_decide (d = "n"%char) then chr 10 else d) v, rest).
Proof. intros H. cbn [read_value]. rw bool_decide_eq_false_2 // bool_decide_eq_true_2 //. by rw H. Qed.

Lemma read_value_escape v rest : read_value (escapePromValue v +:+ quote +:+ rest) = Some (v, rest).
Proof.
  induction v as [|c v IH]; [done|]. rw escape_cons sapp_assoc. unfold escape_char.
  case_bool_decide as H1; [|case_bool_decide as H2; [|case_bool_decide as H3]].
  - subst c. exact (read_value_escaped (chr 92) _ _ _ IH).
  - subst c. exact (read_value_escaped (chr 34) _ _ _ IH).
  - subst c. exact (read_value_escaped "n" _ _ _ IH).
  - change (str c +:+ ?x) with (String c x). cbn [read_value]. rw !bool_decide_eq_false_2 //. by rw IH.
Qed.

Lemma read_name_label k rest : count_char "=" k = 0%nat -> read_name (k +:+ "=" +:+ rest) = Some (k, rest).
Proof.
  induction k as [|c k IH]; [done|]. rw sapp_cons. cbn [count_char read_name].
  case_bool_decide; [done|]. intros Hk. by rw IH.
Qed.

Lemma formatLabel_nonempty k v rest : formatLabel k v +:+ rest <> "".
Proof. unfold formatLabel. by destruct k. Qed.

Lemma parse_cons fuel k v rest : count_char "=" k = 0%nat -> parse_labels (S fuel) (formatLabel k v +:+ rest) =
  match rest with
  | "" => Some [(k, v)]
  | String c rest =>
      if bool_decide (c = ","%char) then l ← parse_labels fuel rest; Some ((k, v) :: l) else None
  end.
Proof.
  intros Hk. pose proof (formatLabel_nonempty k v rest).
  assert (Hs : formatLabel k v +:+ rest = k +:+ "=" +:+ String (chr 34) (escapePromValue v +:+ quote +:+ rest)).
  { unfold formatLabel. by rw !sapp_assoc. }
  destruct (formatLabel k v +:+ rest) as [|c s] eqn:E; [done|]. cbn [parse_labels].
  rw Hs read_name_label //. cbn [mbind option_bind]. rw bool_decide_eq_true_2 // read_value_escape //.
Qed.

Lemma parse_join fuel kvs : Forall (fun kv => count_char "=" kv.1 = 0%nat) kvs -> (length kvs <= fuel)%nat ->
  parse_labels fuel (join "," ((fun kv => formatLabel kv.1 kv.2) <$> kvs)) = Some kvs.
Proof.
  intros Hk. revert fuel. induction Hk as [|[k v] kvs Hk _ IH]; intros fuel Hf; [by destruct fuel|].
  destruct fuel as [|fuel]; [cbn in Hf; lia|]. destruct kvs as [|kv kvs].
  - cbn [fmap list_fmap join fst snd]. rw -(sapp_nil_r (formatLabel k v)) parse_cons //.
  - change (join "," ?x) with (formatLabel k v +:+ "," +:+ join "," ((fun kv => formatLabel kv.1 kv.2) <$> kv :: kvs)).
    rw parse_cons //. change ("," +:+ ?x) with (String "," x). cbv iota.
    rw bool_decide_eq_true_2 // (IH fuel); [cbn in *; lia|done].
Qed.

(** The labels in the order of their names. *)
Definition sorted_labels (lbls : Labels) : list (string * string) := (fun k => (k, default "" (lbls !! k))) <$> sorted_keys lbls.

Lemma sorted_labels_Permutation lbls : sorted_labels lbls ≡ₚ map_to_list lbls.
Proof.
  unfold sorted_labels, sorted_keys. rw merge_sort_Permutation -list_fmap_compose.
  apply reflexive_eq. rw -{2}(list_fmap_id (map_to_list lbls)). apply list_fmap_ext. intros i [k v] Hi.
  apply list_elem_of_lookup_2, elem_of_map_to_list in Hi. cbn. by rw Hi.
Qed.

(** A reader of the exposition gets the labels back: whatever the values contain, quotes,
    backslashes and line ends included, parsing the rendered labels yields the labels of the
    collector, in the order of their names, as long as no name contains an equals sign. *)
Theorem labels_roundtrip (lbls : Labels) fuel :
  (forall k v, lbls !! k = Some v -> count_char "=" k = 0%nat) -> (size lbls <= fuel)%nat ->
  exists l, parse_labels fuel (formatLabels lbls) = Some l /\ StronglySorted String.le (l.*1) /\ list_to_map l = lbls.
Proof.
  intros Hk Hf. exists (sorted_labels lbls). pose proof (sorted_labels_Permutation lbls) as Hp. split_and!.
  - assert (formatLabels lbls = join "," ((fun kv => formatLabel kv.1 kv.2) <$> sorted_labels lbls)) as ->
      by (unfold formatLabels, sorted_labels; by rw -list_fmap_compose).
    apply parse_join; [|by rw Hp length_map_to_list].
    rw Hp. apply Forall_forall. intros [k v] Hkv%elem_of_map_to_list. by apply (Hk k v).
  - unfold sorted_labels. rw -list_fmap_compose. rw (list_fmap_id (sorted_keys lbls)).
    apply StronglySorted_merge_sort; apply _.
  - rw (list_to_map_proper (sorted_labels lbls) (map_to_list lbls)); [|done|apply list_to_map_to_list].
    rw Hp. apply NoDup_fst_map_to_list.
Qed.

Definition example_labels : Labels := {[ "instance" := "a" +:+ quote +:+ newline; "zone" := backslash ]}.

Lemma labels_roundtrip_witness : exists l, parse_labels 2 (formatLabels example_labels) = Some l /\
  list_to_map l = example_labels.
Proof.
  destruct (labels_roundtrip example_labels 2) as (l & E & _ & H); [| |exact (ex_intro _ l (conj E H))].
  - intros k v. unfold example_labels. rw lookup_insert_Some lookup_singleton_Some.
    by intros [[<- _]|[_ [<- _]]].
  - unfold example_labels. rw map_size_insert_None; [done|]. by rw map_size_singleton.
Defined.
