(* ===== verification/Health.v ===== *)
(** Health checks and the observability server: [pkg/metrics/health.go].

    A registered check is a function of the [Process] it runs in, what the standard library tells it
    of the process and the network.  [Check] is given the process, and the time taken, of every check
    it runs; the order in which Go ranges over the checks makes no difference to its result.
    Collectors are shared: they live in a store, and the health check and the server refer to one.
    A handler yields a status code and a body. *)

From Corelib Require Import ssreflect.
From stdpp Require Import base tactics list numbers strings gmap pretty.
From Stdlib Require Import ZArith Lia Ascii Floats.SpecFloat.
From S2P Require Import Prelude Base Ticket Admission Pool Encoding Histogram Logger Metrics Exposition.

Import TokenBucket.

Local Open Scope Z_scope.
Local Open Scope go_scope.

(** * Rendering an uptime *)

(** [int(x)] of a finite [float64]: towards zero. *)
Definition f64_trunc (x : f64) : Z :=
  match x with
  | S754_finite s m e =>
      let z := if 0 <=? e then Z.pos m * 2 ^ e else Z.pos m / 2 ^ (- e) in
      if s then - z else z
  | _ => 0
  end.

(** [Duration.Hours] and [Duration.Minutes]: whole units plus the rest as a fraction. *)
Definition duration_in (unit d : Z) : f64 :=
  f64_add (f64_of_Z (Z.quot d unit)) (f64_div (f64_of_Z (Z.rem d unit)) (f64_of_Z unit)).
Definition Hours : Z -> f64 := duration_in Hour.
Definition Minutes : Z -> f64 := duration_in Minute.

Definition byte_str (n : Z) : string := str (chr (Z.to_nat n)).

(** [string(rune(n))]: the UTF-8 encoding; what is not a code point becomes U+FFFD. *)
Definition rune_str (n : Z) : string :=
  let r := (n + 2 ^ 31) mod 2 ^ 32 - 2 ^ 31 in
  let r := if (r <? 0) || (1114111 <? r) || ((55296 <=? r) && (r <=? 57343)) then 65533 else r in
  if r <? 128 then byte_str r
  else if r <? 2048 then byte_str (192 + r / 64) +:+ byte_str (128 + r mod 64)
  else if r <? 65536 then byte_str (224 + r / 4096) +:+ byte_str (128 + r / 64 mod 64) +:+ byte_str (128 + r mod 64)
  else byte_str (240 + r / 262144) +:+ byte_str (128 + r / 4096 mod 64) +:+ byte_str (128 + r / 64 mod 64)
       +:+ byte_str (128 + r mod 64).

Definition formatInt (n : Z) (suffix : string) : string :=
  if n =? 0 then "" else rune_str (48 + Z.quot n 10) +:+ rune_str (48 + Z.rem n 10) +:+ suffix.

Definition formatDuration (d : Z) : string :=
  let days := f64_trunc (f64_div (Hours d) (f64_of_Z 24)) in
  let hours := Z.rem (f64_trunc (Hours d)) 24 in
  let minutes := Z.rem (f64_trunc (Minutes d)) 60 in
  let seconds := Z.rem (f64_trunc (Seconds d)) 60 in
  if 0 <? days then formatInt days "d" +:+ formatInt hours "h" +:+ formatInt minutes "m"
  else if 0 <? hours then formatInt hours "h" +:+ formatInt minutes "m" +:+ formatInt seconds "s"
  else if 0 <? minutes then formatInt minutes "m" +:+ formatInt seconds "s"
  else if 0 <? seconds then formatInt seconds "s"
  else "0s".

(** * Checks *)

Inductive HealthStatus := HealthStatusHealthy | HealthStatusDegraded | HealthStatusUnhealthy.

#[export] Instance HealthStatus_eq_dec : EqDecision HealthStatus.
Proof. solve_decision. Defined.

(** The process and the network as a check sees them: the heap in use, and the results of dialling
    an address and of closing the connection, [None] for success. *)
Record Process := mkProcess {
  HeapAlloc : Z;
  NetDialTimeout : string -> Z -> option string;
  CloseDialled : string -> option string }.

(** A check returns its error, if any. *)
Definition CheckFunc := Process -> option string.

Definition MemoryCheck (threshold : Z) : CheckFunc := fun w =>
  if threshold <? HeapAlloc w
  then Some ("heap in use " +:+ pretty (HeapAlloc w) +:+ " bytes exceeds the " +:+ pretty threshold +:+ " byte threshold")
  else None.

Definition ConnectivityCheck (addr : string) (timeout : Z) : CheckFunc := fun w =>
  match NetDialTimeout w addr timeout with
  | Some err => Some ("cannot reach " +:+ addr +:+ ": " +:+ err)
  | None => CloseDialled w addr
  end.

(** The collectors of the process, and a reference to one. *)
Definition CollectorRef := nat.
Definition Collectors := CollectorRef -> Collector.

Record HealthCheck := mkHealthCheck {
  checks : gmap string CheckFunc;
  collector : option CollectorRef;
  startTime : Z;
  version : string }.

#[export] Instance HealthCheck_eta : Eta HealthCheck := {| eta := fun h =>
  mkHealthCheck (checks h) (collector h) (startTime h) (version h) |}.

Definition NewHealthCheck (c : option CollectorRef) (version : string) (now : Z) : HealthCheck :=
  mkHealthCheck ∅ c now version.

Definition AddCheck (name : string) (check : CheckFunc) (h : HealthCheck) : HealthCheck :=
  h <| checks := <[name := check]> (checks h) |>.

Definition RemoveCheck (name : string) (h : HealthCheck) : HealthCheck := h <| checks := delete name (checks h) |>.

Record CheckResult := mkCheckResult { cr_Status : HealthStatus; cr_Message : string; cr_Latency : string }.

Record HealthMetrics := mkHealthMetrics {
  hm_SessionsActive : Z;
  hm_SessionsTotal : Z;
  hm_BytesSent : Z;
  hm_BytesReceived : Z;
  hm_ErrorRate : f64 }.

Record HealthResponse := mkHealthResponse {
  hr_Status : HealthStatus;
  hr_Timestamp : Z;
  hr_Uptime : string;
  hr_Version : string;
  hr_Checks : gmap string CheckResult;
  hr_Metrics : option HealthMetrics }.

(** What [Check] finds out while it runs: the process as each check sees it, how long it took, the time. *)
Record CheckRun := mkCheckRun {
  run_process : string -> Process;
  run_latency : string -> Z;
  run_now : Z }.

Definition check_result (z : CheckRun) (name : string) (check : CheckFunc) : CheckResult :=
  let latency := Duration_String (run_latency z name) in
  match check (run_process z name) with
  | Some err => mkCheckResult HealthStatusUnhealthy err latency
  | None => mkCheckResult HealthStatusHealthy "" latency
  end.

(** The error rate of a snapshot, and whether it is above one in a hundred. *)
Definition error_rate (c : Collector) : f64 * bool :=
  let totalOps := i64_add (packetsSent c) (packetsRecv c) in
  let totalErrors := i64_add (i64_add (encryptErrors c) (decryptErrors c)) (protocolErrors c) in
  if 0 <? totalOps then
    let rate := f64_div (f64_of_Z totalErrors) (f64_of_Z totalOps) in
    (rate, SFltb (hundredths 1) rate)
  else (f64_of_Z 0, false).

Definition HealthCheck_Check (cs : Collectors) (z : CheckRun) (h : HealthCheck) : outcome error HealthResponse :=
  let results := map_imap (fun name check => Some (check_result z name check)) (checks h) in
  let hasUnhealthy := bool_decide (map_Exists (fun _ r => cr_Status r = HealthStatusUnhealthy) results) in
  let! '(metrics, hasDegraded) :=
    match collector h with
    | None => Ok (None, false)
    | Some ref =>
        let c := cs ref in
        let! snap := Collector_Snapshot (run_now z) c in
        let '(rate, high) := error_rate (ms_counters snap) in
        Ok (Some (mkHealthMetrics (sessionsActive c) (sessionsTotal c) (bytesSent c) (bytesReceived c) rate), high)
    end in
  let status :=
    if hasUnhealthy then HealthStatusUnhealthy
    else if hasDegraded : bool then HealthStatusDegraded
    else HealthStatusHealthy in
  Ok (mkHealthResponse status (run_now z) (formatDuration (time_Since (run_now z) (startTime h))) (version h) results
        metrics).

(** * Handlers *)

Inductive body :=
  | BodyHealth (r : HealthResponse)
  | BodyAlive
  | BodyReady (status : HealthStatus) (ready : bool)
  | BodyMetrics (chunks : list string)
  | BodyNotFound.

Definition StatusOK : Z := 200.
Definition StatusNotFound : Z := 404.
Definition StatusServiceUnavailable : Z := 503.

Definition Handler (cs : Collectors) (z : CheckRun) (h : HealthCheck) : outcome error (Z * body) :=
  let! r := HealthCheck_Check cs z h in
  let code := match hr_Status r with
              | HealthStatusHealthy | HealthStatusDegraded => StatusOK
              | HealthStatusUnhealthy => StatusServiceUnavailable
              end in
  Ok (code, BodyHealth r).

Definition LivenessHandler : Z * body := (StatusOK, BodyAlive).

Definition ReadinessHandler (cs : Collectors) (z : CheckRun) (h : HealthCheck) : outcome error (Z * body) :=
  let! r := HealthCheck_Check cs z h in
  let unhealthy := bool_decide (hr_Status r = HealthStatusUnhealthy) in
  Ok (if unhealthy then StatusServiceUnavailable else StatusOK, BodyReady (hr_Status r) (negb unhealthy)).

(** * The server *)

Record ServerConfig := mkServerConfig {
  cfg_Collector : option CollectorRef;
  cfg_Version : string;
  cfg_Namespace : string;
  EnablePrometheus : bool;
  EnableHealth : bool }.

Record Server := mkServer {
  s_collector : CollectorRef;
  s_health : option HealthCheck;
  s_prometheus : option string }.

(** The exporter is known by its namespace; without a collector the global one is used. *)
Definition NewServer (globalCollector : CollectorRef) (cfg : ServerConfig) (now : Z) : Server :=
  let c := default globalCollector (cfg_Collector cfg) in
  let namespace := if bool_decide (cfg_Namespace cfg = "") then "quantum_tunnel" else cfg_Namespace cfg in
  mkServer c
    (if EnableHealth cfg then Some (NewHealthCheck (Some c) (cfg_Version cfg) now) else None)
    (if EnablePrometheus cfg then Some namespace else None).

Definition AddHealthCheck (name : string) (check : CheckFunc) (s : Server) : Server :=
  mkServer (s_collector s) (AddCheck name check <$> s_health s) (s_prometheus s).

(** The routes of the [ServeMux]. *)
Definition serve_health (cs : Collectors) (z : CheckRun) (path : string) (s : Server) : outcome error (Z * body) :=
  match s_health s with
  | Some h =>
      if bool_decide (path = "/health") then Handler cs z h
      else if bool_decide (path = "/healthz") then Ok LivenessHandler
      else if bool_decide (path = "/readyz") then ReadinessHandler cs z h
      else Ok (StatusNotFound, BodyNotFound)
  | None => Ok (StatusNotFound, BodyNotFound)
  end.

Definition serve (fmt_g : f64 -> string) (cs : Collectors) (z : CheckRun) (path : string) (s : Server)
    : outcome error (Z * body) :=
  match s_prometheus s with
  | Some namespace =>
      if bool_decide (path = "/metrics") then
        let! chunks := WriteMetrics fmt_g namespace (run_now z) (cs (s_collector s)) in
        Ok (StatusOK, BodyMetrics chunks)
      else serve_health cs z path s
  | None => serve_health cs z path s
  end.

(** * The verdict *)

(** A registered check that fails in the process it is run in. *)
Definition failing (z : CheckRun) (h : HealthCheck) : Prop :=
  exists name check, checks h !! name = Some check /\ check (run_process z name) <> None.

(** The collector the health check watches, if any, has a high error rate. *)
Definition strained (cs : Collectors) (h : HealthCheck) : Prop :=
  exists ref, collector h = Some ref /\ (error_rate (cs ref)).2 = true.

Lemma check_result_unhealthy z name check :
  cr_Status (check_result z name check) = HealthStatusUnhealthy <-> check (run_process z name) <> None.
Proof. unfold check_result. by destruct (check (run_process z name)). Qed.

Lemma results_unhealthy z h :
  map_Exists (fun _ r => cr_Status r = HealthStatusUnhealthy)
    (map_imap (fun name check => Some (check_result z name check)) (checks h)) <-> failing z h.
Proof.
  unfold failing. rw map_Exists_lookup. split.
  - intros (name & r & Hr & Hs). rw map_lookup_imap in Hr. apply bind_Some in Hr as (check & Hc & [= <-]).
    exists name, check. by rw -check_result_unhealthy.
  - intros (name & check & Hc & Hs). exists name, (check_result z name check).
    rw map_lookup_imap Hc. by rw check_result_unhealthy.
Qed.

Lemma verdict_spec (u d : bool) (U D : Prop) : (u = true <-> U) -> (d = true <-> D) ->
  let status := if u then HealthStatusUnhealthy else if d then HealthStatusDegraded else HealthStatusHealthy in
  (status = HealthStatusUnhealthy <-> U) /\ (status = HealthStatusDegraded <-> ~ U /\ D).
Proof. destruct u, d; cbn; intuition congruence. Qed.

Lemma Check_Ok cs z h : (forall ref, collector_ok (cs ref)) -> exists r, HealthCheck_Check cs z h = Ok r /\
  (hr_Status r = HealthStatusUnhealthy <-> failing z h) /\
  (hr_Status r = HealthStatusDegraded <-> ~ failing z h /\ strained cs h) /\
  hr_Checks r = map_imap (fun name check => Some (check_result z name check)) (checks h).
Proof.
  intros Hcs. unfold HealthCheck_Check, strained. set (results := map_imap _ _).
  assert (Hu : bool_decide (map_Exists (fun _ r => cr_Status r = HealthStatusUnhealthy) results) = true <-> failing z h)
    by (rw bool_decide_eq_true; apply results_unhealthy).
  destruct (collector h) as [ref|].
  - destruct (Collector_Snapshot_Ok (run_now z) (cs ref) (Hcs ref)) as (s & -> & Hs). cbn [obind]. rw Hs.
    destruct (error_rate (cs ref)) as [rate high] eqn:Er. eexists. split; [done|].
    rw and_assoc. split; [|done]. apply verdict_spec; [done|]. split; [intros ->; exists ref; by rw Er|].
    intros (ref' & [= <-] & H). by rw Er in H.
  - eexists. split; [done|]. rw and_assoc. split; [|done]. apply (verdict_spec _ false); [done|]. split; [done|].
    by intros (? & [=] & _).
Qed.

(** The probes tell the truth about the checks: whatever checks were registered and removed, a
    request never fails, the overall status is unhealthy exactly when a registered check fails, and
    degraded exactly when none does but the error rate is above one per cent; the report names
    exactly the registered checks; [/health] and [/readyz] answer 503 exactly when a check fails
    and 200 otherwise, and [/healthz] always answers 200. *)
Theorem health_verdict fmt_g cs z s h : (forall ref, collector_ok (cs ref)) -> s_health s = Some h ->
  exists r, serve fmt_g cs z "/health" s =
    Ok (if bool_decide (hr_Status r = HealthStatusUnhealthy) then StatusServiceUnavailable else StatusOK, BodyHealth r) /\
  serve fmt_g cs z "/readyz" s =
    Ok (if bool_decide (hr_Status r = HealthStatusUnhealthy) then StatusServiceUnavailable else StatusOK,
        BodyReady (hr_Status r) (bool_decide (hr_Status r <> HealthStatusUnhealthy))) /\
  serve fmt_g cs z "/healthz" s = Ok (StatusOK, BodyAlive) /\
  (hr_Status r = HealthStatusUnhealthy <-> failing z h) /\
  (hr_Status r = HealthStatusDegraded <-> ~ failing z h /\ strained cs h) /\
  dom (hr_Checks r) = dom (checks h).
Proof.
  intros Hcs Hh. destruct (Check_Ok cs z h Hcs) as (r & E & Hu & Hd & Hr). exists r.
  assert (Hserve : forall path, path <> "/metrics" -> serve fmt_g cs z path s = serve_health cs z path s).
  { intros path Hp. unfold serve. destruct (s_prometheus s); [|done]. by rw bool_decide_eq_false_2. }
  rw !Hserve //. unfold serve_health. rw Hh. cbn [bool_decide decide].
  split_and!; try done.
  - unfold Handler. rw E. cbn. by destruct (hr_Status r).
  - unfold ReadinessHandler. rw E. cbn. by destruct (hr_Status r).
  - rw Hr. apply dom_imap_L. intros name. rw elem_of_dom. split; [intros [check Hc]|intros (check & Hc & _)]; by exists check.
Qed.

Definition example_process : Process := mkProcess 5000 (fun _ _ => None) (fun _ => None).
Definition example_check_run : CheckRun := mkCheckRun (fun _ => example_process) (fun _ => 1500) (90 * Second).
Definition example_server : Server :=
  AddHealthCheck "memory" (MemoryCheck 4096)
    (AddHealthCheck "peer" (ConnectivityCheck "10.0.0.1:1" Second)
       (NewServer 0%nat (mkServerConfig None "1" "" false true) 0)).

Lemma health_verdict_witness : exists r,
  serve (fun _ => "") (fun _ => NewCollector None 0) example_check_run "/health" example_server = Ok (503, BodyHealth r) /\
  serve (fun _ => "") (fun _ => NewCollector None 0) example_check_run "/readyz" example_server =
    Ok (503, BodyReady HealthStatusUnhealthy false).
Proof.
  destruct (health_verdict (fun _ => "") (fun _ => NewCollector None 0) example_check_run example_server
    (AddCheck "memory" (MemoryCheck 4096)
       (AddCheck "peer" (ConnectivityCheck "10.0.0.1:1" Second) (NewHealthCheck (Some 0%nat) "1" 0))))
    as (r & E1 & E2 & _ & Hu & _); [intros; apply NewCollector_collector_ok | reflexivity |].
  assert (Hs : hr_Status r = HealthStatusUnhealthy).
  { apply Hu. exists "memory", (MemoryCheck 4096). split; [apply lookup_insert_eq | by vm_compute]. }
  exists r. rw E1 E2 Hs. split; reflexivity.
Defined.

(** * An error rate over successes only *)

(** Packets are counted when they succeed, so a run of failures leaves the rate at zero. *)
Definition failed_encrypts (o : TunnelObserver) (fs : list (Z * Z * string)) : list CollectorOp :=
  fs ≫= fun '(n, d, err) => metrics_of (WrapEncrypt n d (Some err) o).

Lemma failed_encrypts_total o fs k : total k (failed_encrypts o fs) = match k with KEncryptErrors => len fs | _ => 0 end.
Proof.
  induction fs as [|[[n d] err] fs IH]; [by destruct k|]. cbn [failed_encrypts mbind list_bind]. cbn.
  change (list_bind _ _ _ fs) with (failed_encrypts o fs). rw IH len_cons. destruct k; cbn; lia.
Qed.

(** A service that fails at everything is reported healthy: the error rate is taken over the
    packets that got through, which a failed operation does not count, so after any number of
    failed encryptions and no success the status is healthy and the rate zero, whatever the number
    of errors. *)
Theorem total_failure_healthy o fs lbls now z ref v : len fs < 2 ^ 63 ->
  exists c r, Collector_run (failed_encrypts o fs) (NewCollector lbls now) = Ok c /\ encryptErrors c = len fs /\
    HealthCheck_Check (fun _ => c) z (NewHealthCheck (Some ref) v now) = Ok r /\ hr_Status r = HealthStatusHealthy /\
    hm_ErrorRate <$> hr_Metrics r = Some (f64_of_Z 0).
Proof.
  intros Hlen. destruct (Collector_run_Ok (failed_encrypts o fs) (NewCollector lbls now) (NewCollector_ok lbls now))
    as (c & E & Hk & _); [split; [by intros [] | done] | |].
  { intros k. rw failed_encrypts_total. destruct k; cbn; lia. }
  destruct (Collector_run_collector_ok (failed_encrypts o fs) _ (NewCollector_collector_ok lbls now)) as (c' & E' & Hc).
  rw E in E'. injection E' as <-. destruct (Collector_Snapshot_Ok (run_now z) c Hc) as (s & Es & Hs).
  assert (Hr : error_rate c = (f64_of_Z 0, false)).
  { unfold error_rate. change (packetsSent c) with (read KPacketsSent c). change (packetsRecv c) with (read KPacketsRecv c).
    by rw !Hk !failed_encrypts_total. }
  eexists c, _. split_and!; [done | | | |].
  - change (encryptErrors c) with (read KEncryptErrors c). by rw Hk failed_encrypts_total.
  - unfold HealthCheck_Check, NewHealthCheck. cbn [collector checks]. rw Es. cbn [obind]. rw Hs Hr. reflexivity.
  - reflexivity.
  - reflexivity.
Qed.

Lemma total_failure_healthy_witness : exists c r,
  Collector_run (failed_encrypts (NewTunnelObserver NullLogger None [] "initiator") (replicate 3 (100, 5000, "sealed")))
    (NewCollector None 0) = Ok c /\ encryptErrors c = 3 /\
  HealthCheck_Check (fun _ => c) example_check_run (NewHealthCheck (Some 0%nat) "1" 0) = Ok r /\
  hr_Status r = HealthStatusHealthy.
Proof.
  destruct (total_failure_healthy (NewTunnelObserver NullLogger None [] "initiator") (replicate 3 (100, 5000, "sealed"))
    None 0 example_check_run 0%nat "1") as (c & r & H1 & H2 & H3 & H4 & _); [done|].
  exact (ex_intro _ c (ex_intro _ r (conj H1 (conj H2 (conj H3 H4))))).
Defined.

(** * Uptimes *)

Definition Day : Z := 24 * Hour.

(** Up to 99 days an uptime reads as intended, apart from the zeros it leaves out. *)
Lemma uptime_examples :
  formatDuration (3 * Day + 4 * Hour + 5 * Minute + 6 * Second) = "03d04h05m" /\
  formatDuration (Hour + 5 * Second) = "01h05s" /\ formatDuration (Second / 2) = "0s".
Proof. split_and!; vm_compute; reflexivity. Qed.

(** From 100 days on the tens are printed as the character after the digit nine. *)
Lemma uptime_misprint : formatDuration (100 * Day) = ":0d" /\ formatDuration (125 * Day) = "<5d".
Proof. split; vm_compute; reflexivity. Qed.
