(* ===== verification/Buffers.v ===== *)
(** Buffer pools: [pkg/crypto/buffer_pool.go] and [pkg/protocol/buffer_pool.go].

    Arrays live in a memory and a slice refers to one, from its start, with a length; the length of
    the array is the capacity.  A [sync.Pool] hands out an item it holds or a new one, as the caller
    of the model says, which is all its documentation promises.  A pool belongs to the capacity of
    its buffers, its size class. *)

From Corelib Require Import ssreflect.
From stdpp Require Import base tactics list numbers strings gmap.
From Stdlib Require Import ZArith Lia.
From S2P Require Import Prelude Base Crypto.

Local Open Scope Z_scope.
Local Open Scope go_scope.

(** * Memory and [sync.Pool] *)

Record Mem := mkMem {
  arrays : list (list Z);
  free : gmap Z (list nat) }.

#[export] Instance Mem_eta : Eta Mem := {| eta := fun m => mkMem (arrays m) (free m) |}.

Record slice_of := mkSlice { b_arr : nat; b_len : Z }.

Definition capacity (m : Mem) (a : nat) : Z := len (default [] (arrays m !! a)).
Definition slice_bytes (m : Mem) (s : slice_of) : list Z := take (Z.to_nat (b_len s)) (default [] (arrays m !! b_arr s)).

(** [make([]byte, n)]. *)
Definition make_slice (n : Z) : ST Mem error nat := fun m =>
  (m <| arrays := arrays m ++ [replicate (Z.to_nat n) 0] |>, Ok (length (arrays m))).

Definition pool_items (m : Mem) (cls : Z) : list nat := default [] (free m !! cls).

(** [sync.Pool.Get]: the item the pool picks, or [New]. *)
Definition pool_Get (cls : Z) (pick : option nat) : ST Mem error nat := fun m =>
  match pick ≫= (fun i => (fun a => (i, a)) <$> pool_items m cls !! i) with
  | Some (i, a) => (m <| free := <[cls := delete i (pool_items m cls)]> (free m) |>, Ok a)
  | None => make_slice cls m
  end.

Definition pool_Put (cls : Z) (a : nat) : ST Mem error unit :=
  st_mod (fun m => m <| free := <[cls := a :: pool_items m cls]> (free m) |>).

(** [buf[:n]] on a slice that starts its array. *)
Definition reslice (a : nat) (n : Z) : ST Mem error slice_of := fun m =>
  (m, if (0 <=? n) && (n <=? capacity m a) then Ok (mkSlice a n) else Panic).

(** Writing over a part of an array: [copy(buf[off:], data)] where it fits. *)
Definition write_at (a : nat) (off : Z) (data : list Z) : ST Mem error unit :=
  st_mod (fun m => m <| arrays := alter (fun arr =>
    take (Z.to_nat off) arr ++ data ++ drop (Z.to_nat off + length data) arr) a (arrays m) |>).

(** [for i := range buf { buf[i] = 0 }] over the whole capacity. *)
Definition zero_out (a : nat) : ST Mem error unit :=
  st_mod (fun m => m <| arrays := alter (fun arr => replicate (length arr) 0) a (arrays m) |>).

(** * Size classes *)

(** The smallest class a size fits. *)
Definition size_class (classes : list Z) (size : Z) : option Z := head (filter (fun c => size <= c) classes).

(** A request: [nil], a slice of a pooled buffer, or an allocation beyond the largest class. *)
Definition get_buffer (classes : list Z) (size : Z) (pick : option nat) : ST Mem error (option slice_of) :=
  if size <=? 0 then st_ret None
  else
    match size_class classes size with
    | Some cls => do! a := pool_Get cls pick in do! s := reslice a size in st_ret (Some s)
    | None => do! a := make_slice size in st_ret (Some (mkSlice a size))
    end.

(** A return: only a buffer whose capacity is a class goes back. *)
Definition put_buffer (classes : list Z) (a : nat) : ST Mem error unit :=
  do! m := st_get in
  if bool_decide (capacity m a ∈ classes) then pool_Put (capacity m a) a else st_ret tt.

(** * The protocol's pool *)

Definition smallBufferSize : Z := 256.
Definition mediumBufferSize : Z := 4 * 1024.
Definition largeBufferSize : Z := 64 * 1024.
Definition xlargeBufferSize : Z := 2 * 1024 * 1024.
Definition protocolClasses : list Z := [smallBufferSize; mediumBufferSize; largeBufferSize; xlargeBufferSize].

Definition BufferPool_Get (size : Z) (pick : option nat) : ST Mem error (option slice_of) :=
  get_buffer protocolClasses size pick.

Definition BufferPool_Put (buf : option slice_of) : ST Mem error unit :=
  match buf with
  | None => st_ret tt
  | Some s =>
      do! m := st_get in
      if capacity m (b_arr s) =? 0 then st_ret tt else put_buffer protocolClasses (b_arr s)
  end.

(** A [PooledBuffer] is the slice it still holds. *)
Definition GetPooled (size : Z) (pick : option nat) : ST Mem error (option slice_of) := BufferPool_Get size pick.

Definition PooledBuffer_Release (pb : option slice_of) : ST Mem error (option slice_of) :=
  match pb with
  | Some s => do! _ := BufferPool_Put (Some s) in st_ret None
  | None => st_ret None
  end.

(** * The crypto pool *)

Definition nonceBufferSize : Z := AESNonceSize.
Definition smallCryptoBufferSize : Z := 1024 + AESNonceSize + AESTagSize.
Definition mediumCryptoBufferSize : Z := 16 * 1024 + AESNonceSize + AESTagSize.
Definition largeCryptoBufferSize : Z := 64 * 1024 + AESNonceSize + AESTagSize.
Definition cryptoClasses : list Z := [smallCryptoBufferSize; mediumCryptoBufferSize; largeCryptoBufferSize].

Definition GetNonce (pick : option nat) : ST Mem error slice_of :=
  do! a := pool_Get nonceBufferSize pick in
  do! _ := zero_out a in
  do! m := st_get in
  st_ret (mkSlice a (capacity m a)).

(** The loop ranges over the capacity but indexes the slice itself. *)
Definition PutNonce (buf : option slice_of) : ST Mem error unit :=
  match buf with
  | None => st_ret tt
  | Some s =>
      do! m := st_get in
      if negb (capacity m (b_arr s) =? nonceBufferSize) then st_ret tt
      else if b_len s <? capacity m (b_arr s) then
        do! _ := write_at (b_arr s) 0 (replicate (Z.to_nat (b_len s)) 0) in st_lift Panic
      else do! _ := zero_out (b_arr s) in pool_Put nonceBufferSize (b_arr s)
  end.

Definition GetCiphertext (size : Z) (pick : option nat) : ST Mem error (option slice_of) :=
  get_buffer cryptoClasses size pick.

Definition PutCiphertext (buf : option slice_of) : ST Mem error unit :=
  match buf with
  | None => st_ret tt
  | Some s =>
      do! m := st_get in
      if capacity m (b_arr s) =? 0 then st_ret tt
      else do! _ := zero_out (b_arr s) in put_buffer cryptoClasses (b_arr s)
  end.

(** * Sealing into a pooled buffer *)

(** The sentinel of this file, distinct from [qerrors.ErrNonceExhausted]. *)
Definition errNonceExhausted : error := ErrExternal "aead: nonce space exhausted, rekey required".

(** The memory and the cipher change together. *)
Definition on_mem {A} (f : ST Mem error A) : ST (Mem * AEAD) error A := fun s =>
  let '(m, r) := f s.1 in ((m, s.2), r).

Definition nextNoncePooled (pick : option nat) : ST (Mem * AEAD) error slice_of :=
  do! s := st_get in
  check! negb (ae_maxSeq s.2 <=? ae_counter s.2) else errNonceExhausted in
  do! nonce := on_mem (GetNonce pick) in
  do! _ := on_mem (write_at (b_arr nonce) 0 (replicate 4 0 ++ be_put 8 (ae_counter s.2))) in
  do! _ := st_mod (fun s => (s.1, with_counter s.2 (u64_add (ae_counter s.2) 1))) in
  st_ret nonce.

(** [dst] of [cipher.Seal] is the empty slice behind the nonce: the packet is appended to it in
    place if the capacity suffices and to a new array, which nobody keeps, if not. *)
Definition append_at (a : nat) (off : Z) (data : list Z) : ST Mem error unit :=
  do! m := st_get in
  if off + len data <=? capacity m a then write_at a off data else st_ret tt.

Definition SealPooled {P : Primitives} (nonce_pick pick : option nat) (plaintext additionalData : list Z)
    : ST (Mem * AEAD) error (option slice_of) :=
  do! nonce := nextNoncePooled nonce_pick in
  do! r := on_mem (GetCiphertext (AESNonceSize + len plaintext + AESTagSize) pick) in
  match r with
  | None => st_lift Panic
  | Some ct =>
      do! s := st_get in
      let n := slice_bytes s.1 nonce in
      do! _ := on_mem (write_at (b_arr ct) 0 n) in
      do! _ := on_mem (append_at (b_arr ct) AESNonceSize
                         (aead_seal (ae_suite s.2) (ae_key s.2) n plaintext additionalData)) in
      do! _ := on_mem (PutNonce (Some nonce)) in
      st_ret (Some ct)
  end.

(** * Clients that keep to the rules *)

(** A client writes to a buffer and gives it back only while it holds it. *)
Record Clients := mkClients { c_mem : Mem; c_held : gset nat }.

Inductive buffer_event :=
  | EvGet (size : Z) (pick : option nat)
  | EvGetNonce (pick : option nat)
  | EvWrite (a : nat) (data : list Z)
  | EvPut (s : slice_of)
  | EvPutNonce (a : nat).

Definition buffer_step (c : Clients) (e : buffer_event) : Clients :=
  match e with
  | EvGet size pick =>
      match GetCiphertext size pick (c_mem c) with
      | (m, Ok (Some s)) => mkClients m ({[ b_arr s ]} ∪ c_held c)
      | (m, _) => mkClients m (c_held c)
      end
  | EvGetNonce pick =>
      match GetNonce pick (c_mem c) with
      | (m, Ok s) => mkClients m ({[ b_arr s ]} ∪ c_held c)
      | (m, _) => mkClients m (c_held c)
      end
  | EvWrite a data =>
      if bool_decide (a ∈ c_held c /\ len data = capacity (c_mem c) a)
      then mkClients (write_at a 0 data (c_mem c)).1 (c_held c) else c
  | EvPut s =>
      if bool_decide (b_arr s ∈ c_held c)
      then mkClients (PutCiphertext (Some s) (c_mem c)).1 (c_held c ∖ {[ b_arr s ]}) else c
  | EvPutNonce a =>
      if bool_decide (a ∈ c_held c)
      then mkClients (PutNonce (Some (mkSlice a (capacity (c_mem c) a))) (c_mem c)).1 (c_held c ∖ {[ a ]}) else c
  end.

Definition no_buffers : Clients := mkClients (mkMem [] ∅) ∅.

(** What is in a pool is zero, has the size of its class, is there once, and nobody holds it. *)
Record buffers_ok (c : Clients) : Prop := {
  ok_nodup : forall cls, NoDup (pool_items (c_mem c) cls);
  ok_zero : forall cls a, a ∈ pool_items (c_mem c) cls ->
    0 <= cls /\ arrays (c_mem c) !! a = Some (replicate (Z.to_nat cls) 0) /\ a ∉ c_held c;
  ok_held : forall a, a ∈ c_held c -> (a < length (arrays (c_mem c)))%nat }.

Lemma items_insert m cls ids cls' :
  pool_items (m <| free := <[cls := ids]> (free m) |>) cls' = if bool_decide (cls' = cls) then ids else pool_items m cls'.
Proof.
  unfold pool_items. cbn. case_bool_decide as H; [subst; by rw lookup_insert_eq | by rw lookup_insert_ne].
Qed.

(** Getting from a pool: a zero buffer of the class that nobody holds and no pool keeps. *)
Lemma pool_Get_Ok c cls pick : buffers_ok c -> 0 <= cls ->
  exists m a, pool_Get cls pick (c_mem c) = (m, Ok a) /\ buffers_ok (mkClients m ({[ a ]} ∪ c_held c)) /\
    arrays m !! a = Some (replicate (Z.to_nat cls) 0) /\ a ∉ c_held c.
Proof.
  intros [Hnd Hz Hh] Hcls. unfold pool_Get.
  destruct (pick ≫= _) as [[i a]|] eqn:Hp.
  - apply bind_Some in Hp as (i' & -> & Hi). apply fmap_Some in Hi as (a' & Hi & [= -> ->]).
    destruct (Hz cls a' (list_elem_of_lookup_2 _ _ _ Hi)) as (_ & Ha & Hn).
    eexists _, a'. split; [done|]. split; [|done].
    pose proof (delete_Permutation _ _ _ Hi) as Hperm.
    assert (Hnd' : NoDup (a' :: delete i' (pool_items (c_mem c) cls))) by (rw -Hperm; apply Hnd).
    apply NoDup_cons in Hnd' as [Hnotin Hnd'].
    split; cbn [c_mem c_held arrays].
    + intros cls'. rw items_insert. by case_bool_decide.
    + intros cls' b. rw items_insert. case_bool_decide as Hc.
      * subst. intros Hb. assert (Hin : b ∈ pool_items (c_mem c) cls) by (rw Hperm; by apply list_elem_of_further).
        destruct (Hz cls b Hin) as (? & ? & ?). split_and!; [done..|].
        rw not_elem_of_union not_elem_of_singleton. split; [by intros ->|done].
      * intros Hb. destruct (Hz cls' b Hb) as (? & Hb' & ?). split_and!; [done..|].
        rw not_elem_of_union not_elem_of_singleton. split; [|done]. intros ->. rw Ha in Hb'. injection Hb' as Heq.
        apply (f_equal length) in Heq. rw !length_replicate in Heq. lia.
    + intros b Hb. apply elem_of_union in Hb as [Hb%elem_of_singleton | Hb]; [subst; by eapply lookup_lt_Some | by apply Hh].
  - eexists _, _. split; [done|]. cbn [arrays]. split; [|split].
    + split; cbn [c_mem c_held arrays].
      * intros cls'. exact (Hnd cls').
      * intros cls' b Hb. destruct (Hz cls' b Hb) as (? & Hb' & ?). pose proof (lookup_lt_Some _ _ _ Hb').
        split_and!; [done | by rw lookup_app_l |]. rw not_elem_of_union not_elem_of_singleton.
        split; [lia|done].
      * intros b Hb. rw length_app. cbn. apply elem_of_union in Hb as [Hb%elem_of_singleton | Hb]; [lia|].
        pose proof (Hh b Hb). lia.
    + by rw lookup_app_r // Nat.sub_diag.
    + intros Hin. pose proof (Hh _ Hin). lia.
Qed.

(** Whoever holds a buffer may write to it. *)
Lemma alter_ok c a f : buffers_ok c -> a ∈ c_held c ->
  buffers_ok (mkClients ((c_mem c) <| arrays := alter f a (arrays (c_mem c)) |>) (c_held c)).
Proof.
  intros [Hnd Hz Hh] Ha. split; cbn [c_mem c_held arrays].
  - intros cls. exact (Hnd cls).
  - intros cls b Hb. destruct (Hz cls b Hb) as (? & Hb' & Hn). split_and!; [done| |done].
    by rw list_lookup_alter_ne; [intros ->|].
  - intros b Hb. rw length_alter. by apply Hh.
Qed.

(** A held buffer that is zero may go back to the pool of its size. *)
Lemma pool_Put_ok c cls a : buffers_ok c -> a ∈ c_held c -> 0 <= cls ->
  arrays (c_mem c) !! a = Some (replicate (Z.to_nat cls) 0) ->
  buffers_ok (mkClients (pool_Put cls a (c_mem c)).1 (c_held c ∖ {[ a ]})).
Proof.
  intros [Hnd Hz Hh] Ha Hcls Hza. split; cbn [c_mem c_held pool_Put st_mod fst].
  - intros cls'. rw items_insert. case_bool_decide; [|apply Hnd]. subst. apply NoDup_cons. split; [|apply Hnd].
    intros Hin. by destruct (Hz _ _ Hin) as (_ & _ & []).
  - intros cls' b. rw items_insert not_elem_of_difference elem_of_singleton. cbn [arrays].
    case_bool_decide as Hc; [subst; rw elem_of_cons; intros [-> | Hb] | intros Hb].
    + auto.
    + destruct (Hz _ _ Hb) as (? & ? & ?). auto.
    + destruct (Hz _ _ Hb) as (? & ? & ?). auto.
  - intros b [Hb _]%elem_of_difference. by apply Hh.
Qed.

(** Giving a buffer up without pooling it. *)
Lemma drop_ok c a : buffers_ok c -> buffers_ok (mkClients (c_mem c) (c_held c ∖ {[ a ]})).
Proof.
  intros [Hnd Hz Hh]. split; cbn [c_mem c_held]; [done| |].
  - intros cls b Hb. destruct (Hz _ _ Hb) as (? & ? & ?). split_and!; [done..|]. rw not_elem_of_difference. auto.
  - intros b [Hb _]%elem_of_difference. by apply Hh.
Qed.

Lemma size_class_spec classes size cls : size_class classes size = Some cls -> cls ∈ classes /\ size <= cls.
Proof.
  unfold size_class. intros H%head_Some_elem_of. by apply list_elem_of_filter in H as [? ?].
Qed.

Lemma capacity_replicate m a n : 0 <= n -> arrays m !! a = Some (replicate (Z.to_nat n) 0) -> capacity m a = n.
Proof. unfold capacity, len. intros Hn ->. cbn. rw length_replicate. lia. Qed.

Lemma slice_zero m a n k : arrays m !! a = Some (replicate (Z.to_nat n) 0) -> k <= n ->
  slice_bytes m (mkSlice a k) = replicate (Z.to_nat k) 0.
Proof. unfold slice_bytes. cbn. intros ->. cbn. intros. rw take_replicate. f_equal. lia. Qed.

(** A request is served with a zero buffer of the size asked for that nobody else has. *)
Lemma get_buffer_Ok classes c size pick : buffers_ok c -> 0 < size ->
  exists m s, get_buffer classes size pick (c_mem c) = (m, Ok (Some s)) /\ b_len s = size /\
    slice_bytes m s = replicate (Z.to_nat size) 0 /\ size <= capacity m (b_arr s) /\ (b_arr s ∉ c_held c) /\
    buffers_ok (mkClients m ({[ b_arr s ]} ∪ c_held c)).
Proof.
  intros Hok Hs. unfold get_buffer. replace (size <=? 0) with false by blia.
  destruct (size_class classes size) as [cls|] eqn:Hc.
  - apply size_class_spec in Hc as [_ Hle].
    destruct (pool_Get_Ok c cls pick Hok) as (m & a & E & Hok' & Ha & Hn); [lia|].
    assert (Hcap : capacity m a = cls) by (apply capacity_replicate; [lia|done]).
    exists m, (mkSlice a size). rw (st_bind_ok _ _ _ _ _ E). unfold st_bind, reslice. rw Hcap.
    replace ((0 <=? size) && (size <=? cls)) with true by blia.
    split_and!; [done | done | by eapply slice_zero | cbn; lia | done | done].
  - destruct (pool_Get_Ok c size None Hok) as (m & a & E & Hok' & Ha & Hn); [lia|].
    change (pool_Get size None (c_mem c)) with (make_slice size (c_mem c)) in E.
    exists m, (mkSlice a size). rw (st_bind_ok _ _ _ _ _ E).
    assert (Hcap : capacity m a = size) by (apply capacity_replicate; [lia|done]).
    split_and!; [done | done | by eapply slice_zero | cbn; lia | done | done].
Qed.

Lemma zero_out_ok c a : buffers_ok c -> a ∈ c_held c -> buffers_ok (mkClients (zero_out a (c_mem c)).1 (c_held c)).
Proof. intros. unfold zero_out, st_mod. cbn [fst]. by apply alter_ok. Qed.

Lemma zero_out_zero m a arr : arrays m !! a = Some arr ->
  arrays (zero_out a m).1 !! a = Some (replicate (Z.to_nat (capacity m a)) 0).
Proof.
  intros Ha. unfold zero_out, capacity, len. cbn. rw list_lookup_alter_eq Ha. cbn. do 2 f_equal. lia.
Qed.

Lemma zero_out_capacity m a b : capacity (zero_out a m).1 b = capacity m b.
Proof.
  unfold zero_out, capacity, len. cbn. destruct (decide (b = a)) as [->|]; [|by rw list_lookup_alter_ne].
  rw list_lookup_alter_eq. destruct (arrays m !! a); [|done]. cbn. by rw length_replicate.
Qed.

Lemma held_lookup c a : buffers_ok c -> a ∈ c_held c -> exists arr, arrays (c_mem c) !! a = Some arr.
Proof. intros [_ _ Hh] Ha. apply lookup_lt_is_Some. by apply Hh. Qed.

Lemma capacity_nonneg m a : 0 <= capacity m a.
Proof. unfold capacity, len. lia. Qed.

Lemma GetNonce_Ok c pick : buffers_ok c -> exists m s, GetNonce pick (c_mem c) = (m, Ok s) /\ b_len s = 12 /\
  capacity m (b_arr s) = 12 /\ slice_bytes m s = replicate 12 0 /\ (b_arr s ∉ c_held c) /\
  buffers_ok (mkClients m ({[ b_arr s ]} ∪ c_held c)).
Proof.
  intros Hok. unfold GetNonce. destruct (pool_Get_Ok c nonceBufferSize pick Hok) as (m & a & E & Hok' & Ha & Hn); [done|].
  assert (Hcap : capacity m a = 12) by (apply (capacity_replicate m a 12); [lia|done]).
  rw (st_bind_ok _ _ _ _ _ E). exists (zero_out a m).1, (mkSlice a 12).
  pose proof (zero_out_zero m a _ Ha) as Hz. rw Hcap in Hz. split_and!; cbn [b_len b_arr]; try done.
  - unfold st_bind. change (zero_out a m) with ((zero_out a m).1, Ok (E := error) tt). cbv beta iota.
    unfold st_get, st_ret. by rw zero_out_capacity Hcap.
  - by rw zero_out_capacity.
  - by eapply slice_zero.
  - refine (zero_out_ok _ a Hok' _).
    apply elem_of_union_l, elem_of_singleton_2. reflexivity.
Qed.

Lemma put_buffer_ok classes c a : buffers_ok c -> a ∈ c_held c ->
  arrays (c_mem c) !! a = Some (replicate (Z.to_nat (capacity (c_mem c) a)) 0) ->
  buffers_ok (mkClients (put_buffer classes a (c_mem c)).1 (c_held c ∖ {[ a ]})).
Proof.
  intros Hok Ha Hz. unfold put_buffer, st_bind, st_get. case_bool_decide; [|by apply drop_ok].
  apply pool_Put_ok; [done | done | apply capacity_nonneg | done].
Qed.

Lemma PutCiphertext_ok c s : buffers_ok c -> b_arr s ∈ c_held c ->
  buffers_ok (mkClients (PutCiphertext (Some s) (c_mem c)).1 (c_held c ∖ {[ b_arr s ]})).
Proof.
  intros Hok Ha. unfold PutCiphertext, st_bind, st_get. destruct (capacity (c_mem c) (b_arr s) =? 0); [by apply drop_ok|].
  change (zero_out (b_arr s) (c_mem c)) with ((zero_out (b_arr s) (c_mem c)).1, Ok (E := error) tt). cbv beta iota.
  destruct (held_lookup c _ Hok Ha) as [arr Harr].
  apply (put_buffer_ok cryptoClasses (mkClients (zero_out (b_arr s) (c_mem c)).1 (c_held c))); [|done|].
  - by apply zero_out_ok.
  - cbn [c_mem]. rw zero_out_capacity. by eapply zero_out_zero.
Qed.

Lemma PutNonce_ok c a : buffers_ok c -> a ∈ c_held c ->
  buffers_ok (mkClients (PutNonce (Some (mkSlice a (capacity (c_mem c) a))) (c_mem c)).1 (c_held c ∖ {[ a ]})).
Proof.
  intros Hok Ha. unfold PutNonce, st_bind, st_get. cbn [b_arr b_len].
  destruct (Z.eqb_spec (capacity (c_mem c) a) nonceBufferSize) as [Hc|]; [|by apply drop_ok]. cbn [negb].
  rw Z.ltb_irrefl. change (zero_out a (c_mem c)) with ((zero_out a (c_mem c)).1, Ok (E := error) tt). cbv beta iota.
  destruct (held_lookup c _ Hok Ha) as [arr Harr].
  apply (pool_Put_ok (mkClients (zero_out a (c_mem c)).1 (c_held c))); 
    [by apply zero_out_ok | done | done |].
  cbn [c_mem]. rw -Hc. by eapply zero_out_zero.
Qed.

Lemma buffer_step_ok c e : buffers_ok c -> buffers_ok (buffer_step c e).
Proof.
  intros Hok. destruct e as [size pick|pick|a data|s|a]; cbn [buffer_step].
  - destruct (Z.leb_spec size 0) as [Hs|Hs].
    + unfold GetCiphertext, get_buffer. replace (size <=? 0) with true by blia. by destruct c.
    + unfold GetCiphertext. by destruct (get_buffer_Ok cryptoClasses c size pick Hok Hs) as (m & s & -> & _ & _ & _ & _ & ?).
  - by destruct (GetNonce_Ok c pick Hok) as (m & s & -> & _ & _ & _ & _ & ?).
  - case_bool_decide as H; [|done]. unfold write_at, st_mod. cbn [fst]. apply alter_ok; [done | apply H].
  - case_bool_decide; [by apply PutCiphertext_ok | done].
  - case_bool_decide; [by apply PutNonce_ok | done].
Qed.

Lemma no_buffers_ok : buffers_ok no_buffers.
Proof.
  split; cbn; [intros; apply NoDup_nil_2 | |]; intros *; rw ?elem_of_nil ?elem_of_empty; done.
Qed.

Lemma buffer_run_ok evs c : buffers_ok c -> buffers_ok (foldl buffer_step c evs).
Proof. revert c. induction evs as [|e evs IH]; intros c Hc; [done|]. by apply IH, buffer_step_ok. Qed.

(** C37: A pooled buffer never carries another user's bytes: however clients take, fill and return
    buffers, as long as each touches a buffer only while it holds it, a request for [size > 0] bytes
    is served, without a panic, with exactly [size] zero bytes in a buffer that nobody else holds, a
    request for nothing with [nil], and a nonce buffer is twelve zero bytes that nobody else holds. *)
Theorem pooled_buffers_clean evs c : foldl buffer_step no_buffers evs = c ->
  (forall size pick, 0 < size -> exists m s, GetCiphertext size pick (c_mem c) = (m, Ok (Some s)) /\
     b_len s = size /\ slice_bytes m s = replicate (Z.to_nat size) 0 /\ (b_arr s ∉ c_held c)) /\
  (forall size pick, size <= 0 -> GetCiphertext size pick (c_mem c) = (c_mem c, Ok None)) /\
  (forall pick, exists m s, GetNonce pick (c_mem c) = (m, Ok s) /\ b_len s = 12 /\
     slice_bytes m s = replicate 12 0 /\ (b_arr s ∉ c_held c)).
Proof.
  intros <-. pose proof (buffer_run_ok evs _ no_buffers_ok) as Hok. set (c := foldl _ _ _) in *. split_and!.
  - intros size pick Hs. destruct (get_buffer_Ok cryptoClasses c size pick Hok Hs) as (m & s & E & ? & ? & ? & ? & ?).
    by exists m, s.
  - intros size pick Hs. unfold GetCiphertext, get_buffer. by replace (size <=? 0) with true by blia.
  - intros pick. destruct (GetNonce_Ok c pick Hok) as (m & s & E & ? & ? & ? & ? & ?). by exists m, s.
Qed.

Definition example_buffer_events : list buffer_event :=
  [EvGet 40 None; EvWrite 0 (replicate 1052 7); EvPut (mkSlice 0 40)].

Lemma pooled_buffers_clean_witness : exists m s,
  GetCiphertext 5 (Some 0%nat) (c_mem (foldl buffer_step no_buffers example_buffer_events)) = (m, Ok (Some s)) /\
  slice_bytes m s = [0; 0; 0; 0; 0].
Proof.
  destruct (pooled_buffers_clean example_buffer_events _ eq_refl) as (H & _ & _).
  destruct (H 5 (Some 0%nat) eq_refl) as (m & s & E & _ & Hb & _). exists m, s. exact (conj E Hb).
Defined.

(** The same pool without the wiping: the protocol's buffers keep what was last written. *)
Lemma protocol_buffers_stale :
  let '(m, r) := (do! s := BufferPool_Get 3 None in
                  do! _ := write_at 0 0 [1; 2; 3] in
                  do! _ := BufferPool_Put s in
                  BufferPool_Get 2 (Some 0%nat)) (mkMem [] ∅) in
  r = Ok (Some (mkSlice 0 2)) /\ slice_bytes m (mkSlice 0 2) = [1; 2].
Proof. vm_compute. by split. Qed.

(** A released [PooledBuffer] is empty, and releasing it again does nothing. *)
Lemma Release_twice pb m : (PooledBuffer_Release pb m).2 = Ok None /\ PooledBuffer_Release None m = (m, Ok None).
Proof.
  split; [|done]. destruct pb as [s|]; [|done]. unfold PooledBuffer_Release, BufferPool_Put, put_buffer, st_bind, st_get.
  by repeat case_match; simplify_eq.
Qed.

(** Returning a nonce buffer that was cut short panics. *)
Lemma PutNonce_short_panics m a n : capacity m a = nonceBufferSize -> n < nonceBufferSize ->
  (PutNonce (Some (mkSlice a n)) m).2 = Panic.
Proof.
  intros Hc Hn. unfold PutNonce, st_bind, st_get. cbn [b_arr b_len]. rw Hc Z.eqb_refl. cbn [negb].
  by replace (n <? nonceBufferSize) with true by blia.
Qed.

(** * Sealing with and without the pool *)

Lemma write_at_eq m a off data arr : arrays m !! a = Some arr ->
  arrays (write_at a off data m).1 !! a =
    Some (take (Z.to_nat off) arr ++ data ++ drop (Z.to_nat off + length data) arr).
Proof. intros H. unfold write_at, st_mod. cbn. by rw list_lookup_alter_eq H. Qed.

Lemma write_at_ne m a b off data : b <> a -> arrays (write_at a off data m).1 !! b = arrays m !! b.
Proof. intros H. unfold write_at, st_mod. cbn. by rw list_lookup_alter_ne. Qed.

Lemma get_buffer_frame classes size pick m a arr : arrays m !! a = Some arr ->
  arrays (get_buffer classes size pick m).1 !! a = Some arr.
Proof.
  intros Ha. assert (Hmk : forall n, arrays (make_slice n m).1 !! a = Some arr).
  { intros n. cbn. rw lookup_app_l //. by eapply lookup_lt_Some. }
  unfold get_buffer. destruct (size <=? 0); [done|]. destruct (size_class classes size) as [cls|]; [|apply (Hmk size)].
  unfold st_bind, pool_Get. destruct (pick ≫= _) as [[i b]|]; [|specialize (Hmk cls); cbn in *; by case_match].
  unfold reslice. by case_match.
Qed.

Lemma PutNonce_ne s m b : b <> b_arr s -> arrays (PutNonce (Some s) m).1 !! b = arrays m !! b.
Proof.
  intros Hb. unfold PutNonce, st_bind, st_get, zero_out, write_at, pool_Put, st_mod, st_lift, st_ret.
  repeat case_match; simplify_eq; cbn; by rw ?list_lookup_alter_ne.
Qed.

Section Sealing.
Context {P : Primitives} {L : PrimitivesLaws P}.

(** The packet a buffer holds after the nonce and the sealed text were written over it. *)
Lemma packet_bytes m a arr nonce ct : arrays m !! a = Some arr -> len nonce = 12 ->
  12 + len ct <= len arr -> let m' := (write_at a 0 nonce m).1 in
  append_at a 12 ct m' = write_at a 12 ct m' /\
  slice_bytes (write_at a 12 ct m').1 (mkSlice a (12 + len ct)) = nonce ++ ct.
Proof.
  intros Ha Hn Hle m'. pose proof (write_at_eq m a 0 nonce arr Ha) as H1. fold m' in H1. cbn [take app] in H1.
  set (arr1 := take (Z.to_nat 0) arr ++ nonce ++ drop (Z.to_nat 0 + length nonce) arr) in H1.
  assert (Hl : len arr1 = len arr).
  { subst arr1. unfold len in *. rw !length_app length_take length_drop. lia. }
  split.
  - unfold append_at, st_bind, st_get, capacity. rw H1. cbn [from_option id]. by replace (12 + len ct <=? len arr1) with true by blia.
  - unfold slice_bytes. cbn [b_arr b_len]. rw (write_at_eq m' a 12 ct arr1 H1). cbn [from_option id].
    assert (Ht : take (Z.to_nat 12) arr1 = nonce).
    { subst arr1. change (take (Z.to_nat 0) arr) with (@nil Z). cbn [app]. rw take_app_length' //. unfold len in Hn. lia. }
    rw Ht app_assoc take_app_length' //. unfold len in *. rw length_app. lia.
Qed.

Lemma write_at_ok c a off data : buffers_ok c -> a ∈ c_held c ->
  buffers_ok (mkClients (write_at a off data (c_mem c)).1 (c_held c)).
Proof. intros. unfold write_at, st_mod. cbn [fst]. by apply alter_ok. Qed.

Lemma nextNoncePooled_Ok np c a : buffers_ok c -> ae_counter a < ae_maxSeq a ->
  exists m n, nextNoncePooled np (c_mem c, a) = ((m, with_counter a (u64_add (ae_counter a) 1)), Ok n) /\
    b_len n = 12 /\ arrays m !! b_arr n = Some (counter_nonce (ae_counter a)) /\ (b_arr n ∉ c_held c) /\
    buffers_ok (mkClients m ({[ b_arr n ]} ∪ c_held c)).
Proof.
  intros Hok Hlt. destruct (GetNonce_Ok c np Hok) as (m1 & n & E & Hl & Hcap & _ & Hn & Hok1).
  assert (Hin : b_arr n ∈ {[ b_arr n ]} ∪ c_held c) by (apply elem_of_union_l, elem_of_singleton_2; reflexivity).
  destruct (held_lookup _ _ Hok1 Hin) as [arr Ha]. cbn [c_mem] in Ha.
  pose proof (write_at_eq m1 (b_arr n) 0 (counter_nonce (ae_counter a)) arr Ha) as Hw.
  exists (write_at (b_arr n) 0 (counter_nonce (ae_counter a)) m1).1, n. split_and!; [|done| |done|].
  - unfold nextNoncePooled, st_bind, st_get, on_mem, st_mod, st_ret. cbn [fst snd].
    replace (ae_maxSeq a <=? ae_counter a) with false by blia. cbn [negb]. rw E. cbn [fst snd]. reflexivity.
  - rw Hw. f_equal. unfold capacity in Hcap. rw Ha in Hcap. cbn [from_option id] in Hcap.
    rw drop_ge; [pose proof (len_counter_nonce (ae_counter a)); unfold len in *; lia|]. by rw app_nil_r.
  - exact (write_at_ok _ (b_arr n) 0 (counter_nonce (ae_counter a)) Hok1 Hin).
Qed.

Lemma on_mem_Ok {A} (f : ST Mem error A) m (a : AEAD) m' (x : A) : f m = (m', Ok x) -> on_mem f (m, a) = ((m', a), Ok x).
Proof. unfold on_mem. cbn. by intros ->. Qed.

(** Filling a held buffer with a packet. *)
Lemma buffer_fill_ok c s nonce ct : buffers_ok c -> b_arr s ∈ c_held c -> len nonce = 12 -> b_len s = 12 + len ct ->
  b_len s <= capacity (c_mem c) (b_arr s) -> exists m,
  append_at (b_arr s) 12 ct (write_at (b_arr s) 0 nonce (c_mem c)).1 = (m, Ok tt) /\ slice_bytes m s = nonce ++ ct /\
  buffers_ok (mkClients m (c_held c)) /\ (forall b, b <> b_arr s -> arrays m !! b = arrays (c_mem c) !! b).
Proof.
  intros Hok Hin Hn Hl Hcap. destruct (held_lookup _ _ Hok Hin) as [arr Ha].
  unfold capacity in Hcap. rw Ha in Hcap. cbn [from_option id] in Hcap.
  destruct (packet_bytes (c_mem c) (b_arr s) arr nonce ct Ha Hn) as [Happ Hbytes]; [lia|].
  eexists. split; [rw Happ; reflexivity|]. split; [|split].
  - destruct s as [b n]. cbn in Hl. subst n. exact Hbytes.
  - exact (write_at_ok _ (b_arr s) 12 ct (write_at_ok _ (b_arr s) 0 nonce Hok Hin) Hin).
  - intros b Hb. change (arrays (write_at (b_arr s) 12 ct (write_at (b_arr s) 0 nonce (c_mem c)).1).1 !! b = arrays (c_mem c) !! b).
    by rw !write_at_ne.
Qed.

Lemma PutNonce_Ok m n arr : arrays m !! b_arr n = Some arr -> len arr = 12 -> b_len n = 12 ->
  PutNonce (Some n) m = ((PutNonce (Some (mkSlice (b_arr n) (capacity m (b_arr n)))) m).1, Ok tt).
Proof.
  intros Ha Hl Hn. assert (Hc : capacity m (b_arr n) = 12) by (unfold capacity; by rw Ha).
  destruct n as [b k]. cbn in *. subst k. unfold PutNonce, st_bind, st_get. cbn [b_arr b_len]. by rw Hc.
Qed.

Lemma SealPooled_Ok np pick pt ad c a : buffers_ok c -> ae_counter a < ae_maxSeq a ->
  exists m s, SealPooled np pick pt ad (c_mem c, a) = ((m, with_counter a (u64_add (ae_counter a) 1)), Ok (Some s)) /\
    slice_bytes m s = counter_nonce (ae_counter a)
      ++ aead_seal (ae_suite a) (ae_key a) (counter_nonce (ae_counter a)) pt ad /\ (b_arr s ∉ c_held c) /\
    buffers_ok (mkClients m ({[ b_arr s ]} ∪ c_held c)).
Proof.
  intros Hok Hlt. destruct (nextNoncePooled_Ok np c a Hok Hlt) as (m1 & n & E1 & Hl & Hn1 & Hn & Hok1).
  set (nb := counter_nonce (ae_counter a)) in *. set (ct := aead_seal (ae_suite a) (ae_key a) nb pt ad).
  assert (Hct : len ct = len pt + 16) by apply aead_seal_len. assert (Hnb : len nb = 12) by apply len_counter_nonce.
  pose proof (len_nonneg pt) as Hpt. set (size := AESNonceSize + len pt + AESTagSize).
  assert (Hsize : size = 12 + len ct) by (subst size; unfold AESNonceSize, AESTagSize; lia).
  destruct (get_buffer_Ok cryptoClasses (mkClients m1 ({[ b_arr n ]} ∪ c_held c)) size pick Hok1)
    as (m2 & s & E2 & Hs & _ & Hcap & Hns & Hok2); [lia|]. cbn [c_mem c_held] in *.
  apply not_elem_of_union in Hns as [Hne%not_elem_of_singleton Hns].
  pose proof (get_buffer_frame cryptoClasses size pick m1 _ _ Hn1) as Hn2. rw E2 in Hn2. cbn [fst] in Hn2.
  destruct (buffer_fill_ok _ s nb ct Hok2) as (m3 & E3 & Hb3 & Hok3 & Hfr); cbn [c_mem c_held] in *;
    [apply elem_of_union_l, elem_of_singleton_2; reflexivity | done | lia | lia |].
  assert (Hn3 : arrays m3 !! b_arr n = Some nb) by (rw Hfr //; congruence).
  exists (PutNonce (Some (mkSlice (b_arr n) (capacity m3 (b_arr n)))) m3).1, s. split_and!; [| | done |].
  - unfold SealPooled. rw (st_bind_ok _ _ _ _ _ E1). fold size.
    rw (st_bind_ok _ _ _ _ _ (on_mem_Ok (GetCiphertext size pick) _ _ _ _ E2)) st_bind_get. cbn [fst snd].
    assert (Hnonce : slice_bytes m2 n = nb).
    { unfold slice_bytes. rw Hn2 Hl. apply take_ge. unfold len in Hnb. cbn [from_option id]. lia. }
    rw Hnonce (st_bind_ok _ _ _ _ _ (on_mem_Ok (write_at (b_arr s) 0 nb) m2 _ _ _ eq_refl)).
    change (aead_seal _ _ nb pt ad) with ct. rw (st_bind_ok _ _ _ _ _ (on_mem_Ok (append_at (b_arr s) AESNonceSize ct) _ _ _ _ E3)).
    by rw (st_bind_ok _ _ _ _ _ (on_mem_Ok _ _ _ _ _ (PutNonce_Ok m3 n nb Hn3 Hnb Hl))).
  - unfold slice_bytes. by rw PutNonce_ne.
  - pose proof (PutNonce_ok _ (b_arr n) Hok3) as Hok4. cbn [c_mem c_held] in Hok4.
    replace ({[ b_arr s ]} ∪ c_held c) with (({[ b_arr s ]} ∪ ({[ b_arr n ]} ∪ c_held c)) ∖ {[ b_arr n ]})
      by (clear -Hne Hn; set_solver).
    apply Hok4, elem_of_union_r, elem_of_union_l, elem_of_singleton_2. reflexivity.
Qed.

(** C38: Sealing into a pooled buffer is sealing: whatever the pool hands out, [SealPooled] advances
    the cipher exactly as [Seal] does and the slice it returns holds exactly the packet [Seal]
    returns, in a buffer nobody else holds; it fails exactly when [Seal] fails, on a used-up nonce
    space, without taking a buffer, but with an error of its own that is not [ErrNonceExhausted]. *)
Theorem seal_pooled_equiv evs np pick pt ad a :
  let c := foldl buffer_step no_buffers evs in
  match Seal pt ad a with
  | (a', Ok packet) => exists m s, SealPooled np pick pt ad (c_mem c, a) = ((m, a'), Ok (Some s)) /\
      slice_bytes m s = packet /\ (b_arr s ∉ c_held c)
  | (a', Err e) => e = ErrNonceExhausted /\
      SealPooled np pick pt ad (c_mem c, a) = ((c_mem c, a'), Err errNonceExhausted) /\
      Is errNonceExhausted ErrNonceExhausted = false
  | (_, Panic) => False
  end.
Proof.
  intros c. pose proof (buffer_run_ok evs _ no_buffers_ok : buffers_ok c) as Hok. rw Seal_eq.
  destruct (Z.ltb_spec (ae_counter a) (ae_maxSeq a)) as [Hlt|Hge].
  - destruct (SealPooled_Ok np pick pt ad c a Hok Hlt) as (m & s & E & Hb & Hn & _). by exists m, s.
  - split_and!; [done| |done]. unfold SealPooled, nextNoncePooled, st_bind, st_get. cbn [fst snd].
    by replace (ae_maxSeq a <=? ae_counter a) with true by blia.
Qed.
End Sealing.

Lemma seal_pooled_equiv_witness :
  exists m s, SealPooled (P := toy) None (Some 0%nat) [1; 2; 3] [9]
    (c_mem (foldl buffer_step no_buffers example_buffer_events), mkAEAD CipherSuiteAES256GCM (replicate 32 5) 7 100) =
    ((m, mkAEAD CipherSuiteAES256GCM (replicate 32 5) 8 100), Ok (Some s)) /\
  len (slice_bytes m s) = 31.
Proof.
  pose proof (seal_pooled_equiv (P := toy) (L := toy_laws) example_buffer_events None (Some 0%nat) [1; 2; 3] [9]
    (mkAEAD CipherSuiteAES256GCM (replicate 32 5) 7 100)) as H.
  cbv zeta in H. rw Seal_eq in H. destruct H as (m & s & E & Hb & _). exists m, s. split; [exact E|].
  rw Hb. vm_compute. reflexivity.
Defined.
