(* ===== verification/Standards.v ===== *)
(** The published algorithms behind the primitives of [Crypto]: SHAKE-256 and SHA3-256 (FIPS 202),
    AES-256-GCM (FIPS 197, SP 800-38D) and ChaCha20-Poly1305 (RFC 8439), as functions on byte
    lists, and the proof that they satisfy the laws [PrimitivesLaws] asks of them.  Constants the
    standards derive (round constants, rotation offsets, the S-box) are derived here as well. *)

From Corelib Require Import ssreflect.
From stdpp Require Import base tactics list numbers.
From Stdlib Require Import ZArith Lia.
From S2P Require Import Prelude Base Crypto.

Local Open Scope Z_scope.
Local Open Scope go_scope.

(** * Bytes *)

(** Little-endian integers. *)
Fixpoint le_put (n : nat) (z : Z) : list Z :=
  match n with
  | O => []
  | S n => z mod 256 :: le_put n (z / 256)
  end.

Definition le_val (l : list Z) : Z := foldr (fun b a => b + a * 256) 0 l.

(** The first [n] blocks of [k] bytes. *)
Fixpoint blocks (k n : nat) (p : list Z) : list (list Z) :=
  match n with
  | O => []
  | S n => take k p :: blocks k n (drop k p)
  end.

(** The number of blocks of [k] bytes that hold [n]. *)
Definition nblocks (k n : nat) : nat := (n + k - 1) / k.

Definition tab {A} (n : nat) (f : Z -> A) : list A := map f (seqZ 0 (Z.of_nat n)).

Definition at_ (l : list Z) (i : Z) : Z := nth (Z.to_nat i) l 0.

(** * Keccak *)

Module Keccak.

Definition mask : Z := 0xffffffffffffffff.

Definition rotl (n x : Z) : Z := Z.lor (Z.land (Z.shiftl x n) mask) (Z.shiftr x (64 - n)).

(** Lanes are numbered [x + 5 y]. *)
Definition lane (a : list Z) (x y : Z) : Z := at_ a (x mod 5 + 5 * (y mod 5)).

Definition lanes (f : Z -> Z -> Z) : list Z := tab 25 (fun i => f (i mod 5) (i / 5)).

(** The walk of FIPS 202, 3.2.2, that gives each lane its offset. *)
Fixpoint offsets (n : nat) (t x y : Z) : list (Z * Z) :=
  match n with
  | O => []
  | S n => (x + 5 * y, ((t + 1) * (t + 2) / 2) mod 64) :: offsets n (t + 1) y ((2 * x + 3 * y) mod 5)
  end.

Definition rotation : list Z := Eval vm_compute in
  tab 25 (fun i => default 0 (snd <$> List.find (fun p => p.1 =? i) (offsets 24 0 1 0))).

(** The shift register of FIPS 202, 3.2.5. *)
Fixpoint lfsr (n : nat) : Z :=
  match n with
  | O => 1
  | S n => let r := 2 * lfsr n in if Z.testbit r 8 then Z.lxor r 0x171 else r
  end.

Definition round_constant (i : nat) : Z :=
  foldr (fun j => Z.lor (Z.shiftl (Z.b2z (Z.testbit (lfsr (j + 7 * i)) 0)) (2 ^ Z.of_nat j - 1))) 0 (seq 0 7).

Definition round_constants : list Z := Eval vm_compute in map round_constant (seq 0 24).

Definition xor_list (l : list Z) : Z := foldr Z.lxor 0 l.

Definition keccak_round (a : list Z) (rc : Z) : list Z :=
  let c := tab 5 (fun x => xor_list (tab 5 (lane a x))) in
  let d := tab 5 (fun x => Z.lxor (at_ c ((x - 1) mod 5)) (rotl 1 (at_ c ((x + 1) mod 5)))) in
  let a := lanes (fun x y => Z.lxor (lane a x y) (at_ d x)) in
  let r := tab 25 (fun i => rotl (at_ rotation i) (at_ a i)) in
  let b := lanes (fun x y => lane r (x + 3 * y) x) in
  let a := lanes (fun x y =>
    Z.lxor (lane b x y) (Z.land (Z.lxor (lane b (x + 1) y) mask) (lane b (x + 2) y))) in
  match a with
  | l :: r => Z.lxor l rc :: r
  | [] => []
  end.

Definition keccak_f (a : list Z) : list Z := foldl keccak_round a round_constants.

(** Both functions have a capacity of 512 bits. *)
Definition rate : nat := 136.

Definition pad (suffix : Z) (p : list Z) : list Z :=
  let n := (rate - length p mod rate)%nat in
  p ++ tab n (fun i => Z.lor (if i =? 0 then suffix else 0) (if i =? Z.of_nat n - 1 then 0x80 else 0)).

Definition absorb (a block : list Z) : list Z :=
  keccak_f (zip_with Z.lxor a (map le_val (blocks 8 17 block) ++ replicate 8 0)).

Fixpoint squeeze (n : nat) (a : list Z) : list Z :=
  match n with
  | O => []
  | S n => concat (map (fun i => le_put 8 (at_ a i)) (seqZ 0 17)) ++ squeeze n (keccak_f a)
  end.

Definition sponge (suffix : Z) (p : list Z) (n : Z) : list Z :=
  let p := pad suffix p in
  let a := foldl absorb (replicate 25 0) (blocks rate (length p / rate) p) in
  take (Z.to_nat n) (squeeze (nblocks rate (Z.to_nat n)) a).

Definition shake256 (p : list Z) (n : Z) : list Z := sponge 0x1f p n.
Definition sha3_256 (p : list Z) : list Z := sponge 0x06 p 32.

End Keccak.

(** * AES-256 *)

Module AES.

Definition xtime (a : Z) : Z :=
  let r := 2 * a in if Z.testbit r 8 then Z.lxor r 0x11b else r.

(** The product in [GF(2^8)], over the bits of [b] from the lowest. *)
Fixpoint gmul (n : nat) (a b : Z) : Z :=
  match n with
  | O => 0
  | S n => Z.lxor (if Z.testbit b 0 then a else 0) (gmul n (xtime a) (b / 2))
  end.

Definition inverse (a : Z) : Z := Nat.iter 253 (gmul 8 a) a.

Definition rotl8 (n x : Z) : Z := Z.lor (Z.shiftl x n mod 256) (Z.shiftr x (8 - n)).

Definition sub_byte (a : Z) : Z :=
  let b := inverse a in
  Z.lxor 0x63 (Z.lxor b (Z.lxor (rotl8 1 b) (Z.lxor (rotl8 2 b) (Z.lxor (rotl8 3 b) (rotl8 4 b))))).

Definition sbox : list Z := Eval vm_compute in tab 256 sub_byte.

Definition sub_word (w : list Z) : list Z := map (at_ sbox) w.

Definition rot_word (w : list Z) : list Z := drop 1 w ++ take 1 w.

(** The key schedule, newest word first: word [i] comes from the one before it and the eighth
    before it. *)
Fixpoint expand (n : nat) (i rcon : Z) (w : list (list Z)) : list (list Z) :=
  match n with
  | O => w
  | S n =>
      let t := nth 0 w [] in
      let '(t, rcon) :=
        if i mod 8 =? 0 then (zip_with Z.lxor (sub_word (rot_word t)) [rcon; 0; 0; 0], xtime rcon)
        else if i mod 8 =? 4 then (sub_word t, rcon)
        else (t, rcon) in
      expand n (i + 1) rcon (zip_with Z.lxor (nth 7 w []) t :: w)
  end.

Definition round_keys (key : list Z) : list (list Z) :=
  blocks 16 15 (concat (rev (expand 52 8 1 (rev (blocks 4 8 key))))).

Definition add_round_key (s k : list Z) : list Z := tab 16 (fun i => Z.lxor (at_ s i) (at_ k i)).

(** Bytes are numbered by columns. *)
Definition shift_rows (s : list Z) : list Z := tab 16 (fun i => at_ s (i mod 4 + 4 * ((i / 4 + i) mod 4))).

Definition mix_columns (s : list Z) : list Z :=
  tab 16 (fun i =>
    let b k := at_ s (4 * (i / 4) + (i + k) mod 4) in
    Z.lxor (xtime (b 0)) (Z.lxor (Z.lxor (xtime (b 1)) (b 1)) (Z.lxor (b 2) (b 3)))).

Definition aes_round (s k : list Z) : list Z := add_round_key (mix_columns (shift_rows (sub_word s))) k.

Definition encrypt (ks : list (list Z)) (p : list Z) : list Z :=
  let s := foldl aes_round (add_round_key p (nth 0 ks [])) (take 13 (drop 1 ks)) in
  add_round_key (shift_rows (sub_word s)) (nth 14 ks []).

End AES.

(** * GCM *)

Module GCM.

(** The product in [GF(2^128)]: bit 127 is the coefficient of [x^0]. *)
Fixpoint ghash_mul (n : nat) (x z v : Z) : Z :=
  match n with
  | O => z
  | S n =>
      ghash_mul n x (if Z.testbit x (Z.of_nat n) then Z.lxor z v else z)
        (if Z.testbit v 0 then Z.lxor (Z.shiftr v 1) (Z.shiftl 0xe1 120) else Z.shiftr v 1)
  end.

Definition pad16 (p : list Z) : list Z := p ++ replicate ((16 - length p mod 16) mod 16) 0.

Definition ghash (h : Z) (p : list Z) : Z :=
  foldl (fun y b => ghash_mul 128 (Z.lxor y (be_val b)) 0 h) 0 (blocks 16 (length p / 16) p).

(** The counter block of a 12-byte nonce. *)
Definition counter (nonce : list Z) (i : Z) : list Z := nonce ++ be_put 4 (u32 i).

Definition keystream (key nonce : list Z) (n : nat) : list Z :=
  let ks := AES.round_keys key in
  concat (map (fun i => AES.encrypt ks (counter nonce (i + 2))) (seqZ 0 (Z.of_nat (nblocks 16 n)))).

Definition mac (key nonce ad c : list Z) : list Z :=
  let ks := AES.round_keys key in
  let h := be_val (AES.encrypt ks (replicate 16 0)) in
  let s := ghash h (pad16 ad ++ pad16 c ++ be_put 8 (u64 (8 * len ad)) ++ be_put 8 (u64 (8 * len c))) in
  be_put 16 (Z.lxor s (be_val (AES.encrypt ks (counter nonce 1)))).

End GCM.

(** * ChaCha20-Poly1305 *)

Module ChaCha.

Definition mask : Z := 0xffffffff.

Definition rotl (n x : Z) : Z := Z.lor (Z.land (Z.shiftl x n) mask) (Z.shiftr x (32 - n)).

Definition put (i : Z) (v : Z) (s : list Z) : list Z := <[Z.to_nat i := v]> s.

(** [a += b; d ^= a; d <<<= n]. *)
Definition add_xor_rot (n a b d : Z) (s : list Z) : list Z :=
  let s := put a (Z.land (at_ s a + at_ s b) mask) s in
  put d (rotl n (Z.lxor (at_ s d) (at_ s a))) s.

Definition quarter_round (s : list Z) (q : Z * Z * Z * Z) : list Z :=
  let '(a, b, c, d) := q in
  add_xor_rot 7 c d b (add_xor_rot 8 a b d (add_xor_rot 12 c d b (add_xor_rot 16 a b d s))).

Definition double_round (s : list Z) : list Z :=
  foldl quarter_round s
    [(0, 4, 8, 12); (1, 5, 9, 13); (2, 6, 10, 14); (3, 7, 11, 15);
     (0, 5, 10, 15); (1, 6, 11, 12); (2, 7, 8, 13); (3, 4, 9, 14)].

Definition words (n : nat) (p : list Z) : list Z := map le_val (blocks 4 n p).

Definition chacha_block (key nonce : list Z) (i : Z) : list Z :=
  let s := [0x61707865; 0x3320646e; 0x79622d32; 0x6b206574] ++ words 8 key ++ [u32 i] ++ words 3 nonce in
  let s' := Nat.iter 10 double_round s in
  concat (tab 16 (fun i => le_put 4 (u32 (at_ s i + at_ s' i)))).

Definition keystream (key nonce : list Z) (n : nat) : list Z :=
  concat (map (fun i => chacha_block key nonce (i + 1)) (seqZ 0 (Z.of_nat (nblocks 64 n)))).

Definition poly1305 (key p : list Z) : list Z :=
  let r := Z.land (le_val (take 16 key)) 0x0ffffffc0ffffffc0ffffffc0fffffff in
  let s := le_val (take 16 (drop 16 key)) in
  let step a b := (a + le_val b + 2 ^ (8 * len b)) * r mod (2 ^ 130 - 5) in
  le_put 16 (foldl step 0 (blocks 16 (nblocks 16 (length p)) p) + s).

Definition mac (key nonce ad c : list Z) : list Z :=
  poly1305 (take 32 (chacha_block key nonce 0))
    (GCM.pad16 ad ++ GCM.pad16 c ++ le_put 8 (len ad) ++ le_put 8 (len c)).

End ChaCha.

(** * A stream cipher and a MAC over the ciphertext *)

Section EncryptThenMac.
Context (keystream : list Z -> list Z -> nat -> list Z) (mac : list Z -> list Z -> list Z -> list Z -> list Z).

Definition xor_stream (key nonce p : list Z) : list Z := zip_with Z.lxor p (keystream key nonce (length p)).

Definition etm_seal (key nonce p ad : list Z) : list Z :=
  let c := xor_stream key nonce p in c ++ mac key nonce ad c.

Definition etm_open (key nonce c ad : list Z) : option (list Z) :=
  let n := (length c - 16)%nat in
  if (length c <? 16)%nat then None
  else if bool_decide (drop n c = mac key nonce ad (take n c)) then Some (xor_stream key nonce (take n c))
  else None.

Hypothesis keystream_long : forall k n l, (l <= length (keystream k n l))%nat.
Hypothesis mac_len : forall k n a c, length (mac k n a c) = 16%nat.

Lemma length_xor_stream k n p : length (xor_stream k n p) = length p.
Proof. unfold xor_stream. rw length_zip_with. pose proof (keystream_long k n (length p)). lia. Qed.

Lemma zip_with_lxor_twice (p ks : list Z) : (length p <= length ks)%nat ->
  zip_with Z.lxor (zip_with Z.lxor p ks) ks = p.
Proof.
  revert ks. induction p as [|x p IH]; intros [|k ks] H; cbn in *; [done..|lia|].
  by rw Z.lxor_assoc Z.lxor_nilpotent Z.lxor_0_r IH; [lia|].
Qed.

Lemma xor_stream_twice k n p : xor_stream k n (xor_stream k n p) = p.
Proof. unfold xor_stream at 1. rw length_xor_stream. apply zip_with_lxor_twice, keystream_long. Qed.

Lemma etm_seal_len k n p a : len (etm_seal k n p a) = len p + 16.
Proof. unfold etm_seal, len. rw length_app mac_len length_xor_stream. lia. Qed.

Lemma etm_open_seal k n p a : etm_open k n (etm_seal k n p a) a = Some p.
Proof.
  pose proof (etm_seal_len k n p a) as H. unfold len in H. unfold etm_open.
  destruct (Nat.ltb_spec (length (etm_seal k n p a)) 16) as [|_]; [lia|].
  replace (length (etm_seal k n p a) - 16)%nat with (length (xor_stream k n p)) by (rw length_xor_stream; lia).
  unfold etm_seal. rw drop_app_length take_app_length bool_decide_true; [done|].
  by rw xor_stream_twice.
Qed.

Lemma etm_open_only k n c a p : etm_open k n c a = Some p -> c = etm_seal k n p a.
Proof.
  unfold etm_open. destruct (Nat.ltb_spec (length c) 16) as [|H]; [done|].
  destruct (bool_decide_reflect (drop (length c - 16) c = mac k n a (take (length c - 16) c))) as [E|]; [|done].
  intros [= <-]. unfold etm_seal. by rw xor_stream_twice -E take_drop.
Qed.

End EncryptThenMac.

(** * The instance *)

(** A suite other than ChaCha20-Poly1305 is AES-256-GCM: [NewAEAD] makes no other. *)
Definition standard : Primitives := {|
  shake256 := Keccak.shake256;
  sha3_256 := Keccak.sha3_256;
  aead_seal cs := if cs =? CipherSuiteChaCha20Poly1305 then etm_seal ChaCha.keystream ChaCha.mac
                  else etm_seal GCM.keystream GCM.mac;
  aead_open cs := if cs =? CipherSuiteChaCha20Poly1305 then etm_open ChaCha.keystream ChaCha.mac
                  else etm_open GCM.keystream GCM.mac |}.

Lemma length_le_put n z : length (le_put n z) = n.
Proof. revert z. induction n as [|n IH]; intros z; cbn; [done|]. by rw IH. Qed.

Lemma length_tab {A} n (f : Z -> A) : length (tab n f) = n.
Proof. unfold tab. rw length_map length_seqZ. lia. Qed.

Lemma length_concat_map {A} (f : A -> list Z) k l : (forall x, length (f x) = k) ->
  length (concat (map f l)) = (k * length l)%nat.
Proof.
  intros H. induction l as [|x l IH]; cbn [map concat length]; [lia|]. rw length_app H IH. lia.
Qed.

Lemma nblocks_enough k n : (0 < k)%nat -> (n <= k * nblocks k n)%nat.
Proof.
  intros Hk. unfold nblocks. pose proof (Nat.div_mod (n + k - 1) k ltac:(lia)) as E.
  pose proof (Nat.mod_upper_bound (n + k - 1) k ltac:(lia)). lia.
Qed.

Lemma length_squeeze n a : length (Keccak.squeeze n a) = (136 * n)%nat.
Proof.
  revert a. induction n as [|n IH]; intros a; [done|]. cbn [Keccak.squeeze].
  rw length_app IH (length_concat_map _ 8); [intros x; apply length_le_put|]. rw length_seqZ. lia.
Qed.

Lemma sponge_len s p n : 0 <= n -> len (Keccak.sponge s p n) = n.
Proof.
  intros H. unfold Keccak.sponge, len. rw length_take length_squeeze.
  pose proof (nblocks_enough Keccak.rate (Z.to_nat n) ltac:(unfold Keccak.rate; lia)).
  unfold Keccak.rate in *. lia.
Qed.

Lemma stream_long (block : Z -> list Z) k n : (0 < k)%nat -> (forall i, length (block i) = k) ->
  (n <= length (concat (map block (seqZ 0 (Z.of_nat (nblocks k n))))))%nat.
Proof.
  intros Hk H. rw (length_concat_map _ k); [done|]. rw length_seqZ Nat2Z.id. by apply nblocks_enough.
Qed.

Lemma GCM_keystream_long k n l : (l <= length (GCM.keystream k n l))%nat.
Proof. apply (stream_long _ 16); [lia|]. intros i. apply length_tab. Qed.

Lemma ChaCha_keystream_long k n l : (l <= length (ChaCha.keystream k n l))%nat.
Proof.
  apply (stream_long _ 64); [lia|]. intros i. unfold ChaCha.chacha_block, tab.
  rw (length_concat_map _ 4); [intros x; apply length_le_put|]. by rw length_seqZ.
Qed.

Lemma GCM_mac_len k n a c : length (GCM.mac k n a c) = 16%nat.
Proof. apply length_be_put. Qed.

Lemma ChaCha_mac_len k n a c : length (ChaCha.mac k n a c) = 16%nat.
Proof. apply length_le_put. Qed.

#[export] Instance standard_laws : PrimitivesLaws standard.
Proof.
  split; cbn [standard shake256 sha3_256 aead_seal aead_open].
  - intros x n. apply sponge_len.
  - intros x. by apply sponge_len.
  - intros cs k n p a. case_match; eauto using etm_seal_len, GCM_keystream_long, ChaCha_keystream_long,
      GCM_mac_len, ChaCha_mac_len.
  - intros cs k n p a. case_match; eauto using etm_open_seal, GCM_keystream_long, ChaCha_keystream_long,
      GCM_mac_len, ChaCha_mac_len.
  - intros cs k n c a p. case_match; eauto using etm_open_only, GCM_keystream_long, ChaCha_keystream_long.
Qed.

(** ** Published vectors *)

(** FIPS 202: the empty message. *)
Example shake256_empty :
  be_val (Keccak.shake256 [] 32) = 0x46b9dd2b0ba88d13233b3feb743eeb243fcd52ea62b81b82b50c27646ed5762f.
Proof. by vm_compute. Qed.

Example sha3_256_empty :
  be_val (Keccak.sha3_256 []) = 0xa7ffc6f8bf1ed76651c14756a061d662f580ff4de43b49fa82d80a4b80f8434a.
Proof. by vm_compute. Qed.

(** FIPS 197, C.3. *)
Example aes256_fips197 :
  be_val (AES.encrypt (AES.round_keys (seqZ 0 32)) (map (fun i => 17 * i) (seqZ 0 16)))
  = 0x8ea2b7ca516745bfeafc49904b496089.
Proof. by vm_compute. Qed.

(** RFC 8439, 2.3.2: the first bytes of the block. *)
Example chacha20_block_rfc8439 :
  be_val (take 16 (ChaCha.chacha_block (seqZ 0 32) [0; 0; 0; 9; 0; 0; 0; 0x4a; 0; 0; 0; 0] 1))
  = 0x10f1e7e4d13b5915500fdd1fa32071c4.
Proof. by vm_compute. Qed.

(** RFC 8439, 2.5.2: the tag of [Cryptographic Forum Research Group]. *)
Example poly1305_rfc8439 :
  be_val (ChaCha.poly1305
    (be_put 32 0x85d6be7857556d337f4452fe42d506a80103808afb0db2fd4abff6af4149f51b)
    (be_put 34 0x43727970746f6772617068696320466f72756d2052657365617263682047726f7570))
  = 0xa8061dc1305136c6c22b8baf0c0127a9.
Proof. by vm_compute. Qed.
