(* ===== verification/SelfTest.v ===== *)
(** Self tests: the power-on tests of [pkg/crypto/post.go] and the conditional tests of
    [pkg/crypto/cst.go].

    The build mode [FIPSMode()] is an argument and random draws are explicit, as in [Chkem]; a key
    pair is its public and its private half.  The package variables a test reads or writes are its
    state.  An error made by [fmt.Errorf] is its message without the text of the error it wraps;
    a [CSTResult] is [Ok] when it passed and otherwise the error it holds, and a power-on failure
    is the label of its test with the error. *)

From Corelib Require Import ssreflect.
From stdpp Require Import base tactics list numbers strings sorting.
From Stdlib Require Import ZArith Lia.
From S2P Require Import Prelude Base Crypto Chkem Handshake Sha256 Encoding.

Local Open Scope Z_scope.
Local Open Scope go_scope.

(** * Power-on self tests *)

(** [x, _ := hex.DecodeString(s)] of a constant. *)
Definition unhex (s : string) : list Z := default [] (DecodeString s).

Definition postKATKDFInput : list Z := unhex "0123456789abcdef0123456789abcdef0123456789abcdef0123456789abcdef".
Definition postKATKDFExpected : list Z := unhex "f6cd6267523cd5717f431170c2501816d6b1439b1fe8f084cd028e892cff9b6a".
Definition postKATAESKey : list Z := unhex "0123456789abcdef0123456789abcdef0123456789abcdef0123456789abcdef".
Definition postKATAESNonce : list Z := unhex "000000000000000000000000".
Definition postKATAESPlaintext : list Z := unhex "504f53542d4b41542d54455354".
Definition postKATAESExpected : list Z := unhex "5a48b3005aeb1b0a8cd6767b8cded311eb6185c16343d286e3541e9d98".
Definition postKATMLKEMSeed : list Z :=
  unhex ("0123456789abcdef0123456789abcdef0123456789abcdef0123456789abcdef" +:+
         "fedcba9876543210fedcba9876543210fedcba9876543210fedcba9876543210").
Definition POSTDomain : list Z := string_to_bytes "POST-KAT-TEST".

(** [fmt.Errorf("msg: %w", err)] around a failing call. *)
Definition fmt_err {A} (msg : string) (o : outcome error A) : outcome error A :=
  match o with
  | Err _ => Err (ErrExternal msg)
  | o => o
  end.

Section KAT.
Context {P : Primitives} {K : KEMPrimitives}.

Definition runKDFKAT : outcome error unit :=
  let! output := fmt_err "DeriveKey failed" (DeriveKey POSTDomain postKATKDFInput 32) in
  guard! bool_decide (output = postKATKDFExpected) else ErrExternal "KDF output mismatch" in
  Ok tt.

Definition runAESGCMKAT : outcome error unit :=
  let ciphertext := aead_seal CipherSuiteAES256GCM postKATAESKey postKATAESNonce postKATAESPlaintext [] in
  guard! bool_decide (ciphertext = postKATAESExpected) else ErrExternal "AES-GCM encrypt mismatch" in
  match aead_open CipherSuiteAES256GCM postKATAESKey postKATAESNonce ciphertext [] with
  | None => Err (ErrExternal "AES-GCM decrypt failed")
  | Some plaintext =>
      guard! bool_decide (plaintext = postKATAESPlaintext) else ErrExternal "AES-GCM decrypt mismatch" in
      Ok tt
  end.

Definition runMLKEMKAT (rnd : Draws) : outcome error unit :=
  let! '(pub, priv) := fmt_err "NewMLKEMKeyPairFromSeed failed" (NewMLKEMKeyPairFromSeed postKATMLKEMSeed) in
  guard! len pub =? 1568 else ErrExternal "public key size mismatch" in
  let! '(ciphertext, sharedSecret1) := fmt_err "MLKEMEncapsulate failed" (MLKEMEncapsulate rnd 0 pub) in
  guard! len ciphertext =? 1568 else ErrExternal "ciphertext size mismatch" in
  guard! len sharedSecret1 =? 32 else ErrExternal "shared secret size mismatch" in
  let! sharedSecret2 := fmt_err "MLKEMDecapsulate failed" (MLKEMDecapsulate priv ciphertext) in
  guard! bool_decide (sharedSecret1 = sharedSecret2) else ErrExternal "shared secret mismatch after decapsulation" in
  Ok tt.
End KAT.

Record POSTResult := mkPOSTResult {
  Passed : bool;
  KDFPassed : bool;
  AESPassed : bool;
  MLKEMPassed : bool;
  Errors : list (string * error) }.

(** [check] of [evaluatePOST]: whether a test passed, and the errors so far. *)
Definition post_check (name : string) (run : outcome error unit) (errs : list (string * error))
    : outcome error (bool * list (string * error)) :=
  match run with
  | Ok _ => Ok (true, errs)
  | Err e => Ok (false, errs ++ [(name, e)])
  | Panic => Panic
  end.

Definition evaluatePOST (kdf aes mlkem : outcome error unit) : outcome error POSTResult :=
  let! '(k, errs) := post_check "KDF" kdf [] in
  let! '(a, errs) := post_check "AES-GCM" aes errs in
  let! '(m, errs) := post_check "ML-KEM" mlkem errs in
  Ok (mkPOSTResult (k && a && m) k a m errs).

Definition enforcePOST (fips : bool) (r : POSTResult) : outcome error unit :=
  if fips && negb (Passed r) then Panic else Ok tt.

(** [postResult], [postRan], and whether [postResultOnce] has been entered: it counts as done even
    when its function panicked. *)
Record POSTState := mkPOSTState { postResult : option POSTResult; postRan : bool; postResultOnce : bool }.

Definition no_post : POSTState := mkPOSTState None false false.

Definition RunPOST (fips : bool) (kdf aes mlkem : outcome error unit) : ST POSTState error (option POSTResult) :=
  do! st := st_get in
  if postResultOnce st then st_ret (postResult st)
  else
    do! _ := st_mod (fun st => mkPOSTState (postResult st) (postRan st) true) in
    do! r := st_lift (evaluatePOST kdf aes mlkem) in
    do! _ := st_mod (fun _ => mkPOSTState (Some r) true true) in
    do! _ := st_lift (enforcePOST fips r) in
    st_ret (Some r).

Definition POSTRan (st : POSTState) : bool := postRan st.

Definition POSTPassed (st : POSTState) : bool :=
  match postResult st with Some r => Passed r | None => false end.

(** [init] of the package. *)
Definition crypto_init {P : Primitives} {K : KEMPrimitives} (fips : bool) (rnd : Draws)
    : POSTState * outcome error (option POSTResult) :=
  RunPOST fips runKDFKAT runAESGCMKAT (runMLKEMKAT rnd) no_post.

(** * Module integrity *)

Record ModuleIntegrity := mkModuleIntegrity {
  ExpectedHash : string;
  ActualHash : string;
  Verified : bool }.

Definition CheckModuleIntegrity : ModuleIntegrity :=
  let h := postKATKDFInput ++ postKATKDFExpected ++ postKATAESKey ++ postKATAESNonce ++ postKATAESPlaintext
             ++ postKATAESExpected ++ postKATMLKEMSeed in
  let actualHash := EncodeToString (sha256 h) in
  let expectedHash := "0aa6a0d630f79affdeb0850b02bf827416cb43bfd04a1bb1be7e2241c1ad1868" in
  mkModuleIntegrity expectedHash actualHash (bool_decide (actualHash = expectedHash)).

(** * Conditional self tests *)

Record CSTConfig := mkCSTConfig {
  EnablePairwiseTest : bool;
  EnableRNGHealthCheck : bool;
  RNGHealthCheckInterval : Z }.

Definition DefaultCSTConfig (fips : bool) : CSTConfig := mkCSTConfig fips fips 1000.

(** [cstConfig] once it is set, [rngCallCount], [lastRNGOutput]. *)
Record CSTState := mkCSTState {
  cstConfig : option CSTConfig;
  rngCallCount : Z;
  lastRNGOutput : option (list Z) }.

#[export] Instance CSTState_eta : Eta CSTState := {| eta := fun s =>
  mkCSTState (cstConfig s) (rngCallCount s) (lastRNGOutput s) |}.

Definition InitCST (config : CSTConfig) : ST CSTState error unit :=
  st_mod (fun s => match cstConfig s with Some _ => s | None => s <| cstConfig := Some config |> end).

Definition getConfig (fips : bool) : ST CSTState error CSTConfig := fun s =>
  match cstConfig s with
  | Some c => (s, Ok c)
  | None => (s <| cstConfig := Some (DefaultCSTConfig fips) |>, Ok (DefaultCSTConfig fips))
  end.

Definition all_zero (l : list Z) : bool := forallb (fun b => b =? 0) l.

Arguments all_zero : simpl never.

Section CST.
Context {K : KEMPrimitives}.

(** The halves of a key pair, public first; the pair and each half are pointers. *)
Abbreviation key_pair := (option (option (list Z) * option (list Z))) (only parsing).

Definition PairwiseConsistencyTestX25519 (rnd : Draws) (i : nat) (kp : key_pair) : outcome error unit :=
  match kp with
  | Some (Some pub, Some priv) =>
      let! '(tpub, tpriv) := fmt_err "failed to generate test key pair" (GenerateX25519KeyPair rnd i) in
      let! secret1 := fmt_err "DH operation 1 failed" (X25519 priv tpub) in
      let! secret2 := fmt_err "DH operation 2 failed" (X25519 tpriv pub) in
      guard! ConstantTimeCompare secret1 secret2 else ErrExternal "shared secrets do not match" in
      guard! negb (all_zero secret1) else ErrExternal "shared secret is all zeros" in
      Ok tt
  | _ => Err (ErrExternal "invalid key pair")
  end.

Definition PairwiseConsistencyTestMLKEM (rnd : Draws) (i : nat) (kp : key_pair) : outcome error unit :=
  match kp with
  | Some (Some pub, Some priv) =>
      let! '(ciphertext, sharedSecret1) := fmt_err "encapsulation failed" (MLKEMEncapsulate rnd i pub) in
      let! sharedSecret2 := fmt_err "decapsulation failed" (MLKEMDecapsulate priv ciphertext) in
      guard! ConstantTimeCompare sharedSecret1 sharedSecret2 else ErrExternal "shared secrets do not match" in
      guard! negb (all_zero sharedSecret1) else ErrExternal "shared secret is all zeros" in
      Ok tt
  | _ => Err (ErrExternal "invalid key pair")
  end.

(** The pair a generator returns. *)
Definition generated (kp : list Z * list Z) : key_pair := Some (Some kp.1, Some kp.2).

(** A failed test is an error, and a panic in FIPS mode. *)
Definition enforce (fips : bool) (result : outcome error unit) : outcome error unit :=
  match result with
  | Err e => if fips then Panic else Err e
  | r => r
  end.

Definition runPairwiseTestX25519 (fips : bool) (rnd : Draws) (i : nat) (kp : list Z * list Z) : ST CSTState error unit :=
  do! config := getConfig fips in
  if negb (EnablePairwiseTest config) then st_ret tt
  else st_lift (enforce fips (PairwiseConsistencyTestX25519 rnd i (generated kp))).

Definition runPairwiseTestMLKEM (fips : bool) (rnd : Draws) (i : nat) (kp : list Z * list Z) : ST CSTState error unit :=
  do! config := getConfig fips in
  if negb (EnablePairwiseTest config) then st_ret tt
  else st_lift (enforce fips (PairwiseConsistencyTestMLKEM rnd i (generated kp))).

Definition GenerateX25519KeyPairWithCST (fips : bool) (rnd : Draws) : ST CSTState error (list Z * list Z) := fun s =>
  match GenerateX25519KeyPair rnd 0 with
  | Ok kp =>
      match runPairwiseTestX25519 fips rnd 1 kp s with
      | (s, o) => (s, fmt_err "pairwise consistency test failed" (let! _ := o in Ok kp))
      end
  | o => (s, o)
  end.

Definition GenerateMLKEMKeyPairWithCST (fips : bool) (rnd : Draws) : ST CSTState error (list Z * list Z) := fun s =>
  match GenerateMLKEMKeyPair rnd 0 with
  | Ok kp =>
      match runPairwiseTestMLKEM fips rnd 1 kp s with
      | (s, o) => (s, fmt_err "pairwise consistency test failed" (let! _ := o in Ok kp))
      end
  | o => (s, o)
  end.
End CST.

(** Whether all bytes of a sample are its first. *)
Definition all_same (l : list Z) : bool := forallb (fun b => b =? default 0 (head l)) l.

Definition RNGHealthCheck (rnd : Draws) (i : nat) : outcome error unit :=
  let! sample1 := fmt_err "RNG read 1 failed" (SecureRandomBytes rnd i 32) in
  let! sample2 := fmt_err "RNG read 2 failed" (SecureRandomBytes rnd (S i) 32) in
  guard! negb (all_zero sample1) else ErrExternal "RNG produced all-zero sample 1" in
  guard! negb (all_zero sample2) else ErrExternal "RNG produced all-zero sample 2" in
  guard! negb (bool_decide (sample1 = sample2)) else ErrExternal "RNG produced identical consecutive samples" in
  guard! negb (all_same sample1) else ErrExternal "RNG sample 1 has no variation" in
  guard! negb (all_same sample2) else ErrExternal "RNG sample 2 has no variation" in
  Ok tt.

Definition ContinuousRNGTest (output : list Z) : ST CSTState error unit := fun s =>
  match lastRNGOutput s with
  | None => (s <| lastRNGOutput := Some output |>, Ok tt)
  | Some last =>
      if bool_decide (output = last) then (s, Err (ErrExternal "RNG produced repeated output"))
      else (s <| lastRNGOutput := Some output |>, Ok tt)
  end.

(** [count % config.RNGHealthCheckInterval] panics on a zero interval. *)
Definition runRNGHealthCheck (fips : bool) (rnd : Draws) (i : nat) : ST CSTState error unit :=
  do! config := getConfig fips in
  if negb (EnableRNGHealthCheck config) then st_ret tt
  else
    do! _ := st_mod (fun s => s <| rngCallCount := u64_add (rngCallCount s) 1 |>) in
    do! s := st_get in
    if RNGHealthCheckInterval config =? 0 then st_lift Panic
    else if rngCallCount s mod RNGHealthCheckInterval config =? 0 then st_lift (enforce fips (RNGHealthCheck rnd i))
    else st_ret tt.

(** The bytes read into a buffer of [n]; the caller's draws are [0] for itself and [1], [2] for a
    health check. *)
Definition SecureRandomWithCST (fips : bool) (rnd : Draws) (n : Z) : ST CSTState error (list Z) :=
  do! b := st_lift (SecureRandomBytes rnd 0 n) in
  do! _ := (if fips then fun s => let '(s, o) := ContinuousRNGTest b s in (s, enforce true o) else st_ret tt) in
  do! _ := runRNGHealthCheck fips rnd 1 in
  st_ret b.

Definition CSTEnabled (fips : bool) : ST CSTState error bool :=
  do! config := getConfig fips in
  st_ret (EnablePairwiseTest config || EnableRNGHealthCheck config).

(** * The power-on tests *)

Definition passes (o : outcome error unit) : bool := match o with Ok _ => true | _ => false end.

(** The labels of the tests that fail, in order. *)
Definition failing_tests (tests : list (string * outcome error unit)) : list string :=
  map fst (List.filter (fun t => negb (passes t.2)) tests).

Lemma evaluatePOST_spec kdf aes mlkem : kdf <> Panic -> aes <> Panic -> mlkem <> Panic ->
  exists errs, map fst errs = failing_tests [("KDF", kdf); ("AES-GCM", aes); ("ML-KEM", mlkem)]
    /\ evaluatePOST kdf aes mlkem = Ok (mkPOSTResult (passes kdf && passes aes && passes mlkem)
         (passes kdf) (passes aes) (passes mlkem) errs).
Proof.
  destruct kdf, aes, mlkem; intros; try done; eexists; (split; [|reflexivity]); reflexivity.
Qed.

(** The power-on tests decide whether the module starts.  Whatever the three known-answer tests
    return, [RunPOST] records that it ran, that it passed exactly when all three did and which
    failed, in order; it panics exactly when a test failed in FIPS mode, and otherwise hands the
    record out; no later call runs a test or changes the record. *)
Theorem post_gate fips kdf aes mlkem : kdf <> Panic -> aes <> Panic -> mlkem <> Panic ->
  let all := passes kdf && passes aes && passes mlkem in
  let '(st, o) := RunPOST fips kdf aes mlkem no_post in
  POSTRan st = true /\ POSTPassed st = all
  /\ (exists r, postResult st = Some r
       /\ map fst (Errors r) = failing_tests [("KDF", kdf); ("AES-GCM", aes); ("ML-KEM", mlkem)]
       /\ o = if fips && negb all then Panic else Ok (Some r))
  /\ (forall k a m, RunPOST fips k a m st = (st, Ok (postResult st))).
Proof.
  intros Hk Ha Hm all. destruct (evaluatePOST_spec _ _ _ Hk Ha Hm) as (errs & Herrs & E).
  unfold RunPOST. rw st_bind_get. cbn [postResultOnce no_post]. rw st_bind_mod (st_bind_lift _ _ _ _ E) st_bind_mod.
  unfold enforcePOST. cbn [Passed]. fold all.
  destruct (fips && negb all); cbn; split_and!; try done; eexists; split_and!; done.
Qed.

Lemma post_gate_witness :
  let '(st, o) := RunPOST true (Ok tt) (Err (ErrExternal "AES-GCM decrypt failed")) (Ok tt) no_post in
  o = Panic /\ POSTPassed st = false.
Proof.
  pose proof (post_gate true (Ok tt) (Err (ErrExternal "AES-GCM decrypt failed")) (Ok tt) ltac:(done) ltac:(done)
    ltac:(done)) as H.
  cbn in H. destruct H as (_ & H & (r & _ & _ & Ho) & _). by split.
Defined.

(** The pinned hash of [CheckModuleIntegrity] is the hash of the vectors. *)
Lemma module_integrity : Verified CheckModuleIntegrity = true.
Proof. vm_compute. reflexivity. Qed.

(** * Random bytes in FIPS mode *)

(** A sequence of calls, each with its draws and its buffer's length; the first failure ends it. *)
Fixpoint random_run (fips : bool) (calls : list (Draws * Z)) : ST CSTState error (list (list Z)) :=
  match calls with
  | [] => st_ret []
  | (rnd, n) :: r =>
      do! b := SecureRandomWithCST fips rnd n in
      do! bs := random_run fips r in
      st_ret (b :: bs)
  end.

Definition fresh_cst : CSTState := mkCSTState None 0 None.

(** No test was configured before the first call, or the defaults were taken. *)
Definition defaults_taken (s : CSTState) : Prop :=
  cstConfig s = None \/ cstConfig s = Some (DefaultCSTConfig true).

Definition after_read (s : CSTState) (b : list Z) : CSTState :=
  mkCSTState (Some (DefaultCSTConfig true)) (u64_add (rngCallCount s) 1) (Some b).

Definition read_tested (s : CSTState) (rnd : Draws) (n : Z) (b : list Z) : Prop :=
  rnd 0%nat = Some b /\ len b = n /\ lastRNGOutput s <> Some b
  /\ (u64_add (rngCallCount s) 1 mod 1000 = 0 -> RNGHealthCheck rnd 1 = Ok tt).

Lemma SecureRandomBytes_Ok rnd i n b : SecureRandomBytes rnd i n = Ok b <-> rnd i = Some b /\ len b = n.
Proof.
  unfold SecureRandomBytes, read_random. destruct (rnd i) as [x|]; cbn; [|by split; [|intros [[=] _]]].
  destruct (Z.eqb_spec (len x) n) as [E|E]; cbn.
  - split; [by intros [= ->]|by intros [[= ->] _]].
  - split; [done|by intros [[= ->] Hn]].
Qed.

Lemma enforce_Ok fips o : enforce fips o = Ok tt <-> o = Ok tt.
Proof. destruct fips, o as [[]| |]; done. Qed.

Lemma runRNGHealthCheck_fips s rnd i s' : defaults_taken s ->
  runRNGHealthCheck true rnd i s = (s', Ok tt) <->
  s' = mkCSTState (Some (DefaultCSTConfig true)) (u64_add (rngCallCount s) 1) (lastRNGOutput s)
  /\ (u64_add (rngCallCount s) 1 mod 1000 = 0 -> RNGHealthCheck rnd i = Ok tt).
Proof.
  intros Hc. destruct s as [c k l].
  assert (E : getConfig true (mkCSTState c k l) =
    (mkCSTState (Some (DefaultCSTConfig true)) k l, Ok (DefaultCSTConfig true))).
  { unfold defaults_taken in Hc. cbn in Hc. by destruct Hc as [-> | ->]. }
  unfold runRNGHealthCheck. rw (st_bind_ok _ _ _ _ _ E).
  cbn [DefaultCSTConfig EnableRNGHealthCheck RNGHealthCheckInterval negb].
  rw st_bind_mod st_bind_get. cbn -[Z.modulo enforce RNGHealthCheck u64_add st_lift st_ret].
  destruct (Z.eqb_spec (u64_add k 1 mod 1000) 0) as [H|H]; unfold st_lift, st_ret.
  - pose proof (enforce_Ok true (RNGHealthCheck rnd i)). split.
    + intros [= <- Ho]. tauto.
    + intros [-> Ho]. f_equal. tauto.
  - split; [intros [= <-]; tauto|intros [-> _]; done].
Qed.

Lemma SecureRandomWithCST_fips s rnd n b s' : defaults_taken s ->
  SecureRandomWithCST true rnd n s = (s', Ok b) <-> s' = after_read s b /\ read_tested s rnd n b.
Proof.
  intros Hc. unfold SecureRandomWithCST, read_tested. split.
  - intros H. apply st_bind_inv in H as (s1 & x & H1 & H). apply st_lift_inv in H1 as [-> H1].
    apply SecureRandomBytes_Ok in H1 as [Hr Hl]. apply st_bind_inv in H as (s2 & [] & H2 & H).
    apply st_bind_inv in H as (s3 & [] & H3 & H). injection H as <- <-.
    unfold ContinuousRNGTest in H2.
    assert (lastRNGOutput s <> Some x /\ s2 = s <| lastRNGOutput := Some x |>) as [Hd ->].
    { destruct (lastRNGOutput s) as [y|]; [destruct (bool_decide_reflect (x = y))|]; cbn in H2; naive_solver. }
    apply runRNGHealthCheck_fips in H3 as [-> H3]; [|done]. by split_and!.
  - intros (-> & Hr & Hl & Hd & Hh).
    assert (E : SecureRandomBytes rnd 0 n = Ok b) by by apply SecureRandomBytes_Ok.
    rw (st_bind_lift _ _ _ _ E).
    assert (E2 : (let '(s0, o) := ContinuousRNGTest b s in (s0, enforce true o)) = (s <| lastRNGOutput := Some b |>, Ok tt)).
    { unfold ContinuousRNGTest. destruct (lastRNGOutput s) as [y|]; [|done].
      by rw bool_decide_false; [intros ->|]. }
    rw (st_bind_ok _ _ _ _ _ E2).
    assert (E3 : runRNGHealthCheck true rnd 1 (s <| lastRNGOutput := Some b |>) = (after_read s b, Ok tt)).
    { by apply runRNGHealthCheck_fips. }
    by rw (st_bind_ok _ _ _ _ _ E3).
Qed.

Lemma random_run_cons rnd n calls s outs : defaults_taken s ->
  (exists s', random_run true ((rnd, n) :: calls) s = (s', Ok outs)) <->
  exists b bs, outs = b :: bs /\ read_tested s rnd n b
    /\ exists s', random_run true calls (after_read s b) = (s', Ok bs).
Proof.
  intros Hc. cbn [random_run]. split.
  - intros (s' & H). apply st_bind_inv in H as (s1 & b & H1 & H). apply st_bind_inv in H as (s2 & bs & H2 & H).
    injection H as <- <-. apply SecureRandomWithCST_fips in H1 as [-> H1]; [|done]. eauto 10.
  - intros (b & bs & -> & Hb & s' & H). exists s'.
    assert (E : SecureRandomWithCST true rnd n s = (after_read s b, Ok b)) by by apply SecureRandomWithCST_fips.
    by rw (st_bind_ok _ _ _ _ _ E) (st_bind_ok _ _ _ _ _ H).
Qed.

Abbreviation adjacent_differ := (Sorted (fun x y => x <> y)) (only parsing).

Lemma adjacent_differ_cons (last : option (list Z)) b bs :
  adjacent_differ (option_list last ++ b :: bs) <-> last <> Some b /\ adjacent_differ (b :: bs).
Proof.
  destruct last as [y|]; cbn; [|by split; [|intros [_ H]]]. split.
  - intros H. apply Sorted_inv in H as [H Hd]. apply HdRel_inv in Hd. split; [congruence|done].
  - intros [Hd H]. constructor; [done|]. constructor. congruence.
Qed.

(** The reads of a run return what was drawn; [k] calls came before it. *)
Definition drawn (c : Draws * Z) (b : list Z) : Prop := c.1 0%nat = Some b /\ len b = c.2.

Definition health_checked (k : Z) (calls : list (Draws * Z)) : Prop :=
  forall i c, calls !! i = Some c -> u64 (k + Z.of_nat i + 1) mod 1000 = 0 -> RNGHealthCheck c.1 1 = Ok tt.

Lemma health_checked_cons k c calls :
  health_checked k (c :: calls) <->
  (u64 (k + 1) mod 1000 = 0 -> RNGHealthCheck c.1 1 = Ok tt) /\ health_checked (k + 1) calls.
Proof.
  unfold health_checked. split.
  - intros H. split; [intros E; apply (H 0%nat); [done|]; by rw Z.add_0_r|].
    intros i d Hd E. apply (H (S i)); [done|]. rw -E. do 2 f_equal. lia.
  - intros [H0 H] [|i] d Hd E.
    + injection Hd as <-. apply H0. by rw Z.add_0_r in E.
    + apply (H i); [done|]. rw -E. do 2 f_equal. lia.
Qed.

Lemma random_run_fips calls : forall s k outs, defaults_taken s -> rngCallCount s = u64 k ->
  (exists s', random_run true calls s = (s', Ok outs)) <->
  Forall2 drawn calls outs /\ adjacent_differ (option_list (lastRNGOutput s) ++ outs) /\ health_checked k calls.
Proof.
  induction calls as [|[rnd n] calls IH]; intros s k outs Hc Hk.
  { cbn. split; [intros (s' & [= <- <-])|intros (H & _)]; [|apply Forall2_nil_inv_l in H as ->; by exists s].
    split_and!; [done| |by intros i c Hi]. destruct (lastRNGOutput s); repeat constructor. }
  assert (Hk' : u64_add (rngCallCount s) 1 = u64 (k + 1)).
  { rw Hk. unfold u64_add, u64. by rw Zplus_mod_idemp_l. }
  rw random_run_cons; [done|]. rw health_checked_cons.
  assert (IH' : forall b bs, _) by exact (fun b bs => IH (after_read s b) (k + 1) bs (or_intror eq_refl) Hk').
  split.
  - intros (b & bs & -> & (Hr & Hl & Hd & Hh) & H). apply IH' in H as (Hf & Hs & Hc').
    rw adjacent_differ_cons. split_and!; [by constructor|done|done|by rw -Hk'|done].
  - intros (Hf & Hs & Hh & Hc'). apply Forall2_cons_inv_l in Hf as (b & bs & [Hr Hl] & Hf & ->).
    apply adjacent_differ_cons in Hs as [Hd Hs]. exists b, bs. rw -Hk' in Hh. split_and!; [done..|].
    by apply IH'.
Qed.

(** C29: what FIPS mode accepts from the random source.  A sequence of tested reads completes exactly
    when every read delivers its bytes, no output equals the one before it, and each read whose
    number is a multiple of 1000 is followed by a health check that passes; the outputs are the
    bytes drawn. *)
Theorem fips_random_tested calls outs :
  (exists s', random_run true calls fresh_cst = (s', Ok outs)) <->
  Forall2 drawn calls outs /\ adjacent_differ outs /\ health_checked 0 calls.
Proof. apply (random_run_fips calls fresh_cst 0 outs); [by left|done]. Qed.

(** Two reads of no bytes are a repeated output. *)
Lemma empty_reads_panic rnd : rnd 0%nat = Some [] -> (random_run true [(rnd, 0); (rnd, 0)] fresh_cst).2 = Panic.
Proof. intros H. cbn. unfold SecureRandomWithCST, SecureRandomBytes, read_random, st_bind, st_lift. by rw H. Qed.

(** A configured interval of zero divides by zero on the first read. *)
Lemma zero_interval_panics rnd b : rnd 0%nat = Some b ->
  (SecureRandomWithCST false rnd (len b) (mkCSTState (Some (mkCSTConfig false true 0)) 0 None)).2 = Panic.
Proof.
  intros H. unfold SecureRandomWithCST, SecureRandomBytes, read_random, st_bind, st_lift. by rw H Z.eqb_refl.
Qed.

(** * Generated key pairs *)

Section Pairs.
Context {K : KEMPrimitives} {L : KEMLaws K}.

(** The test of a pair whose private half is [priv] against a test key drawn as [t]. *)
Lemma pairwise_X25519_spec rnd i pub priv t : rnd i = Some t -> len t = 32 ->
  PairwiseConsistencyTestX25519 rnd i (generated (pub, priv)) = Ok tt <->
  exists s, x25519_dh priv (x25519_pub t) = Some s /\ x25519_dh t pub = Some s /\ all_zero s = false.
Proof.
  intros Hr Hl. unfold PairwiseConsistencyTestX25519, GenerateX25519KeyPair, read_random, X25519, X25519PrivateKeySize.
  cbn [generated fst snd]. rw Hr Hl. cbn.
  destruct (x25519_dh priv (x25519_pub t)) as [s|]; cbn; [|by split; [|intros (? & [=] & _)]].
  destruct (x25519_dh t pub) as [s'|]; cbn; [|by split; [|intros (? & _ & [=] & _)]].
  unfold ConstantTimeCompare. destruct (bool_decide_reflect (s = s')) as [<-|Hn].
  - destruct (all_zero s) eqn:Z; cbn; split; [done|intros (? & [= <-] & _ & [=]%(eq_trans (eq_sym Z)))|eauto|done].
  - split; [done|]. intros (x & [= ->] & [= ->] & _). done.
Qed.

Lemma pairwise_MLKEM_spec rnd i pub priv coins : rnd i = Some coins -> len coins = 32 ->
  PairwiseConsistencyTestMLKEM rnd i (generated (pub, priv)) = Ok tt <->
  mlkem_decaps priv (mlkem_encaps pub coins).1 = (mlkem_encaps pub coins).2
  /\ all_zero (mlkem_encaps pub coins).2 = false.
Proof.
  intros Hr Hl. unfold PairwiseConsistencyTestMLKEM, MLKEMEncapsulate, MLKEMEncapsulateWithSeed, SecureRandomBytes,
    read_random, MLKEMDecapsulate, MLKEMCiphertextSize.
  cbn [generated fst snd]. rw Hr Hl. cbn. rw Hl.
  pose proof (mlkem_encaps_len pub coins) as [Hc _]. destruct (mlkem_encaps pub coins) as [c s]. cbn in *. rw Hc.
  cbn. unfold ConstantTimeCompare. destruct (bool_decide_reflect (s = mlkem_decaps priv c)) as [->|Hn]; cbn.
  - destruct (all_zero (mlkem_decaps priv c)); cbn; split; [done|by intros [_ [=]]|done|done].
  - by split; [|intros [E _]].
Qed.

Lemma passes_Ok o : passes o = true <-> o = Ok tt.
Proof. by destruct o as [[]| |]. Qed.

Lemma fresh_X25519 fips rnd kp : GenerateX25519KeyPair rnd 0 = Ok kp ->
  (GenerateX25519KeyPairWithCST fips rnd fresh_cst).2
  = if fips && negb (passes (PairwiseConsistencyTestX25519 rnd 1 (generated kp))) then Panic else Ok kp.
Proof.
  unfold GenerateX25519KeyPairWithCST, runPairwiseTestX25519. intros ->. destruct fips; [|done].
  cbn -[PairwiseConsistencyTestX25519 generated]. by destruct (PairwiseConsistencyTestX25519 _ _ _) as [[]| |].
Qed.

Lemma fresh_MLKEM fips rnd kp : GenerateMLKEMKeyPair rnd 0 = Ok kp ->
  (GenerateMLKEMKeyPairWithCST fips rnd fresh_cst).2
  = if fips && negb (passes (PairwiseConsistencyTestMLKEM rnd 1 (generated kp))) then Panic else Ok kp.
Proof.
  unfold GenerateMLKEMKeyPairWithCST, runPairwiseTestMLKEM. intros ->. destruct fips; [|done].
  cbn -[PairwiseConsistencyTestMLKEM generated]. by destruct (PairwiseConsistencyTestMLKEM _ _ _) as [[]| |].
Qed.
End Pairs.

(** The shared secret of the pairwise test of the pair drawn as [sk], with test key [t]. *)
Definition x25519_usable {K : KEMPrimitives} (sk t : list Z) : bool :=
  match x25519_dh sk (x25519_pub t) with Some s => negb (all_zero s) | None => false end.

(** A sound generator always passes its pairwise test.  Whatever 32 (64) and 32 bytes are drawn for
    the key and for the test, [GenerateX25519KeyPairWithCST] ([GenerateMLKEMKeyPairWithCST]) returns
    the pair of the first draw, and panics only in FIPS mode and only when the test's shared secret
    is missing or all zeros; outside FIPS mode the default configuration does not test at all. *)
Theorem fips_pairs_accepted (K : KEMPrimitives) (L : KEMLaws K) fips rnd a t :
  rnd 0%nat = Some a -> rnd 1%nat = Some t -> len t = 32 ->
  (len a = 32 -> (GenerateX25519KeyPairWithCST fips rnd fresh_cst).2
     = if fips && negb (x25519_usable a t) then Panic else Ok (x25519_pub a, a))
  /\ (len a = 64 -> (GenerateMLKEMKeyPairWithCST fips rnd fresh_cst).2
     = if fips && all_zero (mlkem_encaps (mlkem_pub a) t).2 then Panic else Ok (mlkem_pub a, a)).
Proof.
  intros Ha Ht Hl. split; intros Hn.
  - rw (fresh_X25519 _ _ (x25519_pub a, a)).
    { unfold GenerateX25519KeyPair, read_random. by rw Ha Hn. }
    enough (passes (PairwiseConsistencyTestX25519 rnd 1 (generated (x25519_pub a, a))) = x25519_usable a t) as ->;
      [done|].
    apply eq_bool_prop_intro. rw !Is_true_true passes_Ok (pairwise_X25519_spec _ _ _ _ t); [done..|].
    unfold x25519_usable. split.
    + intros (s & -> & _ & Hs). by rw Hs.
    + destruct (x25519_dh a (x25519_pub t)) as [s|] eqn:E; [|done]. intros Hs. exists s.
      split_and!; [done|by apply x25519_agree|by apply negb_true_iff].
  - rw (fresh_MLKEM _ _ (mlkem_pub a, a)).
    { unfold GenerateMLKEMKeyPair, read_random. by rw Ha Hn. }
    enough (passes (PairwiseConsistencyTestMLKEM rnd 1 (generated (mlkem_pub a, a)))
            = negb (all_zero (mlkem_encaps (mlkem_pub a) t).2)) as -> by by rw negb_involutive.
    apply eq_bool_prop_intro. rw !Is_true_true passes_Ok (pairwise_MLKEM_spec _ _ _ _ t); [done..|].
    rw mlkem_correct negb_true_iff. tauto.
Qed.

Definition example_draw_pair : list Z * list Z :=
  (default [] (example_draws [32; 32]%nat 0%nat), default [] (example_draws [32; 32]%nat 1%nat)).

Lemma fips_pairs_accepted_witness :
  (@GenerateX25519KeyPairWithCST toyKEM true (example_draws [32; 32]%nat) fresh_cst).2
  = if true && negb (@x25519_usable toyKEM example_draw_pair.1 example_draw_pair.2) then Panic
    else Ok (@x25519_pub toyKEM example_draw_pair.1, example_draw_pair.1).
Proof.
  apply (@fips_pairs_accepted toyKEM toyKEM_laws true (example_draws [32; 32]%nat) example_draw_pair.1 example_draw_pair.2);
    vm_compute; reflexivity.
Defined.
