(* ===== verification/Conformance.v ===== *)
(** The published known-answer vectors of [testdata/conformance/vectors.json] and the power-on
    vectors of [pkg/crypto/post.go], computed by the definitions of this development on the
    algorithms of [Standards]: the key schedule, the authentication folds, the CH-KEM-v1 combiner,
    the wire encodings and the records.

    X25519 and ML-KEM-1024 stay abstract.  [vector_kem] answers with the values of the vector on the
    inputs of the vector, and the two secrets [kx] and [km] of that exchange are not in the file:
    they are what RFC 7748 and FIPS 203 give for its seeds. *)

From Corelib Require Import ssreflect.
From stdpp Require Import base tactics list numbers strings.
From Stdlib Require Import ZArith Lia.
From S2P Require Import Prelude Base Messages Codec Crypto Chkem Session Handshake Standards Encoding SelfTest.

Local Open Scope Z_scope.
Local Open Scope go_scope.

(** * The vectors *)

(** [filled(n, start)]: the fixed inputs. *)
Definition count_from (n : nat) (start : Z) : list Z := map u8 (seqZ start (Z.of_nat n)).

Definition v_public_key : list Z := concat (map unhex [
  "07a37cbc142093c8b755dc1b10e86cb426374ad16aa853ed0bdfc0b2b86d1c7ce714c308ecb4d28a333bf7ce4a4ca36b";
  "b676872c6f4d0a4a54fc098c163504ca86968832c06bbe2ae7563ab500619b3c71eb0e3e801020d59adaca863613abc9";
  "9092cd04adab5cc839d5b4766c7d5a23549757cb0478bee906ae4300a0b263099aa07ad4a5c88fd5c0e965ad6dcb8361";
  "a94f1e686be1bc7e19c209c141a0b5207c06ca0a58b565c174c39ce8a194524c43e37e226476f8e4bcbaa7a2b898c3e3";
  "d8cec0308813d3b4d1f0a4e163366b35b40cb0add8cc0c4b7199edf45cf7f53ce773476f954d39939da8c393ea9782f9";
  "c4559104541b179a05b345a7b7906c0687649c7576311684aba42881b6748535d4713405118a0f658d33167fc1b77636";
  "5b023bf2c3d398b5bf054dd8083c44238225ea16e01635fe8cba3a4570cc1546b9579811b49351579a30aa7626319c10";
  "85c708042059d12f01db48f96296dd140dd7e6c7af51402b85b2408c3f8f63b295419a0d923e20e874cb8563bdc098d2";
  "4ba34f7835696c040fcb33071508a836569c7656a333870b87a2ec7ba5c6285a7db9722c47a9c936c93f76be766911c6";
  "3794ec37762b4212b63186e4d4b768415a3dc7c569a23ee56ca56a8a80d5011e6e3cb764970717885402caca38849551";
  "e797df00ae60422ea5cb287596b8d8d1b42a264aeed32207878b96c63bafc97feff32fc6754b6be20eb5e9052403cf87";
  "12671c9581c4c988c59a0d868789d5138a86fa9269fc1f1ae1825ea44364e775fdc9b6c4da9283a9695f38426632cd40";
  "a4818a7473ec71ac9520446a7882936cc65a160d63b331d83b0863d8c8ff5a6422b3cd1ef1887489410184c98e8a1d7e";
  "fb0e6b5bca0f90540bcb130fc56df7334b328a2e7c11c7593313278525d7410985b42e98ac83c00148e382868d154980";
  "9cbdcac6647ec7807e262813aba59a22c68946ba7eb463f3a1a812a1c869725663225c7e588a8725a329a5932c0a238c";
  "f87693604b8beac0a044105f4aad135bc92333cf4dd47e6e49b267679384432ed124588fc70a2d86c2100b416b805b67";
  "9b46eca80350d22dbc6c4a71f17b9ef74241fc8dcc885e29169baaab4305144e5b89284b1173af972abc22394b055739";
  "a74aaa02a3afa7af98a912a0812bd1811acfd6457a9c95ce3a6ab3159690fb6321008768b05a58c2c1f2116142855137";
  "7a5491ec234cf84aa3a6a257ca646169b96a73c3b0d7b4837ac5ed17a4ad624e9b055c620383c3293bf7c97811e34dc8";
  "318dc0178447673ab2608764d94ec18c4e6ff4aa01435f416246d415718e20a16599381bf48b43a62c058152fa54a12c";
  "413aeb4a7b9fc766f914171d54327a79644882765c96a3d38035e9968e4d79537a599db539be97d931a52326d8d0b068";
  "774a890947ac03483807bd69a2cfc1902b3a4212e4721bae1a81410864f4053e5f250dfac2858be7c4070b91ec201d7e";
  "558426bba3dc3580aed53ae8177f3ae5263532b06a2c275a690707866d36d10cfbfcb284104b4a68198bd40114e9a5f4";
  "14bb88662ad0cbb0e8513ad7f9327c54302dfc7218f44ea322b6e4ba7d671a7ddb82b6ae0997868baf5c53777769bc18";
  "d4a7865bb62f761dafd114199b5fb24b81ec102bec72cebf127c442672325bbfcfa4346775124d3836f8e3a5c4353195";
  "6b680a13cb16a0b11409c13cd784321385fa6b12d5933b7e2b0db4e66153a4c1f2d434c517bfd3fb432e8a4279000c03";
  "c467c72c47fa57a8c38a088b13507b82c111447a7e13beeef832adf9662a81c409524165e6b90ddb304063b478e6a6a1";
  "fb813d6a4963fba61c6766ae86ac56a31d6ca65ade719875ec04c975b616002ff268cba7a3af6d224d47fa73fc4cb78c";
  "566afef76594a8c9ea82374649303374c54ce63013b6b80918aeae5c3e04830ca0030bf74cb330a78234db3dc190a9ca";
  "c3ccbe541f6bb7310097b1152543f934224702b90ce5248c931a05cc1dbc965aaf033c87a350fc1b774f519334c5a4e0";
  "5938eae7cc20ec27ad971a2684b3f307ae90f5be7be8492a3b409709bf1be314e5d02682d4370d2832ca61c92bd89f8f";
  "c2603767638c1a2fa36987d2dcb9ad926a27b78af827b021486a38332920a94d229aa94c8b6f432cb035c483978a27ec";
  "30183ab77059248be61150605ba2a0776f8ed7222634bb0a856468ac8730ac18be435dd13d65c1b16d06a8d0d5020634";
  "8aa27a660aa4897532fd6e95ad81986a"]).

Definition v_ciphertext : list Z := concat (map unhex [
  "79a631eede1bf9c98f12032cdeadd0e7a079398fc786b88cc846ec89af85a51acda09afabf5995362d6d6616d57c48af";
  "6c55e8bacef93190c6eff0ea8b361360e6af007b6b109ad026154f080428dcd8de0c4329349d454d4e2dfee819641beb";
  "ea4af0092e66ec78124a8c880beeedd453163936562a4e3e37bcac9c9d19d9576d0c45547f775e5bb1f55feb608e785e";
  "008ed9325ba229576cadfda49ce737c8d594240a27bd9fcad68da6dd01dda237a17ccf292b47ab7eb345a47974bc8e9d";
  "5fea84f923b8219e8b99e35a33bc9d54c43b6351ab7be19f835fbef5697a6b67997a2949ebe1eca58513146f67c0851b";
  "ac6ce2e770df81407d36ff3e01e7942ac6ccfd780e9cb1d82c3af25c89d8d425c98dbd282fb2c84d1902ba8613261573";
  "2c365ba791e0aabef250a9b0140b027e8cb6e1abc28e6e204253867fd906dd8b027c7f8ec06507bb04b16c0b097bd29d";
  "8a6c35cf6803215064ce9a8090fb455a934f58a4afcce6cd568a464470d08f4ce75ec3a38f45158511a56c2cfe33375d";
  "2c8669fe746fd8f2d3f84b7cfbd11c08c944a5e3703567c7ab5c7168eb938e322dea6a13dcfb2fc95d5f3fc009ab177d";
  "288e4fa1fa3183ea6b2e2c98202bd9cce4a834625ffa49ecc0ac085f35b9dca60e2453d66e7161ccee6d6f479b6d4f34";
  "08d25231e0473e32013d7e3f4de88e84e7c8844cae8eac383019c734e653c46ebfdf3736dd449ddf569263f248a927a9";
  "118b508f61c3ec38beb0ef88338123cb2467ca505f8cd527333780d99053431d4a7e462164711e6b0622f6d70fe4f2b2";
  "304b2c00ee03e82c46b301a619e1591d2a153b9acf2fc273934132e8984d999ed89611164066b55e9c333b38785e5e79";
  "24e663b01ec876fcf654d496d63b5931548b636b82e4a23982acb019d3ce9dc4532f43e19f4bcd2a72998d5d78f6a19f";
  "1c680bb9e1cd46b78d2523fb6473ddc3d8bf51fe63b8f17d571e9ac3f8705da27fb7e0c599a794ca3fc23c3cad743f41";
  "1a1f0463a3cea44c71fc8e23dad0f7bfbd1420341caba377cb26a652198e0a356024dc96cfbae38d7df13d7ef1ab63b3";
  "f513f37133d3ce6967816f0d2ff122cc0b5dad867e1d6832939806d98ecc2519189a63e6e88ea9318fb142938b838bc3";
  "c4f94b3659bc8303bc9f16636451a70ef94f1a4d59f180832c6076479596e4800e9eb4fdabeef19708f4b936c9b289b0";
  "433baeda216a0b4b4c88230b75d77798a239a65ba4f19530e172120ba9225ac581be3e4ef3c3d40a625870448d4404c8";
  "49e78e188770080434c70656d175a12882616f44179734e7f830cc6a06d752a689933bae8da36d7099a0310b2db70fb6";
  "d41733d5374f3a742a7923b487f986c57b416a88ebb2a98c996a661025ca5c80e2c31c779bf9ef549d5863cd039e0fc2";
  "dfdf2fc2b90c39d504675b858efb3cdf23ef53aec4a3ec14e6ec26b4ff294418a4d94119f8c673290b474b37b3f2ece4";
  "6fa616e197a7b16cd2eeec5f1f2a0a841c02eb70ea1de992e399b1b75bcde17a489aa85803ba1df80a5cf243a61770fd";
  "882ecb612cdd31f163f41d70e8ddee1460d4317eea8545f046a5eed44d6627bcd62a1a5297c9c9d78b35c3ed90852add";
  "82e4b0657bbf95eb2063822ec7b66492e864b8cacef3f68e95f93ac703b915928d26dd79b7b152069d0b3ac26e5e7e17";
  "cdd347bf4add8d2de0f9c08fff6e04c74067817ff76ed36afa67eab7fc7abb7bc0d6893efdb04a8a5028632136f14e01";
  "92486875545a0bf72c465efef49af00c4db98488379ecefc9ce48a3b27fcb3c24ba7071186f2a127f0e337bd502b61f7";
  "f55d27910f4d7504ff605921df2eb855ab8839863abafd9d912b820369bb071e4209786385439372e882f50ebdccf07c";
  "911d1f0e795dbca6343d9aa62675d37463e6ccfb9b3e40534f0ed749e8d17a213d86a3cd452c21c158385bbb0f90c987";
  "84e6fe5bf6ef2cb638202ab0eedeca9db0a715515381f2c5b48eb541f9a1bff59950ed51138cacdc2e46f3c778b0b71d";
  "fbd8345528dde564213e38f62fb7b6e51b2914a3da14cbe035974d8bcc328ec6951f380c2495d8dccfc6f1ca9d078844";
  "56d99d71d1884a3d7e4f273a707c8eecf055e32fd3939d6c90db8518399c53b0d619fc90e9685bf10f7a37b7114064d2";
  "7ccd3360508f40f3176bb11bdf8b219ba603f4a0c188b8f9ab4e87e72c2fffe103e686d97206235f7e9e889b549dc655";
  "c3be02d1ca65c48b005e64150aee9caa"]).

Definition v_shared_secret : list Z := unhex "9cbfa6edfeb1c4fce6789551d427467c90d333320a05eccb6a7b1a63c244ec3e".

Definition v_handshake_initiator_key : list Z := unhex "2249906dfcbb04c3ea6e6fc777fb6e1e1fb80e84bf25078860cb4ec992a17fec".
Definition v_handshake_responder_key : list Z := unhex "0550d215067695d2aa278de50a9dda266ff7013f104e5a434a35881b81ad14eb".
Definition v_handshake_initiator_iv : list Z := unhex "1a70de61624738227391008b".
Definition v_handshake_responder_iv : list Z := unhex "5f102f62c7855f0c823b2f74".
Definition v_traffic_initiator_key : list Z := unhex "4324b9bab2902a5c7218560a80b01d889a62ad0bde2fe144e42648f0efb14f53".
Definition v_traffic_responder_key : list Z := unhex "9f99caffaaa12a92f9baa208c3970c56ab5eea4fe02b00d964b9a21097c902d4".
Definition v_stream_initiator_nonce_prefix : list Z := unhex "ea58a300".
Definition v_stream_responder_nonce_prefix : list Z := unhex "4d87589c".
Definition v_datagram_initiator_nonce_prefix : list Z := unhex "70469872".
Definition v_datagram_responder_nonce_prefix : list Z := unhex "81ccdc81".
Definition v_client_finished_verify_data : list Z := unhex "f4743518f97240a4e1dc973344cbb90b12d669e6f831241ff977d59842e36a1d".
Definition v_server_finished_verify_data : list Z := unhex "4b74a3ef23eb47e3825347398452391c2c1e0629bef62a7a1984cdfc3160b92f".
Definition v_authenticated_secret : list Z := unhex "4199a3255db85a618f877bc8fd8e05ff46ecd3d34b91afcdcbe29779b433dec8".
Definition v_psk_secret : list Z := unhex "1c257c1368bb987e080c8d2264413c2a4b42102c9f44be2e52a7b434febf9ffc".

Definition v_client_hello : list Z := concat (map unhex [
  "01000006840600666768696a6b6c6d6e6f707172737475767778797a7b7c7d7e7f808182838485107778797a7b7c7d7e";
  "7f8081828384858600010200010002064007a37cbc142093c8b755dc1b10e86cb426374ad16aa853ed0bdfc0b2b86d1c";
  "7ce714c308ecb4d28a333bf7ce4a4ca36bb676872c6f4d0a4a54fc098c163504ca86968832c06bbe2ae7563ab500619b";
  "3c71eb0e3e801020d59adaca863613abc99092cd04adab5cc839d5b4766c7d5a23549757cb0478bee906ae4300a0b263";
  "099aa07ad4a5c88fd5c0e965ad6dcb8361a94f1e686be1bc7e19c209c141a0b5207c06ca0a58b565c174c39ce8a19452";
  "4c43e37e226476f8e4bcbaa7a2b898c3e3d8cec0308813d3b4d1f0a4e163366b35b40cb0add8cc0c4b7199edf45cf7f5";
  "3ce773476f954d39939da8c393ea9782f9c4559104541b179a05b345a7b7906c0687649c7576311684aba42881b67485";
  "35d4713405118a0f658d33167fc1b776365b023bf2c3d398b5bf054dd8083c44238225ea16e01635fe8cba3a4570cc15";
  "46b9579811b49351579a30aa7626319c1085c708042059d12f01db48f96296dd140dd7e6c7af51402b85b2408c3f8f63";
  "b295419a0d923e20e874cb8563bdc098d24ba34f7835696c040fcb33071508a836569c7656a333870b87a2ec7ba5c628";
  "5a7db9722c47a9c936c93f76be766911c63794ec37762b4212b63186e4d4b768415a3dc7c569a23ee56ca56a8a80d501";
  "1e6e3cb764970717885402caca38849551e797df00ae60422ea5cb287596b8d8d1b42a264aeed32207878b96c63bafc9";
  "7feff32fc6754b6be20eb5e9052403cf8712671c9581c4c988c59a0d868789d5138a86fa9269fc1f1ae1825ea44364e7";
  "75fdc9b6c4da9283a9695f38426632cd40a4818a7473ec71ac9520446a7882936cc65a160d63b331d83b0863d8c8ff5a";
  "6422b3cd1ef1887489410184c98e8a1d7efb0e6b5bca0f90540bcb130fc56df7334b328a2e7c11c7593313278525d741";
  "0985b42e98ac83c00148e382868d1549809cbdcac6647ec7807e262813aba59a22c68946ba7eb463f3a1a812a1c86972";
  "5663225c7e588a8725a329a5932c0a238cf87693604b8beac0a044105f4aad135bc92333cf4dd47e6e49b26767938443";
  "2ed124588fc70a2d86c2100b416b805b679b46eca80350d22dbc6c4a71f17b9ef74241fc8dcc885e29169baaab430514";
  "4e5b89284b1173af972abc22394b055739a74aaa02a3afa7af98a912a0812bd1811acfd6457a9c95ce3a6ab3159690fb";
  "6321008768b05a58c2c1f21161428551377a5491ec234cf84aa3a6a257ca646169b96a73c3b0d7b4837ac5ed17a4ad62";
  "4e9b055c620383c3293bf7c97811e34dc8318dc0178447673ab2608764d94ec18c4e6ff4aa01435f416246d415718e20";
  "a16599381bf48b43a62c058152fa54a12c413aeb4a7b9fc766f914171d54327a79644882765c96a3d38035e9968e4d79";
  "537a599db539be97d931a52326d8d0b068774a890947ac03483807bd69a2cfc1902b3a4212e4721bae1a81410864f405";
  "3e5f250dfac2858be7c4070b91ec201d7e558426bba3dc3580aed53ae8177f3ae5263532b06a2c275a690707866d36d1";
  "0cfbfcb284104b4a68198bd40114e9a5f414bb88662ad0cbb0e8513ad7f9327c54302dfc7218f44ea322b6e4ba7d671a";
  "7ddb82b6ae0997868baf5c53777769bc18d4a7865bb62f761dafd114199b5fb24b81ec102bec72cebf127c442672325b";
  "bfcfa4346775124d3836f8e3a5c43531956b680a13cb16a0b11409c13cd784321385fa6b12d5933b7e2b0db4e66153a4";
  "c1f2d434c517bfd3fb432e8a4279000c03c467c72c47fa57a8c38a088b13507b82c111447a7e13beeef832adf9662a81";
  "c409524165e6b90ddb304063b478e6a6a1fb813d6a4963fba61c6766ae86ac56a31d6ca65ade719875ec04c975b61600";
  "2ff268cba7a3af6d224d47fa73fc4cb78c566afef76594a8c9ea82374649303374c54ce63013b6b80918aeae5c3e0483";
  "0ca0030bf74cb330a78234db3dc190a9cac3ccbe541f6bb7310097b1152543f934224702b90ce5248c931a05cc1dbc96";
  "5aaf033c87a350fc1b774f519334c5a4e05938eae7cc20ec27ad971a2684b3f307ae90f5be7be8492a3b409709bf1be3";
  "14e5d02682d4370d2832ca61c92bd89f8fc2603767638c1a2fa36987d2dcb9ad926a27b78af827b021486a38332920a9";
  "4d229aa94c8b6f432cb035c483978a27ec30183ab77059248be61150605ba2a0776f8ed7222634bb0a856468ac8730ac";
  "18be435dd13d65c1b16d06a8d0d50206348aa27a660aa4897532fd6e95ad81986a0002000100020000"]).

Definition v_server_hello : list Z := concat (map unhex [
  "02000006790600666768696a6b6c6d6e6f707172737475767778797a7b7c7d7e7f808182838485107778797a7b7c7d7e";
  "7f808182838485860001064079a631eede1bf9c98f12032cdeadd0e7a079398fc786b88cc846ec89af85a51acda09afa";
  "bf5995362d6d6616d57c48af6c55e8bacef93190c6eff0ea8b361360e6af007b6b109ad026154f080428dcd8de0c4329";
  "349d454d4e2dfee819641bebea4af0092e66ec78124a8c880beeedd453163936562a4e3e37bcac9c9d19d9576d0c4554";
  "7f775e5bb1f55feb608e785e008ed9325ba229576cadfda49ce737c8d594240a27bd9fcad68da6dd01dda237a17ccf29";
  "2b47ab7eb345a47974bc8e9d5fea84f923b8219e8b99e35a33bc9d54c43b6351ab7be19f835fbef5697a6b67997a2949";
  "ebe1eca58513146f67c0851bac6ce2e770df81407d36ff3e01e7942ac6ccfd780e9cb1d82c3af25c89d8d425c98dbd28";
  "2fb2c84d1902ba86132615732c365ba791e0aabef250a9b0140b027e8cb6e1abc28e6e204253867fd906dd8b027c7f8e";
  "c06507bb04b16c0b097bd29d8a6c35cf6803215064ce9a8090fb455a934f58a4afcce6cd568a464470d08f4ce75ec3a3";
  "8f45158511a56c2cfe33375d2c8669fe746fd8f2d3f84b7cfbd11c08c944a5e3703567c7ab5c7168eb938e322dea6a13";
  "dcfb2fc95d5f3fc009ab177d288e4fa1fa3183ea6b2e2c98202bd9cce4a834625ffa49ecc0ac085f35b9dca60e2453d6";
  "6e7161ccee6d6f479b6d4f3408d25231e0473e32013d7e3f4de88e84e7c8844cae8eac383019c734e653c46ebfdf3736";
  "dd449ddf569263f248a927a9118b508f61c3ec38beb0ef88338123cb2467ca505f8cd527333780d99053431d4a7e4621";
  "64711e6b0622f6d70fe4f2b2304b2c00ee03e82c46b301a619e1591d2a153b9acf2fc273934132e8984d999ed8961116";
  "4066b55e9c333b38785e5e7924e663b01ec876fcf654d496d63b5931548b636b82e4a23982acb019d3ce9dc4532f43e1";
  "9f4bcd2a72998d5d78f6a19f1c680bb9e1cd46b78d2523fb6473ddc3d8bf51fe63b8f17d571e9ac3f8705da27fb7e0c5";
  "99a794ca3fc23c3cad743f411a1f0463a3cea44c71fc8e23dad0f7bfbd1420341caba377cb26a652198e0a356024dc96";
  "cfbae38d7df13d7ef1ab63b3f513f37133d3ce6967816f0d2ff122cc0b5dad867e1d6832939806d98ecc2519189a63e6";
  "e88ea9318fb142938b838bc3c4f94b3659bc8303bc9f16636451a70ef94f1a4d59f180832c6076479596e4800e9eb4fd";
  "abeef19708f4b936c9b289b0433baeda216a0b4b4c88230b75d77798a239a65ba4f19530e172120ba9225ac581be3e4e";
  "f3c3d40a625870448d4404c849e78e188770080434c70656d175a12882616f44179734e7f830cc6a06d752a689933bae";
  "8da36d7099a0310b2db70fb6d41733d5374f3a742a7923b487f986c57b416a88ebb2a98c996a661025ca5c80e2c31c77";
  "9bf9ef549d5863cd039e0fc2dfdf2fc2b90c39d504675b858efb3cdf23ef53aec4a3ec14e6ec26b4ff294418a4d94119";
  "f8c673290b474b37b3f2ece46fa616e197a7b16cd2eeec5f1f2a0a841c02eb70ea1de992e399b1b75bcde17a489aa858";
  "03ba1df80a5cf243a61770fd882ecb612cdd31f163f41d70e8ddee1460d4317eea8545f046a5eed44d6627bcd62a1a52";
  "97c9c9d78b35c3ed90852add82e4b0657bbf95eb2063822ec7b66492e864b8cacef3f68e95f93ac703b915928d26dd79";
  "b7b152069d0b3ac26e5e7e17cdd347bf4add8d2de0f9c08fff6e04c74067817ff76ed36afa67eab7fc7abb7bc0d6893e";
  "fdb04a8a5028632136f14e0192486875545a0bf72c465efef49af00c4db98488379ecefc9ce48a3b27fcb3c24ba70711";
  "86f2a127f0e337bd502b61f7f55d27910f4d7504ff605921df2eb855ab8839863abafd9d912b820369bb071e42097863";
  "85439372e882f50ebdccf07c911d1f0e795dbca6343d9aa62675d37463e6ccfb9b3e40534f0ed749e8d17a213d86a3cd";
  "452c21c158385bbb0f90c98784e6fe5bf6ef2cb638202ab0eedeca9db0a715515381f2c5b48eb541f9a1bff59950ed51";
  "138cacdc2e46f3c778b0b71dfbd8345528dde564213e38f62fb7b6e51b2914a3da14cbe035974d8bcc328ec6951f380c";
  "2495d8dccfc6f1ca9d07884456d99d71d1884a3d7e4f273a707c8eecf055e32fd3939d6c90db8518399c53b0d619fc90";
  "e9685bf10f7a37b7114064d27ccd3360508f40f3176bb11bdf8b219ba603f4a0c188b8f9ab4e87e72c2fffe103e686d9";
  "7206235f7e9e889b549dc655c3be02d1ca65c48b005e64150aee9caa0001"]).

Definition v_hello_retry_request : list Z := unhex "050000000406000001".

Definition v_client_finished : list Z := unhex "030000002088898a8b8c8d8e8f909192939495969798999a9b9c9d9e9fa0a1a2a3a4a5a6a7".

Definition v_aes_record : list Z := concat (map unhex [
  "100000003100000000000000079c8eebcc428a8e7d87069dba05ad990409f7a10c7f5c91cfc82a024007225a5f2f301f";
  "c17b635081e1"]).
Definition v_chacha_record : list Z := concat (map unhex [
  "100000003100000000000000073a6fba80d0339f3b7ebfd7b99ab262b003083bd49ed35bd70666304a5a8f6e4b920b7d";
  "e5118a45a590"]).

(** * What the code computes *)

#[local] Existing Instance standard.

Definition vector_master : list Z := count_from 32 0x11.
Definition vector_transcript : list Z := count_from 48 0x22.

Definition key_schedule_vector : Prop :=
  DeriveHandshakeKeys vector_master
    = Ok (v_handshake_initiator_key, v_handshake_responder_key, v_handshake_initiator_iv, v_handshake_responder_iv)
  /\ DeriveTrafficKeys vector_master = Ok (v_traffic_initiator_key, v_traffic_responder_key)
  /\ DeriveStreamNoncePrefixes vector_master = Ok (v_stream_initiator_nonce_prefix, v_stream_responder_nonce_prefix)
  /\ DeriveDatagramNoncePrefixes vector_master
    = Ok (v_datagram_initiator_nonce_prefix, v_datagram_responder_nonce_prefix)
  /\ DeriveKeyMultiple ClientFinishedLabel [vector_master; vector_transcript] 32 = Ok v_client_finished_verify_data
  /\ DeriveKeyMultiple ServerFinishedLabel [vector_master; vector_transcript] 32 = Ok v_server_finished_verify_data.

Definition auth_fold_vector : Prop :=
  DeriveAuthenticatedSecret (count_from 32 0x33) (count_from 32 0x44) = Ok v_authenticated_secret
  /\ DerivePSKSecret vector_master (count_from 32 0x55) = Ok v_psk_secret.

(** ** CH-KEM-v1 *)

Definition v_seed : list Z := count_from 96 1.
Definition v_scalar : list Z := count_from 32 0x40.
Definition v_coins : list Z := count_from 32 0x80.

Definition kx : list Z := unhex "ae4440cc8d7faddb2894172b78e3d745cafa0098bcc10d7ee0fda08fa85a9a2e".
Definition km : list Z := unhex "9c1780e11688e3746404fc213a62942cd508aee909ed9317bb2a6fb4b84c9317".

Definition vector_kem : KEMPrimitives := {|
  x25519_pub sk := if bool_decide (sk = take 32 v_seed) then take 32 v_public_key
                   else if bool_decide (sk = v_scalar) then take 32 v_ciphertext else [];
  x25519_dh sk pk := if bool_decide ((sk, pk) = (take 32 v_seed, take 32 v_ciphertext))
                        || bool_decide ((sk, pk) = (v_scalar, take 32 v_public_key)) then Some kx else None;
  mlkem_pub sd := if bool_decide (sd = drop 32 v_seed) then drop 32 v_public_key else [];
  mlkem_unpack _ := true;
  mlkem_encaps pk c := if bool_decide ((pk, c) = (drop 32 v_public_key, v_coins)) then (drop 32 v_ciphertext, km)
                       else ([], []);
  mlkem_decaps sd c := if bool_decide ((sd, c) = (drop 32 v_seed, drop 32 v_ciphertext)) then km else [];
  xwing_pub _ := [];
  xwing_encaps _ _ := None;
  xwing_decaps _ _ := [] |}.

(** The encapsulator is the responder; the two draws are its ephemeral scalar and the coins. *)
Definition kem_exchange : outcome error (list Z * list Z * list Z * list Z) :=
  let! kp := ParseKeyPair (K := vector_kem) v_seed in
  let! pub := PublicKey_Bytes (KeyPair_PublicKey kp) in
  let! pk := ParsePublicKey (K := vector_kem) pub in
  let! '(ct, secret) := Encapsulate (K := vector_kem)
    (fun i => match i with O => Some v_scalar | _ => Some v_coins end) pk RoleResponder in
  let! c := Ciphertext_Bytes ct in
  let! ct := ParseCiphertext c in
  let! secret' := Decapsulate (K := vector_kem) ct kp RoleInitiator in
  Ok (pub, c, secret, secret').

Definition kem_vector : Prop :=
  kem_exchange = Ok (v_public_key, v_ciphertext, v_shared_secret, v_shared_secret).

(** ** Wire messages *)

Definition vector_random : list Z := count_from 32 0x66.
Definition vector_session_id : list Z := count_from 16 0x77.

Definition vector_ClientHello : ClientHello :=
  mkClientHello Current vector_random vector_session_id SuiteCHKEMv1 [SuiteCHKEMv1; SuiteXWing] v_public_key
    [CipherSuiteAES256GCM; CipherSuiteChaCha20Poly1305] [] [].

Definition vector_ServerHello : ServerHello :=
  mkServerHello Current vector_random vector_session_id SuiteCHKEMv1 v_ciphertext CipherSuiteAES256GCM.

Definition vector_retry : HelloRetryRequest := mkHelloRetryRequest Current SuiteCHKEMv1.

Definition wire_vector : Prop :=
  EncodeClientHello vector_ClientHello = Ok v_client_hello
  /\ DecodeClientHello v_client_hello = Ok vector_ClientHello
  /\ EncodeServerHello vector_ServerHello = Ok v_server_hello
  /\ DecodeServerHello v_server_hello = Ok vector_ServerHello
  /\ EncodeHelloRetryRequest vector_retry = Ok v_hello_retry_request
  /\ DecodeHelloRetryRequest v_hello_retry_request = Ok vector_retry
  /\ EncodeFinished MessageTypeClientFinished (count_from 32 0x88) = Ok v_client_finished.

(** ** Records *)

Definition vector_plaintext : list Z := string_to_bytes "conformance record vector".

(** A session keyed with the vector's secret, whose next sequence number is 7. *)
Definition vector_session (role : Role) (cs : CipherSuite) : Session :=
  (InitializeKeys false 0 vector_master cs
     ((fresh_session 0 role vector_session_id (chkemV1 (K := vector_kem)) None) <| s_sendSeq := 7 |>)).1.

Definition session_record (cs : CipherSuite) : outcome error (list Z) :=
  let! '(ct, seq) := (Encrypt 0 vector_plaintext (vector_session RoleInitiator cs)).2 in
  EncodeData seq ct.

Definition session_open (cs : CipherSuite) (record : list Z) : outcome error (list Z) :=
  let! '(seq, ct) := DecodeData record in
  (Decrypt 0 ct seq (vector_session RoleResponder cs)).2.

Definition record_vector : Prop :=
  session_record CipherSuiteAES256GCM = Ok v_aes_record
  /\ session_open CipherSuiteAES256GCM v_aes_record = Ok vector_plaintext
  /\ session_record CipherSuiteChaCha20Poly1305 = Ok v_chacha_record
  /\ session_open CipherSuiteChaCha20Poly1305 v_chacha_record = Ok vector_plaintext.

(** * The checks *)

Lemma key_schedule_vector_holds : key_schedule_vector.
Proof. unfold key_schedule_vector. split_and!; vm_compute; reflexivity. Qed.

Lemma auth_fold_vector_holds : auth_fold_vector.
Proof. split; vm_compute; reflexivity. Qed.

Lemma kem_vector_holds : kem_vector.
Proof. unfold kem_vector. vm_compute. reflexivity. Qed.

Lemma wire_vector_holds : wire_vector.
Proof. unfold wire_vector. split_and!; vm_compute; reflexivity. Qed.

Lemma record_vector_holds : record_vector.
Proof. unfold record_vector. split_and!; vm_compute; reflexivity. Qed.


(** * The power-on tests *)

Lemma runKDFKAT_standard : runKDFKAT = Ok tt.
Proof. vm_compute. reflexivity. Qed.

Lemma runAESGCMKAT_standard : runAESGCMKAT = Ok tt.
Proof. vm_compute. reflexivity. Qed.

(** Any ML-KEM with the documented sizes that decapsulates what it encapsulates. *)
Lemma runMLKEMKAT_passes (K : KEMPrimitives) (L : KEMLaws K) rnd coins :
  rnd 0%nat = Some coins -> len coins = 32 -> runMLKEMKAT rnd = Ok tt.
Proof.
  intros Hr Hl. unfold runMLKEMKAT, NewMLKEMKeyPairFromSeed. rw (_ : len postKATMLKEMSeed = 64); [by vm_compute|].
  cbn -[postKATMLKEMSeed]. rw mlkem_pub_len. unfold MLKEMEncapsulate, MLKEMEncapsulateWithSeed.
  rw (proj2 (SecureRandomBytes_Ok rnd 0 32 coins)); [done|]. cbn -[postKATMLKEMSeed]. rw Hl. cbn -[postKATMLKEMSeed].
  pose proof (mlkem_encaps_len (mlkem_pub postKATMLKEMSeed) coins) as [Hc Hs].
  pose proof (mlkem_correct postKATMLKEMSeed coins) as Hm.
  destruct (mlkem_encaps (mlkem_pub postKATMLKEMSeed) coins) as [c ss]. cbn -[postKATMLKEMSeed] in *.
  unfold MLKEMDecapsulate, MLKEMCiphertextSize. rw Hc Hs. cbn -[postKATMLKEMSeed]. rw Hm.
  by rw bool_decide_true.
Qed.

Definition all_passed : POSTResult := mkPOSTResult true true true true [].


