(* ===== verification/Command.v ===== *)
(** The command line tool: [cmd/quantum-tunnel/keygen.go], the dispatch of [main.go] and the
    configuration of the observers in [demo.go].

    Files are a map from paths to a mode and contents.  What the operating system decides, the
    umask and which calls fail, is an argument; an error made by [fmt.Errorf] is its message without
    the text of the error it wraps.  What a command prints is its result. *)

From Corelib Require Import ssreflect.
From stdpp Require Import base tactics list numbers strings gmap pretty.
From Stdlib Require Import ZArith Lia Ascii.
From S2P Require Import Prelude Base Crypto Chkem Sha256 Ticket Encoding Histogram Logger Metrics.

Local Open Scope Z_scope.
Local Open Scope go_scope.

(** * Files *)

Record File := mkFile { f_mode : Z; f_data : list Z }.
Definition FS := gmap string File.

Record OSEnv := mkOSEnv {
  umask : Z;
  open_fails : string -> bool;
  read_fails : string -> bool;
  (** a write that fails after so many bytes *)
  write_stops : string -> option nat;
  close_fails : string -> bool }.

(** [os.OpenFile] with [O_CREATE|O_WRONLY|O_TRUNC], and [O_EXCL] without [force]: the mode applies
    to a file that is created; one that exists keeps its own. *)
Definition writeFile (os : OSEnv) (path : string) (data : list Z) (perm : Z) (force : bool) : ST FS error unit :=
  do! fs := st_get in
  check! negb (negb force && bool_decide (is_Some (fs !! path)))
    else ErrExternal (path +:+ " already exists (use --force to overwrite)") in
  check! negb (open_fails os path) else ErrExternal "open" in
  let mode := from_option f_mode (Z.land perm (Z.lnot (umask os))) (fs !! path) in
  match write_stops os path with
  | Some n =>
      do! _ := st_mod (fun fs => <[path := mkFile mode (take n data)]> fs) in
      st_err (ErrExternal "write")
  | None =>
      do! _ := st_mod (fun fs => <[path := mkFile mode data]> fs) in
      check! negb (close_fails os path) else ErrExternal "close" in
      st_ret tt
  end.

Definition ReadFile (os : OSEnv) (path : string) (fs : FS) : outcome error (list Z) :=
  guard! negb (read_fails os path) else ErrExternal "read" in
  match fs !! path with
  | Some f => Ok (f_data f)
  | None => Err (ErrExternal "no such file")
  end.

(** * [keygen] *)

Definition encodeLine (data : list Z) : list Z := string_to_bytes (b64_encode true data +:+ newline).

Definition decodeLine (data : list Z) : option (list Z) := b64_decode (bytes_string (TrimSpace data)).

Definition fingerprint (pin : list Z) : string := "SHA256:" +:+ b64_encode false (sha256 pin).

Section Keygen.
Context {P : Primitives} {K : KEMPrimitives}.

Definition suiteByName (name : string) : outcome error Suite :=
  if bool_decide (name = "chkem-v1") then Ok DefaultSuite
  else if bool_decide (name = "x-wing") then
    match GetSuite SuiteXWing with
    | Some s => Ok s
    | None => Err (ErrExternal "x-wing suite is not registered")
    end
  else Err (ErrExternal "unknown suite").

Definition loadSecretKey (os : OSEnv) (path : string) (fs : FS) : outcome error KeyPair :=
  let! data := ReadFile os path fs in
  match decodeLine data with
  | None => Err (ErrExternal ("decode " +:+ path))
  | Some seed =>
      match ParseTaggedKeyPair seed with
      | Err _ => Err (ErrExternal ("parse " +:+ path))
      | o => o
      end
  end.

(** The pin of a key pair: its public key, tagged with a suite. *)
Definition pin_of (suite : Z) (kp : KeyPair) : outcome error (list Z) :=
  let! pk := PublicKey_Bytes (KeyPair_PublicKey kp) in
  TagSuite suite pk.

Definition runKeygen (os : OSEnv) (rnd : Draws) (out : string) (force : bool) (pubFrom suiteName : string)
    : ST FS error (list string) :=
  let keyPath := out +:+ ".key" in
  let pubPath := out +:+ ".pub" in
  if negb (bool_decide (pubFrom = "")) then
    do! fs := st_get in
    do! kp := st_lift (loadSecretKey os pubFrom fs) in
    do! pin := st_lift (pin_of (KeyPair_Suite kp) kp) in
    do! _ := writeFile os pubPath (encodeLine pin) 420 force in
    st_ret ["Re-derived public pin from " +:+ pubFrom +:+ ".";
            "  Public pin:   " +:+ pubPath +:+ "  (distribute to clients)";
            "  Fingerprint:  " +:+ fingerprint pin]
  else
    do! suite := st_lift (suiteByName suiteName) in
    do! '(kp, seed) := st_lift (s_GenerateStaticKeyPair suite rnd) in
    do! taggedSeed := st_lift (TagSuite (s_ID suite) seed) in
    do! pin := st_lift (pin_of (s_ID suite) kp) in
    do! _ := writeFile os keyPath (encodeLine taggedSeed) 384 force in
    do! _ := writeFile os pubPath (encodeLine pin) 420 force in
    st_ret ["Generated static " +:+ suiteName +:+ " server identity.";
            "  Secret seed:  " +:+ keyPath +:+ "  (keep private, mode 0600)";
            "  Public pin:   " +:+ pubPath +:+ "  (distribute to clients)";
            "  Fingerprint:  " +:+ fingerprint pin +:+ "  (verify out-of-band)"].

End Keygen.

(** * [main] *)

Inductive action :=
  | RunDemo | RunBench | RunExample | RunKeygen
  | PrintVersion (lines : list string)
  | PrintUsage
  | Unknown (command : string).

(** [pkg/version]. *)
Definition version_String (Major Minor Patch : Z) (Label : string) : string :=
  "v" +:+ pretty Major +:+ "." +:+ pretty Minor +:+ "." +:+ pretty Patch
  +:+ (if bool_decide (Label = "") then "" else "-" +:+ Label).

Definition getVersion (version : string) : string :=
  if bool_decide (version = "") then version_String 0 0 14 "" else version.

(** The arguments after the program's name; the exit code if the command itself decides it. *)
Definition main (version buildTime gitCommit : string) (args : list string) : action * option Z :=
  match args with
  | [] => (PrintUsage, Some 1)
  | command :: _ =>
      if bool_decide (command = "demo") then (RunDemo, None)
      else if bool_decide (command = "bench") then (RunBench, None)
      else if bool_decide (command = "example") then (RunExample, None)
      else if bool_decide (command = "keygen") then (RunKeygen, None)
      else if bool_decide (command = "version") then
        (PrintVersion (["quantum-tunnel version " +:+ getVersion version]
           ++ (if bool_decide (buildTime = "unknown") then [] else ["Built: " +:+ buildTime])
           ++ (if bool_decide (gitCommit = "unknown") then [] else ["Commit: " +:+ gitCommit])), Some 0)
      else if bool_decide (command ∈ ["help"; "--help"; "-h"]) then (PrintUsage, Some 0)
      else (Unknown command, Some 1)
  end.

(** * Configuring the observers *)

(** [strings.ToLower], as far as a comparison with an ASCII word can tell: the ASCII letters, and
    the two other runes whose lower case is ASCII, the dotted capital I and the Kelvin sign. *)
Definition lower (c : ascii) : ascii :=
  let n := nat_of_ascii c in if ((65 <=? n) && (n <=? 90))%nat then chr (n + 32) else c.

Fixpoint ToLower (s : string) : string :=
  match s with
  | "" => ""
  | String c s1 =>
      let other := String (lower c) (ToLower s1) in
      match s1 with
      | String d s2 =>
          if bool_decide ([nat_of_ascii c; nat_of_ascii d] = [196; 176]%nat) then String "i" (ToLower s2)
          else
            match s2 with
            | String e s3 =>
                if bool_decide ([nat_of_ascii c; nat_of_ascii d; nat_of_ascii e] = [226; 132; 170]%nat)
                then String "k" (ToLower s3) else other
            | "" => other
            end
      | "" => other
      end
  end.

Definition parseLogLevel (level : string) : outcome error Level :=
  let s := ToLower level in
  if bool_decide (s = "debug") then Ok LevelDebug
  else if bool_decide (s = "info") then Ok LevelInfo
  else if bool_decide (s ∈ ["warn"; "warning"]) then Ok LevelWarn
  else if bool_decide (s = "error") then Ok LevelError
  else if bool_decide (s ∈ ["silent"; "off"; "none"]) then Ok LevelSilent
  else Err (ErrExternal "invalid log level").

Definition parseLogFormat (format : string) : outcome error Format :=
  let s := ToLower format in
  if bool_decide (s = "text") then Ok FormatText
  else if bool_decide (s = "json") then Ok FormatJSON
  else Err (ErrExternal "invalid log format").

Inductive tracer := NoOpTracer | SimpleTracer | OTelTracer (serviceName : string).

Definition roleLabel (role : Role) : string :=
  match role with RoleResponder => "responder" | RoleInitiator => "initiator" end.

(** The global logger, tracer and collector; the observer factory makes an observer for a session
    with the logger that is global at that time. *)
Record Globals := mkGlobals { g_logger : Logger; g_tracer : tracer; g_collector : option Collector }.

Definition setupObservability (otel : bool) (now : Z) (logLevel logFormat tracing : string)
    : ST Globals error (Globals -> list Z -> Role -> TunnelObserver) := fun g =>
  match parseLogLevel logLevel, parseLogFormat logFormat with
  | Ok level, Ok format =>
      let logger := NewLogger [WithLevel level; WithFormat format; WithFields (field "app" "quantum-tunnel")] in
      let g := mkGlobals logger (g_tracer g) (g_collector g) in
      let mode := ToLower tracing in
      let chosen :=
        if bool_decide (mode = "none") then Ok NoOpTracer
        else if bool_decide (mode = "simple") then Ok SimpleTracer
        else if bool_decide (mode = "otel") then
          if otel then Ok (OTelTracer "quantum-tunnel") else Err (ErrExternal "otel tracing not enabled (build with -tags otel)")
        else Err (ErrExternal "invalid tracing mode") in
      match chosen with
      | Ok t =>
          let c := NewCollector (Some {[ "service" := "quantum-tunnel" ]}) now in
          (mkGlobals logger t (Some c),
           Ok (fun g id role => NewTunnelObserver (g_logger g) None id (roleLabel role)))
      | Err e => (g, Err e)
      | Panic => (g, Panic)
      end
  | Ok _, Err e => (g, Err e)
  | Ok _, Panic => (g, Panic)
  | Err e, _ => (g, Err e)
  | Panic, _ => (g, Panic)
  end.

(** * Properties of [keygen] *)

(** Whatever fails on the way, a file that existed is untouched unless [force] is given. *)
Lemma writeFile_keeps os path data perm fs p f : fs !! p = Some f ->
  (writeFile os path data perm false fs).1 !! p = Some f.
Proof.
  intros Hp. unfold writeFile, st_bind, st_get. cbn [negb andb]. case_bool_decide as He; cbn [negb]; [done|].
  assert (Hne : p <> path) by (intros ->; apply He; by exists f).
  destruct (open_fails os path); [done|]. cbn [negb]. destruct (write_stops os path); cbn; [by rw lookup_insert_ne|].
  destruct (close_fails os path); cbn; by rw lookup_insert_ne.
Qed.

(** A write that succeeds leaves the data, under the mode of the file that was there. *)
Lemma writeFile_Ok os path data perm force fs fs' : writeFile os path data perm force fs = (fs', Ok tt) ->
  fs' = <[path := mkFile (from_option f_mode (Z.land perm (Z.lnot (umask os))) (fs !! path)) data]> fs /\
  (force = false -> fs !! path = None).
Proof.
  unfold writeFile, st_bind, st_get. destruct (negb force && _) eqn:Hf; cbn [negb]; [done|].
  destruct (open_fails os path); [done|]. cbn [negb]. destruct (write_stops os path); [done|]. cbn.
  destruct (close_fails os path); [done|]. cbn. intros [= <-]. split; [done|]. intros ->. cbn in Hf.
  by apply bool_decide_eq_false_1, eq_None_not_Some in Hf.
Qed.

Lemma sapp_inj s t u : s +:+ t = s +:+ u -> t = u.
Proof. induction s as [|c s IH]; [done|]. change (String c s +:+ ?x) with (String c (s +:+ x)). intros [= H]. by apply IH. Qed.

Lemma key_ne_pub out : out +:+ ".key" <> out +:+ ".pub".
Proof. by intros H%sapp_inj. Qed.

(** What Go's types say of a public key: it is bytes. *)
Class KEMBytes (K : KEMPrimitives) : Prop := {
  x25519_pub_bytes : forall sk, is_bytes sk -> is_bytes (x25519_pub sk);
  mlkem_pub_bytes : forall sd, is_bytes sd -> is_bytes (mlkem_pub sd);
  xwing_pub_bytes : forall sd, is_bytes sd -> is_bytes (xwing_pub sd) }.

#[export] Instance toyKEM_bytes : KEMBytes toyKEM.
Proof.
  assert (H : forall n l, is_bytes l -> is_bytes (pad n l)).
  { intros n l Hl. apply Forall_take, Forall_app. split; [done|]. apply Forall_replicate. unfold is_u8. lia. }
  split; intros; by apply H.
Qed.

Lemma slice_bytes_of d a b r : is_bytes d -> slice (E := error) d a b = Ok r -> is_bytes r.
Proof. unfold slice. case_match; [|done]. intros Hd [= <-]. by apply Forall_take, Forall_drop. Qed.

Section KeygenProofs.
Context {P : Primitives} {PL : PrimitivesLaws P} {K : KEMPrimitives} {KL : KEMLaws K} {KB : KEMBytes K}.

Lemma TagSuite_eq id body : TagSuite id body = Ok (be_put 2 id ++ body).
Proof. unfold TagSuite. rw c_make_filled. do 2 cursor_step. rw filled_done; [golia|]. done. Qed.

Lemma suiteByName_Ok name s : suiteByName name = Ok s -> GetSuite (s_ID s) = Some s.
Proof.
  unfold suiteByName. case_bool_decide; [by intros [= <-]|]. case_bool_decide; [|done].
  change (GetSuite SuiteXWing) with (Some xwingSuite). by intros [= <-].
Qed.

Lemma tagged_line id body : is_bytes body -> decodeLine (encodeLine (be_put 2 id ++ body)) = Some (be_put 2 id ++ body).
Proof.
  intros Hb. apply b64_line_roundtrip; [by destruct body|]. apply Forall_app. split; [apply be_put_bytes|done].
Qed.

Lemma suite_id_u16 name s : suiteByName name = Ok s -> is_u16 (s_ID s).
Proof.
  unfold suiteByName. case_bool_decide; [intros [= <-]; by vm_compute|]. case_bool_decide; [|done].
  change (GetSuite SuiteXWing) with (Some xwingSuite). intros [= <-]. by vm_compute.
Qed.

(** A fresh static identity: the seed parses back to the pair, and everything about it is bytes. *)
Lemma static_identity name s rnd kp seed : suiteByName name = Ok s -> (forall i b, rnd i = Some b -> is_bytes b) ->
  s_GenerateStaticKeyPair s rnd = Ok (kp, seed) ->
  is_bytes seed /\ s_ParseKeyPair s seed = Ok kp /\ KeyPair_Suite kp = s_ID s /\
  (forall pk, PublicKey_Bytes (KeyPair_PublicKey kp) = Ok pk -> is_bytes pk).
Proof.
  intros Hs Hr Hg. unfold suiteByName in Hs. case_bool_decide; [|case_bool_decide; [|done]].
  - injection Hs as <-. cbn in Hg |- *. unfold GenerateStaticKeyPair in Hg. okinv Hg. injection Hg as -> <-.
    apply wrap_err_Ok, wrap_err_Ok, read_random_Ok in Hx as [Hx _]. pose proof (Hr _ _ Hx) as Hb.
    split_and!; [done | done | |]; unfold ParseKeyPair, NewX25519KeyPairFromBytes, NewMLKEMKeyPairFromSeed in Hx0; okinv Hx0;
      apply Ok_inj in Hx0 as <-; apply wrap_err_Ok in Hx2, Hx4; okinv Hx2; okinv Hx4;
      apply Ok_inj in Hx2 as <-; apply Ok_inj in Hx4 as <-; [done|].
    intros pk Hpk. change (PublicKey_Bytes _) with (PublicKey_Bytes (mkPublicKey (Some (x25519_pub x0)) (Some (mlkem_pub x2)) 0 [])) in Hpk.
    unfold PublicKey_Bytes in Hpk. cbn [pk_suite pk_x25519 pk_mlkem Z.eqb negb from_option id] in Hpk.
    pose proof (two_parts_wire (x25519_pub x0) (mlkem_pub x2) 1568 (x25519_pub_len _) (mlkem_pub_len _) ltac:(lia)) as Hw.
    change (32 + 1568) with CHKEMPublicKeySize in Hw. change 1568 with MLKEMPublicKeySize in Hw. rw Hw in Hpk. injection Hpk as <-.
    apply Forall_app. split; [apply x25519_pub_bytes; exact (slice_bytes_of _ _ _ _ Hb Hx1) |
      apply mlkem_pub_bytes; exact (slice_bytes_of _ _ _ _ Hb Hx3)].
  - change (GetSuite SuiteXWing) with (Some xwingSuite) in Hs. injection Hs as <-. cbn in Hg |- *.
    unfold xwing_GenerateStaticKeyPair in Hg. okinv Hg. injection Hg as -> <-.
    apply wrap_err_Ok, wrap_err_Ok, read_random_Ok in Hx as [Hx _]. pose proof (Hr _ _ Hx) as Hb.
    split_and!; [done | done | |]; unfold xwing_ParseKeyPair, NewXWingKeyPairFromSeed in Hx0; okinv Hx0;
      apply Ok_inj in Hx0 as <-; okinv Hx1; apply Ok_inj in Hx1 as <-; [done|].
    intros pk [= <-]. by apply xwing_pub_bytes.
Qed.
Definition new_mode (os : OSEnv) (perm : Z) (old : option File) : Z :=
  from_option f_mode (Z.land perm (Z.lnot (umask os))) old.

Lemma runKeygen_new os rnd out force name fs fs' lines : runKeygen os rnd out force "" name fs = (fs', Ok lines) ->
  exists s kp seed pk, suiteByName name = Ok s /\ s_GenerateStaticKeyPair s rnd = Ok (kp, seed) /\
    PublicKey_Bytes (KeyPair_PublicKey kp) = Ok pk /\
    fs' = <[out +:+ ".pub" := mkFile (new_mode os 420 (fs !! (out +:+ ".pub"))) (encodeLine (be_put 2 (s_ID s) ++ pk))]>
            (<[out +:+ ".key" := mkFile (new_mode os 384 (fs !! (out +:+ ".key"))) (encodeLine (be_put 2 (s_ID s) ++ seed))]> fs).
Proof.
  unfold runKeygen. rw bool_decide_eq_true_2 //. cbn [negb]. intros H.
  apply st_bind_inv in H as (? & s & [-> Hs]%st_lift_inv & H). apply st_bind_inv in H as (? & [kp seed] & [-> Hg]%st_lift_inv & H).
  apply st_bind_inv in H as (? & t & [-> Ht]%st_lift_inv & H). apply st_bind_inv in H as (? & pin & [-> Hp]%st_lift_inv & H).
  apply st_bind_inv in H as (fs1 & [] & Hk & H). apply st_bind_inv in H as (fs2 & [] & Hpub & [= <- _]).
  rw TagSuite_eq in Ht. injection Ht as <-. unfold pin_of in Hp. okinv Hp. rw TagSuite_eq in Hp. injection Hp as <-.
  apply writeFile_Ok in Hk as [-> _]. apply writeFile_Ok in Hpub as [-> _].
  exists s, kp, seed, x. split_and!; [done..|]. do 3 f_equal. unfold new_mode. rw lookup_insert_ne //.
  apply key_ne_pub.
Qed.

Lemma runKeygen_derive os rnd out force path name fs fs' lines kp pk : path <> "" ->
  runKeygen os rnd out force path name fs = (fs', Ok lines) ->
  loadSecretKey os path fs = Ok kp -> PublicKey_Bytes (KeyPair_PublicKey kp) = Ok pk ->
  f_data <$> fs' !! (out +:+ ".pub") = Some (encodeLine (be_put 2 (KeyPair_Suite kp) ++ pk)).
Proof.
  intros Hne H Hl Hpk. unfold runKeygen in H. rw bool_decide_eq_false_2 // in H. cbn [negb] in H. rw st_bind_get in H.
  apply st_bind_inv in H as (? & kp' & [-> Hl']%st_lift_inv & H). rw Hl in Hl'. injection Hl' as <-.
  apply st_bind_inv in H as (? & pin & [-> Hp]%st_lift_inv & H). unfold pin_of in Hp. rw Hpk in Hp. cbn in Hp.
  rw TagSuite_eq in Hp. injection Hp as <-.
  apply st_bind_inv in H as (fs2 & [] & Hpub & [= <- _]). apply writeFile_Ok in Hpub as [-> _]. by rw lookup_insert_eq.
Qed.

End KeygenProofs.

(** C36: An identity survives its files: after [keygen] succeeded with random bytes, for either
    suite, the secret file loads as the key pair that was generated, the public file decodes to a
    pin that parses as its public key, no other file has changed, and re-deriving the pin from the
    secret file, whatever is given as the suite, writes the same public file. *)
Theorem keygen_roundtrip (P : Primitives) (PL : PrimitivesLaws P) (K : KEMPrimitives) (KL : KEMLaws K)
    (KB : KEMBytes K) os rnd out force name fs fs' lines :
  (forall i b, rnd i = Some b -> is_bytes b) -> read_fails os (out +:+ ".key") = false ->
  runKeygen os rnd out force "" name fs = (fs', Ok lines) ->
  exists s kp seed pin f, suiteByName name = Ok s /\ s_GenerateStaticKeyPair s rnd = Ok (kp, seed) /\
    loadSecretKey os (out +:+ ".key") fs' = Ok kp /\
    fs' !! (out +:+ ".pub") = Some f /\ decodeLine (f_data f) = Some pin /\
    ParseTaggedPublicKey pin = Ok (KeyPair_PublicKey kp) /\
    (forall path, path <> out +:+ ".key" -> path <> out +:+ ".pub" -> fs' !! path = fs !! path) /\
    (forall rnd' out' force' name' fs'' lines',
       runKeygen os rnd' out' force' (out +:+ ".key") name' fs' = (fs'', Ok lines') ->
       f_data <$> fs'' !! (out' +:+ ".pub") = Some (f_data f)).
Proof.
  intros Hr Hread H. destruct (runKeygen_new _ _ _ _ _ _ _ _ H) as (s & kp & seed & pk & Hs & Hg & Hpk & ->).
  destruct (static_identity _ _ _ _ _ Hs Hr Hg) as (Hseed & Hparse & Hsuite & Hbytes). pose proof (Hbytes pk Hpk) as Hpkb.
  pose proof (suiteByName_Ok _ _ Hs) as Hget. destruct (GetSuite_laws _ _ Hget) as [Hlaws _].
  destruct (suite_pk_wire (SuiteLaws := Hlaws) kp (or_intror (ex_intro _ seed Hparse))) as (pk' & Hpk' & _ & Hpp).
  rw Hpk in Hpk'. injection Hpk' as <-.
  pose proof (suite_id_u16 _ _ Hs) as Hid.
  destruct (tagged_identities P K (s_ID s) seed Hid) as (d & Hd & _ & Hk & _).
  destruct (tagged_identities P K (s_ID s) pk Hid) as (e & He & _ & _ & Hp).
  rw TagSuite_eq in Hd. rw TagSuite_eq in He. apply Ok_inj in Hd as <-. apply Ok_inj in He as <-. rw Hget in Hk. rw Hget in Hp.
  assert (Hload : loadSecretKey os (out +:+ ".key")
    (<[out +:+ ".pub" := mkFile (new_mode os 420 (fs !! (out +:+ ".pub"))) (encodeLine (be_put 2 (s_ID s) ++ pk))]>
       (<[out +:+ ".key" := mkFile (new_mode os 384 (fs !! (out +:+ ".key"))) (encodeLine (be_put 2 (s_ID s) ++ seed))]> fs))
    = Ok kp).
  { unfold loadSecretKey, ReadFile. rw Hread lookup_insert_ne; [intros E; by apply (key_ne_pub out)|].
    rw lookup_insert_eq. cbn [negb obind f_data]. rw tagged_line // Hk Hparse //. }
  exists s, kp, seed, (be_put 2 (s_ID s) ++ pk), (mkFile (new_mode os 420 (fs !! (out +:+ ".pub"))) (encodeLine (be_put 2 (s_ID s) ++ pk))).
  split_and!; [done | done | done | by rw lookup_insert_eq | by apply tagged_line | by rw Hp | |].
  - intros path H1 H2. by rw !lookup_insert_ne.
  - intros rnd' out' force' name' fs'' lines' H'. rw (runKeygen_derive _ _ _ _ _ _ _ _ _ kp pk _ H' Hload Hpk); [by destruct out|].
    by rw Hsuite.
Qed.

(** An operating system on which everything works. *)
Definition example_os : OSEnv := mkOSEnv 18 (fun _ => false) (fun _ => false) (fun _ => None) (fun _ => false).
Definition example_seed : Draws := fun _ => Some (replicate 32 7).

Definition succeeds {E A} (o : outcome E A) : bool := match o with Ok _ => true | _ => false end.

Lemma succeeds_run {S E A} (r : S * outcome E A) : succeeds r.2 = true -> exists s a, r = (s, Ok a).
Proof. destruct r as [s [a|e|]]; [by eauto|done..]. Qed.

Lemma keygen_roundtrip_witness : exists fs' lines kp,
  runKeygen (P := toy) (K := toyKEM) example_os example_seed "edge" false "" "x-wing" ∅ = (fs', Ok lines) /\
  loadSecretKey (P := toy) (K := toyKEM) example_os "edge.key" fs' = Ok kp /\ KeyPair_Suite kp = SuiteXWing.
Proof.
  destruct (succeeds_run (runKeygen (P := toy) (K := toyKEM) example_os example_seed "edge" false "" "x-wing" ∅))
    as (fs' & lines & E); [vm_compute; reflexivity|].
  destruct (keygen_roundtrip toy toy_laws toyKEM toyKEM_laws toyKEM_bytes example_os example_seed "edge" false "x-wing" ∅ fs' lines)
    as (s & kp & seed & pin & f & Hs & Hg & Hload & _).
  - intros i b [= <-]. by apply is_bytesb_ok.
  - reflexivity.
  - exact E.
  - exists fs', lines, kp. split; [exact E|]. split; [exact Hload|].
    apply Ok_inj in Hs. subst s. vm_compute in Hg. injection Hg as <- _. reflexivity.
Defined.

(** A later state of the files that still has every file of an earlier one. *)
Definition grows (fs fs' : FS) : Prop := fs ⊆ fs'.

#[export] Instance grows_preorder : PreOrder grows.
Proof. split; [by intros fs | by intros a b c ?; etrans]. Qed.

Lemma writeFile_grows os path data perm : keeps grows (writeFile os path data perm false).
Proof. intros fs. apply map_subseteq_spec. intros p f. apply writeFile_keeps. Qed.

Lemma runKeygen_grows {P : Primitives} {K : KEMPrimitives} os rnd out pubFrom name :
  keeps grows (runKeygen os rnd out false pubFrom name).
Proof.
  unfold runKeygen. repeat (keeps_step || apply writeFile_grows).
Qed.

(** [keygen] never destroys a key by accident: without [--force], whatever is asked for and
    whatever fails on the way, every file that existed keeps its contents and its mode. *)
Theorem keygen_never_clobbers (P : Primitives) (K : KEMPrimitives) os rnd out pubFrom name fs path f :
  fs !! path = Some f -> (runKeygen os rnd out false pubFrom name fs).1 !! path = Some f.
Proof. apply map_subseteq_spec, runKeygen_grows. Qed.

Definition example_files : FS := {[ "edge.key" := mkFile 420 [1; 2; 3] ]}.

Lemma keygen_never_clobbers_witness :
  (runKeygen (P := toy) (K := toyKEM) example_os example_seed "edge" false "" "x-wing" example_files).1 !! "edge.key" =
    Some (mkFile 420 [1; 2; 3]).
Proof. apply (keygen_never_clobbers toy toyKEM). reflexivity. Defined.

(** [keygen --force] does not make a secret private: when it succeeds over a secret file that
    existed, the new seed is in that file under the file's old mode, readable by others or not,
    while the report says it is kept with mode 0600; only a file that did not exist gets that mode,
    less the umask. *)
Theorem keygen_force_keeps_mode (P : Primitives) (K : KEMPrimitives) os rnd out name fs fs' lines :
  runKeygen os rnd out true "" name fs = (fs', Ok lines) ->
  f_mode <$> fs' !! (out +:+ ".key") =
    Some (from_option f_mode (Z.land 384 (Z.lnot (umask os))) (fs !! (out +:+ ".key"))) /\
  ("  Secret seed:  " +:+ (out +:+ ".key") +:+ "  (keep private, mode 0600)") ∈ lines.
Proof.
  intros H. destruct (runKeygen_new _ _ _ _ _ _ _ _ H) as (s & kp & seed & pk & _ & _ & _ & Hfs). split.
  - rw Hfs lookup_insert_ne; [intros E; by apply (key_ne_pub out)|]. by rw lookup_insert_eq.
  - unfold runKeygen in H. rw bool_decide_eq_true_2 // in H. cbn [negb] in H.
    do 6 (apply st_bind_inv in H as (? & ? & _ & H); repeat case_match). injection H as _ <-.
    apply list_elem_of_further, list_elem_of_here.
Qed.

Lemma keygen_force_keeps_mode_witness : exists fs' lines,
  runKeygen (P := toy) (K := toyKEM) example_os example_seed "edge" true "" "x-wing" example_files = (fs', Ok lines) /\
  f_mode <$> fs' !! "edge.key" = Some 420.
Proof.
  destruct (succeeds_run (runKeygen (P := toy) (K := toyKEM) example_os example_seed "edge" true "" "x-wing" example_files))
    as (fs' & lines & E); [vm_compute; reflexivity|].
  exists fs', lines. split; [exact E|].
  exact (proj1 (keygen_force_keeps_mode toy toyKEM example_os example_seed "edge" "x-wing" example_files fs' lines E)).
Defined.

(** * The other commands *)

(** Every level the tool accepts is the one the library reads from the same word. *)
Lemma parseLogLevel_ParseLevel : let words := ["debug"; "Info"; "WARN"; "Warning"; "error"; "silent"; "off"; "none"] in
  parseLogLevel <$> words = (fun s => Ok (ParseLevel s)) <$> words.
Proof. vm_compute. reflexivity. Qed.

(** Nothing global changes when the level or the format is not understood. *)
Lemma setup_rejects otel now level format tracing g e :
  parseLogLevel level = Err e \/ (exists l, parseLogLevel level = Ok l /\ parseLogFormat format = Err e) ->
  setupObservability otel now level format tracing g = (g, Err e).
Proof.
  unfold setupObservability. intros [-> |(l & -> & ->)]; [|done]. done.
Qed.

Lemma main_version : main "" "unknown" "abc" ["version"] =
  (PrintVersion ["quantum-tunnel version v0.0.14"; "Commit: abc"], Some 0).
Proof. vm_compute. reflexivity. Qed.
